(* ===== verification/_CoqProject ===== *)
-Q . S2P
Prelude.v
Monad.v
Float64.v
Triples.v
Model.v
Ledger.v
Balances.v
Fees.v
Solvers.v
Settlement.v
Storage.v
Markets.v
Oracle.v
Risk.v
Auction.v
Intents.v
RiskCorrect.v
IntentsCorrect.v
Workers.v
SettlementCorrect.v
WorkersCorrect.v
Solana.v
HtlcProgram.v
HtlcProgramCorrect.v
SettlementProgram.v
SettlementProgramCorrect.v
Bytes.v
Text.v
Breaker.v
Rlp.v
RlpCorrect.v
Abi.v
Wormhole.v
WormholeCorrect.v
LayerZero.v
CalldataCorrect.v
Rpc.v
HtlcSwaps.v
HtlcSwapsCorrect.v
Bridges.v
CrossChain.v
CrossChainCorrect.v
HtlcWorker.v
Twap.v
TwapCorrect.v
Positions.v
RateLimit.v
Base58.v
SolanaTx.v
SolanaTxCorrect.v
EthSign.v
Chain.v
Ethereum.v
EthereumCorrect.v
SolanaAdapter.v
Wallet.v
WalletCorrect.v
Access.v
Strings.v
Http.v
Rbac.v
ApiKeys.v
Jwt.v
JwtCorrect.v
Users.v
Guards.v
GuardsCorrect.v
AccessCorrect.v
Verify.v
VerifyCorrect.v
Streams.v
StreamsCorrect.v
MarketData.v
Guardian.v
Feed.v
Api.v
Chaos.v
Pipeline.v
Tickets.v
Operations.v
