(* ===== verification/Prelude.v ===== *)
(** * IntentX: a verification library for the trading back end

    IntentX is an intent-based, cross-chain trading platform.  A user states an
    intent (sell this much of one token for at least that much of another);
    solvers bid in an auction; the winning bids become fills, fills become
    executions, and executions are settled against internal balances.  Funds
    that live on other chains move through bridges (Wormhole, LayerZero) or
    through hash-time-locked contracts.  This library models the back end under
    [src/src] (Rust, tokio, sqlx on Postgres, Redis) and the two on-chain
    programs under [src/programs] (Solana, Anchor), and proves what makes them
    correct, or shows what they do instead where they are not.

    ** How the parts interact

    [services/intent_service.rs] checks an intent with [risk/service.rs], which
    reads [markets] and the prices [oracle/service.rs] stored, locks the amount
    in [balances] and publishes [IntentCreated].  [engine/auction_engine.rs]
    collects the bids of [services/bid_service.rs] and writes the fills;
    [engine/execution_engine.rs] turns them into executions and asks for their
    settlement; [settlement/worker.rs] calls [settlement/engine.rs], which
    posts to [balances] and to the [ledger], pays the fees of
    [fees/service.rs] and counts for [solver_reputation/stats.rs]; what fails
    goes to [settlement/retry.rs].  [workers/] expires intents and triggers
    stop orders.  [cross_chain/service.rs] keeps the legs of a settlement over
    two chains and [cross_chain/worker.rs] drives them through the adapters of
    [wormhole.rs] and [layerzero.rs], which talk to nodes over HTTP behind
    [circuit_breaker.rs]; [cross_chain/htlc] does the same for atomic swaps.
    The on-chain programs share no code with the back end.

    Requests reach the services through the gateway ([gateway/]) and the layers
    in front of the routes ([auth], [csrf], [idempotency], [signing], [rbac],
    [api_keys]); tokens are signed by keys that [auth/key_rotation.rs] rotates.
    Besides the event bus there are the streams of [db/stream_bus.rs] and the
    WebSocket feeds of [ws/].  [Pipeline] puts the trading path together.

    ** Foundations

    - [Prelude]: results, machine integers with their wrap-around, the tactics
      and the lemmas on lists, sums and integers that the rest shares.
    - [Monad]: the effect monad of an [async fn] with database statements
      ([Exec] is a function from tables and outside decisions to a result and
      tables), transactions with roll-back, errors as values, loops over rows,
      the tactics that run a computation and the lemmas on what a computation
      may change.  An outside failure can strike at every statement.
    - [Triples]: Hoare triples over that monad, for invariants of loops that
      swallow errors, preorders that computations respect, and the tactics
      [respects] and [maintain] that follow the code down to its statements.
    - [Float64]: binary64 and the bounds on its rounding the fees need.
    - [Model]: the structs and enums of the source and the tables, [CoreDb].
    - [Bytes], [Text], [Strings]: big-endian integers, slices that may be out
      of range, decimal text, splitting, joining and UTF-8.
    - [Rpc]: HTTP, timers, randomness and JSON behind a record, [Network].
    - [Solana]: the chain the on-chain programs run on, as a class with laws,
      and an instance that satisfies them.

    ** Trading: which file models what, and what is proved

    - [Ledger] ([ledger/]), [Balances] ([balances/], [cache/]): every operation
      of repository and service.  Each balance write refines a posting on an
      abstract account; available plus locked stays what the ledger entries
      add up to; an operation is refused exactly when it is not covered.
    - [Fees] ([fees/service.rs]): bounds of the split in floating point.
    - [Solvers] ([solver_reputation/]): registry, reputation, counters.
    - [Settlement] ([settlement/{engine,retry,worker}.rs]), proved in
      [SettlementCorrect]: a settled fill or trade makes exactly the postings
      and ledger bookings of its specification, conserves every asset's
      supply and is settled once; a retry never settles.
    - [Storage] ([db/]), [Markets] ([markets/]), [Oracle] ([oracle/]).
    - [Risk] ([risk/]), [Intents] ([services/]), proved in [RiskCorrect] and
      [IntentsCorrect]: an accepted intent reserves exactly its amount and
      stays within its user's limits, a refused one changes nothing;
      amendments move the difference; cancelling undoes creating.
    - [Auction] ([engine/auction_engine.rs]): fills follow the ranked bids.
    - [Workers] ([engine/execution_engine.rs], [workers/]), proved in
      [WorkersCorrect]: expiry releases once, a stop order triggers once,
      and no execution is ever settled (a flaw of the code).
    - [Pipeline]: calls, the loops of the two engines and the workers as one
      step relation over the shared tables and buses.  In every reachable world
      the rows are well formed, and no money has changed hands (a flaw).
    - [Tickets]: what the auctions of that platform add up to: each new intent
      is a ticket to one auction, and no intent is filled beyond its amount as
      long as no outside call fails.
    - [Twap] ([twap/]), proved in [TwapCorrect]: the schedule adds up to the
      order, slices are submitted once, when due and while the order is
      active; cancelling through the API leaves funds locked (a flaw).
    - [Positions] ([solver/positions.rs]): the profit of a long-only solver is
      its cash, up to the rounding of the average price.
    - [RateLimit] ([gateway/rate_limit.rs]): the window, and that it never
      limits anything with the replies the client library hands over (a flaw).
    - [Streams] ([db/stream_bus.rs]), proved in [StreamsCorrect] over histories
      with crashes: events are handled in order and at most once, and those in
      flight when a consumer dies are lost (a flaw).
    - [MarketData] ([market_data/]): candles partition their window; the order
      book is always crossed (a flaw).
    - [Feed] ([ws/]): the tasks of a connection under any interleaving.
    - [Verify] ([chaos/verify.rs]), proved in [VerifyCorrect]: its verdict is
      its specification, which a reconciled platform fails (a flaw).
    - [Chaos] ([chaos/{faults,engine,report}.rs]): faults are switched off again.
    - [Operations] ([health/], [config/settings.rs], [bin/], [wallet/signing.rs],
      [db/redis.rs]): health checks, defaults, the load test, the solver bot,
      the keys of wallets and the channels of the bus.

    ** Access: which file models what, and what is proved

    - [Access]: the tables of users, roles and keys, Redis keys with an expiry,
      and the memory of a process; [Http]: requests, responses and handlers.
    - [Rbac] ([rbac/]), [ApiKeys] ([api_keys/]): a token grants what the tables
      grant; a key works until its user revokes it.
    - [Jwt] ([auth/{jwt,key_rotation}.rs]), proved in [JwtCorrect]: a token is
      worth exactly its key, and rotating a key ends its tokens at once (a
      flaw).
    - [Users] ([users/], [accounts/], [auth/handler.rs]): who registers can log
      in.
    - [Guards] ([auth/middleware.rs], [csrf/], [idempotency/], [signing/],
      [gateway/]), proved in [GuardsCorrect]: a request with a used nonce never
      passes, one with an idempotency key runs once; [AccessCorrect]: the layers
      together let nothing through from the gateway to the platform (a flaw).
    - [Api] ([api/], the handlers and routers of the services, [main.rs]): every
      handler with the texts of its errors, and the tables of routes: two of
      them clash, and who may withdraw may withdraw from anyone (flaws).

    ** Chains: which file models what, and what is proved

    - [HtlcProgram], [SettlementProgram] ([programs/]), proved in
      [HtlcProgramCorrect] and [SettlementProgramCorrect] over histories of
      instructions and foreign token movements: an HTLC is paid out once, to
      the right party, and always can be; settlements move what they say; a
      deposit can never come back (a flaw).
    - [Rlp] ([wallet/rlp.rs]), [Abi] ([wallet/erc20_abi.rs]), proved in
      [RlpCorrect] and [CalldataCorrect]: encodings are read back by a
      reference decoder, a signing payload determines its transaction.
    - [Base58] ([wallet/solana_signing.rs]) and [SolanaTx]
      ([wallet/solana_tx.rs], proved in [SolanaTxCorrect]): base 58 is exact in
      both directions; a serialised message is read back as its instructions
      with the privileges they ask for.
    - [EthSign] ([wallet/eth_sign.rs]), proved in the same file over a
      secp256k1 that obeys its laws: what the wallet signs, a reference node
      decodes to the same fields and attributes to the wallet's address.
    - [Chain] ([wallet/{chain,registry}.rs]): the trait of a chain adapter as
      a record of operations; the class [Apart] says what the adapters promise
      the rest of the program: they leave its tables alone.
    - [Ethereum] ([wallet/{rpc,ethereum}.rs]), proved in [EthereumCorrect]: a settlement transaction is the transfer that was
      asked for, fees stay within the bounds of the source, and a transaction
      the node already knows counts as a failure (a flaw).
    - [SolanaAdapter] ([wallet/solana.rs]): the token transfer a settlement asks for, with its accounts.
    - [Wallet] ([wallet/{model,repository,service,confirmation}.rs]), proved in
      [WalletCorrect] against [Apart]: the life cycle of a transaction record
      over submissions and worker cycles, that a dropped transaction is never
      noticed on Ethereum, and how old records starve the worker (flaws).
    - [Breaker] ([circuit_breaker.rs]), under any interleaving: it rejects exactly while open and cuts an outage off after
      its threshold.
    - [Wormhole], [LayerZero] and the adapters in [Bridges]
      ([cross_chain/{wormhole,layerzero,bridge,bridge_registry}.rs]), proved in
      [WormholeCorrect], [CalldataCorrect] and [Bridges]: a release
      rests on a quorum of distinct guardians.
    - [Guardian] ([cross_chain/mock_guardian.rs]): the server the bridge is
      tested against, with its injected failures.
    - [CrossChain] ([cross_chain/{model,service,worker}.rs]), [HtlcSwaps] and
      [HtlcWorker] ([cross_chain/htlc]), proved in [CrossChainCorrect],
      [HtlcSwapsCorrect] and [HtlcWorker]: the edges of the state
      machines, the refund of expired swaps, and that the workers never
      complete a settlement or claim a swap, because the identifiers they make
      are none a bridge can parse.  The workers are proved against the classes
      [Isolated] and [Strict] of bridges, which the adapters instantiate.

    ** Bounds and fuel

    Integers are [Z] and wrap at the width of the source in release builds
    ([i64], [u64], [i32]); theorems that need no overflow say so as a bound on
    their inputs.  Rows and loops are lists, so loops are structural; polling
    loops count their attempts down as the source counts them up (20, 30 and
    5) and the workers read at most 50 rows a query, as the LIMIT says.  The
    reference decoder of RLP has fuel: twice the length of the input is enough,
    which [rlp_roundtrip] proves, and the reference node of [EthSign] uses
    the same; the carry loops of base 58 have 32 rounds,
    enough for any carry of 32 bits, which [base58_exact] rests on.  Times are whole seconds.

    ** Not modelled

    Metrics, logs and the wait for tasks at shutdown, which only observe; the
    layers of configuration files and variables and the start of the parts in
    [main.rs], apart from its table of routes; the maintenance of partitions,
    whose procedures live in the database; the users and the pace of the load
    test; module files.  SQL is modelled by what each statement does to a
    table; rows a statement touches in parallel transactions are not
    interleaved except where a file says so ([Breaker], [HtlcSwaps], [Streams],
    [Feed], [Chaos]); in [Pipeline] whole operations interleave.  Redis,
    Postgres, [serde_json], [reqwest], hashes, signature schemes, ciphers and
    random numbers are parameters, or do what their documentation says where a
    file needs it.

    ** Plan

    What the source computes is modelled.  What is left is finer interleaving:
    the statements of [close_auction] and of [amend_intent] one by one, for
    which [Tickets] takes each as one step. *)
From stdpp Require Export prelude list strings sorting.
#[export] Set Default Goal Selector "!".

(** ** Results: Rust's [Result<A, E>] *)

Inductive result (A E : Type) : Type :=
| Ok (a : A)
| Err (e : E).
Arguments Ok {A E} a.
Arguments Err {A E} e.
#[export] Instance result_eq_dec {A E} `{EqDecision A, EqDecision E} : EqDecision (result A E).
Proof. solve_decision. Defined.

Definition is_ok {A E} (r : result A E) : bool :=
  match r with Ok _ => true | Err _ => false end.

(** ** Machine integers

    An [iN]/[uN] of the source is a [Z]; the arithmetic operators of the
    release profile (the Cargo manifest sets no [overflow-checks]) wrap.
    [saturating_*] methods saturate, [checked_*] methods return an option. *)

Definition wrap_s (w z : Z) : Z := (z + 2 ^ (w - 1)) `mod` 2 ^ w - 2 ^ (w - 1).
Definition wrap_u (w z : Z) : Z := z `mod` 2 ^ w.

Definition i64_min : Z := - 2 ^ 63.
Definition i64_max : Z := 2 ^ 63 - 1.
Definition u64_max : Z := 2 ^ 64 - 1.
Definition i32_max : Z := 2 ^ 31 - 1.

Definition in_i64 (z : Z) : Prop := (i64_min ≤ z ≤ i64_max)%Z.
Definition in_u64 (z : Z) : Prop := (0 ≤ z ≤ u64_max)%Z.
Definition in_i64b (z : Z) : bool := (i64_min <=? z)%Z && (z <=? i64_max)%Z.

Definition i64 (z : Z) : Z := wrap_s 64 z.
Definition i32 (z : Z) : Z := wrap_s 32 z.
Definition u64 (z : Z) : Z := wrap_u 64 z.
Definition u32 (z : Z) : Z := wrap_u 32 z.
Definition u8 (z : Z) : Z := wrap_u 8 z.

Declare Scope rust_scope.
Delimit Scope rust_scope with rust.
Notation "a +i b" := (i64 (a + b)) (at level 50, left associativity) : rust_scope.
Notation "a -i b" := (i64 (a - b)) (at level 50, left associativity) : rust_scope.
Notation "a *i b" := (i64 (a * b)) (at level 40, left associativity) : rust_scope.

Definition i64_saturating_sub (a b : Z) : Z := (i64_min `max` (i64_max `min` (a - b)))%Z.
Definition u64_checked_add (a b : Z) : option Z :=
  if (a + b <=? u64_max)%Z then Some (a + b)%Z else None.
Definition u64_checked_sub (a b : Z) : option Z :=
  if (b <=? a)%Z then Some (a - b)%Z else None.

(** Postgres BIGINT arithmetic does not wrap: out of range is an error. *)
Definition bigint (z : Z) : option Z := if in_i64b z then Some z else None.

Lemma wrap_s_id w z : (0 < w)%Z → (- 2 ^ (w - 1) ≤ z < 2 ^ (w - 1))%Z → wrap_s w z = z.
Proof.
  intros Hw Hz. unfold wrap_s.
  assert (2 ^ w = 2 * 2 ^ (w - 1))%Z as E.
  { rewrite <- Z.pow_succ_r by lia. f_equal. lia. }
  rewrite Z.mod_small; lia.
Qed.

Lemma wrap_s_range w z :
  (0 < w)%Z → (- 2 ^ (w - 1) ≤ wrap_s w z < 2 ^ (w - 1))%Z.
Proof.
  intros Hw. unfold wrap_s.
  assert (2 ^ w = 2 * 2 ^ (w - 1))%Z as E.
  { rewrite <- Z.pow_succ_r by lia. f_equal. lia. }
  assert (0 < 2 ^ (w - 1))%Z by (apply Z.pow_pos_nonneg; lia).
  pose proof (Z.mod_pos_bound (z + 2 ^ (w - 1)) (2 ^ w)). lia.
Qed.

Lemma i64_id z : in_i64 z → i64 z = z.
Proof.
  unfold in_i64, i64_min, i64_max, i64. intros H. apply wrap_s_id; [lia|].
  change (2 ^ (64 - 1))%Z with (2 ^ 63)%Z. lia.
Qed.

Lemma i64_range z : in_i64 (i64 z).
Proof.
  unfold in_i64, i64_min, i64_max, i64. pose proof (wrap_s_range 64 z).
  change (2 ^ (64 - 1))%Z with (2 ^ 63)%Z in *. lia.
Qed.

Lemma in_i64b_spec z : in_i64b z = true ↔ in_i64 z.
Proof. unfold in_i64b, in_i64. rewrite andb_true_iff, !Z.leb_le. done. Qed.

Lemma in_i64_iff z : in_i64 z ↔ (-9223372036854775808 ≤ z ≤ 9223372036854775807)%Z.
Proof. done. Qed.

Lemma bigint_Some z y : bigint z = Some y ↔ in_i64 z ∧ y = z.
Proof.
  unfold bigint. destruct (in_i64b z) eqn:E.
  - apply in_i64b_spec in E. naive_solver.
  - split; [done|]. intros [H _]. apply in_i64b_spec in H. congruence.
Qed.

#[global] Arguments i64 : simpl never.
#[global] Arguments u64 : simpl never.
#[global] Arguments in_i64 : simpl never.
#[global] Arguments bigint : simpl never.
Ltac i64_lia := rewrite ?in_i64_iff in *; lia.

(** ** Lists *)

(** Sum of a weight over the rows of a table (SQL's [SUM]). *)
Definition sum_by {R} (w : R → Z) (t : list R) : Z := foldr (λ r acc, w r + acc)%Z 0%Z t.

Lemma sum_by_app {R} (w : R → Z) t1 t2 :
  sum_by w (t1 ++ t2) = (sum_by w t1 + sum_by w t2)%Z.
Proof. induction t1 as [|r t1 IH]; simpl; [done|]. lia. Qed.

Lemma sum_by_map_id {R} (w : R → Z) (f : R → R) t :
  (∀ r, r ∈ t → w (f r) = w r) → sum_by w (map f t) = sum_by w t.
Proof.
  induction t as [|r t IH]; intros H; simpl; [done|].
  rewrite H by left. rewrite IH; [done|]. intros r' Hr'. apply H. by right.
Qed.

Lemma sum_by_nonneg {R} (w : R → Z) t :
  (∀ r, r ∈ t → 0 ≤ w r)%Z → (0 ≤ sum_by w t)%Z.
Proof.
  induction t as [|r t IH]; intros H; simpl; [done|].
  pose proof (H r (list_elem_of_here _ _)). enough (0 ≤ sum_by w t)%Z by lia.
  apply IH. intros r' Hr'. apply H. by right.
Qed.

Lemma sum_by_elem_le {R} (w : R → Z) t r :
  (∀ r, r ∈ t → 0 ≤ w r)%Z → r ∈ t → (w r ≤ sum_by w t)%Z.
Proof.
  induction t as [|r' t IH]; intros H Hr; [by apply not_elem_of_nil in Hr|]; simpl.
  assert (∀ r, r ∈ t → 0 ≤ w r)%Z as H' by (intros; apply H; by right).
  pose proof (sum_by_nonneg w t H'). pose proof (H r' (list_elem_of_here _ _)).
  apply elem_of_cons in Hr as [->|Hr]; [lia|]. specialize (IH H' Hr). lia.
Qed.

Lemma sum_by_elem2_le {R} (w : R → Z) t r1 r2 :
  (∀ r, r ∈ t → 0 ≤ w r)%Z → r1 ∈ t → r2 ∈ t → r1 ≠ r2 → (w r1 + w r2 ≤ sum_by w t)%Z.
Proof.
  induction t as [|r t IH]; intros H H1 H2 Hne; [by apply not_elem_of_nil in H1|]; simpl.
  assert (∀ r, r ∈ t → 0 ≤ w r)%Z as H' by (intros; apply H; by right).
  pose proof (sum_by_elem_le w t) as Hle. pose proof (H r (list_elem_of_here _ _)).
  apply elem_of_cons in H1 as [->|H1], H2 as [->|H2]; [done|..].
  - specialize (Hle r2 H' H2). lia.
  - specialize (Hle r1 H' H1). lia.
  - specialize (IH H' H1 H2 Hne). lia.
Qed.

(** ** Tables: the SQL statements of the source over lists of rows

    A table is the list of its rows.  [UPDATE .. SET f WHERE p] maps [f]
    over the rows that satisfy [p]; its [rows_affected] counts them. *)

Definition sql_update {R} (p : R → bool) (f : R → R) (t : list R) : list R :=
  map (λ r, if p r then f r else r) t.
Definition sql_select {R} (p : R → bool) (t : list R) : list R :=
  List.filter p t.
Definition sql_one {R} (p : R → bool) (t : list R) : option R := head (sql_select p t).
Definition sql_delete {R} (p : R → bool) (t : list R) : list R :=
  List.filter (λ r, negb (p r)) t.
Definition rows_affected {R} (p : R → bool) (t : list R) : nat := length (sql_select p t).

Lemma sql_one_Some {R} (p : R → bool) t r : sql_one p t = Some r → r ∈ t ∧ p r = true.
Proof.
  unfold sql_one, sql_select. intros H. apply head_Some_elem_of in H.
  apply list_elem_of_In, filter_In in H as [H1 H2]. by rewrite list_elem_of_In.
Qed.

Lemma sql_one_None {R} (p : R → bool) t r : sql_one p t = None → r ∈ t → p r = false.
Proof.
  unfold sql_one, sql_select. intros H Hr. apply list_elem_of_In in Hr.
  destruct (p r) eqn:E; [|done]. exfalso.
  assert (In r (List.filter p t)) as HI by (by apply filter_In).
  by destruct (List.filter p t).
Qed.

Lemma elem_of_sql_select {R} (p : R → bool) t r : r ∈ sql_select p t ↔ r ∈ t ∧ p r = true.
Proof. unfold sql_select. rewrite !list_elem_of_In. apply filter_In. Qed.

Lemma NoDup_map_select {R K} (k : R → K) (p : R → bool) t :
  NoDup (map k t) → NoDup (map k (sql_select p t)).
Proof.
  induction t as [|r t IH]; intros Hnd; simpl in *; [constructor|].
  apply NoDup_cons in Hnd as [Hr Hnd]. destruct (p r); simpl; [|auto].
  apply NoDup_cons. split; [|auto]. intros (r' & Hk & Hr')%list_elem_of_In%in_map_iff.
  apply Hr. rewrite <- Hk. apply list_elem_of_In, in_map, (filter_In p), Hr'.
Qed.

Lemma rows_affected_one {R} (p : R → bool) t :
  rows_affected p t = 0%nat ↔ sql_one p t = None.
Proof. unfold rows_affected, sql_one. destruct (sql_select p t); naive_solver. Qed.

Lemma rows_affected_Some {R} (p : R → bool) t r :
  r ∈ t → p r = true → rows_affected p t ≠ 0%nat.
Proof.
  intros Hr Hp H. apply rows_affected_one in H. eapply sql_one_None in H; [|done]. congruence.
Qed.

Lemma map_sql_update {R K} (k : R → K) (p : R → bool) f t :
  (∀ r, k (f r) = k r) → map k (sql_update p f t) = map k t.
Proof.
  intros H. unfold sql_update. rewrite map_map. apply map_ext.
  intros r. by destruct (p r).
Qed.

Lemma elem_of_sql_update {R} (p : R → bool) f t r :
  r ∈ sql_update p f t ↔
    ∃ r0, r0 ∈ t ∧ r = (if p r0 then f r0 else r0).
Proof.
  unfold sql_update. rewrite list_elem_of_In, in_map_iff.
  setoid_rewrite list_elem_of_In. naive_solver.
Qed.

Lemma elem_of_map {R K} (k : R → K) t r : r ∈ t → k r ∈ map k t.
Proof. rewrite !list_elem_of_In. apply in_map. Qed.

(** With a unique key [k], updating the row [r] moves exactly its weight. *)
Lemma sum_by_update_unique {R} {K} (k : R → K) (w : R → Z) (p : R → bool) f t r :
  NoDup (map k t) → r ∈ t → p r = true → (∀ r', r' ∈ t → p r' = true → k r' = k r) →
  sum_by w (sql_update p f t) = (sum_by w t - w r + w (f r))%Z.
Proof.
  intros Hnd Hr Hp Huniq. induction t as [|r' t IH]; [by apply not_elem_of_nil in Hr|].
  simpl in Hnd. apply NoDup_cons in Hnd as [Hnotin Hnd].
  apply elem_of_cons in Hr as [->|Hr]; simpl.
  - rewrite Hp. unfold sql_update. rewrite sum_by_map_id; [lia|].
    intros r2 Hr2. destruct (p r2) eqn:E; [|done]. exfalso. apply Hnotin.
    rewrite <- (Huniq r2); [by apply elem_of_map|by right|done].
  - destruct (p r') eqn:E.
    + exfalso. apply Hnotin. rewrite (Huniq r'); [by apply elem_of_map|by left|done].
    + rewrite <- Z.add_sub_assoc. unfold sql_update in *.
      rewrite IH; [lia|done|done|]. intros r2 Hr2. apply Huniq. by right.
Qed.

Lemma NoDup_map_inj {R K} (k : R → K) t r1 r2 :
  NoDup (map k t) → r1 ∈ t → r2 ∈ t → k r1 = k r2 → r1 = r2.
Proof.
  induction t as [|r t IH]; intros Hnd H1 H2 Hk; [by apply not_elem_of_nil in H1|].
  simpl in Hnd. apply NoDup_cons in Hnd as [Hnotin Hnd].
  pose proof (elem_of_map k t) as Hmap.
  apply elem_of_cons in H1 as [->|H1], H2 as [->|H2].
  - done.
  - exfalso. apply Hnotin. rewrite Hk. auto.
  - exfalso. apply Hnotin. rewrite <- Hk. auto.
  - auto.
Qed.

Lemma sql_one_unique {R K} (k : R → K) (p : R → bool) t r :
  NoDup (map k t) → (∀ r', r' ∈ t → p r' = true → k r' = k r) → r ∈ t → p r = true →
  sql_one p t = Some r.
Proof.
  intros Hnd Hu Hr Hp. destruct (sql_one p t) as [r'|] eqn:E.
  - apply sql_one_Some in E as [Hr' Hp']. f_equal.
    eapply NoDup_map_inj; eauto.
  - eapply sql_one_None in E; [|done]. congruence.
Qed.

Lemma sql_one_map {R} (q : R → bool) (g : R → R) t :
  (∀ r, q (g r) = q r) → sql_one q (map g t) = g <$> sql_one q t.
Proof.
  intros H. unfold sql_one, sql_select. induction t as [|r t IH]; simpl; [done|].
  rewrite H. destruct (q r); simpl; [done|]. apply IH.
Qed.

Lemma sql_one_app {R} (q : R → bool) t1 t2 :
  sql_one q (t1 ++ t2) = match sql_one q t1 with Some r => Some r | None => sql_one q t2 end.
Proof.
  unfold sql_one, sql_select. rewrite List.filter_app.
  by destruct (List.filter q t1).
Qed.

Lemma existsb_false_elem {R} (q : R → bool) t r :
  existsb q t = false → r ∈ t → q r = false.
Proof.
  intros H Hr. destruct (q r) eqn:E; [|done]. exfalso.
  apply list_elem_of_In in Hr. apply Bool.diff_false_true. rewrite <- H.
  apply existsb_exists. eauto.
Qed.

Lemma existsb_true_elem {R} (q : R → bool) t :
  existsb q t = true → ∃ r, r ∈ t ∧ q r = true.
Proof. intros (r & Hr & Hq)%existsb_exists. exists r. by rewrite list_elem_of_In. Qed.

Lemma elem_of_forallb {R} (q : R → bool) (t : list R) :
  forallb q t = true → ∀ r, r ∈ t → q r = true.
Proof. rewrite forallb_forall. intros H r Hr. apply H. by apply list_elem_of_In. Qed.

Lemma NoDup_map_snoc {R K} (k : R → K) t r :
  NoDup (map k t) → (∀ r', r' ∈ t → k r' ≠ k r) → NoDup (map k (t ++ [r])).
Proof.
  intros Hnd Hnew. rewrite map_app. simpl. apply NoDup_app. split_and!.
  - done.
  - intros x Hx Hx'. apply list_elem_of_singleton in Hx' as ->.
    apply list_elem_of_In, in_map_iff in Hx as (r' & Hk & Hr').
    apply (Hnew r'); [by apply list_elem_of_In|done].
  - apply NoDup_singleton.
Qed.

(** ** Tables that grow and whose rows move: row by row, in order *)

Definition rows_le {R} (S : R → R → Prop) (t t' : list R) : Prop :=
  ∀ i r, t !! i = Some r → ∃ r', t' !! i = Some r' ∧ S r r'.

Lemma rows_le_refl {R} (S : R → R → Prop) `{!Reflexive S} t : rows_le S t t.
Proof. intros i r Hr. by exists r. Qed.
Lemma rows_le_trans {R} (S : R → R → Prop) `{!Transitive S} t1 t2 t3 :
  rows_le S t1 t2 → rows_le S t2 t3 → rows_le S t1 t3.
Proof.
  intros H1 H2 i r Hr. destruct (H1 _ _ Hr) as (r2 & Hr2 & HS). destruct (H2 _ _ Hr2) as (r3 & ? & ?).
  exists r3. split; [done|]. by etrans.
Qed.
Lemma rows_le_mono {R} (S S' : R → R → Prop) t t' :
  (∀ r r', S r r' → S' r r') → rows_le S t t' → rows_le S' t t'.
Proof. intros H Ht i r Hr. destruct (Ht _ _ Hr) as (r' & ? & ?). eauto. Qed.
Lemma rows_le_app {R} (S : R → R → Prop) `{!Reflexive S} t u : rows_le S t (t ++ u).
Proof. intros i r Hr. exists r. split; [by apply lookup_app_l_Some|done]. Qed.
Lemma rows_le_update {R} (S : R → R → Prop) `{!Reflexive S} (p : R → bool) f t :
  (∀ r, r ∈ t → p r = true → S r (f r)) → rows_le S t (sql_update p f t).
Proof.
  intros H i r Hr. exists (if p r then f r else r). split.
  - pose proof (list_lookup_fmap (λ r, if p r then f r else r) t i) as E. rewrite Hr in E. exact E.
  - destruct (p r) eqn:E; [|done]. apply H; [|done]. by eapply list_elem_of_lookup_2.
Qed.

(** ** Sorting: [slice::sort_by] and [ORDER BY]

    [le x y = false] puts [x] after [y]; elements that compare equal keep their
    order, as Rust's stable sort does. *)
Lemma Sorted_weaken {R} (P Q : R → R → Prop) l :
  (∀ x y, P x y → Q x y) → Sorted P l → Sorted Q l.
Proof.
  intros H. induction 1 as [|x l Hl IH Hhd]; constructor; [done|].
  destruct Hhd; constructor. auto.
Qed.

Section sorting.
Context {R : Type} (le : R → R → bool).

Fixpoint insert_by (x : R) (l : list R) : list R :=
  match l with
  | [] => [x]
  | y :: l' => if le x y then x :: l else y :: insert_by x l'
  end.
Definition sort_by (l : list R) : list R := foldr insert_by [] l.

Lemma insert_by_perm x l : insert_by x l ≡ₚ x :: l.
Proof.
  induction l as [|y l IH]; simpl; [done|]. destruct (le x y); [done|].
  rewrite IH. apply Permutation_swap.
Qed.

Lemma sort_by_perm l : sort_by l ≡ₚ l.
Proof. induction l as [|x l IH]; simpl; [done|]. by rewrite insert_by_perm, IH. Qed.

Lemma elem_of_sort_by l x : x ∈ sort_by l ↔ x ∈ l.
Proof. by rewrite sort_by_perm. Qed.

Lemma length_sort_by l : length (sort_by l) = length l.
Proof. by rewrite sort_by_perm. Qed.

Lemma sort_by_sorted l :
  (∀ x y, le x y = false → le y x = true) → Sorted (λ x y, le x y = true) (sort_by l).
Proof.
  intros Htot. induction l as [|x l IH]; simpl; [constructor|].
  induction IH as [|y l' Hl IH Hhd]; simpl; [by repeat constructor|].
  destruct (le x y) eqn:E.
  - constructor; [by constructor|]. by constructor.
  - constructor; [done|]. destruct Hhd; simpl.
    + constructor. auto.
    + destruct (le x b); constructor; auto.
Qed.

End sorting.

(** An UPDATE one of whose rows the server may refuse (a value out of range). *)
Definition sql_try_update {R} (p : R → bool) (f : R → option R) (t : list R)
  : option (list R) := mapM (λ r, if p r then f r else Some r) t.

Lemma sql_try_update_Some {R} (p : R → bool) (f : R → option R) (g : R → R) t t' :
  sql_try_update p f t = Some t' → (∀ r r', f r = Some r' → g r = r') →
  t' = sql_update p g t.
Proof.
  intros H Hg. apply mapM_Some_1 in H.
  induction H as [|r r' t t' Hr H IH]; simpl; [done|].
  rewrite IH. f_equal. destruct (p r); naive_solver.
Qed.

Lemma sql_try_update_ok {R} (p : R → bool) (f : R → option R) t t' r :
  sql_try_update p f t = Some t' → r ∈ t → p r = true → is_Some (f r).
Proof.
  intros H Hr Hp. apply mapM_Some_1 in H.
  induction H as [|r0 r' t t' Hr0 H IH]; [by apply not_elem_of_nil in Hr|].
  apply elem_of_cons in Hr as [->|Hr]; [|by apply IH]. rewrite Hp in Hr0. eauto.
Qed.

Lemma sql_try_update_total {R} (p : R → bool) (f : R → option R) (t : list R) :
  (∀ r, r ∈ t → p r = true → is_Some (f r)) → is_Some (sql_try_update p f t).
Proof.
  intros H. apply mapM_is_Some_2, Forall_forall. intros r Hr. simpl.
  destruct (p r) eqn:E; [|by eexists]. by apply H.
Qed.
