(* ===== verification/Monad.v ===== *)
(** * The effect monad of the services

    Every service of the back end is an [async fn] that issues database
    statements and returns a [Result].  A computation is a function from the
    environment (the tables, and what the outside world decides) to a result
    and the environment after it. *)
From S2P Require Import Prelude.

(** A UUID is its 128-bit value; [Uuid::nil()] is 0. *)
Abbreviation Uuid := N (only parsing).
Definition nil_uuid : Uuid := 0%N.

(** What [sqlx] reports: an [Io] failure of the connection, a statement the
    server refuses (constraint, out of range), or a driver error. *)
Inductive SqlxError : Type :=
| SqlIo
| SqlDatabase
| SqlRowNotFound
| SqlProtocol (msg : string).

(** The environment: the tables [env_db], the outcomes of the next external
    calls ([true]: the call fails before it takes effect; an empty list: no
    more failures), the values [Uuid::new_v4] will return and how many were
    drawn, and the clock. *)
Record Env (T : Type) : Type := mkEnv {
  env_db : T;
  env_faults : list bool;
  env_uuid : nat → Uuid;
  env_drawn : nat;
  env_now : Z;
}.
Arguments mkEnv {T} _ _ _ _ _.
Arguments env_db {T} _.
Arguments env_faults {T} _.
Arguments env_uuid {T} _.
Arguments env_drawn {T} _.
Arguments env_now {T} _.

Definition with_db {T} (t : T) (e : Env T) : Env T :=
  mkEnv t (env_faults e) (env_uuid e) (env_drawn e) (env_now e).
Definition pop_fault {T} (e : Env T) : Env T :=
  mkEnv (env_db e) (tail (env_faults e)) (env_uuid e) (env_drawn e) (env_now e).
Definition faulty {T} (e : Env T) : bool := default false (head (env_faults e)).

Definition M (T A E : Type) : Type := Env T → result A E * Env T.

Definition ret {T A E} (a : A) : M T A E := λ e, (Ok a, e).
Definition throw {T A E} (x : E) : M T A E := λ e, (Err x, e).
Definition bind {T A B E} (m : M T A E) (k : A → M T B E) : M T B E :=
  λ e, match m e with
       | (Ok a, e') => k a e'
       | (Err x, e') => (Err x, e')
       end.

Declare Scope monad_scope.
Delimit Scope monad_scope with monad.
Notation "'let*' x ':=' m 'in' k" := (bind m (λ x, k))
  (at level 10, x pattern, m at level 100, k at level 200) : monad_scope.
Notation "m ;;; k" := (bind m (λ _, k))
  (at level 100, k at level 200, right associativity) : monad_scope.
Open Scope monad_scope.

(** [m.await.map_err(f)?] *)
Definition map_err {T A E F} (f : E → F) (m : M T A E) : M T A F :=
  λ e, match m e with
       | (Ok a, e') => (Ok a, e')
       | (Err x, e') => (Err (f x), e')
       end.

(** [let _ = m.await;] and [match m.await { .. }]: the result as a value. *)
Definition attempt {T A E F} (m : M T A E) : M T (result A E) F :=
  λ e, let '(r, e') := m e in (Ok r, e').

(** One statement or external call: it can fail for an external reason, or
    be refused ([None]), leaving the tables as they were. *)
Definition stmt {T A} (f : T → option (A * T)) : M T A SqlxError :=
  λ e, let e' := pop_fault e in
       if faulty e then (Err SqlIo, e')
       else match f (env_db e) with
            | Some (a, t) => (Ok a, with_db t e')
            | None => (Err SqlDatabase, e')
            end.

(** A query reads; a command writes and returns nothing. *)
Definition query {T A} (f : T → A) : M T A SqlxError := stmt (λ t, Some (f t, t)).
Definition exec {T} (f : T → T) : M T unit SqlxError := stmt (λ t, Some (tt, f t)).

(** A write to the state of the process, which cannot fail. *)
Definition modify {T E} (f : T → T) : M T unit E := λ e, (Ok tt, with_db (f (env_db e)) e).
Definition reads {T A E} (f : T → A) : M T A E := λ e, (Ok (f (env_db e)), e).

Definition now {T E} : M T Z E := λ e, (Ok (env_now e), e).
Definition new_v4 {T E} : M T Uuid E :=
  λ e, (Ok (env_uuid e (env_drawn e)),
        mkEnv (env_db e) (env_faults e) (env_uuid e) (S (env_drawn e)) (env_now e)).

(** [pool.begin()] .. [tx.commit()]: the body runs inside a transaction that
    an early return rolls back, and whose COMMIT can fail too. *)
Definition transaction {T A E} (of_sqlx : SqlxError → E) (body : M T A E) : M T A E :=
  λ e0,
    match map_err of_sqlx (exec id) e0 with
    | (Err x, e1) => (Err x, e1)
    | (Ok _, e1) =>
        match body e1 with
        | (Err x, e2) => (Err x, with_db (env_db e0) e2)
        | (Ok a, e2) =>
            match map_err of_sqlx (exec id) e2 with
            | (Err x, e3) => (Err x, with_db (env_db e0) e3)
            | (Ok _, e3) => (Ok a, e3)
            end
        end
    end.

(** [for x in xs { body(x).await?; }] *)
Fixpoint mfor {T A E} (xs : list A) (body : A → M T unit E) : M T unit E :=
  match xs with
  | [] => ret tt
  | x :: xs => body x ;;; mfor xs body
  end.

Definition guard {T E} (b : bool) (x : E) : M T unit E := if b then ret tt else throw x.
Definition of_option {T A E} (x : E) (o : option A) : M T A E :=
  match o with Some a => ret a | None => throw x end.

(** ** Inversion: what an [Ok] run went through *)

Section inversion.
Context {T : Type}.
Implicit Types e : Env T.

Lemma bind_Ok {A B E} (m : M T A E) (k : A → M T B E) e b e' :
  bind m k e = (Ok b, e') ↔ ∃ a e1, m e = (Ok a, e1) ∧ k a e1 = (Ok b, e').
Proof.
  unfold bind. destruct (m e) as [[a|x] e1] eqn:Em; split.
  - eauto.
  - intros (a' & e1' & [= -> ->] & H). done.
  - done.
  - intros (? & ? & [=] & _).
Qed.

Lemma ret_Ok {A E} (a b : A) e e' :
  ret (E := E) a e = (Ok b, e') ↔ b = a ∧ e' = e.
Proof. unfold ret. naive_solver. Qed.

Lemma throw_Ok {A E} (x : E) (b : A) e e' : throw x e = (Ok b, e') ↔ False.
Proof. unfold throw. naive_solver. Qed.

Lemma map_err_Ok {A E F} (f : E → F) (m : M T A E) e a e' :
  map_err f m e = (Ok a, e') ↔ m e = (Ok a, e').
Proof. unfold map_err. destruct (m e) as [[?|?] ?]; naive_solver. Qed.

Lemma attempt_Ok {A E F} (m : M T A E) e r e' :
  attempt (F := F) m e = (Ok r, e') → m e = (r, e').
Proof. unfold attempt. destruct (m e); naive_solver. Qed.

Lemma stmt_Ok {A} (f : T → option (A * T)) e a e' :
  stmt f e = (Ok a, e') ↔
    faulty e = false ∧ ∃ t, f (env_db e) = Some (a, t) ∧ e' = with_db t (pop_fault e).
Proof.
  unfold stmt. destruct (faulty e); [naive_solver|].
  destruct (f (env_db e)) as [[? ?]|]; naive_solver.
Qed.

Lemma query_Ok {A} (f : T → A) e a e' :
  query f e = (Ok a, e') ↔ faulty e = false ∧ a = f (env_db e) ∧ e' = pop_fault e.
Proof. unfold query. rewrite stmt_Ok. destruct e. naive_solver. Qed.

Lemma exec_Ok (f : T → T) e a e' :
  exec f e = (Ok a, e') ↔ faulty e = false ∧ e' = with_db (f (env_db e)) (pop_fault e).
Proof. unfold exec. rewrite stmt_Ok. destruct a. naive_solver. Qed.

Lemma modify_Ok {E} (f : T → T) e a e' :
  modify (E := E) f e = (Ok a, e') ↔ e' = with_db (f (env_db e)) e.
Proof. unfold modify. destruct a. naive_solver. Qed.

Lemma reads_Ok {A E} (f : T → A) e a e' :
  reads (E := E) f e = (Ok a, e') ↔ a = f (env_db e) ∧ e' = e.
Proof. unfold reads. naive_solver. Qed.

Lemma now_Ok {E} e a e' : now (E := E) e = (Ok a, e') ↔ a = env_now e ∧ e' = e.
Proof. unfold now. naive_solver. Qed.

Lemma guard_Ok {E} b (x : E) e a e' :
  guard b x e = (Ok a, e') ↔ b = true ∧ e' = e.
Proof. unfold guard, ret, throw. destruct b, a; naive_solver. Qed.

Lemma of_option_Ok {A E} (x : E) (o : option A) e a e' :
  of_option x o e = (Ok a, e') ↔ o = Some a ∧ e' = e.
Proof. unfold of_option, ret, throw. destruct o; naive_solver. Qed.

Lemma transaction_Ok {A E} (g : SqlxError → E) (m : M T A E) e a e' :
  transaction g m e = (Ok a, e') →
  ∃ e2, m (pop_fault e) = (Ok a, e2) ∧ e' = pop_fault e2.
Proof.
  unfold transaction. destruct (map_err g (exec id) e) as [[u|x] e1] eqn:E1; [|done].
  apply map_err_Ok, exec_Ok in E1 as [_ ->].
  destruct (m _) as [[a'|x] e2] eqn:E2; [|done].
  destruct (map_err g (exec id) e2) as [[u'|x] e3] eqn:E3; [|done].
  apply map_err_Ok, exec_Ok in E3 as [_ ->]. intros [= -> <-].
  exists e2. split; [by destruct e|by destruct e2].
Qed.

(** Atomicity: a transaction that fails leaves the tables as they were. *)
Lemma transaction_Err {A E} (g : SqlxError → E) (m : M T A E) e x e' :
  transaction g m e = (Err x, e') → env_db e' = env_db e.
Proof.
  unfold transaction, map_err, exec, stmt, id. destruct (faulty e); [naive_solver|].
  destruct (m _) as [[a'|x'] e2]; [|naive_solver].
  destruct (faulty e2); naive_solver.
Qed.

End inversion.

(** A sequence ends in its first part or goes on. *)
Lemma bind_cases {T A B E} (m : M T A E) k (e : Env T) (r : result B E) e' :
  bind m k e = (r, e') →
  (∃ x, m e = (Err x, e')) ∨ (∃ a e1, m e = (Ok a, e1) ∧ k a e1 = (r, e')).
Proof. unfold bind. destruct (m e) as [[a|x] e1]; [right; eauto|intros [= <- <-]; left; eauto]. Qed.

(** [run_inv] takes apart a run that returned [Ok], down to the statements. *)
Ltac run_inv1 :=
  match goal with
  | H : bind _ _ _ = (Ok _, _) |- _ =>
      let a := fresh "a" in let e := fresh "e" in let H1 := fresh "H" in
      apply bind_Ok in H as (a & e & H1 & H)
  | H : ret _ _ = (Ok _, _) |- _ => apply ret_Ok in H as [? ?]
  | H : throw _ _ = (Ok _, _) |- _ => by apply throw_Ok in H
  | H : map_err _ _ _ = (Ok _, _) |- _ => apply map_err_Ok in H
  | H : attempt _ _ = (Ok _, _) |- _ => eapply attempt_Ok in H
  | H : query _ _ = (Ok _, _) |- _ => apply query_Ok in H as (? & ? & ?)
  | H : exec _ _ = (Ok _, _) |- _ => apply exec_Ok in H as (? & ?)
  | H : stmt _ _ = (Ok _, _) |- _ => apply stmt_Ok in H as (? & ? & ? & ?)
  | H : modify _ _ = (Ok _, _) |- _ => apply modify_Ok in H
  | H : reads _ _ = (Ok _, _) |- _ => apply reads_Ok in H as [? ?]
  | H : now _ = (Ok _, _) |- _ => apply now_Ok in H as [? ?]
  | H : guard _ _ _ = (Ok _, _) |- _ => apply guard_Ok in H as [? ?]
  | H : of_option _ _ _ = (Ok _, _) |- _ => apply of_option_Ok in H as [? ?]
  | H : new_v4 _ = (Ok _, _) |- _ => unfold new_v4 in H
  | H : (Ok _, _) = (Ok _, _) |- _ => injection H as ? ?
  | H : (Err _, _) = (Ok _, _) |- _ => discriminate H
  end; subst.
Ltac run_inv := repeat run_inv1.

(** Rewrite with what is known of the tables after each call. *)
Ltac db_rw :=
  repeat match goal with H : env_db ?e = _ |- context [env_db ?e] => rewrite H end.

(** ** Frames: what a computation never touches, however it ends *)

Definition keeps {T X A E} (φ : T → X) (m : M T A E) : Prop :=
  ∀ e, φ (env_db (snd (m e))) = φ (env_db e).

Section keeps.
Context {T X : Type} (φ : T → X).

Lemma keeps_ret {A E} (a : A) : keeps φ (ret (E := E) a).
Proof. done. Qed.
Lemma keeps_throw {A E} (x : E) : keeps φ (throw (A := A) x).
Proof. done. Qed.
Lemma keeps_bind {A B E} (m : M T A E) (k : A → M T B E) :
  keeps φ m → (∀ a, keeps φ (k a)) → keeps φ (bind m k).
Proof.
  intros Hm Hk e. specialize (Hm e). unfold bind.
  destruct (m e) as [[a|x] e1]; simpl in *; [|done]. by rewrite <- Hm, Hk.
Qed.
Lemma keeps_map_err {A E F} (f : E → F) (m : M T A E) : keeps φ m → keeps φ (map_err f m).
Proof. intros H e. specialize (H e). unfold map_err. by destruct (m e) as [[?|?] ?]. Qed.
Lemma keeps_attempt {A E F} (m : M T A E) : keeps φ m → keeps φ (attempt (F := F) m).
Proof. intros H e. specialize (H e). unfold attempt. by destruct (m e). Qed.
Lemma keeps_stmt {A} (f : T → option (A * T)) :
  (∀ t a t', f t = Some (a, t') → φ t' = φ t) → keeps φ (stmt f).
Proof.
  intros H e. unfold stmt. destruct (faulty e); [done|].
  destruct (f (env_db e)) as [[a t]|] eqn:E; simpl; [by eapply H|done].
Qed.
Lemma keeps_query {A} (f : T → A) : keeps φ (query f).
Proof. apply keeps_stmt. naive_solver. Qed.
Lemma keeps_exec (f : T → T) : (∀ t, φ (f t) = φ t) → keeps φ (exec f).
Proof. intros H. apply keeps_stmt. naive_solver. Qed.
Lemma keeps_modify {E} (f : T → T) : (∀ t, φ (f t) = φ t) → keeps φ (modify (E := E) f).
Proof. intros H e. apply H. Qed.
Lemma keeps_reads {A E} (f : T → A) : keeps φ (reads (E := E) f).
Proof. done. Qed.
Lemma keeps_now {E} : keeps φ (now (E := E)).
Proof. done. Qed.
Lemma keeps_new_v4 {E} : keeps φ (new_v4 (E := E)).
Proof. done. Qed.
Lemma keeps_guard {E} b (x : E) : keeps φ (guard b x).
Proof. by destruct b. Qed.
Lemma keeps_of_option {A E} (x : E) (o : option A) : keeps φ (of_option x o).
Proof. by destruct o. Qed.
Lemma keeps_mfor {A E} (xs : list A) (body : A → M T unit E) :
  (∀ x, keeps φ (body x)) → keeps φ (mfor xs body).
Proof.
  intros H. induction xs as [|x xs IH]; simpl; [apply keeps_ret|]. by apply keeps_bind.
Qed.
Lemma keeps_transaction {A E} (g : SqlxError → E) (m : M T A E) :
  keeps φ m → keeps φ (transaction g m).
Proof.
  intros H e. unfold transaction, map_err, exec, stmt, id. destruct (faulty e); [done|]. simpl.
  specialize (H (with_db (env_db e) (pop_fault e))).
  destruct (m _) as [[a|x] e2]; simpl in *; [|done]. by destruct (faulty e2).
Qed.

End keeps.

(** What keeps more keeps less. *)
Lemma keeps_via {T X Y A E} (φ : T → X) (ψ : T → Y) (f : X → Y) (m : M T A E) :
  (∀ t, ψ t = f (φ t)) → keeps φ m → keeps ψ m.
Proof. intros H Hm e. by rewrite !H, Hm. Qed.

Create HintDb keeps discriminated.
#[export] Hint Resolve keeps_ret keeps_throw keeps_query keeps_reads keeps_now keeps_new_v4
  keeps_guard keeps_of_option keeps_map_err keeps_attempt keeps_mfor keeps_transaction : keeps.

(** Follows the code: binds and branches are taken apart, the statements that
    write are left when they touch [φ]. *)
Ltac keeps :=
  repeat first
    [ progress (auto with keeps)
    | apply keeps_bind; [|intros ?]
    | apply keeps_map_err | apply keeps_attempt | apply keeps_transaction
    | apply keeps_mfor; intros ?
    | apply keeps_exec; done
    | apply keeps_modify; done
    | match goal with |- keeps _ (match ?x with _ => _ end) => destruct x end
    | match goal with |- keeps _ (let '(_, _) := ?x in _) => destruct x end ].

(** ** The clock: no computation of the model moves it

    Time passes between operations, not inside one; two readings of the clock
    in one operation agree. *)
Definition steady {T A E} (m : M T A E) : Prop := ∀ e, env_now (snd (m e)) = env_now e.

Section steady.
Context {T : Type}.

Lemma steady_ret {A E} (a : A) : steady (ret (T := T) (E := E) a).
Proof. done. Qed.
Lemma steady_throw {A E} (x : E) : steady (throw (T := T) (A := A) x).
Proof. done. Qed.
Lemma steady_bind {A B E} (m : M T A E) (k : A → M T B E) :
  steady m → (∀ a, steady (k a)) → steady (bind m k).
Proof.
  intros Hm Hk e. specialize (Hm e). unfold bind.
  destruct (m e) as [[a|x] e1]; simpl in *; [|done]. by rewrite <- Hm, Hk.
Qed.
Lemma steady_map_err {A E F} (f : E → F) (m : M T A E) : steady m → steady (map_err f m).
Proof. intros H e. specialize (H e). unfold map_err. by destruct (m e) as [[?|?] ?]. Qed.
Lemma steady_attempt {A E F} (m : M T A E) : steady m → steady (attempt (F := F) m).
Proof. intros H e. specialize (H e). unfold attempt. by destruct (m e). Qed.
Lemma steady_stmt {A} (f : T → option (A * T)) : steady (stmt f).
Proof. intros e. unfold stmt. destruct (faulty e); [done|]. by destruct (f (env_db e)) as [[? ?]|]. Qed.
Lemma steady_query {A} (f : T → A) : steady (query f).
Proof. apply steady_stmt. Qed.
Lemma steady_exec (f : T → T) : steady (exec f).
Proof. apply steady_stmt. Qed.
Lemma steady_modify {E} (f : T → T) : steady (modify (E := E) f).
Proof. done. Qed.
Lemma steady_reads {A E} (f : T → A) : steady (reads (E := E) f).
Proof. done. Qed.
Lemma steady_now {E} : steady (now (T := T) (E := E)).
Proof. done. Qed.
Lemma steady_new_v4 {E} : steady (new_v4 (T := T) (E := E)).
Proof. done. Qed.
Lemma steady_guard {E} b (x : E) : steady (guard (T := T) b x).
Proof. by destruct b. Qed.
Lemma steady_of_option {A E} (x : E) (o : option A) : steady (of_option (T := T) x o).
Proof. by destruct o. Qed.
Lemma steady_mfor {A E} (xs : list A) (body : A → M T unit E) :
  (∀ x, steady (body x)) → steady (mfor xs body).
Proof.
  intros H. induction xs as [|x xs IH]; simpl; [apply steady_ret|]. by apply steady_bind.
Qed.
Lemma steady_transaction {A E} (g : SqlxError → E) (m : M T A E) :
  steady m → steady (transaction g m).
Proof.
  intros H e. unfold transaction, map_err, exec, stmt, id. destruct (faulty e); [done|]. simpl.
  specialize (H (with_db (env_db e) (pop_fault e))).
  destruct (m _) as [[a|x] e2]; simpl in *; [|done]. by destruct (faulty e2).
Qed.

(** The run of a computation that keeps [φ] and the clock. *)
Lemma steady_run {A E} (m : M T A E) e r e' : m e = (r, e') → steady m → env_now e' = env_now e.
Proof. intros H Hm. specialize (Hm e). by rewrite H in Hm. Qed.
Lemma keeps_run {X A E} (φ : T → X) (m : M T A E) e r e' :
  m e = (r, e') → keeps φ m → φ (env_db e') = φ (env_db e).
Proof. intros H Hm. specialize (Hm e). by rewrite H in Hm. Qed.
End steady.

#[export] Hint Resolve steady_ret steady_throw steady_stmt steady_query steady_exec steady_modify
  steady_reads steady_now steady_new_v4 steady_guard steady_of_option steady_map_err
  steady_attempt steady_mfor steady_transaction : keeps.

Ltac steady :=
  repeat first
    [ progress (auto with keeps)
    | apply steady_bind; [|intros ?]
    | apply steady_map_err | apply steady_attempt | apply steady_transaction
    | apply steady_mfor; intros ?
    | match goal with |- steady (match ?x with _ => _ end) => destruct x end
    | match goal with |- steady (let '(_, _) := ?x in _) => destruct x end ].

(** ** The errors a computation can raise *)

Definition raises {T A E} (P : E → Prop) (m : M T A E) : Prop :=
  ∀ e x e', m e = (Err x, e') → P x.

Section raises.
Context {T E : Type} (P : E → Prop).

Lemma raises_ret {A} (a : A) : raises P (ret (T := T) a).
Proof. by intros e x e'. Qed.
Lemma raises_throw {A} (x : E) : P x → raises P (throw (T := T) (A := A) x).
Proof. intros H e y e' [= <- <-]. done. Qed.
Lemma raises_bind {A B} (m : M T A E) (k : A → M T B E) :
  raises P m → (∀ a, raises P (k a)) → raises P (bind m k).
Proof.
  intros Hm Hk e x e'. unfold bind. specialize (Hm e).
  destruct (m e) as [[?|y] e1]; [apply Hk|]. intros [= <- <-]. by eapply Hm.
Qed.
Lemma raises_map_err {A F} (f : F → E) (m : M T A F) : (∀ x, P (f x)) → raises P (map_err f m).
Proof.
  intros H e x e'. unfold map_err. destruct (m e) as [[?|y] e1]; [done|]. by intros [= <- <-].
Qed.
Lemma raises_now : raises P (now (T := T)).
Proof. by intros e x e'. Qed.
Lemma raises_of_option {A} x (o : option A) : P x → raises P (of_option (T := T) x o).
Proof. intros H e y e'. destruct o; [done|]. by intros [= <- <-]. Qed.
Lemma raises_transaction {A} (g : SqlxError → E) (m : M T A E) :
  (∀ x, P (g x)) → raises P m → raises P (transaction g m).
Proof.
  intros Hg Hm e x e'. unfold transaction.
  destruct (map_err g (exec id) e) as [[?|?] e1] eqn:E1.
  2:{ intros [= <- <-]. by eapply (raises_map_err g (exec id)). }
  destruct (m e1) as [[?|y] e2] eqn:Em; [|intros [= <- <-]; by eapply Hm].
  destruct (map_err g (exec id) e2) as [[?|?] e3] eqn:E3; [done|].
  intros [= <- <-]. by eapply (raises_map_err g (exec id)).
Qed.
End raises.
