(* ===== verification/Float64.v ===== *)
(** * IEEE 754 binary64, for the [f64] arithmetic of fees, rates and prices

    Rust's [f64] is the specification of floating-point numbers of the
    standard library ([SpecFloat]) at precision 53 and exponent bound 1024.
    The lemmas bound the rounding of [(n as f64 * rate) as i64], the shape
    every fee of the source has. *)
From Stdlib Require Import SpecFloat.
From S2P Require Import Prelude.
Local Open Scope Z_scope.

Definition f64 : Type := spec_float.
Definition f64_of_i64 (z : Z) : f64 := binary_normalize 53 1024 z 0 false.
Definition f64_add (x y : f64) : f64 := SFadd 53 1024 x y.
Definition f64_sub (x y : f64) : f64 := SFsub 53 1024 x y.
Definition f64_mul (x y : f64) : f64 := SFmul 53 1024 x y.
Definition f64_div (x y : f64) : f64 := SFdiv 53 1024 x y.
Definition f64_abs (x : f64) : f64 := SFabs x.
Definition f64_gt (x y : f64) : bool := SFltb y x.

(** A decimal literal [n / d] is correctly rounded, as division is. *)
Definition f64_lit (n d : Z) : f64 := f64_div (f64_of_i64 n) (f64_of_i64 d).

(** [x as i64]: truncation towards zero, saturating, NaN to 0. *)
Definition i64_of_f64 (x : f64) : Z :=
  match x with
  | S754_nan | S754_zero _ => 0
  | S754_infinity s => if s then i64_min else i64_max
  | S754_finite s m e =>
      i64_min `max` (i64_max `min` cond_Zopp s (Z.shiftl (Zpos m) e))
  end.

(** [(n as f64 * rate) as i64] *)
Definition mul_rate (n : Z) (rate : f64) : Z := i64_of_f64 (f64_mul (f64_of_i64 n) rate).

(** A rate between 0 and 7/8: zero, or a positive float no smaller than the
    exponents fees use.  Every constant rate of the source is one. *)
Definition unit_rate (r : f64) : bool :=
  match r with
  | S754_zero _ => true
  | S754_finite false m e =>
      (-900 <=? e) && (e <? 0) && (Z.pos m * 8 <=? 7 * 2 ^ (- e))
  | _ => false
  end.

(** ** Digits and shifts *)

Lemma digits2_pos_bounds m :
  2 ^ (Z.pos (digits2_pos m) - 1) ≤ Z.pos m < 2 ^ Z.pos (digits2_pos m).
Proof.
  induction m as [m IH|m IH|]; simpl; [| |done].
  - rewrite Pos2Z.inj_succ, Z.pow_succ_r by lia.
    replace (Z.succ (Z.pos (digits2_pos m)) - 1) with (Z.succ (Z.pos (digits2_pos m) - 1)) by lia.
    rewrite Z.pow_succ_r by lia. lia.
  - rewrite Pos2Z.inj_succ, Z.pow_succ_r by lia.
    replace (Z.succ (Z.pos (digits2_pos m)) - 1) with (Z.succ (Z.pos (digits2_pos m) - 1)) by lia.
    rewrite Z.pow_succ_r by lia. lia.
Qed.

Lemma digits2_pos_le m k : 0 ≤ k → Z.pos m ≤ 2 ^ k → Z.pos (digits2_pos m) ≤ k + 1.
Proof.
  intros Hk Hm. destruct (digits2_pos_bounds m) as [H _].
  apply Z.le_sub_le_add_r. apply (Z.pow_le_mono_r_iff 2); lia.
Qed.

Lemma shr_1_m mrs : 0 ≤ shr_m mrs → shr_m (shr_1 mrs) = shr_m mrs / 2.
Proof.
  rewrite <- Z.div2_div. by destruct mrs as [[|[p|p|]|p] r s].
Qed.

Lemma iter_shr_m p mrs :
  0 ≤ shr_m mrs →
  shr_m (SpecFloat.iter_pos shr_1 p mrs) = shr_m mrs / 2 ^ Z.pos p ∧
  0 ≤ shr_m (SpecFloat.iter_pos shr_1 p mrs).
Proof.
  revert mrs. induction p as [p IH|p IH|]; intros mrs H; simpl.
  - assert (0 ≤ shr_m (shr_1 mrs)) as H1 by (rewrite shr_1_m by done; apply Z.div_pos; lia).
    destruct (IH _ H1) as [E2 H2]. destruct (IH _ H2) as [E3 H3].
    split; [|done]. rewrite E3, E2, shr_1_m by done.
    assert (0 < 2 ^ Z.pos p) by (apply Z.pow_pos_nonneg; lia).
    rewrite !Z.div_div by lia.
    replace (Z.pos p~1) with (1 + (Z.pos p + Z.pos p)) by lia.
    by rewrite !Z.pow_add_r, Z.pow_1_r, Z.mul_assoc by lia.
  - destruct (IH _ H) as [E2 H2]. destruct (IH _ H2) as [E3 H3].
    split; [|done]. rewrite E3, E2.
    assert (0 < 2 ^ Z.pos p) by (apply Z.pow_pos_nonneg; lia).
    rewrite !Z.div_div by lia.
    replace (Z.pos p~0) with (Z.pos p + Z.pos p) by lia.
    by rewrite !Z.pow_add_r by lia.
  - rewrite shr_1_m by done. split; [done|]. apply Z.div_pos; lia.
Qed.

(** Shifting to the format's exponent: the mantissa is floored. *)
Lemma shr_spec mrs e n :
  0 ≤ shr_m mrs →
  shr_m (fst (shr mrs e n)) = shr_m mrs / 2 ^ Z.max 0 n ∧
  snd (shr mrs e n) = e + Z.max 0 n.
Proof.
  intros H. destruct n as [|p|p]; simpl.
  - rewrite Z.div_1_r. lia.
  - rewrite Z.max_r by lia. by destruct (iter_shr_m p mrs H) as [-> _].
  - rewrite Z.max_l by lia. rewrite Z.div_1_r. lia.
Qed.

Lemma round_nearest_even_bounds m l :
  m ≤ round_nearest_even m l ≤ m + 1.
Proof. destruct l as [|[]]; simpl; [lia|destruct (Z.even m); lia|lia|lia]. Qed.

(** ** The rounding bound

    [V] is the value [m * 2 ^ e] scaled by [2 ^ 2000], an integer for every
    exponent that occurs. *)
Definition V (m e : Z) : Z := m * 2 ^ (e + 2000).

Lemma V_shift m e k : 0 ≤ k → -2000 ≤ e → V m (e + k) = V (m * 2 ^ k) e.
Proof.
  intros Hk He. unfold V.
  replace (e + k + 2000) with (k + (e + 2000)) by lia.
  rewrite Z.pow_add_r by lia. lia.
Qed.

Lemma V_mono m m' e : -2000 ≤ e → m ≤ m' → V m e ≤ V m' e.
Proof.
  intros He H. unfold V. apply Z.mul_le_mono_nonneg_r; [|done]. apply Z.pow_nonneg. lia.
Qed.

Lemma div_pow2_bounds m k : 0 ≤ k → m / 2 ^ k * 2 ^ k ≤ m < (m / 2 ^ k + 1) * 2 ^ k.
Proof.
  intros Hk. assert (0 < 2 ^ k) by (apply Z.pow_pos_nonneg; lia).
  pose proof (Z.div_mod m (2 ^ k)). pose proof (Z.mod_pos_bound m (2 ^ k)). lia.
Qed.

(** Rounding the mantissa of a positive number to 53 bits adds at most one
    part in [2 ^ 52]. *)
Lemma round_mantissa_bound (mx : positive) ex n mrs' e' :
  n = Z.max (Z.pos (digits2_pos mx) - 53) (-1074 - ex) → -1074 ≤ ex →
  shr (shr_record_of_loc (Z.pos mx) loc_Exact) ex n = (mrs', e') →
  let m'' := round_nearest_even (shr_m mrs') (loc_of_shr_record mrs') in
  0 ≤ m'' ≤ 2 ^ 53 ∧
  m'' * 2 ^ Z.max 0 n * 2 ^ 52 ≤ Z.pos mx * (2 ^ 52 + 1) ∧ e' = ex + Z.max 0 n.
Proof.
  intros Hn Hex E m''. pose proof (digits2_pos_bounds mx) as Hdb.
  destruct (Z.le_gt_cases n 0) as [H0|H0].
  - assert (shr (shr_record_of_loc (Z.pos mx) loc_Exact) ex n =
            (Build_shr_record (Z.pos mx) false false, ex)) as E' by (destruct n; [done|lia|done]).
    rewrite E' in E. injection E as <- <-. subst m''. simpl.
    rewrite Z.max_l, Z.pow_0_r by lia.
    assert (2 ^ Z.pos (digits2_pos mx) ≤ 2 ^ 53) by (apply Z.pow_le_mono_r; lia). lia.
  - pose proof (shr_spec (shr_record_of_loc (Z.pos mx) loc_Exact) ex n) as [Hm' He'];
      [simpl; lia|].
    rewrite E in *. simpl in Hm', He'. rewrite Z.max_r in * by lia.
    pose proof (round_nearest_even_bounds (shr_m mrs') (loc_of_shr_record mrs')) as Hr.
    fold m'' in Hr. rewrite Hm' in Hr.
    pose proof (div_pow2_bounds (Z.pos mx) n ltac:(lia)) as Hq.
    assert (n = Z.pos (digits2_pos mx) - 53) as Hn' by lia.
    assert (2 ^ (Z.pos (digits2_pos mx) - 1) = 2 ^ n * 2 ^ 52) as Ep.
    { rewrite <- Z.pow_add_r by lia. f_equal. lia. }
    assert (2 ^ Z.pos (digits2_pos mx) = 2 ^ n * 2 ^ 53) as Ep'.
    { rewrite <- Z.pow_add_r by lia. f_equal. lia. }
    assert (0 < 2 ^ n) by (apply Z.pow_pos_nonneg; lia).
    assert (0 ≤ Z.pos mx / 2 ^ n) by (apply Z.div_pos; lia).
    assert (Z.pos mx / 2 ^ n < 2 ^ 53) by (apply Z.div_lt_upper_bound; lia).
    split; [lia|]. split; [|done].
    assert (m'' * 2 ^ n ≤ (Z.pos mx / 2 ^ n + 1) * 2 ^ n) by (apply Z.mul_le_mono_nonneg_r; lia).
    lia.
Qed.

(** A positive product or conversion, rounded: at most one part in [2 ^ 52]
    above the exact value, and never infinite. *)
Lemma binary_round_aux_bound (mx : positive) ex :
  -1074 ≤ ex ≤ 900 → Z.pos (digits2_pos mx) + ex ≤ 1000 →
  match binary_round_aux 53 1024 false (Z.pos mx) ex loc_Exact with
  | S754_zero s => s = false
  | S754_finite s m e => s = false ∧ ex ≤ e ∧
      V (Z.pos m) e * 2 ^ 52 ≤ V (Z.pos mx) ex * (2 ^ 52 + 1)
  | _ => False
  end.
Proof.
  intros Hex Hd. unfold binary_round_aux, shr_fexp.
  set (n := fexp 53 1024 (Zdigits2 (Z.pos mx) + ex) - ex).
  assert (n = Z.max (Z.pos (digits2_pos mx) - 53) (-1074 - ex)) as Hn.
  { unfold n, fexp, emin. simpl. lia. }
  destruct (shr (shr_record_of_loc (Z.pos mx) loc_Exact) ex n) as [mrs' e'] eqn:E1.
  destruct (round_mantissa_bound mx ex n mrs' e' Hn ltac:(lia) E1) as (Hm53 & Hmk & He').
  set (m'' := round_nearest_even (shr_m mrs') (loc_of_shr_record mrs')) in *.
  set (n2 := fexp 53 1024 (Zdigits2 m'' + e') - e').
  assert (Z.max 0 n2 ≤ 1) as Hn2.
  { unfold n2, fexp, emin. destruct m'' as [|p|p]; simpl; [lia| |lia].
    pose proof (digits2_pos_le p 53 ltac:(lia) ltac:(lia)). lia. }
  destruct (shr (shr_record_of_loc m'' loc_Exact) e' n2) as [mrs3 e3] eqn:E2.
  pose proof (shr_spec (shr_record_of_loc m'' loc_Exact) e' n2) as [Hm3 He3]; [simpl; lia|].
  rewrite E2 in *. simpl in Hm3, He3.
  pose proof (div_pow2_bounds m'' (Z.max 0 n2) ltac:(lia)) as Hq.
  assert (0 ≤ shr_m mrs3) as H3 by (rewrite Hm3; apply Z.div_pos; [lia|apply Z.pow_pos_nonneg; lia]).
  destruct (shr_m mrs3) as [|m3|m3]; [done| |lia].
  rewrite (proj2 (Z.leb_le _ _)) by lia.
  split; [done|]. split; [lia|]. subst e3 e'.
  rewrite V_shift, Hm3 by lia.
  transitivity (V m'' (ex + Z.max 0 n) * 2 ^ 52).
  - apply Z.mul_le_mono_nonneg_r; [lia|]. apply V_mono; lia.
  - rewrite V_shift by lia. unfold V.
    assert (0 < 2 ^ (ex + 2000)) as HP by (apply Z.pow_pos_nonneg; lia).
    revert HP. generalize (2 ^ (ex + 2000)). intros P HP. nia.
Qed.

(** Aligning multiplies the mantissa by a power of two. *)
Lemma iter_xO m d : Z.pos (Pos.iter xO m d) = Z.pos m * 2 ^ Z.pos d.
Proof.
  induction d as [|d IH] using Pos.peano_ind; [simpl; lia|].
  rewrite Pos.iter_succ, Pos2Z.inj_xO, IH, Pos2Z.inj_succ, Z.pow_succ_r by lia. lia.
Qed.

Lemma shl_align_spec m d :
  -1074 ≤ d ≤ 0 →
  let '(mz, ez) := shl_align m 0 d in
  ez = d ∧ V (Z.pos mz) ez = V (Z.pos m) 0 ∧ Z.pos mz = Z.pos m * 2 ^ (- d).
Proof.
  intros Hd. unfold shl_align. rewrite Z.sub_0_r. destruct d as [|d|d]; [|lia|].
  - simpl. lia.
  - rewrite iter_xO. split; [done|]. split; [|done].
    rewrite <- V_shift by lia. f_equal. lia.
Qed.

(** [n as f64], for a positive [n]: at most one part in [2 ^ 52] above. *)
Lemma f64_of_i64_bound n :
  0 < n ≤ i64_max →
  match f64_of_i64 n with
  | S754_zero s => s = false
  | S754_finite s m e => s = false ∧ -52 ≤ e ∧
      V (Z.pos m) e * 2 ^ 52 ≤ V n 0 * (2 ^ 52 + 1)
  | _ => False
  end.
Proof.
  intros Hn. unfold f64_of_i64, binary_normalize. destruct n as [|n|n]; [lia| |lia].
  unfold binary_round. rewrite Z.add_0_r.
  pose proof (digits2_pos_le n 63 ltac:(lia) ltac:(unfold i64_max in *; lia)) as Hdn.
  pose proof (digits2_pos_bounds n) as Hb.
  destruct (Z.le_gt_cases (fexp 53 1024 (Z.pos (digits2_pos n))) 0) as [Hf|Hf].
  - pose proof (shl_align_spec n (fexp 53 1024 (Z.pos (digits2_pos n)))) as Hs.
    destruct (shl_align n 0 _) as [mz ez] eqn:E.
    destruct Hs as (-> & HV & Hmz); [unfold fexp, emin in *; lia|].
    set (f := fexp 53 1024 (Z.pos (digits2_pos n))) in *.
    assert (f = Z.pos (digits2_pos n) - 53) as Ef by (unfold f, fexp, emin in *; lia).
    assert (Z.pos (digits2_pos mz) ≤ 53 + 1) as Hdz.
    { apply digits2_pos_le; [lia|]. rewrite Hmz.
      replace (2 ^ 53) with (2 ^ Z.pos (digits2_pos n) * 2 ^ (- f)).
      - apply Z.mul_le_mono_nonneg_r; [apply Z.pow_nonneg; lia|lia].
      - rewrite <- Z.pow_add_r by lia. f_equal. lia. }
    pose proof (binary_round_aux_bound mz f ltac:(lia) ltac:(lia)) as H.
    destruct (binary_round_aux _ _ _ _ _ _) as [s|s| |s m e]; [done|done|done|].
    rewrite HV in H. destruct H as (-> & ? & ?). split; [done|]. lia.
  - assert (shl_align n 0 (fexp 53 1024 (Z.pos (digits2_pos n))) = (n, 0)) as ->.
    { unfold shl_align. rewrite Z.sub_0_r. destruct (fexp _ _ _); [done|done|lia]. }
    pose proof (binary_round_aux_bound n 0 ltac:(lia) ltac:(lia)) as H.
    destruct (binary_round_aux _ _ _ _ _ _) as [s|s| |s m e]; [done|done|done|].
    destruct H as (-> & ? & ?). split; [done|]. lia.
Qed.

(** Truncation does not exceed the value. *)
Lemma trunc_le m e n :
  -2000 ≤ e → V (Z.pos m) e ≤ V n 0 → 0 ≤ Z.shiftl (Z.pos m) e ≤ n.
Proof.
  intros He H. split; [by apply Z.shiftl_nonneg|].
  destruct (Z.le_gt_cases 0 e) as [Hp|Hp].
  - rewrite Z.shiftl_mul_pow2 by done. unfold V in H.
    rewrite Z.pow_add_r in H by lia. rewrite Z.add_0_l in H. lia.
  - rewrite <- (Z.opp_involutive e), Z.shiftl_opp_r, Z.shiftr_div_pow2 by lia.
    apply Z.div_le_upper_bound; [apply Z.pow_pos_nonneg; lia|].
    unfold V in H. rewrite Z.add_0_l in H.
    replace 2000 with (- e + (e + 2000)) in H at 2 by lia.
    rewrite (Z.pow_add_r 2 (- e)) in H by lia.
    assert (0 < 2 ^ (e + 2000)) by (apply Z.pow_pos_nonneg; lia). nia.
Qed.

Lemma V_product m1 e1 m2 e2 :
  -1000 ≤ e1 → -1000 ≤ e2 → V (m1 * m2) (e1 + e2) * 2 ^ 2000 = V m1 e1 * V m2 e2.
Proof.
  intros H1 H2. unfold V.
  assert (2 ^ (e1 + e2 + 2000) * 2 ^ 2000 = 2 ^ (e1 + 2000) * 2 ^ (e2 + 2000)) as E.
  { rewrite <- !Z.pow_add_r by lia. f_equal. lia. }
  rewrite <- Z.mul_assoc, E. lia.
Qed.

(** The chain of roundings of [(n as f64) * rate], in scaled values. *)
Lemma rounding_chain (P x y c v n : Z) :
  0 < P → 0 ≤ x → 0 ≤ c → 0 < n →
  x * 2 ^ 52 ≤ n * P * (2 ^ 52 + 1) → c * 8 ≤ 7 * P → y * P = x * c →
  v * 2 ^ 52 ≤ y * (2 ^ 52 + 1) → v ≤ n * P.
Proof.
  intros HP Hx Hc Hn H1 H2 H3 H4.
  assert (y * 8 ≤ 7 * x).
  { apply (Z.mul_le_mono_pos_r _ _ P); [done|].
    replace (y * 8 * P) with (8 * (y * P)) by lia. rewrite H3.
    replace (7 * x * P) with (x * (7 * P)) by lia.
    replace (8 * (x * c)) with (x * (c * 8)) by lia.
    by apply Z.mul_le_mono_nonneg_l. }
  lia.
Qed.

(** A fee at a rate of at most 7/8 lies between zero and the amount. *)
Lemma mul_rate_bounds n rate :
  0 ≤ n ≤ i64_max → unit_rate rate = true → 0 ≤ mul_rate n rate ≤ n.
Proof.
  intros Hn Hr. unfold mul_rate, f64_mul.
  destruct (decide (n = 0)) as [->|Hn0].
  { change (f64_of_i64 0) with (S754_zero false). by destruct rate. }
  pose proof (f64_of_i64_bound n ltac:(lia)) as H1.
  destruct (f64_of_i64 n) as [s|s| |s m1 e1]; [destruct rate; simpl in *; [lia|done|done|lia] | done | done | ].
  destruct H1 as (-> & He1 & HV1).
  destruct rate as [s|s| |[] mc ec]; simpl in *; [lia|done|done|done|].
  apply andb_true_iff in Hr as [[Hec1 Hec2]%andb_true_iff Hmc].
  apply Z.leb_le in Hec1, Hmc. apply Z.ltb_lt in Hec2.
  (* the converted amount has a moderate exponent *)
  assert (V (Z.pos m1) e1 ≤ V 1 64) as HV64.
  { unfold V, i64_max in *. rewrite Z.add_0_l in HV1.
    replace (64 + 2000) with (64 + 2000) by done.
    rewrite (Z.pow_add_r 2 64 2000) by lia.
    assert (0 < 2 ^ 2000) as HP by (apply Z.pow_pos_nonneg; lia).
    revert HP HV1. generalize (2 ^ 2000). intros P HP HV1. nia. }
  assert (e1 ≤ 64) as He64.
  { unfold V in HV64. apply Z.nlt_ge. intros Hlt.
    assert (2 ^ (64 + 2000) < 2 ^ (e1 + 2000)) by (apply Z.pow_lt_mono_r; lia). nia. }
  assert (Z.pos (m1 * mc) ≤ 2 ^ (64 - e1 - ec)) as Hprod.
  { assert (Z.pos m1 ≤ 2 ^ (64 - e1)) as Hm1.
    { unfold V in HV64. replace (64 + 2000) with ((64 - e1) + (e1 + 2000)) in HV64 by lia.
      rewrite (Z.pow_add_r 2 (64 - e1)) in HV64 by lia.
      assert (0 < 2 ^ (e1 + 2000)) by (apply Z.pow_pos_nonneg; lia). nia. }
    rewrite Pos2Z.inj_mul. replace (64 - e1 - ec) with ((64 - e1) + - ec) by lia.
    rewrite Z.pow_add_r by lia. apply Z.mul_le_mono_nonneg; lia. }
  pose proof (digits2_pos_le (m1 * mc) (64 - e1 - ec) ltac:(lia) Hprod) as Hdig.
  pose proof (binary_round_aux_bound (m1 * mc) (e1 + ec) ltac:(lia) ltac:(lia)) as H2.
  destruct (binary_round_aux _ _ _ _ _ _) as [s|s| |s m2 e2]; [simpl; lia|done|done|].
  destruct H2 as (-> & He2 & HV2). simpl.
  assert (0 ≤ Z.shiftl (Z.pos m2) e2 ≤ n) as Ht.
  { apply trunc_le; [lia|].
    assert (0 < 2 ^ 2000) as HP by (apply Z.pow_pos_nonneg; lia).
    apply (rounding_chain (2 ^ 2000) (V (Z.pos m1) e1) (V (Z.pos (m1 * mc)) (e1 + ec))
             (V (Z.pos mc) ec)); try lia.
    - unfold V. apply Z.mul_nonneg_nonneg; [lia|apply Z.pow_nonneg; lia].
    - unfold V. apply Z.mul_nonneg_nonneg; [lia|apply Z.pow_nonneg; lia].
    - unfold V at 2 in HV1. by rewrite Z.add_0_l in HV1.
    - unfold V. replace 2000 with (- ec + (ec + 2000)) at 2 by lia.
      rewrite (Z.pow_add_r 2 (- ec)) by lia.
      assert (0 < 2 ^ (ec + 2000)) by (apply Z.pow_pos_nonneg; lia). nia.
    - rewrite Pos2Z.inj_mul. apply V_product; lia. }
  unfold i64_min in *. lia.
Qed.
