(* ===== verification/Triples.v ===== *)
(** * Triples for the effect monad

    [triple P Q m]: started in tables that satisfy [P], [m] leaves tables that
    satisfy [P] however it ends, and a value it returns satisfies [Q].  The
    precondition is an invariant of the tables, so errors that are swallowed and
    loops over rows that were read earlier need no more than [P] and [Q]. *)
From S2P Require Import Prelude Monad.


Definition triple {T A E} (P : T → Prop) (Q : A → Prop) (m : M T A E) : Prop :=
  ∀ e, P (env_db e) → P (env_db (snd (m e))) ∧ ∀ a, fst (m e) = Ok a → Q a.
Abbreviation maintains P m := (triple P (λ _, True) m).

Section triples.
Context {T : Type} (P : T → Prop).

Lemma triple_conseq {A E} (Q R : A → Prop) (m : M T A E) :
  (∀ a, Q a → R a) → triple P Q m → triple P R m.
Proof. intros H Hm e He. destruct (Hm e He) as [? HQ]. split; [done|]. auto. Qed.
Lemma triple_ret {A E} (Q : A → Prop) a : Q a → triple P Q (ret (E := E) a).
Proof. intros H e He. split; [done|]. by intros ? [= <-]. Qed.
Lemma triple_throw {A E} (Q : A → Prop) (x : E) : triple P Q (throw x).
Proof. by intros e He. Qed.
Lemma triple_bind {A B E} (Q : A → Prop) (R : B → Prop) (m : M T A E) k :
  triple P Q m → (∀ a, Q a → triple P R (k a)) → triple P R (bind m k).
Proof.
  intros Hm Hk e He. destruct (Hm e He) as [He1 HQ]. unfold bind.
  destruct (m e) as [[a|x] e1]; simpl in *; [apply Hk; auto|done].
Qed.
Lemma triple_map_err {A E F} (Q : A → Prop) (f : E → F) (m : M T A E) :
  triple P Q m → triple P Q (map_err f m).
Proof.
  intros Hm e He. destruct (Hm e He) as [He1 HQ]. unfold map_err.
  destruct (m e) as [[a|x] e1]; simpl in *; (split; [done|]); naive_solver.
Qed.
Lemma triple_attempt {A E F} (Q : A → Prop) (m : M T A E) :
  triple P Q m → triple P (λ r, ∀ a, r = Ok a → Q a) (attempt (F := F) m).
Proof.
  intros Hm e He. destruct (Hm e He) as [He1 HQ]. unfold attempt.
  destruct (m e) as [r e1]. split; [done|]. intros ? [= <-]. auto.
Qed.
Lemma triple_stmt {A} (Q : A → Prop) (f : T → option (A * T)) :
  (∀ t a t', P t → f t = Some (a, t') → P t' ∧ Q a) → triple P Q (stmt f).
Proof.
  intros H e He. unfold stmt. destruct (faulty e); [done|].
  destruct (f (env_db e)) as [[a t]|] eqn:E; simpl; [|done].
  destruct (H _ _ _ He E). split; [done|]. by intros ? [= <-].
Qed.
Lemma triple_query {A} (Q : A → Prop) (f : T → A) :
  (∀ t, P t → Q (f t)) → triple P Q (query f).
Proof. intros H. apply triple_stmt. intros t a t' Ht [= <- <-]. auto. Qed.
Lemma triple_exec (f : T → T) : (∀ t, P t → P (f t)) → maintains P (exec f).
Proof. intros H. apply triple_stmt. intros t a t' Ht [= <- <-]. auto. Qed.
Lemma triple_now {E} : maintains P (now (E := E)).
Proof. by intros e He. Qed.
Lemma triple_new_v4 {E} : maintains P (new_v4 (E := E)).
Proof. by intros e He. Qed.
Lemma triple_guard {E} b (x : E) : maintains P (guard b x).
Proof. intros e He. by destruct b. Qed.
Lemma triple_of_option {A E} (x : E) (o : option A) : triple P (λ a, o = Some a) (of_option x o).
Proof. intros e He. destruct o; simpl; [|done]. split; [done|]. by intros ? [= ->]. Qed.
Lemma triple_mfor {A E} (xs : list A) (body : A → M T unit E) :
  (∀ x, x ∈ xs → maintains P (body x)) → maintains P (mfor xs body).
Proof.
  intros H. induction xs as [|x xs IH]; simpl; [by apply triple_ret|].
  apply (triple_bind (λ _, True)); [apply H; by left|]. intros _ _. apply IH. intros y Hy. apply H. by right.
Qed.
(** A computation that leaves alone the part [φ] of the tables that [P] is about. *)
Section framed.
Context {X : Type} (φ : T → X).
Hypothesis only_φ : ∀ t t', φ t' = φ t → P t → P t'.
Lemma triple_keeps {A E} (m : M T A E) : keeps φ m → maintains P m.
Proof. intros H e He. split; [by apply (only_φ (env_db e))|done]. Qed.
(** .. and that never returns. *)
Lemma triple_never {A E} (m : M T A E) :
  keeps φ m → (∀ e a e', m e ≠ (Ok a, e')) → triple P (λ _, False) m.
Proof.
  intros H Hne e He. split; [by apply (only_φ (env_db e))|]. intros a Ha.
  apply (Hne e a (snd (m e))). rewrite <- Ha. by destruct (m e).
Qed.
End framed.
Lemma triple_run {A E} (Q : A → Prop) (m : M T A E) e r e' :
  m e = (r, e') → triple P Q m → P (env_db e) → P (env_db e').
Proof. intros Hr Hm He. destruct (Hm e He) as [H _]. by rewrite Hr in H. Qed.
End triples.

Create HintDb triples discriminated.
#[export] Hint Resolve triple_ret triple_throw triple_now triple_new_v4 triple_guard : triples.

(** [attempt m ;;; ret tt]: the outcome is dropped. *)
Lemma triple_ignore {T A E F} (P : T → Prop) (m : M T A E) :
  maintains P m → maintains P (attempt (F := F) m ;;; ret tt).
Proof.
  intros H. eapply triple_bind; [by apply triple_attempt|]. intros ? _. by apply triple_ret.
Qed.

(** ** Computations that respect a preorder on environments

    The properties of a history ("nothing is lost", "a retired key stays
    retired") are preorders; an operation has the property when each of its
    statements does, whatever it returns and wherever it fails. *)

Definition respects {T A E} (R : Env T → Env T → Prop) (m : M T A E) : Prop := ∀ e, R e (snd (m e)).

Section respects.
Context {T : Type} (R : Env T → Env T → Prop) `{!PreOrder R}.

Lemma respects_ret {A E} (a : A) : respects R (ret (E := E) a).
Proof. by intros e. Qed.
Lemma respects_throw {A E} (x : E) : respects R (throw (A := A) x).
Proof. by intros e. Qed.
Lemma respects_bind {A B E} (m : M T A E) (k : A → M T B E) :
  respects R m → (∀ a, respects R (k a)) → respects R (bind m k).
Proof.
  intros Hm Hk e. specialize (Hm e). unfold bind.
  destruct (m e) as [[a|x] e1]; simpl in *; [|done]. by etrans; [|apply Hk].
Qed.
Lemma respects_map_err {A E F} (f : E → F) (m : M T A E) : respects R m → respects R (map_err f m).
Proof. intros H e. specialize (H e). unfold map_err. by destruct (m e) as [[?|?] ?]. Qed.
Lemma respects_attempt {A E F} (m : M T A E) : respects R m → respects R (attempt (F := F) m).
Proof. intros H e. specialize (H e). unfold attempt. by destruct (m e). Qed.
Lemma respects_stmt {A} (f : T → option (A * T)) :
  (∀ e, R e (pop_fault e)) →
  (∀ e a t, f (env_db e) = Some (a, t) → R e (with_db t (pop_fault e))) → respects R (stmt f).
Proof.
  intros Hp H e. unfold stmt. destruct (faulty e); [apply Hp|].
  destruct (f (env_db e)) as [[a t]|] eqn:E; [by eapply H|apply Hp].
Qed.
Lemma respects_query {A} (f : T → A) :
  (∀ e, R e (pop_fault e)) → respects R (query f).
Proof. intros Hp. apply respects_stmt; [done|]. intros e a t [= _ <-]. destruct e. apply Hp. Qed.
Lemma respects_exec (f : T → T) :
  (∀ e, R e (pop_fault e)) → (∀ e, R e (with_db (f (env_db e)) (pop_fault e))) → respects R (exec f).
Proof. intros Hp H. apply respects_stmt; [done|]. intros e a t [= _ <-]. apply H. Qed.
Lemma respects_reads {A E} (f : T → A) : respects R (reads (E := E) f).
Proof. by intros e. Qed.
Lemma respects_now {E} : respects R (now (E := E)).
Proof. by intros e. Qed.
Lemma respects_modify {E} (f : T → T) :
  (∀ e, R e (with_db (f (env_db e)) e)) → respects R (modify (E := E) f).
Proof. intros H e. apply H. Qed.
Lemma respects_guard {E} b (x : E) : respects R (guard b x).
Proof. intros e. by destruct b. Qed.
Lemma respects_of_option {A E} (x : E) (o : option A) : respects R (of_option x o).
Proof. intros e. by destruct o. Qed.
Lemma respects_run {A E} (m : M T A E) e r e' : respects R m → m e = (r, e') → R e e'.
Proof. intros H Hm. specialize (H e). by rewrite Hm in H. Qed.
End respects.

Create HintDb respects discriminated.

(** Follows the code down to its statements, or to what the hints know. *)
Ltac respects :=
  repeat first
    [ done | solve [auto with respects nocore]
    | apply respects_ret; apply _ | apply respects_throw; apply _ | apply respects_reads; apply _
    | apply respects_now; apply _ | apply respects_guard; apply _ | apply respects_of_option; apply _
    | apply respects_bind; [apply _| |intros ?]
    | apply respects_map_err | apply respects_attempt
    | match goal with |- respects _ (match ?x with _ => _ end) => destruct x eqn:? end
    | match goal with |- respects _ (let '(_, _) := ?x in _) => destruct x end ].

(** ** Invariants of the tables

    [maintains P m]: [m] keeps an invariant, whatever it returns. *)
Section maintains.
Context {T : Type} (P : T → Prop).

Lemma maintains_bind {A B E} (m : M T A E) (k : A → M T B E) :
  maintains P m → (∀ a, maintains P (k a)) → maintains P (bind m k).
Proof. intros Hm Hk. eapply triple_bind; [exact Hm|]. intros a _. apply Hk. Qed.
Lemma maintains_weaken {A E} (Q : A → Prop) (m : M T A E) : triple P Q m → maintains P m.
Proof. by apply triple_conseq. Qed.
Lemma maintains_ret {A E} (a : A) : maintains P (ret (E := E) a).
Proof. by apply triple_ret. Qed.
Lemma maintains_attempt {A E F} (m : M T A E) : maintains P m → maintains P (attempt (F := F) m).
Proof. intros H. by eapply maintains_weaken, triple_attempt. Qed.
Lemma maintains_of_option {A E} (x : E) (o : option A) : maintains P (of_option x o).
Proof. eapply maintains_weaken, triple_of_option. Qed.
Lemma maintains_query {A} (f : T → A) : maintains P (query f).
Proof. by apply triple_query. Qed.
Lemma maintains_transaction {A E} (of_sqlx : SqlxError → E) (body : M T A E) :
  maintains P body → maintains P (transaction of_sqlx body).
Proof.
  intros Hb e He. unfold transaction, map_err, exec, stmt. destruct (faulty e); [done|]. simpl.
  destruct (Hb (with_db (id (env_db e)) (pop_fault e)) He) as [H2 _].
  destruct (body _) as [[a|x] e2]; simpl in *; [|done]. by destruct (faulty e2).
Qed.
(** .. with what its first part finds out about the tables. *)
Lemma maintains_learn {A B E} (Q : A → T → Prop) (m : M T A E) (k : A → M T B E) :
  (∀ e, P (env_db e) → P (env_db (snd (m e))) ∧ ∀ a, fst (m e) = Ok a → Q a (env_db (snd (m e)))) →
  (∀ a t, Q a t → P t) → (∀ a, maintains (Q a) (k a)) → maintains P (bind m k).
Proof.
  intros Hm Hq Hk e He. split; [|done]. destruct (Hm e He) as [H1 H2]. unfold bind.
  destruct (m e) as [[a|x] e1]; simpl in *; [|done]. apply (Hq a). by apply Hk, H2.
Qed.
End maintains.

Lemma maintains_and {T A E} (P R : T → Prop) (m : M T A E) :
  maintains P m → maintains R m → maintains (λ t, P t ∧ R t) m.
Proof. intros H1 H2 e [? ?]. split; [|done]. split; [by apply H1|by apply H2]. Qed.

Create HintDb maintain discriminated.

(** Follows the code down to its statements, or to what the hints know. *)
Ltac maintain :=
  repeat first
    [ solve [auto with maintain nocore]
    | apply maintains_ret | apply triple_throw | apply triple_now | apply triple_new_v4 | apply triple_guard
    | apply maintains_of_option | apply maintains_query
    | apply maintains_bind; [|intros ?]
    | apply triple_map_err | apply maintains_attempt | apply maintains_transaction
    | apply triple_mfor; intros ? _
    | match goal with |- triple _ _ (match ?x with _ => _ end) => destruct x eqn:? end
    | match goal with |- triple _ _ (let '(_, _) := ?x in _) => destruct x end ].
