(* ===== verification/Model.v ===== *)
(** * The data model of the trading back end

    The structs and enums of [src/models], [src/balances/model.rs],
    [src/ledger/model.rs], [src/settlement/model.rs] and
    [src/accounts/model.rs], the events of [src/db/redis.rs], and the
    database [CoreDb] whose tables hold them.  Timestamps are seconds. *)
From Stdlib Require DecimalString DecimalN DecimalPos.
From stdpp Require Import gmap.
From S2P Require Import Prelude Monad Float64.

(** ** Balances and the ledger *)

Inductive Asset := USDC | ETH | BTC | SOL.
#[export] Instance Asset_eq_dec : EqDecision Asset.
Proof. solve_decision. Defined.

Record Balance := mkBalance {
  b_id : Uuid;
  b_account_id : Uuid;
  b_asset : Asset;
  b_available_balance : Z;
  b_locked_balance : Z;
  b_updated_at : Z;
}.

Inductive EntryType := DEBIT | CREDIT.
Inductive ReferenceType := TRADE | DEPOSIT | WITHDRAWAL | FEE.
#[export] Instance EntryType_eq_dec : EqDecision EntryType.
Proof. solve_decision. Defined.
#[export] Instance ReferenceType_eq_dec : EqDecision ReferenceType.
Proof. solve_decision. Defined.

Record LedgerEntry := mkLedgerEntry {
  l_id : Uuid;
  l_account_id : Uuid;
  l_asset : Asset;
  l_amount : Z;
  l_entry_type : EntryType;
  l_reference_type : ReferenceType;
  l_reference_id : Uuid;
  l_created_at : Z;
}.

(** ** Accounts (and the users they belong to) *)

Record User := mkUser {
  u_id : Uuid;
  u_email : string;
  u_password_hash : string;
  u_created_at : Z;
  u_updated_at : Z;
}.

Inductive AccountType := Spot.

Record Account := mkAccount {
  a_id : Uuid;
  a_user_id : Uuid;
  a_account_type : AccountType;
  a_created_at : Z;
}.

(** ** Intents, bids, fills, executions *)

Inductive IntentStatus :=
| IOpen | IBidding | IMatched | IPartiallyFilled | IExecuting
| ICompleted | IFailed | ICancelled | IExpired.
#[export] Instance IntentStatus_eq_dec : EqDecision IntentStatus.
Proof. solve_decision. Defined.

Inductive OrderType := Market | Limit | Stop.
#[export] Instance OrderType_eq_dec : EqDecision OrderType.
Proof. solve_decision. Defined.

Record Intent := mkIntent {
  i_id : Uuid;
  i_user_id : string;
  i_token_in : string;
  i_token_out : string;
  i_amount_in : Z;
  i_min_amount_out : Z;
  i_deadline : Z;
  i_status : IntentStatus;
  i_created_at : Z;
  i_order_type : OrderType;
  i_limit_price : option Z;
  i_stop_price : option Z;
  i_stop_side : option string;
  i_triggered_at : option Z;
  i_source_chain : string;
  i_destination_chain : string;
  i_cross_chain : bool;
}.

Record SolverBid := mkBid {
  bid_id : Uuid;
  bid_intent_id : Uuid;
  bid_solver_id : string;
  bid_amount_out : Z;
  bid_fee : Z;
  bid_timestamp : Z;
}.

Record Fill := mkFill {
  f_id : Uuid;
  f_intent_id : Uuid;
  f_solver_id : string;
  f_price : Z;
  f_qty : Z;
  f_filled_qty : Z;
  f_tx_hash : string;
  f_timestamp : Z;
  f_settled : bool;
  f_settled_at : option Z;
}.

Inductive ExecutionStatus := XPending | XExecuting | XCompleted | XFailed.

Record Execution := mkExecution {
  x_id : Uuid;
  x_intent_id : Uuid;
  x_solver_id : string;
  x_tx_hash : string;
  x_status : ExecutionStatus;
  x_created_at : Z;
}.

(** ** Trades *)

Inductive TradeStatus := TPending | TSettled | TFailed.
#[export] Instance TradeStatus_eq_dec : EqDecision TradeStatus.
Proof. solve_decision. Defined.

Record Trade := mkTrade {
  t_id : Uuid;
  t_buyer_account_id : Uuid;
  t_seller_account_id : Uuid;
  t_solver_account_id : Uuid;
  t_asset_in : Asset;
  t_asset_out : Asset;
  t_amount_in : Z;
  t_amount_out : Z;
  t_platform_fee : Z;
  t_solver_fee : Z;
  t_status : TradeStatus;
  t_created_at : Z;
  t_settled_at : option Z;
}.

(** ** Rows with no struct of their own in [src/models] *)

Record FailedSettlement := mkFailed {
  fs_id : Uuid;
  fs_trade_id : Uuid;
  fs_fill_id : option Uuid;
  fs_retry_count : Z;
  fs_last_error : string;
  fs_next_retry_at : Z;
  fs_permanently_failed : bool;
}.

Inductive AmendField := AmAmountIn | AmMinAmountOut | AmLimitPrice.

(** A row of [intent_amendments]; the values are kept as the integers the
    source prints with [to_string]. *)
Record Amendment := mkAmendment {
  am_intent_id : Uuid;
  am_number : Z;
  am_field : AmendField;
  am_old_value : Z;
  am_new_value : Z;
  am_amended_by : string;
}.

Record SolverStatsRow := mkStats {
  ss_solver_id : Uuid;
  ss_total_auctions_entered : Z;
  ss_total_auctions_won : Z;
  ss_total_fills : Z;
  ss_total_settled : Z;
  ss_total_failed : Z;
  ss_total_volume : Z;
  ss_total_profit : Z;
  ss_sum_latency_ms : Z;
  ss_sum_slippage_bps : Z;
}.

Record Solver := mkSolver {
  so_id : Uuid;
  so_name : string;
  so_email : option string;
  so_api_key : option string;
  so_webhook_url : option string;
  so_active : bool;
  so_successful_trades : Z;
  so_failed_trades : Z;
  so_total_volume : Z;
  so_total_fills : Z;
  so_failed_fills : Z;
  so_reputation_score : f64;
  so_created_at : Z;
}.

(** ** Events *)

Inductive Event :=
| IntentCreated (i : Intent)
| BidSubmitted (b : SolverBid)
| IntentMatched (intent : Intent) (bid : SolverBid)
| ExecutionStarted (x : Execution)
| ExecutionCompleted (x : Execution)
| ExecutionFailed (x : Execution) (reason : string)
| IntentCancelled (i : Intent)
| IntentBidding (i : Intent)
| IntentFailed (i : Intent)
| IntentExpired (i : Intent)
| IntentAmended (i : Intent)
| StopTriggered (i : Intent).

(** Redis Stream payloads. *)
Record ExecutionCompletedEvent := mkExecutionCompletedEvent {
  ev_execution_id : Uuid;
  ev_fill_id : Uuid;
  ev_intent_id : Uuid;
  ev_solver_id : string;
  ev_buyer_account_id : Uuid;
  ev_seller_account_id : Uuid;
  ev_token_in : string;
  ev_token_out : string;
  ev_fee_rate : f64;
}.

Record IntentSettledEvent := mkIntentSettledEvent {
  ise_intent_id : Uuid;
  ise_settled_qty : Z;
  ise_status : string;
}.

Inductive StreamMsg :=
| StreamIntentCreated (i : Intent)
| StreamBidSubmitted (b : SolverBid)
| StreamExecutionCompleted (ev : ExecutionCompletedEvent)
| StreamIntentSettled (ev : IntentSettledEvent).

(** ** Markets and prices *)

Record MarketRow := mkMarket {
  m_id : Uuid;
  m_base_asset : Asset;
  m_quote_asset : Asset;
  m_tick_size : Z;
  m_min_order_size : Z;
  m_fee_rate : f64;
  m_chain : string;
  m_settlement_contract : option string;
  m_base_token_mint : option string;
  m_quote_token_mint : option string;
  m_base_decimals : Z;
  m_quote_decimals : Z;
  m_created_at : Z;
}.

Record MarketPrice := mkMarketPrice {
  mp_market_id : Uuid;
  mp_price : Z;
  mp_source : string;
  mp_updated_at : Z;
}.

(** ** TWAP orders *)

Inductive TwapStatus := TwActive | TwCompleted | TwCancelled | TwFailed.
#[export] Instance TwapStatus_eq_dec : EqDecision TwapStatus.
Proof. solve_decision. Defined.

Record TwapIntent := mkTwap {
  tw_id : Uuid;
  tw_user_id : string;
  tw_account_id : Uuid;
  tw_token_in : string;
  tw_token_out : string;
  tw_total_qty : Z;
  tw_filled_qty : Z;
  tw_min_price : Z;
  tw_duration_secs : Z;
  tw_interval_secs : Z;
  tw_slices_total : Z;
  tw_slices_completed : Z;
  tw_status : TwapStatus;
  tw_created_at : Z;
  tw_finished_at : option Z;
}.

Record TwapChildIntent := mkChild {
  tc_id : Uuid;
  tc_twap_id : Uuid;
  tc_intent_id : Uuid;
  tc_slice_index : Z;
  tc_qty : Z;
  tc_status : string;
  tc_scheduled_at : Z;
  tc_created_at : Z;
}.

(** ** Cross-chain settlement and atomic swaps *)

Inductive LegStatus := LPending | LEscrowed | LExecuting | LConfirmed | LFailed | LRefunded.
#[export] Instance LegStatus_eq_dec : EqDecision LegStatus.
Proof. solve_decision. Defined.

Record CrossChainLeg := mkLeg {
  lg_id : Uuid;
  lg_intent_id : Uuid;
  lg_fill_id : Uuid;
  lg_leg_index : Z;
  lg_chain : string;
  lg_from_address : string;
  lg_to_address : string;
  lg_token_mint : option string;
  lg_amount : Z;
  lg_tx_hash : option string;
  lg_status : LegStatus;
  lg_error : option string;
  lg_timeout_at : Z;
  lg_created_at : Z;
  lg_confirmed_at : option Z;
}.

Inductive HtlcStatus :=
| HCreated | HSourceLocked | HDestClaimed | HSourceUnlocked | HRefunded | HExpired | HFailed.
#[export] Instance HtlcStatus_eq_dec : EqDecision HtlcStatus.
Proof. solve_decision. Defined.

Record HtlcSwap := mkSwap {
  sw_id : Uuid;
  sw_fill_id : Uuid;
  sw_intent_id : Uuid;
  sw_secret_hash : list Z;
  sw_secret : option (list Z);
  sw_source_chain : string;
  sw_source_sender : string;
  sw_source_receiver : string;
  sw_source_token : option string;
  sw_source_amount : Z;
  sw_source_lock_tx : option string;
  sw_source_unlock_tx : option string;
  sw_source_timelock : Z;
  sw_dest_chain : string;
  sw_dest_sender : string;
  sw_dest_receiver : string;
  sw_dest_token : option string;
  sw_dest_amount : Z;
  sw_dest_lock_tx : option string;
  sw_dest_claim_tx : option string;
  sw_status : HtlcStatus;
  sw_solver_id : string;
  sw_error : option string;
  sw_created_at : Z;
  sw_locked_at : option Z;
  sw_claimed_at : option Z;
  sw_completed_at : option Z;
}.

(** ** Circuit breakers *)

Inductive BreakerState := BClosed | BOpen | BHalfOpen.
#[export] Instance BreakerState_eq_dec : EqDecision BreakerState.
Proof. solve_decision. Defined.

(** [Inner]; instants in whole seconds *)
Record BreakerInner := mkInner {
  cb_state : BreakerState;
  cb_failure_count : Z;
  cb_last_failure : option Z;
  cb_last_success : option Z;
  cb_opened_at : option Z;
  cb_total_rejections : Z;
  cb_total_successes : Z;
  cb_total_failures : Z;
}.

(** ** In-memory state of the risk engine *)

Record UserActivity := mkActivity {
  ua_recent_intents : list Z;
  ua_daily_volume : Z;
  ua_day_start : Z;
}.

(** ** Wallets and on-chain transactions *)

Record Wallet := mkWallet {
  wa_id : Uuid;
  wa_account_id : Uuid;
  wa_address : string;
  wa_chain : string;
  wa_encrypted_key : list Z;
  wa_nonce : list Z;
  wa_active : bool;
  wa_created_at : Z;
}.

Inductive TxStatus := TxPending | TxSubmitted | TxConfirmed | TxFailed | TxDropped.
#[export] Instance TxStatus_eq_dec : EqDecision TxStatus.
Proof. solve_decision. Defined.

Record TransactionRecord := mkTxRecord {
  tr_id : Uuid;
  tr_fill_id : option Uuid;
  tr_from_address : string;
  tr_to_address : string;
  tr_chain : string;
  tr_tx_hash : option string;
  tr_amount : Z;
  tr_asset : string;
  tr_status : TxStatus;
  tr_gas_price : option Z;
  tr_gas_used : option Z;
  tr_block_number : option Z;
  tr_confirmations : Z;
  tr_error : option string;
  tr_submitted_at : option Z;
  tr_confirmed_at : option Z;
  tr_created_at : Z;
}.

(** ** The database

    Beside the tables: the events published so far, the Redis caches, the
    cache invalidations spawned and not run yet, and the risk engine's
    per-user activity. *)
Record CoreDb := mkCoreDb {
  users : list User;
  accounts : list Account;
  balances : list Balance;
  ledger_entries : list LedgerEntry;
  intents : list Intent;
  intent_amendments : list Amendment;
  bids : list SolverBid;
  fills : list Fill;
  executions : list Execution;
  trades : list Trade;
  failed_settlements : list FailedSettlement;
  solver_stats : list SolverStatsRow;
  markets : list MarketRow;
  market_prices : list MarketPrice;
  twap_intents : list TwapIntent;
  twap_child_intents : list TwapChildIntent;
  event_bus : list Event;
  stream_bus : list StreamMsg;
  cached_balances : list (Uuid * list Balance);
  spawned_invalidations : list Uuid;
  user_activity : gmap string UserActivity;
  solvers : list Solver;
  cached_leaderboard : list (Z * list Solver);
  spawned_leaderboard_invalidations : nat;
  cached_market : list (Uuid * MarketRow);
  cached_market_list : option (list MarketRow);
  cached_prices : list (Uuid * MarketPrice);
  oracle_price_history : list MarketPrice;
  price_updates : list MarketPrice;
  cross_chain_legs : list CrossChainLeg;
  htlc_swaps : list HtlcSwap;
  breakers : gmap string BreakerInner;
  wallets : list Wallet;
  transactions : list TransactionRecord;
}.

Definition empty_db : CoreDb :=
  mkCoreDb [] [] [] [] [] [] [] [] [] [] [] [] [] [] [] [] [] [] [] [] ∅ [] [] 0 [] None [] [] [] [] [] ∅ [] [].

Definition set_users x (d : CoreDb) : CoreDb :=
  mkCoreDb x (accounts d) (balances d) (ledger_entries d) (intents d)
    (intent_amendments d) (bids d) (fills d) (executions d) (trades d)
    (failed_settlements d) (solver_stats d) (markets d) (market_prices d)
    (twap_intents d) (twap_child_intents d) (event_bus d) (stream_bus d)
    (cached_balances d) (spawned_invalidations d) (user_activity d) (solvers d)
    (cached_leaderboard d) (spawned_leaderboard_invalidations d) (cached_market d)
    (cached_market_list d) (cached_prices d) (oracle_price_history d) (price_updates d)
    (cross_chain_legs d) (htlc_swaps d) (breakers d) (wallets d) (transactions d).
Definition set_accounts x (d : CoreDb) : CoreDb :=
  mkCoreDb (users d) x (balances d) (ledger_entries d) (intents d) (intent_amendments d)
    (bids d) (fills d) (executions d) (trades d) (failed_settlements d) (solver_stats d)
    (markets d) (market_prices d) (twap_intents d) (twap_child_intents d) (event_bus d)
    (stream_bus d) (cached_balances d) (spawned_invalidations d) (user_activity d)
    (solvers d) (cached_leaderboard d) (spawned_leaderboard_invalidations d)
    (cached_market d) (cached_market_list d) (cached_prices d) (oracle_price_history d)
    (price_updates d) (cross_chain_legs d) (htlc_swaps d) (breakers d) (wallets d)
    (transactions d).
Definition set_balances x (d : CoreDb) : CoreDb :=
  mkCoreDb (users d) (accounts d) x (ledger_entries d) (intents d) (intent_amendments d)
    (bids d) (fills d) (executions d) (trades d) (failed_settlements d) (solver_stats d)
    (markets d) (market_prices d) (twap_intents d) (twap_child_intents d) (event_bus d)
    (stream_bus d) (cached_balances d) (spawned_invalidations d) (user_activity d)
    (solvers d) (cached_leaderboard d) (spawned_leaderboard_invalidations d)
    (cached_market d) (cached_market_list d) (cached_prices d) (oracle_price_history d)
    (price_updates d) (cross_chain_legs d) (htlc_swaps d) (breakers d) (wallets d)
    (transactions d).
Definition set_ledger_entries x (d : CoreDb) : CoreDb :=
  mkCoreDb (users d) (accounts d) (balances d) x (intents d) (intent_amendments d)
    (bids d) (fills d) (executions d) (trades d) (failed_settlements d) (solver_stats d)
    (markets d) (market_prices d) (twap_intents d) (twap_child_intents d) (event_bus d)
    (stream_bus d) (cached_balances d) (spawned_invalidations d) (user_activity d)
    (solvers d) (cached_leaderboard d) (spawned_leaderboard_invalidations d)
    (cached_market d) (cached_market_list d) (cached_prices d) (oracle_price_history d)
    (price_updates d) (cross_chain_legs d) (htlc_swaps d) (breakers d) (wallets d)
    (transactions d).
Definition set_intents x (d : CoreDb) : CoreDb :=
  mkCoreDb (users d) (accounts d) (balances d) (ledger_entries d) x
    (intent_amendments d) (bids d) (fills d) (executions d) (trades d)
    (failed_settlements d) (solver_stats d) (markets d) (market_prices d)
    (twap_intents d) (twap_child_intents d) (event_bus d) (stream_bus d)
    (cached_balances d) (spawned_invalidations d) (user_activity d) (solvers d)
    (cached_leaderboard d) (spawned_leaderboard_invalidations d) (cached_market d)
    (cached_market_list d) (cached_prices d) (oracle_price_history d) (price_updates d)
    (cross_chain_legs d) (htlc_swaps d) (breakers d) (wallets d) (transactions d).
Definition set_intent_amendments x (d : CoreDb) : CoreDb :=
  mkCoreDb (users d) (accounts d) (balances d) (ledger_entries d) (intents d) x (bids d)
    (fills d) (executions d) (trades d) (failed_settlements d) (solver_stats d)
    (markets d) (market_prices d) (twap_intents d) (twap_child_intents d) (event_bus d)
    (stream_bus d) (cached_balances d) (spawned_invalidations d) (user_activity d)
    (solvers d) (cached_leaderboard d) (spawned_leaderboard_invalidations d)
    (cached_market d) (cached_market_list d) (cached_prices d) (oracle_price_history d)
    (price_updates d) (cross_chain_legs d) (htlc_swaps d) (breakers d) (wallets d)
    (transactions d).
Definition set_bids x (d : CoreDb) : CoreDb :=
  mkCoreDb (users d) (accounts d) (balances d) (ledger_entries d) (intents d)
    (intent_amendments d) x (fills d) (executions d) (trades d) (failed_settlements d)
    (solver_stats d) (markets d) (market_prices d) (twap_intents d)
    (twap_child_intents d) (event_bus d) (stream_bus d) (cached_balances d)
    (spawned_invalidations d) (user_activity d) (solvers d) (cached_leaderboard d)
    (spawned_leaderboard_invalidations d) (cached_market d) (cached_market_list d)
    (cached_prices d) (oracle_price_history d) (price_updates d) (cross_chain_legs d)
    (htlc_swaps d) (breakers d) (wallets d) (transactions d).
Definition set_fills x (d : CoreDb) : CoreDb :=
  mkCoreDb (users d) (accounts d) (balances d) (ledger_entries d) (intents d)
    (intent_amendments d) (bids d) x (executions d) (trades d) (failed_settlements d)
    (solver_stats d) (markets d) (market_prices d) (twap_intents d)
    (twap_child_intents d) (event_bus d) (stream_bus d) (cached_balances d)
    (spawned_invalidations d) (user_activity d) (solvers d) (cached_leaderboard d)
    (spawned_leaderboard_invalidations d) (cached_market d) (cached_market_list d)
    (cached_prices d) (oracle_price_history d) (price_updates d) (cross_chain_legs d)
    (htlc_swaps d) (breakers d) (wallets d) (transactions d).
Definition set_executions x (d : CoreDb) : CoreDb :=
  mkCoreDb (users d) (accounts d) (balances d) (ledger_entries d) (intents d)
    (intent_amendments d) (bids d) (fills d) x (trades d) (failed_settlements d)
    (solver_stats d) (markets d) (market_prices d) (twap_intents d)
    (twap_child_intents d) (event_bus d) (stream_bus d) (cached_balances d)
    (spawned_invalidations d) (user_activity d) (solvers d) (cached_leaderboard d)
    (spawned_leaderboard_invalidations d) (cached_market d) (cached_market_list d)
    (cached_prices d) (oracle_price_history d) (price_updates d) (cross_chain_legs d)
    (htlc_swaps d) (breakers d) (wallets d) (transactions d).
Definition set_trades x (d : CoreDb) : CoreDb :=
  mkCoreDb (users d) (accounts d) (balances d) (ledger_entries d) (intents d)
    (intent_amendments d) (bids d) (fills d) (executions d) x (failed_settlements d)
    (solver_stats d) (markets d) (market_prices d) (twap_intents d)
    (twap_child_intents d) (event_bus d) (stream_bus d) (cached_balances d)
    (spawned_invalidations d) (user_activity d) (solvers d) (cached_leaderboard d)
    (spawned_leaderboard_invalidations d) (cached_market d) (cached_market_list d)
    (cached_prices d) (oracle_price_history d) (price_updates d) (cross_chain_legs d)
    (htlc_swaps d) (breakers d) (wallets d) (transactions d).
Definition set_failed_settlements x (d : CoreDb) : CoreDb :=
  mkCoreDb (users d) (accounts d) (balances d) (ledger_entries d) (intents d)
    (intent_amendments d) (bids d) (fills d) (executions d) (trades d) x
    (solver_stats d) (markets d) (market_prices d) (twap_intents d)
    (twap_child_intents d) (event_bus d) (stream_bus d) (cached_balances d)
    (spawned_invalidations d) (user_activity d) (solvers d) (cached_leaderboard d)
    (spawned_leaderboard_invalidations d) (cached_market d) (cached_market_list d)
    (cached_prices d) (oracle_price_history d) (price_updates d) (cross_chain_legs d)
    (htlc_swaps d) (breakers d) (wallets d) (transactions d).
Definition set_solver_stats x (d : CoreDb) : CoreDb :=
  mkCoreDb (users d) (accounts d) (balances d) (ledger_entries d) (intents d)
    (intent_amendments d) (bids d) (fills d) (executions d) (trades d)
    (failed_settlements d) x (markets d) (market_prices d) (twap_intents d)
    (twap_child_intents d) (event_bus d) (stream_bus d) (cached_balances d)
    (spawned_invalidations d) (user_activity d) (solvers d) (cached_leaderboard d)
    (spawned_leaderboard_invalidations d) (cached_market d) (cached_market_list d)
    (cached_prices d) (oracle_price_history d) (price_updates d) (cross_chain_legs d)
    (htlc_swaps d) (breakers d) (wallets d) (transactions d).
Definition set_markets x (d : CoreDb) : CoreDb :=
  mkCoreDb (users d) (accounts d) (balances d) (ledger_entries d) (intents d)
    (intent_amendments d) (bids d) (fills d) (executions d) (trades d)
    (failed_settlements d) (solver_stats d) x (market_prices d) (twap_intents d)
    (twap_child_intents d) (event_bus d) (stream_bus d) (cached_balances d)
    (spawned_invalidations d) (user_activity d) (solvers d) (cached_leaderboard d)
    (spawned_leaderboard_invalidations d) (cached_market d) (cached_market_list d)
    (cached_prices d) (oracle_price_history d) (price_updates d) (cross_chain_legs d)
    (htlc_swaps d) (breakers d) (wallets d) (transactions d).
Definition set_market_prices x (d : CoreDb) : CoreDb :=
  mkCoreDb (users d) (accounts d) (balances d) (ledger_entries d) (intents d)
    (intent_amendments d) (bids d) (fills d) (executions d) (trades d)
    (failed_settlements d) (solver_stats d) (markets d) x (twap_intents d)
    (twap_child_intents d) (event_bus d) (stream_bus d) (cached_balances d)
    (spawned_invalidations d) (user_activity d) (solvers d) (cached_leaderboard d)
    (spawned_leaderboard_invalidations d) (cached_market d) (cached_market_list d)
    (cached_prices d) (oracle_price_history d) (price_updates d) (cross_chain_legs d)
    (htlc_swaps d) (breakers d) (wallets d) (transactions d).
Definition set_twap_intents x (d : CoreDb) : CoreDb :=
  mkCoreDb (users d) (accounts d) (balances d) (ledger_entries d) (intents d)
    (intent_amendments d) (bids d) (fills d) (executions d) (trades d)
    (failed_settlements d) (solver_stats d) (markets d) (market_prices d) x
    (twap_child_intents d) (event_bus d) (stream_bus d) (cached_balances d)
    (spawned_invalidations d) (user_activity d) (solvers d) (cached_leaderboard d)
    (spawned_leaderboard_invalidations d) (cached_market d) (cached_market_list d)
    (cached_prices d) (oracle_price_history d) (price_updates d) (cross_chain_legs d)
    (htlc_swaps d) (breakers d) (wallets d) (transactions d).
Definition set_twap_child_intents x (d : CoreDb) : CoreDb :=
  mkCoreDb (users d) (accounts d) (balances d) (ledger_entries d) (intents d)
    (intent_amendments d) (bids d) (fills d) (executions d) (trades d)
    (failed_settlements d) (solver_stats d) (markets d) (market_prices d)
    (twap_intents d) x (event_bus d) (stream_bus d) (cached_balances d)
    (spawned_invalidations d) (user_activity d) (solvers d) (cached_leaderboard d)
    (spawned_leaderboard_invalidations d) (cached_market d) (cached_market_list d)
    (cached_prices d) (oracle_price_history d) (price_updates d) (cross_chain_legs d)
    (htlc_swaps d) (breakers d) (wallets d) (transactions d).
Definition set_event_bus x (d : CoreDb) : CoreDb :=
  mkCoreDb (users d) (accounts d) (balances d) (ledger_entries d) (intents d)
    (intent_amendments d) (bids d) (fills d) (executions d) (trades d)
    (failed_settlements d) (solver_stats d) (markets d) (market_prices d)
    (twap_intents d) (twap_child_intents d) x (stream_bus d) (cached_balances d)
    (spawned_invalidations d) (user_activity d) (solvers d) (cached_leaderboard d)
    (spawned_leaderboard_invalidations d) (cached_market d) (cached_market_list d)
    (cached_prices d) (oracle_price_history d) (price_updates d) (cross_chain_legs d)
    (htlc_swaps d) (breakers d) (wallets d) (transactions d).
Definition set_stream_bus x (d : CoreDb) : CoreDb :=
  mkCoreDb (users d) (accounts d) (balances d) (ledger_entries d) (intents d)
    (intent_amendments d) (bids d) (fills d) (executions d) (trades d)
    (failed_settlements d) (solver_stats d) (markets d) (market_prices d)
    (twap_intents d) (twap_child_intents d) (event_bus d) x (cached_balances d)
    (spawned_invalidations d) (user_activity d) (solvers d) (cached_leaderboard d)
    (spawned_leaderboard_invalidations d) (cached_market d) (cached_market_list d)
    (cached_prices d) (oracle_price_history d) (price_updates d) (cross_chain_legs d)
    (htlc_swaps d) (breakers d) (wallets d) (transactions d).
Definition set_cached_balances x (d : CoreDb) : CoreDb :=
  mkCoreDb (users d) (accounts d) (balances d) (ledger_entries d) (intents d)
    (intent_amendments d) (bids d) (fills d) (executions d) (trades d)
    (failed_settlements d) (solver_stats d) (markets d) (market_prices d)
    (twap_intents d) (twap_child_intents d) (event_bus d) (stream_bus d) x
    (spawned_invalidations d) (user_activity d) (solvers d) (cached_leaderboard d)
    (spawned_leaderboard_invalidations d) (cached_market d) (cached_market_list d)
    (cached_prices d) (oracle_price_history d) (price_updates d) (cross_chain_legs d)
    (htlc_swaps d) (breakers d) (wallets d) (transactions d).
Definition set_spawned_invalidations x (d : CoreDb) : CoreDb :=
  mkCoreDb (users d) (accounts d) (balances d) (ledger_entries d) (intents d)
    (intent_amendments d) (bids d) (fills d) (executions d) (trades d)
    (failed_settlements d) (solver_stats d) (markets d) (market_prices d)
    (twap_intents d) (twap_child_intents d) (event_bus d) (stream_bus d)
    (cached_balances d) x (user_activity d) (solvers d) (cached_leaderboard d)
    (spawned_leaderboard_invalidations d) (cached_market d) (cached_market_list d)
    (cached_prices d) (oracle_price_history d) (price_updates d) (cross_chain_legs d)
    (htlc_swaps d) (breakers d) (wallets d) (transactions d).
Definition set_user_activity x (d : CoreDb) : CoreDb :=
  mkCoreDb (users d) (accounts d) (balances d) (ledger_entries d) (intents d)
    (intent_amendments d) (bids d) (fills d) (executions d) (trades d)
    (failed_settlements d) (solver_stats d) (markets d) (market_prices d)
    (twap_intents d) (twap_child_intents d) (event_bus d) (stream_bus d)
    (cached_balances d) (spawned_invalidations d) x (solvers d) (cached_leaderboard d)
    (spawned_leaderboard_invalidations d) (cached_market d) (cached_market_list d)
    (cached_prices d) (oracle_price_history d) (price_updates d) (cross_chain_legs d)
    (htlc_swaps d) (breakers d) (wallets d) (transactions d).
Definition set_solvers x (d : CoreDb) : CoreDb :=
  mkCoreDb (users d) (accounts d) (balances d) (ledger_entries d) (intents d)
    (intent_amendments d) (bids d) (fills d) (executions d) (trades d)
    (failed_settlements d) (solver_stats d) (markets d) (market_prices d)
    (twap_intents d) (twap_child_intents d) (event_bus d) (stream_bus d)
    (cached_balances d) (spawned_invalidations d) (user_activity d) x
    (cached_leaderboard d) (spawned_leaderboard_invalidations d) (cached_market d)
    (cached_market_list d) (cached_prices d) (oracle_price_history d) (price_updates d)
    (cross_chain_legs d) (htlc_swaps d) (breakers d) (wallets d) (transactions d).
Definition set_cached_leaderboard x (d : CoreDb) : CoreDb :=
  mkCoreDb (users d) (accounts d) (balances d) (ledger_entries d) (intents d)
    (intent_amendments d) (bids d) (fills d) (executions d) (trades d)
    (failed_settlements d) (solver_stats d) (markets d) (market_prices d)
    (twap_intents d) (twap_child_intents d) (event_bus d) (stream_bus d)
    (cached_balances d) (spawned_invalidations d) (user_activity d) (solvers d) x
    (spawned_leaderboard_invalidations d) (cached_market d) (cached_market_list d)
    (cached_prices d) (oracle_price_history d) (price_updates d) (cross_chain_legs d)
    (htlc_swaps d) (breakers d) (wallets d) (transactions d).
Definition set_spawned_leaderboard_invalidations x (d : CoreDb) : CoreDb :=
  mkCoreDb (users d) (accounts d) (balances d) (ledger_entries d) (intents d)
    (intent_amendments d) (bids d) (fills d) (executions d) (trades d)
    (failed_settlements d) (solver_stats d) (markets d) (market_prices d)
    (twap_intents d) (twap_child_intents d) (event_bus d) (stream_bus d)
    (cached_balances d) (spawned_invalidations d) (user_activity d) (solvers d)
    (cached_leaderboard d) x (cached_market d) (cached_market_list d) (cached_prices d)
    (oracle_price_history d) (price_updates d) (cross_chain_legs d) (htlc_swaps d)
    (breakers d) (wallets d) (transactions d).
Definition set_cached_market x (d : CoreDb) : CoreDb :=
  mkCoreDb (users d) (accounts d) (balances d) (ledger_entries d) (intents d)
    (intent_amendments d) (bids d) (fills d) (executions d) (trades d)
    (failed_settlements d) (solver_stats d) (markets d) (market_prices d)
    (twap_intents d) (twap_child_intents d) (event_bus d) (stream_bus d)
    (cached_balances d) (spawned_invalidations d) (user_activity d) (solvers d)
    (cached_leaderboard d) (spawned_leaderboard_invalidations d) x
    (cached_market_list d) (cached_prices d) (oracle_price_history d) (price_updates d)
    (cross_chain_legs d) (htlc_swaps d) (breakers d) (wallets d) (transactions d).
Definition set_cached_market_list x (d : CoreDb) : CoreDb :=
  mkCoreDb (users d) (accounts d) (balances d) (ledger_entries d) (intents d)
    (intent_amendments d) (bids d) (fills d) (executions d) (trades d)
    (failed_settlements d) (solver_stats d) (markets d) (market_prices d)
    (twap_intents d) (twap_child_intents d) (event_bus d) (stream_bus d)
    (cached_balances d) (spawned_invalidations d) (user_activity d) (solvers d)
    (cached_leaderboard d) (spawned_leaderboard_invalidations d) (cached_market d) x
    (cached_prices d) (oracle_price_history d) (price_updates d) (cross_chain_legs d)
    (htlc_swaps d) (breakers d) (wallets d) (transactions d).
Definition set_cached_prices x (d : CoreDb) : CoreDb :=
  mkCoreDb (users d) (accounts d) (balances d) (ledger_entries d) (intents d)
    (intent_amendments d) (bids d) (fills d) (executions d) (trades d)
    (failed_settlements d) (solver_stats d) (markets d) (market_prices d)
    (twap_intents d) (twap_child_intents d) (event_bus d) (stream_bus d)
    (cached_balances d) (spawned_invalidations d) (user_activity d) (solvers d)
    (cached_leaderboard d) (spawned_leaderboard_invalidations d) (cached_market d)
    (cached_market_list d) x (oracle_price_history d) (price_updates d)
    (cross_chain_legs d) (htlc_swaps d) (breakers d) (wallets d) (transactions d).
Definition set_oracle_price_history x (d : CoreDb) : CoreDb :=
  mkCoreDb (users d) (accounts d) (balances d) (ledger_entries d) (intents d)
    (intent_amendments d) (bids d) (fills d) (executions d) (trades d)
    (failed_settlements d) (solver_stats d) (markets d) (market_prices d)
    (twap_intents d) (twap_child_intents d) (event_bus d) (stream_bus d)
    (cached_balances d) (spawned_invalidations d) (user_activity d) (solvers d)
    (cached_leaderboard d) (spawned_leaderboard_invalidations d) (cached_market d)
    (cached_market_list d) (cached_prices d) x (price_updates d) (cross_chain_legs d)
    (htlc_swaps d) (breakers d) (wallets d) (transactions d).
Definition set_price_updates x (d : CoreDb) : CoreDb :=
  mkCoreDb (users d) (accounts d) (balances d) (ledger_entries d) (intents d)
    (intent_amendments d) (bids d) (fills d) (executions d) (trades d)
    (failed_settlements d) (solver_stats d) (markets d) (market_prices d)
    (twap_intents d) (twap_child_intents d) (event_bus d) (stream_bus d)
    (cached_balances d) (spawned_invalidations d) (user_activity d) (solvers d)
    (cached_leaderboard d) (spawned_leaderboard_invalidations d) (cached_market d)
    (cached_market_list d) (cached_prices d) (oracle_price_history d) x
    (cross_chain_legs d) (htlc_swaps d) (breakers d) (wallets d) (transactions d).
Definition set_cross_chain_legs x (d : CoreDb) : CoreDb :=
  mkCoreDb (users d) (accounts d) (balances d) (ledger_entries d) (intents d)
    (intent_amendments d) (bids d) (fills d) (executions d) (trades d)
    (failed_settlements d) (solver_stats d) (markets d) (market_prices d)
    (twap_intents d) (twap_child_intents d) (event_bus d) (stream_bus d)
    (cached_balances d) (spawned_invalidations d) (user_activity d) (solvers d)
    (cached_leaderboard d) (spawned_leaderboard_invalidations d) (cached_market d)
    (cached_market_list d) (cached_prices d) (oracle_price_history d) (price_updates d)
    x (htlc_swaps d) (breakers d) (wallets d) (transactions d).
Definition set_htlc_swaps x (d : CoreDb) : CoreDb :=
  mkCoreDb (users d) (accounts d) (balances d) (ledger_entries d) (intents d)
    (intent_amendments d) (bids d) (fills d) (executions d) (trades d)
    (failed_settlements d) (solver_stats d) (markets d) (market_prices d)
    (twap_intents d) (twap_child_intents d) (event_bus d) (stream_bus d)
    (cached_balances d) (spawned_invalidations d) (user_activity d) (solvers d)
    (cached_leaderboard d) (spawned_leaderboard_invalidations d) (cached_market d)
    (cached_market_list d) (cached_prices d) (oracle_price_history d) (price_updates d)
    (cross_chain_legs d) x (breakers d) (wallets d) (transactions d).
Definition set_breakers x (d : CoreDb) : CoreDb :=
  mkCoreDb (users d) (accounts d) (balances d) (ledger_entries d) (intents d)
    (intent_amendments d) (bids d) (fills d) (executions d) (trades d)
    (failed_settlements d) (solver_stats d) (markets d) (market_prices d)
    (twap_intents d) (twap_child_intents d) (event_bus d) (stream_bus d)
    (cached_balances d) (spawned_invalidations d) (user_activity d) (solvers d)
    (cached_leaderboard d) (spawned_leaderboard_invalidations d) (cached_market d)
    (cached_market_list d) (cached_prices d) (oracle_price_history d) (price_updates d)
    (cross_chain_legs d) (htlc_swaps d) x (wallets d) (transactions d).
Definition set_wallets x (d : CoreDb) : CoreDb :=
  mkCoreDb (users d) (accounts d) (balances d) (ledger_entries d) (intents d)
    (intent_amendments d) (bids d) (fills d) (executions d) (trades d)
    (failed_settlements d) (solver_stats d) (markets d) (market_prices d)
    (twap_intents d) (twap_child_intents d) (event_bus d) (stream_bus d)
    (cached_balances d) (spawned_invalidations d) (user_activity d) (solvers d)
    (cached_leaderboard d) (spawned_leaderboard_invalidations d) (cached_market d)
    (cached_market_list d) (cached_prices d) (oracle_price_history d) (price_updates d)
    (cross_chain_legs d) (htlc_swaps d) (breakers d) x (transactions d).
Definition set_transactions x (d : CoreDb) : CoreDb :=
  mkCoreDb (users d) (accounts d) (balances d) (ledger_entries d) (intents d)
    (intent_amendments d) (bids d) (fills d) (executions d) (trades d)
    (failed_settlements d) (solver_stats d) (markets d) (market_prices d)
    (twap_intents d) (twap_child_intents d) (event_bus d) (stream_bus d)
    (cached_balances d) (spawned_invalidations d) (user_activity d) (solvers d)
    (cached_leaderboard d) (spawned_leaderboard_invalidations d) (cached_market d)
    (cached_market_list d) (cached_prices d) (oracle_price_history d) (price_updates d)
    (cross_chain_legs d) (htlc_swaps d) (breakers d) (wallets d) x.

(** ** UUIDs as text

    [uuid::Uuid]'s [Display] and [FromStr], and Postgres' cast to text. *)
Class UuidText := {
  uuid_text : Uuid → string;
  uuid_parse : string → option Uuid;
  uuid_parse_text : ∀ u, uuid_parse (uuid_text u) = Some u;
}.

(** An instance for concrete runs: decimal digits. *)
Module DecimalUuid.
Definition to_text (u : Uuid) : string := DecimalString.NilZero.string_of_uint (N.to_uint u).
Definition of_text (s : string) : option Uuid := N.of_uint <$> DecimalString.NilZero.uint_of_string s.
Lemma of_to u : of_text (to_text u) = Some u.
Proof.
    unfold of_text, to_text. rewrite DecimalString.NilZero.usu; simpl.
    - by rewrite DecimalN.Unsigned.of_to.
    - destruct u; [done|]. simpl. apply DecimalPos.Unsigned.to_uint_nonnil.
Qed.
Definition instance : UuidText :=
    {| uuid_text := to_text; uuid_parse := of_text; uuid_parse_text := of_to |}.
End DecimalUuid.
