(* ===== verification/Ledger.v ===== *)
(** * The double-entry ledger: [src/src/ledger/{service,repository}.rs]

    [ledger_entries] is append-only.  [compute_balance] reads an account's
    balance back from its entries: what was debited less what was credited. *)
From S2P Require Import Prelude Monad Float64 Model.

(** How the driver reads a NUMERIC column ([SUM] of BIGINTs) into an [i64]:
    third-party, so a parameter. *)
Class NumericDecode := { numeric_as_i64 : Z → option Z }.

Module LedgerRepository.

(** PRIMARY KEY (id, created_at), migration 022. *)
Definition insert_row (e : LedgerEntry) (d : CoreDb) : option (unit * CoreDb) :=
  if existsb (λ r, (l_id r =? l_id e)%N && (l_created_at r =? l_created_at e)%Z)
       (ledger_entries d)
  then None
  else Some (tt, set_ledger_entries (ledger_entries d ++ [e]) d).

Definition insert (e : LedgerEntry) : M CoreDb unit SqlxError := stmt (insert_row e).

Definition find_by_account_id (account_id : Uuid) : M CoreDb (list LedgerEntry) SqlxError :=
  query (λ d, sort_by (λ x y, (l_created_at y <=? l_created_at x)%Z)
    (sql_select (λ e, (l_account_id e =? account_id)%N) (ledger_entries d))).

Definition find_by_reference_id (reference_id : Uuid) : M CoreDb (list LedgerEntry) SqlxError :=
  query (λ d, sort_by (λ x y, (l_created_at x <=? l_created_at y)%Z)
    (sql_select (λ e, (l_reference_id e =? reference_id)%N) (ledger_entries d))).

(** [CASE WHEN entry_type = 'DEBIT' THEN amount ELSE -amount END] *)
Definition signed_amount (e : LedgerEntry) : Z :=
  match l_entry_type e with DEBIT => l_amount e | CREDIT => (- l_amount e)%Z end.

Definition ledger_sum (account_id : Uuid) (asset : Asset) (t : list LedgerEntry) : Z :=
  sum_by signed_amount
    (sql_select (λ e, (l_account_id e =? account_id)%N && bool_decide (l_asset e = asset)) t).

Definition compute_balance `{NumericDecode} (account_id : Uuid) (asset : Asset)
  : M CoreDb Z SqlxError :=
  let* n := query (λ d, ledger_sum account_id asset (ledger_entries d)) in
  of_option (SqlProtocol "ColumnDecode") (numeric_as_i64 n).

End LedgerRepository.

Module LedgerService.

Inductive LedgerError := DbError (e : SqlxError).

Definition create_entry (account_id : Uuid) (asset : Asset) (amount : Z)
    (entry_type : EntryType) (reference_type : ReferenceType) (reference_id : Uuid)
  : M CoreDb LedgerEntry LedgerError :=
  let* id := new_v4 in
  let* t := now in
  let entry := mkLedgerEntry id account_id asset amount entry_type reference_type reference_id t in
  map_err DbError (LedgerRepository.insert entry) ;;;
  ret entry.

Definition create_double_entry (debit_account_id credit_account_id : Uuid) (asset : Asset)
    (amount : Z) (reference_type : ReferenceType) (reference_id : Uuid)
  : M CoreDb (LedgerEntry * LedgerEntry) LedgerError :=
  let* debit := create_entry debit_account_id asset amount DEBIT reference_type reference_id in
  let* credit := create_entry credit_account_id asset amount CREDIT reference_type reference_id in
  ret (debit, credit).

Definition get_entries (account_id : Uuid) : M CoreDb (list LedgerEntry) LedgerError :=
  map_err DbError (LedgerRepository.find_by_account_id account_id).
Definition get_entries_by_reference (reference_id : Uuid)
  : M CoreDb (list LedgerEntry) LedgerError :=
  map_err DbError (LedgerRepository.find_by_reference_id reference_id).
Definition get_balance `{NumericDecode} (account_id : Uuid) (asset : Asset)
  : M CoreDb Z LedgerError :=
  map_err DbError (LedgerRepository.compute_balance account_id asset).

End LedgerService.

(** ** Lemmas *)

Import LedgerRepository.

(** What one entry adds to the ledger balance of [(account_id, asset)]. *)
Definition entry_effect (account_id : Uuid) (asset : Asset) (e : LedgerEntry) : Z :=
  if (l_account_id e =? account_id)%N && bool_decide (l_asset e = asset)
  then signed_amount e else 0%Z.

Lemma ledger_sum_effect account_id asset t :
  ledger_sum account_id asset t = sum_by (entry_effect account_id asset) t.
Proof.
  unfold ledger_sum, sql_select. induction t as [|e t IH]; simpl; [done|].
  rewrite <- IH. unfold entry_effect at 1. by destruct (_ && _).
Qed.

Lemma ledger_sum_app account_id asset t1 t2 :
  ledger_sum account_id asset (t1 ++ t2) =
  (ledger_sum account_id asset t1 + ledger_sum account_id asset t2)%Z.
Proof. by rewrite !ledger_sum_effect, sum_by_app. Qed.

(** Inserting an entry touches nothing but the ledger, and appends. *)
Lemma insert_row_Some e d u d' :
  insert_row e d = Some (u, d') → d' = set_ledger_entries (ledger_entries d ++ [e]) d.
Proof. unfold insert_row. destruct (existsb _ _); naive_solver. Qed.

Lemma insert_Ok e env u env' :
  insert e env = (Ok u, env') →
  env_db env' = set_ledger_entries (ledger_entries (env_db env) ++ [e]) (env_db env).
Proof. unfold insert. intros H. run_inv. simpl. by eapply insert_row_Some. Qed.

Lemma create_entry_Ok acc asset amount et rt rid env e env' :
  LedgerService.create_entry acc asset amount et rt rid env = (Ok e, env') →
  env_db env' = set_ledger_entries (ledger_entries (env_db env) ++ [e]) (env_db env) ∧
  l_account_id e = acc ∧ l_asset e = asset ∧ l_amount e = amount ∧
  l_entry_type e = et ∧ l_reference_type e = rt ∧ l_reference_id e = rid.
Proof.
  unfold LedgerService.create_entry. intros H. run_inv.
  match goal with H : insert _ _ = _ |- _ => apply insert_Ok in H; simpl in H end.
  done.
Qed.

Lemma create_double_entry_Ok acc1 acc2 asset amount rt rid env p env' :
  LedgerService.create_double_entry acc1 acc2 asset amount rt rid env = (Ok p, env') →
  env_db env' =
    set_ledger_entries (ledger_entries (env_db env) ++ [p.1; p.2]) (env_db env) ∧
  (∀ a b, entry_effect a b p.1 =
     if (acc1 =? a)%N && bool_decide (asset = b) then amount else 0%Z) ∧
  (∀ a b, entry_effect a b p.2 =
     if (acc2 =? a)%N && bool_decide (asset = b) then (- amount)%Z else 0%Z).
Proof.
  unfold LedgerService.create_double_entry. intros H. run_inv.
  repeat match goal with H : LedgerService.create_entry _ _ _ _ _ _ _ = _ |- _ =>
    apply create_entry_Ok in H as (? & ? & ? & ? & ? & ? & ?) end.
  simpl. split.
  - db_rw. unfold set_ledger_entries; simpl. by rewrite <- app_assoc.
  - unfold entry_effect, signed_amount. split; intros ? ?; simpl; subst;
      repeat match goal with H : ?f ?x = _ |- context [?f ?x] => rewrite H end; done.
Qed.
