(* ===== verification/Balances.v ===== *)
(** * Balances: [src/src/balances/{repository,service}.rs]

    One row of [balances] per account and asset, split into an available and a
    locked part.  The first half models the repository and the service; the
    second half gives the abstract account ([view]) that the rows represent,
    the relation [moves] every balance write satisfies, and the lemmas by
    which the services that write balances are proved against it. *)
From S2P Require Import Prelude Monad Float64 Model Ledger.

(** ** The repository *)

Definition is_row (account_id : Uuid) (asset : Asset) (r : Balance) : bool :=
  (b_account_id r =? account_id)%N && bool_decide (b_asset r = asset).

Definition find_row (account_id : Uuid) (asset : Asset) (t : list Balance) : option Balance :=
  sql_one (is_row account_id asset) t.

Module BalanceRepository.

(** INSERT INTO balances: PRIMARY KEY (id), UNIQUE (account_id, asset), and
    account_id REFERENCES accounts (migration 003). *)
Definition insert_row (b : Balance) (d : CoreDb) : option (unit * CoreDb) :=
  if existsb (λ r, (b_id r =? b_id b)%N) (balances d)
     || existsb (is_row (b_account_id b) (b_asset b)) (balances d)
     || negb (existsb (λ a, (a_id a =? b_account_id b)%N) (accounts d))
  then None
  else Some (tt, set_balances (balances d ++ [b]) d).

Definition find_or_create (account_id : Uuid) (asset : Asset) : M CoreDb Balance SqlxError :=
  let* existing := query (λ d, find_row account_id asset (balances d)) in
  match existing with
  | Some balance => ret balance
  | None =>
      let* id := new_v4 in
      let* t := now in
      let balance := mkBalance id account_id asset 0 0 t in
      stmt (insert_row balance) ;;;
      ret balance
  end.

(** UPDATE balances SET available_balance, locked_balance, updated_at WHERE id *)
Definition update_row (balance : Balance) : list Balance → list Balance :=
  sql_update (λ r, (b_id r =? b_id balance)%N)
    (λ r, mkBalance (b_id r) (b_account_id r) (b_asset r) (b_available_balance balance)
            (b_locked_balance balance) (b_updated_at balance)).

Definition update (balance : Balance) : M CoreDb unit SqlxError :=
  exec (λ d, set_balances (update_row balance (balances d)) d).

Definition find_by_account_id (account_id : Uuid) : M CoreDb (list Balance) SqlxError :=
  query (λ d, sql_select (λ r, (b_account_id r =? account_id)%N) (balances d)).

End BalanceRepository.

(** ** The service *)

Inductive BalanceError :=
| InsufficientBalance
| InsufficientLockedBalance
| InvalidAmount
| DbError (e : SqlxError)
| LedgerError (e : LedgerService.LedgerError).

Module BalanceService.
Section service.

(** [self.cache.is_some()] *)
Context (has_cache : bool).
Open Scope rust_scope.

Definition invalidate_cache (account_id : Uuid) : M CoreDb unit BalanceError :=
  if has_cache
  then modify (λ d, set_spawned_invalidations (spawned_invalidations d ++ [account_id]) d)
  else ret tt.

Definition set_amounts (b : Balance) (available locked t : Z) : Balance :=
  mkBalance (b_id b) (b_account_id b) (b_asset b) available locked t.

Definition deposit (account_id : Uuid) (asset : Asset) (amount : Z)
  : M CoreDb Balance BalanceError :=
  if (amount <=? 0)%Z then throw InvalidAmount else
  let* b := map_err DbError (BalanceRepository.find_or_create account_id asset) in
  let* t := now in
  let balance := set_amounts b (b_available_balance b +i amount) (b_locked_balance b) t in
  map_err DbError (BalanceRepository.update balance) ;;;
  invalidate_cache account_id ;;;
  let* reference_id := new_v4 in
  map_err LedgerError
    (LedgerService.create_entry account_id asset amount DEBIT DEPOSIT reference_id) ;;;
  ret balance.

Definition withdraw (account_id : Uuid) (asset : Asset) (amount : Z)
  : M CoreDb Balance BalanceError :=
  if (amount <=? 0)%Z then throw InvalidAmount else
  let* b := map_err DbError (BalanceRepository.find_or_create account_id asset) in
  if (b_available_balance b <? amount)%Z then throw InsufficientBalance else
  let* t := now in
  let balance := set_amounts b (b_available_balance b -i amount) (b_locked_balance b) t in
  map_err DbError (BalanceRepository.update balance) ;;;
  invalidate_cache account_id ;;;
  let* reference_id := new_v4 in
  map_err LedgerError
    (LedgerService.create_entry account_id asset amount CREDIT WITHDRAWAL reference_id) ;;;
  ret balance.

Definition lock_balance (account_id : Uuid) (asset : Asset) (amount : Z)
  : M CoreDb Balance BalanceError :=
  if (amount <=? 0)%Z then throw InvalidAmount else
  let* b := map_err DbError (BalanceRepository.find_or_create account_id asset) in
  if (b_available_balance b <? amount)%Z then throw InsufficientBalance else
  let* t := now in
  let balance := set_amounts b (b_available_balance b -i amount) (b_locked_balance b +i amount) t in
  map_err DbError (BalanceRepository.update balance) ;;;
  invalidate_cache account_id ;;;
  ret balance.

Definition unlock_balance (account_id : Uuid) (asset : Asset) (amount : Z)
  : M CoreDb Balance BalanceError :=
  if (amount <=? 0)%Z then throw InvalidAmount else
  let* b := map_err DbError (BalanceRepository.find_or_create account_id asset) in
  if (b_locked_balance b <? amount)%Z then throw InsufficientLockedBalance else
  let* t := now in
  let balance := set_amounts b (b_available_balance b +i amount) (b_locked_balance b -i amount) t in
  map_err DbError (BalanceRepository.update balance) ;;;
  invalidate_cache account_id ;;;
  ret balance.

Definition transfer (from_account_id to_account_id : Uuid) (asset : Asset) (amount : Z)
  : M CoreDb (Balance * Balance) BalanceError :=
  if (amount <=? 0)%Z then throw InvalidAmount else
  let* from := map_err DbError (BalanceRepository.find_or_create from_account_id asset) in
  if (b_available_balance from <? amount)%Z then throw InsufficientBalance else
  let* to := map_err DbError (BalanceRepository.find_or_create to_account_id asset) in
  let* t := now in
  let from := set_amounts from (b_available_balance from -i amount) (b_locked_balance from) t in
  let to := set_amounts to (b_available_balance to +i amount) (b_locked_balance to) t in
  map_err DbError (BalanceRepository.update from) ;;;
  map_err DbError (BalanceRepository.update to) ;;;
  invalidate_cache from_account_id ;;;
  invalidate_cache to_account_id ;;;
  let* reference_id := new_v4 in
  map_err LedgerError
    (LedgerService.create_double_entry from_account_id to_account_id asset amount TRADE
       reference_id) ;;;
  ret (from, to).

(** [CacheService::get]: a Redis failure and an expired key both read as a miss. *)
Definition cache_get (account_id : Uuid) : M CoreDb (option (list Balance)) BalanceError :=
  let* r := attempt (query (λ d,
      snd <$> sql_one (λ kv, (fst kv =? account_id)%N) (cached_balances d))) in
  match r with Ok o => ret o | Err _ => ret None end.

Definition cache_set (account_id : Uuid) (v : list Balance) : M CoreDb unit BalanceError :=
  attempt (exec (λ d, set_cached_balances
      ((account_id, v) :: sql_delete (λ kv, (fst kv =? account_id)%N) (cached_balances d)) d)) ;;;
  ret tt.

(** The task [invalidate_cache] spawned: [DEL cache:balances:<id>]. *)
Definition run_invalidation : M CoreDb unit BalanceError :=
  let* o := reads (λ d, head (spawned_invalidations d)) in
  match o with
  | None => ret tt
  | Some account_id =>
      modify (λ d, set_spawned_invalidations (tail (spawned_invalidations d)) d) ;;;
      attempt (exec (λ d, set_cached_balances
        (sql_delete (λ kv, (fst kv =? account_id)%N) (cached_balances d)) d)) ;;;
      ret tt
  end.

Definition get_balances (account_id : Uuid) : M CoreDb (list Balance) BalanceError :=
  let* hit := (if has_cache then cache_get account_id else ret None) in
  match hit with
  | Some balances => ret balances
  | None =>
      let* balances := map_err DbError (BalanceRepository.find_by_account_id account_id) in
      (if has_cache then cache_set account_id balances else ret tt) ;;;
      ret balances
  end.

End service.
End BalanceService.

(** ** The abstract account

    [available t k] and [locked t k] are what the rows of [t] say of the key
    [k]; an absent row counts as zero. *)

Definition Key : Type := Uuid * Asset.
Definition b_key (b : Balance) : Key := (b_account_id b, b_asset b).

Definition available (t : list Balance) (k : Key) : Z :=
  match find_row (fst k) (snd k) t with Some b => b_available_balance b | None => 0 end.
Definition locked (t : list Balance) (k : Key) : Z :=
  match find_row (fst k) (snd k) t with Some b => b_locked_balance b | None => 0 end.

(** What all the accounts together hold of an asset. *)
Definition holding (a : Asset) (b : Balance) : Z :=
  if decide (b_asset b = a) then (b_available_balance b + b_locked_balance b)%Z else 0%Z.
Definition asset_total (a : Asset) (t : list Balance) : Z := sum_by (holding a) t.

(** The two unique constraints of the table. *)
Record wf_balances (t : list Balance) : Prop := {
  wf_ids : NoDup (map b_id t);
  wf_keys : NoDup (map b_key t);
}.

Definition solvent (t : list Balance) : Prop :=
  ∀ b, b ∈ t → (0 ≤ b_available_balance b)%Z ∧ (0 ≤ b_locked_balance b)%Z.

(** A posting adds to one account's available and locked balances; a list of
    postings is the abstract specification of an operation. *)
Record Posting := mkPosting {
  p_key : Key;
  p_available : Z;
  p_locked : Z;
}.

Definition at_key (k : Key) (w : Posting → Z) (p : Posting) : Z :=
  if decide (p_key p = k) then w p else 0%Z.
Definition at_asset (a : Asset) (p : Posting) : Z :=
  if decide (snd (p_key p) = a) then (p_available p + p_locked p)%Z else 0%Z.

Definition has_row (k : Key) (t : list Balance) : Prop := ∃ b, b ∈ t ∧ b_key b = k.

(** [posts ps t t']: [t'] is [t] with the postings [ps] made. *)
Record posts (ps : list Posting) (t t' : list Balance) : Prop := {
  posts_keeps k : has_row k t → has_row k t';
  posts_wf : wf_balances t → wf_balances t';
  posts_available k : wf_balances t →
    available t' k = (available t k + sum_by (at_key k p_available) ps)%Z;
  posts_locked k : wf_balances t →
    locked t' k = (locked t k + sum_by (at_key k p_locked) ps)%Z;
  posts_total a : wf_balances t →
    asset_total a t' = (asset_total a t + sum_by (at_asset a) ps)%Z;
}.

Lemma posts_nil t : posts [] t t.
Proof. split; intros; simpl; auto; lia. Qed.

Lemma posts_app ps1 ps2 t1 t2 t3 :
  posts ps1 t1 t2 → posts ps2 t2 t3 → posts (ps1 ++ ps2) t1 t3.
Proof.
  intros [K1 W1 A1 L1 T1] [K2 W2 A2 L2 T2]. split; intros; rewrite ?sum_by_app.
  - auto.
  - auto.
  - rewrite A2, A1 by auto. lia.
  - rewrite L2, L1 by auto. lia.
  - rewrite T2, T1 by auto. lia.
Qed.

Lemma posts_eq ps ps' t t' : posts ps t t' → ps = ps' → posts ps' t t'.
Proof. by intros ? <-. Qed.

Lemma posts_cons p ps t1 t2 t3 : posts [p] t1 t2 → posts ps t2 t3 → posts (p :: ps) t1 t3.
Proof. apply (posts_app [p]). Qed.

Lemma is_row_true k r : is_row (fst k) (snd k) r = true ↔ b_key r = k.
Proof.
  unfold is_row, b_key. destruct k as [acc a]; simpl.
  rewrite andb_true_iff, N.eqb_eq, bool_decide_eq_true. naive_solver.
Qed.

Lemma find_row_Some k t b :
  find_row (fst k) (snd k) t = Some b → b ∈ t ∧ b_key b = k.
Proof. intros [H1 H2]%sql_one_Some. by apply is_row_true in H2. Qed.

Lemma find_row_None k t b :
  find_row (fst k) (snd k) t = None → b ∈ t → b_key b ≠ k.
Proof. intros H Hb Hk%is_row_true. eapply sql_one_None in H; [|done]. congruence. Qed.

Lemma find_row_unique t b :
  wf_balances t → b ∈ t → find_row (b_account_id b) (b_asset b) t = Some b.
Proof.
  intros Hwf Hb. apply (sql_one_unique b_key); [apply Hwf| |done|].
  - intros r _. apply (is_row_true (b_key b)).
  - by apply (is_row_true (b_key b)).
Qed.

Lemma available_row t b : wf_balances t → b ∈ t → available t (b_key b) = b_available_balance b.
Proof. intros. unfold available. simpl. by rewrite find_row_unique. Qed.

Lemma locked_row t b : wf_balances t → b ∈ t → locked t (b_key b) = b_locked_balance b.
Proof. intros. unfold locked. simpl. by rewrite find_row_unique. Qed.

Lemma solvent_available t k : solvent t → (0 ≤ available t k)%Z.
Proof.
  intros H. unfold available. destruct (find_row _ _ t) eqn:E; [|done].
  apply find_row_Some in E as [E _]. by apply H.
Qed.

Lemma solvent_locked t k : solvent t → (0 ≤ locked t k)%Z.
Proof.
  intros H. unfold locked. destruct (find_row _ _ t) eqn:E; [|done].
  apply find_row_Some in E as [E _]. by apply H.
Qed.

Lemma solvent_iff t :
  wf_balances t → solvent t ↔ ∀ k, (0 ≤ available t k)%Z ∧ (0 ≤ locked t k)%Z.
Proof.
  intros Hwf. split.
  - intros H k. auto using solvent_available, solvent_locked.
  - intros H b Hb. specialize (H (b_key b)).
    by rewrite available_row, locked_row in H.
Qed.

(** A balance is part of its asset's total. *)
Lemma balance_le_total t k :
  solvent t → (available t k + locked t k ≤ asset_total (snd k) t)%Z.
Proof.
  intros H. assert (∀ r, r ∈ t → 0 ≤ holding (snd k) r)%Z as Hpos.
  { intros r Hr. unfold holding. specialize (H r Hr). case_decide; lia. }
  unfold available, locked. destruct (find_row _ _ t) as [b|] eqn:E.
  - apply find_row_Some in E as [Hb <-].
    pose proof (sum_by_elem_le _ t b Hpos Hb) as Hle. unfold asset_total.
    unfold holding at 1 in Hle. simpl in Hle. rewrite decide_True in Hle by done. done.
  - by apply sum_by_nonneg.
Qed.

(** ** The balance writes of the source, as postings *)

(** An UPDATE whose WHERE picks the one row [b] and leaves its keys alone. *)
Lemma posts_update (sel : Balance → bool) (f : Balance → Balance) t b :
  wf_balances t → b ∈ t → sel b = true →
  (∀ r, r ∈ t → sel r = true → r = b) →
  (∀ r, b_id (f r) = b_id r) → (∀ r, b_key (f r) = b_key r) →
  posts [mkPosting (b_key b) (b_available_balance (f b) - b_available_balance b)
           (b_locked_balance (f b) - b_locked_balance b)] t (sql_update sel f t).
Proof.
  intros Hwf Hb Hsel Huniq Hid Hkey.
  set (g := λ r, if sel r then f r else r).
  assert (∀ k r, is_row (fst k) (snd k) (g r) = is_row (fst k) (snd k) r) as Hg.
  { intros k r. apply Bool.eq_iff_eq_true. rewrite !is_row_true. unfold g.
    destruct (sel r); [by rewrite Hkey|done]. }
  assert (∀ k, find_row (fst k) (snd k) (sql_update sel f t) =
               g <$> find_row (fst k) (snd k) t) as Hfind.
  { intros k. apply sql_one_map, Hg. }
  assert (∀ k r, find_row (fst k) (snd k) t = Some r →
            g r = if decide (b_key b = k) then f b else r) as Hrow.
  { intros k r [Hr <-]%find_row_Some. unfold g. destruct (sel r) eqn:E.
    - rewrite (Huniq r) by done. by rewrite decide_True.
    - rewrite decide_False; [done|]. intros Hk.
      rewrite (NoDup_map_inj b_key t b r) in Hsel; try done; [congruence|apply Hwf]. }
  assert (∀ k, b_key b = k → find_row (fst k) (snd k) t = Some b) as Hb'.
  { intros k <-. by apply find_row_unique. }
  split.
  - intros k (r & Hr & Hk). exists (g r). split.
    + apply elem_of_sql_update. eauto.
    + apply is_row_true. rewrite Hg. by apply is_row_true.
  - intros _. split.
    + rewrite map_sql_update by done. apply Hwf.
    + rewrite map_sql_update by done. apply Hwf.
  - intros k _. unfold available, at_key. simpl. rewrite Hfind.
    destruct (find_row _ _ t) as [r|] eqn:E; simpl.
    + rewrite (Hrow k r E). case_decide as D; [|lia]. rewrite Hb' in E by done.
      injection E as <-. lia.
    + case_decide as D; [|lia]. by rewrite Hb' in E.
  - intros k _. unfold locked, at_key. simpl. rewrite Hfind.
    destruct (find_row _ _ t) as [r|] eqn:E; simpl.
    + rewrite (Hrow k r E). case_decide as D; [|lia]. rewrite Hb' in E by done.
      injection E as <-. lia.
    + case_decide as D; [|lia]. by rewrite Hb' in E.
  - intros a _. unfold asset_total.
    rewrite (sum_by_update_unique b_id _ _ _ _ b); try done; [|apply Hwf|].
    + unfold holding, at_asset. simpl. specialize (Hkey b). unfold b_key in *. simpl.
      injection Hkey as _ ->. case_decide; lia.
    + intros r Hr Hs. by rewrite (Huniq r).
Qed.

Import BalanceRepository.

Lemma posts_insert b d u d' :
  insert_row b d = Some (u, d') →
  d' = set_balances (balances d ++ [b]) d ∧
  posts [mkPosting (b_key b) (b_available_balance b) (b_locked_balance b)]
    (balances d) (balances d').
Proof.
  unfold insert_row. destruct (_ || _) eqn:E; [done|]. intros [= <- <-]. split; [done|].
  apply orb_false_iff in E as [[Hid Hkey]%orb_false_iff _]. simpl.
  assert (∀ r, r ∈ balances d → b_key r ≠ b_key b) as Hnew.
  { intros r Hr Hk%is_row_true. simpl in Hk. eapply existsb_false_elem in Hkey; [|done].
    congruence. }
  assert (∀ k, find_row (fst k) (snd k) (balances d ++ [b]) =
    if decide (b_key b = k) then Some b else find_row (fst k) (snd k) (balances d)) as Hfind.
  { intros k. unfold find_row. rewrite sql_one_app. case_decide as D.
    - destruct (sql_one _ (balances d)) as [r|] eqn:Er.
      + apply find_row_Some in Er as [Hr Hk]. by destruct (Hnew r Hr); congruence.
      + unfold sql_one, sql_select. simpl. apply is_row_true in D. by rewrite D.
    - destruct (sql_one _ (balances d)) as [r|] eqn:Er; [done|].
      unfold sql_one, sql_select. simpl.
      destruct (is_row _ _ b) eqn:Eb; [by apply is_row_true in Eb|done]. }
  split.
  - intros k (r & Hr & Hk). exists r. simpl. set_solver.
  - intros Hwf. split; apply NoDup_map_snoc; try apply Hwf; [|done].
    intros r Hr Hi. eapply existsb_false_elem in Hid; [|done]. by apply N.eqb_neq in Hid.
  - intros k _. unfold available, at_key. simpl. rewrite Hfind.
    case_decide; [|lia]. destruct (find_row _ _ (balances d)) eqn:Er; [|lia].
    apply find_row_Some in Er as [Hr Hk]. by destruct (Hnew _ Hr); congruence.
  - intros k _. unfold locked, at_key. simpl. rewrite Hfind.
    case_decide; [|lia]. destruct (find_row _ _ (balances d)) eqn:Er; [|lia].
    apply find_row_Some in Er as [Hr Hk]. by destruct (Hnew _ Hr); congruence.
  - intros a _. unfold asset_total. rewrite sum_by_app. simpl. f_equal.
Qed.

Lemma posts_refl_zero k t : posts [mkPosting k 0 0] t t.
Proof.
  split; intros; simpl; unfold at_key, at_asset; simpl; try case_decide; auto; lia.
Qed.

(** A posting of nothing is no posting. *)
Lemma posts_zero k t t' : posts [mkPosting k 0 0] t t' → posts [] t t'.
Proof.
  intros [K W A L T]. split; [done|done|..]; intros x Hwf.
  - rewrite A by done. simpl. unfold at_key. simpl. case_decide; lia.
  - rewrite L by done. simpl. unfold at_key. simpl. case_decide; lia.
  - rewrite T by done. simpl. unfold at_asset. simpl. case_decide; lia.
Qed.

Lemma find_or_create_Ok acc asset e b e' :
  find_or_create acc asset e = (Ok b, e') →
  env_db e' = set_balances (balances (env_db e')) (env_db e) ∧
  posts [] (balances (env_db e)) (balances (env_db e')) ∧
  b ∈ balances (env_db e') ∧ b_key b = (acc, asset).
Proof.
  unfold find_or_create. intros H. run_inv1. run_inv1.
  destruct (find_row acc asset (balances (env_db e))) as [r|] eqn:E.
  - run_inv. simpl. apply (find_row_Some (acc, asset)) in E as [??].
    split_and!; try done; [by destruct (env_db e)|apply posts_nil].
  - run_inv. simpl in *.
    match goal with H : insert_row _ _ = Some _ |- _ => apply posts_insert in H as [-> Hp] end.
    simpl in *. split_and!; [done|by eapply posts_zero|set_solver|done].
Qed.

Lemma posts_update_row b available' locked' t' t :
  wf_balances t → b ∈ t →
  posts [mkPosting (b_key b) (available' - b_available_balance b) (locked' - b_locked_balance b)] t
    (update_row (BalanceService.set_amounts b available' locked' t') t).
Proof.
  intros Hwf Hb. unfold update_row.
  match goal with |- posts _ _ (sql_update ?s ?f _) =>
    apply (posts_update s f t b Hwf Hb); try done end.
  - apply N.eqb_refl.
  - intros r Hr Hi%N.eqb_eq. apply (NoDup_map_inj b_id t); [apply Hwf|done..].
Qed.

Lemma update_Ok b av lk t' e u e' :
  update (BalanceService.set_amounts b av lk t') e = (Ok u, e') →
  wf_balances (balances (env_db e)) → b ∈ balances (env_db e) →
  env_db e' = set_balances (balances (env_db e')) (env_db e) ∧
  posts [mkPosting (b_key b) (av - b_available_balance b) (lk - b_locked_balance b)]
    (balances (env_db e)) (balances (env_db e')).
Proof.
  unfold update. intros H Hwf Hb. run_inv. simpl. split; [done|]. by apply posts_update_row.
Qed.

Lemma invalidate_cache_Ok c acc e u e' :
  BalanceService.invalidate_cache c acc e = (Ok u, e') →
  ∃ si, env_db e' = set_spawned_invalidations si (env_db e).
Proof.
  unfold BalanceService.invalidate_cache. destruct c; intros H; run_inv; simpl; [eauto|].
  exists (spawned_invalidations (env_db e)). by destruct (env_db e).
Qed.

(** What no balance operation touches. *)
Definition other_tables (d : CoreDb) : CoreDb :=
  set_balances [] (set_ledger_entries [] (set_spawned_invalidations [] d)).

(** The effect of a balance operation on the database. *)
Record balance_effect (ps : list Posting) (es : list LedgerEntry) (d d' : CoreDb) : Prop := {
  be_posts : posts ps (balances d) (balances d');
  be_ledger : ledger_entries d' = ledger_entries d ++ es;
  be_frame : other_tables d' = other_tables d;
}.

Lemma balance_effect_refl d : balance_effect [] [] d d.
Proof. split; [apply posts_nil|by rewrite app_nil_r|done]. Qed.

Lemma balance_effect_app ps1 es1 ps2 es2 d1 d2 d3 :
  balance_effect ps1 es1 d1 d2 → balance_effect ps2 es2 d2 d3 →
  balance_effect (ps1 ++ ps2) (es1 ++ es2) d1 d3.
Proof.
  intros [P1 L1 F1] [P2 L2 F2]. split.
  - by eapply posts_app.
  - by rewrite L2, L1, <- app_assoc.
  - by rewrite F2.
Qed.

Lemma balance_effect_eq ps ps' es d d' :
  balance_effect ps es d d' → ps = ps' → balance_effect ps' es d d'.
Proof. by intros ? <-. Qed.

Section effects.
Implicit Types e : Env CoreDb.

Lemma find_or_create_effect acc asset e b e' :
  find_or_create acc asset e = (Ok b, e') →
  balance_effect [] [] (env_db e) (env_db e') ∧
  b ∈ balances (env_db e') ∧ b_key b = (acc, asset).
Proof.
  intros (Hdb & Hp & Hb & Hk)%find_or_create_Ok. split_and!; try done. split.
  - done.
  - rewrite Hdb, app_nil_r. done.
  - by rewrite Hdb.
Qed.

Lemma update_effect b av lk t' e u e' :
  update (BalanceService.set_amounts b av lk t') e = (Ok u, e') →
  wf_balances (balances (env_db e)) → b ∈ balances (env_db e) →
  balance_effect
    [mkPosting (b_key b) (av - b_available_balance b) (lk - b_locked_balance b)] []
    (env_db e) (env_db e').
Proof.
  intros H Hwf Hb. eapply update_Ok in H as [Hdb Hp]; [|done..]. split.
  - done.
  - rewrite Hdb, app_nil_r. done.
  - by rewrite Hdb.
Qed.

Lemma invalidate_effect c acc e u e' :
  BalanceService.invalidate_cache c acc e = (Ok u, e') →
  balance_effect [] [] (env_db e) (env_db e').
Proof.
  intros [si Hdb]%invalidate_cache_Ok. rewrite Hdb. split; simpl.
  - apply posts_nil.
  - by rewrite app_nil_r.
  - done.
Qed.

Lemma create_entry_effect acc asset amount et rt rid e le e' :
  LedgerService.create_entry acc asset amount et rt rid e = (Ok le, e') →
  balance_effect [] [le] (env_db e) (env_db e').
Proof.
  intros (Hdb & _)%create_entry_Ok. rewrite Hdb. split; simpl; [apply posts_nil|done..].
Qed.

Lemma create_double_entry_effect a1 a2 asset amount rt rid e p e' :
  LedgerService.create_double_entry a1 a2 asset amount rt rid e = (Ok p, e') →
  balance_effect [] [fst p; snd p] (env_db e) (env_db e').
Proof.
  intros (Hdb & _)%create_double_entry_Ok. rewrite Hdb.
  split; simpl; [apply posts_nil|done..].
Qed.

End effects.

(** The row [find_or_create] returns is the abstract balance of its key. *)
Lemma find_or_create_row acc asset e b e' :
  find_or_create acc asset e = (Ok b, e') → wf_balances (balances (env_db e)) →
  wf_balances (balances (env_db e')) ∧
  b_available_balance b = available (balances (env_db e)) (acc, asset) ∧
  b_locked_balance b = locked (balances (env_db e)) (acc, asset).
Proof.
  intros (_ & [_ W A L T] & Hb & Hk)%find_or_create_Ok Hwf. split_and!; [by apply W|..].
  - rewrite <- (available_row (balances (env_db e'))), Hk, A by auto. simpl. lia.
  - rewrite <- (locked_row (balances (env_db e'))), Hk, L by auto. simpl. lia.
Qed.

Lemma find_update_effect acc asset e b e1 av lk t' u e2 :
  find_or_create acc asset e = (Ok b, e1) →
  update (BalanceService.set_amounts b av lk t') e1 = (Ok u, e2) →
  wf_balances (balances (env_db e)) →
  balance_effect
    [mkPosting (acc, asset) (av - available (balances (env_db e)) (acc, asset))
       (lk - locked (balances (env_db e)) (acc, asset))] []
    (env_db e) (env_db e2).
Proof.
  intros Hf Hu Hwf. pose proof (find_or_create_row _ _ _ _ _ Hf Hwf) as (Hwf1 & <- & <-).
  apply find_or_create_effect in Hf as (He & Hb & <-).
  eapply (balance_effect_app [] [] _ []); [done|]. by eapply update_effect.
Qed.

Lemma effect_then_frame ps es d1 d2 d3 :
  balance_effect ps es d1 d2 → balance_effect [] [] d2 d3 → balance_effect ps es d1 d3.
Proof.
  intros H1 H2. pose proof (balance_effect_app _ _ _ _ _ _ _ H1 H2) as H.
  by rewrite !app_nil_r in H.
Qed.

Lemma effect_then_entries ps es d1 d2 d3 :
  balance_effect ps [] d1 d2 → balance_effect [] es d2 d3 → balance_effect ps es d1 d3.
Proof.
  intros H1 H2. pose proof (balance_effect_app _ _ _ _ _ _ _ H1 H2) as H.
  by rewrite app_nil_r in H.
Qed.

Lemma key_decide (acc a : Uuid) (asset b : Asset) (z : Z) :
  (if (acc =? a)%N && bool_decide (asset = b) then z else 0%Z) =
  (if decide ((acc, asset) = (a, b)) then z else 0%Z).
Proof.
  case_decide as D.
  - injection D as <- <-. by rewrite N.eqb_refl, bool_decide_eq_true_2.
  - destruct (_ && _) eqn:E; [|done]. exfalso. apply D.
    apply andb_true_iff in E as [->%N.eqb_eq ->%bool_decide_eq_true]. done.
Qed.

Lemma entry_effect_key acc asset e x y :
  l_account_id e = acc → l_asset e = asset →
  entry_effect x y e = if decide ((acc, asset) = (x, y)) then LedgerRepository.signed_amount e else 0%Z.
Proof. intros <- <-. unfold entry_effect. apply key_decide. Qed.

(** Postings to one key can be merged. *)
Lemma posts_merge p1 p2 q t t' :
  posts [p1; p2] t t' → p_key p1 = p_key q → p_key p2 = p_key q →
  (p_available p1 + p_available p2 = p_available q)%Z →
  (p_locked p1 + p_locked p2 = p_locked q)%Z → posts [q] t t'.
Proof.
  intros [K W A L T] K1 K2 Ha Hl. split; [done|done|..]; intros x Hwf.
  - rewrite A by done. simpl. unfold at_key. rewrite K1, K2. case_decide; lia.
  - rewrite L by done. simpl. unfold at_key. rewrite K1, K2. case_decide; lia.
  - rewrite T by done. simpl. unfold at_asset. rewrite K1, K2. case_decide; lia.
Qed.

Section operations.
Context (c : bool) (acc : Uuid) (asset : Asset) (amount : Z).
Implicit Types e : Env CoreDb.
Let av e := available (balances (env_db e)) (acc, asset).
Let lk e := locked (balances (env_db e)) (acc, asset).

(** [find_or_create], [update] and [invalidate_cache], shared by the four
    single-account operations. *)
Ltac row_step :=
  match goal with
  | Hf : find_or_create _ _ ?e = (Ok ?b, _), Hu : update _ _ = (Ok _, ?e1),
    Hi : BalanceService.invalidate_cache _ _ ?e1 = (Ok _, _),
    Hwf : wf_balances (balances (env_db ?e)) |- _ =>
      let Ha := fresh "Ha" in let Hl := fresh "Hl" in
      pose proof (find_or_create_row _ _ _ _ _ Hf Hwf) as (_ & Ha & Hl);
      pose proof (find_update_effect _ _ _ _ _ _ _ _ _ _ Hf Hu Hwf) as Heff;
      apply invalidate_effect in Hi;
      pose proof (effect_then_frame _ _ _ _ _ Heff Hi) as Hrow;
      rewrite Ha, ?Hl in *; clear Hf Hu Heff Hi
  end.
Ltac op_start f :=
  unfold f; destruct (Z.leb_spec amount 0); [done|]; intros Hrun Hwf;
  repeat run_inv1;
  try match goal with H : (if (?x <? ?y)%Z then _ else _) _ = (Ok _, _) |- _ =>
    destruct (Z.ltb_spec x y); [done|]; repeat run_inv1 end;
  row_step.

Lemma deposit_effect e b e' :
  BalanceService.deposit c acc asset amount e = (Ok b, e') →
  wf_balances (balances (env_db e)) →
  (0 < amount)%Z ∧ ∃ le,
    balance_effect [mkPosting (acc, asset) (i64 (av e + amount) - av e) 0] [le]
      (env_db e) (env_db e') ∧
    (∀ x y, entry_effect x y le = if decide ((acc, asset) = (x, y)) then amount else 0%Z).
Proof.
  op_start BalanceService.deposit. split; [lia|].
  match goal with H : LedgerService.create_entry _ _ _ _ _ _ _ = (Ok ?le, _) |- _ =>
    pose proof (create_entry_Ok _ _ _ _ _ _ _ _ _ H) as (_ & Hacc & Has & Ham & Het & _);
    apply create_entry_effect in H; exists le end.
  rewrite Z.sub_diag in Hrow. split; [by eapply effect_then_entries|].
  intros x y. rewrite (entry_effect_key acc asset) by done.
  unfold LedgerRepository.signed_amount. by rewrite Het, Ham.
Qed.

Lemma withdraw_effect e b e' :
  BalanceService.withdraw c acc asset amount e = (Ok b, e') →
  wf_balances (balances (env_db e)) →
  (0 < amount ≤ av e)%Z ∧ ∃ le,
    balance_effect [mkPosting (acc, asset) (i64 (av e - amount) - av e) 0] [le]
      (env_db e) (env_db e') ∧
    (∀ x y, entry_effect x y le = if decide ((acc, asset) = (x, y)) then (- amount)%Z else 0%Z).
Proof.
  op_start BalanceService.withdraw. split; [unfold av; lia|].
  match goal with H : LedgerService.create_entry _ _ _ _ _ _ _ = (Ok ?le, _) |- _ =>
    pose proof (create_entry_Ok _ _ _ _ _ _ _ _ _ H) as (_ & Hacc & Has & Ham & Het & _);
    apply create_entry_effect in H; exists le end.
  rewrite Z.sub_diag in Hrow. split; [by eapply effect_then_entries|].
  intros x y. rewrite (entry_effect_key acc asset) by done.
  unfold LedgerRepository.signed_amount. by rewrite Het, Ham.
Qed.

Lemma lock_effect e b e' :
  BalanceService.lock_balance c acc asset amount e = (Ok b, e') →
  wf_balances (balances (env_db e)) →
  (0 < amount ≤ av e)%Z ∧
  balance_effect
    [mkPosting (acc, asset) (i64 (av e - amount) - av e) (i64 (lk e + amount) - lk e)] []
    (env_db e) (env_db e').
Proof. op_start BalanceService.lock_balance. split; [unfold av; lia|done]. Qed.

Lemma unlock_effect e b e' :
  BalanceService.unlock_balance c acc asset amount e = (Ok b, e') →
  wf_balances (balances (env_db e)) →
  (0 < amount ≤ lk e)%Z ∧
  balance_effect
    [mkPosting (acc, asset) (i64 (av e + amount) - av e) (i64 (lk e - amount) - lk e)] []
    (env_db e) (env_db e').
Proof. op_start BalanceService.unlock_balance. split; [unfold lk; lia|done]. Qed.

End operations.

(** *** Transfers *)

Lemma find_or_create_keeps acc asset e b e' r :
  find_or_create acc asset e = (Ok b, e') →
  r ∈ balances (env_db e) → r ∈ balances (env_db e').
Proof.
  unfold find_or_create. intros H Hr. run_inv1. run_inv1.
  destruct (find_row acc asset (balances (env_db e))); run_inv; simpl; [done|].
  match goal with H : insert_row _ _ = Some _ |- _ => apply posts_insert in H as [-> _] end.
  simpl. set_solver.
Qed.

Lemma update_row_keeps b t r :
  r ∈ t → b_id r ≠ b_id b → r ∈ update_row b t.
Proof.
  intros Hr Hid. apply elem_of_sql_update. exists r. split; [done|].
  by apply N.eqb_neq in Hid as ->.
Qed.

Lemma update_row_elem b av lk t' t :
  b ∈ t → BalanceService.set_amounts b av lk t' ∈
    update_row (BalanceService.set_amounts b av lk t') t.
Proof. intros Hb. apply elem_of_sql_update. exists b. split; [done|]. simpl. by rewrite N.eqb_refl. Qed.

Section transfer.
Context (c : bool) (from to : Uuid) (asset : Asset) (amount : Z).
Implicit Types e : Env CoreDb.
Let av e k := available (balances (env_db e)) (k, asset).

(** The run, up to the two updates. *)
Lemma transfer_run e p e' :
  BalanceService.transfer c from to asset amount e = (Ok p, e') →
  wf_balances (balances (env_db e)) →
  (0 < amount ≤ av e from)%Z ∧
  ∃ b1 b2 e1 e2 e3 e4 le1 le2,
    find_or_create from asset e = (Ok b1, e1) ∧ find_or_create to asset e1 = (Ok b2, e2) ∧
    update (BalanceService.set_amounts b1 (i64 (b_available_balance b1 - amount))
              (b_locked_balance b1) (env_now e2)) e2 = (Ok tt, e3) ∧
    update (BalanceService.set_amounts b2 (i64 (b_available_balance b2 + amount))
              (b_locked_balance b2) (env_now e2)) e3 = (Ok tt, e4) ∧
    balance_effect [] [le1; le2] (env_db e4) (env_db e') ∧
    (∀ x y, entry_effect x y le1 = if decide ((from, asset) = (x, y)) then amount else 0%Z) ∧
    (∀ x y, entry_effect x y le2 = if decide ((to, asset) = (x, y)) then (- amount)%Z else 0%Z).
Proof.
  unfold BalanceService.transfer. destruct (Z.leb_spec amount 0); [done|]. intros Hrun Hwf.
  repeat run_inv1.
  match goal with H : (if (?x <? ?y)%Z then _ else _) _ = (Ok _, _) |- _ =>
    destruct (Z.ltb_spec x y); [done|]; repeat run_inv1 end.
  match goal with Hf : find_or_create from _ _ = (Ok ?b, _) |- _ =>
    pose proof (find_or_create_row _ _ _ _ _ Hf Hwf) as (_ & Ha & _) end.
  split; [unfold av; lia|].
  match goal with H : LedgerService.create_double_entry _ _ _ _ _ _ _ = (Ok ?p, _) |- _ =>
    pose proof (create_double_entry_Ok _ _ _ _ _ _ _ _ _ H) as (_ & He1 & He2);
    apply create_double_entry_effect in H; simpl in H end.
  repeat match goal with H : BalanceService.invalidate_cache _ _ _ = (Ok _, _) |- _ =>
    apply invalidate_effect in H end.
  repeat match goal with u : unit |- _ => destruct u end.
  match goal with H : balance_effect [] [?x; ?y] _ _ |- _ =>
    do 6 eexists; exists x, y end.
  split_and!; try eassumption.
  - do 2 (eapply (balance_effect_app [] []); [eassumption|]). done.
  - intros x y. by rewrite He1, key_decide.
  - intros x y. by rewrite He2, key_decide.
Qed.

(** Between different accounts a transfer is one posting on each side. *)
Lemma transfer_effect e p e' :
  from ≠ to →
  BalanceService.transfer c from to asset amount e = (Ok p, e') →
  wf_balances (balances (env_db e)) →
  (0 < amount ≤ av e from)%Z ∧ ∃ le1 le2,
    balance_effect
      [mkPosting (from, asset) (i64 (av e from - amount) - av e from) 0;
       mkPosting (to, asset) (i64 (av e to + amount) - av e to) 0] [le1; le2]
      (env_db e) (env_db e') ∧
    (∀ x y, entry_effect x y le1 = if decide ((from, asset) = (x, y)) then amount else 0%Z) ∧
    (∀ x y, entry_effect x y le2 = if decide ((to, asset) = (x, y)) then (- amount)%Z else 0%Z).
Proof.
  intros Hne Hrun Hwf. apply transfer_run in Hrun; [|done].
  destruct Hrun as (Hamt & b1 & b2 & e1 & e2 & e3 & e4 & le1 & le2 & F1 & F2 & U1 & U2 & Hl & He).
  split; [done|]. exists le1, le2. split; [|done].
  pose proof (find_or_create_row _ _ _ _ _ F1 Hwf) as (Hwf1 & Ha1 & Hl1).
  pose proof (find_or_create_row _ _ _ _ _ F2 Hwf1) as (Hwf2 & Ha2 & Hl2).
  pose proof (find_or_create_effect _ _ _ _ _ F1) as (E1 & Hb1 & K1).
  pose proof (find_or_create_effect _ _ _ _ _ F2) as (E2 & Hb2 & K2).
  pose proof (find_or_create_keeps _ _ _ _ _ _ F2 Hb1) as Hb1'.
  pose proof (update_effect _ _ _ _ _ _ _ U1 Hwf2 Hb1') as E3.
  assert (b2 ∈ balances (env_db e3)) as Hb2'.
  { unfold update in U1. run_inv. simpl. apply update_row_keeps; [done|]. simpl. intros Hid.
    rewrite (NoDup_map_inj b_id _ _ _ (wf_ids _ Hwf2) Hb2 Hb1' Hid) in K2. congruence. }
  pose proof (posts_wf _ _ _ (be_posts _ _ _ _ E3) Hwf2) as Hwf3.
  pose proof (update_effect _ _ _ _ _ _ _ U2 Hwf3 Hb2') as E4.
  rewrite Z.sub_diag, Ha1, K1 in E3. rewrite Z.sub_diag, Ha2, K2 in E4.
  rewrite (posts_available _ _ _ (be_posts _ _ _ _ E1)) in E4 by done. simpl in E4.
  rewrite Z.add_0_r in E4.
  apply (balance_effect_app _ _ _ _ _ _ _ E4), (balance_effect_app _ _ _ _ _ _ _ E3),
    (balance_effect_app _ _ _ _ _ _ _ E2), (balance_effect_app _ _ _ _ _ _ _ E1) in Hl.
  done.
Qed.
End transfer.

(** A transfer from an account to itself: the second update overwrites the
    first, so the account gains the amount. *)
Lemma self_transfer_effect c acc asset amount e p e' :
  let av := available (balances (env_db e)) (acc, asset) in
  BalanceService.transfer c acc acc asset amount e = (Ok p, e') →
  wf_balances (balances (env_db e)) →
  (0 < amount ≤ av)%Z ∧
  posts [mkPosting (acc, asset) (i64 (av + amount) - av) 0]
    (balances (env_db e)) (balances (env_db e')).
Proof.
  intros av Hrun Hwf. apply transfer_run in Hrun; [|done].
  destruct Hrun as (Hamt & b1 & b2 & e1 & e2 & e3 & e4 & le1 & le2 & F1 & F2 & U1 & U2 & Hl & He).
  split; [done|].
  pose proof (find_or_create_row _ _ _ _ _ F1 Hwf) as (Hwf1 & Ha1 & Hl1).
  pose proof (find_or_create_row _ _ _ _ _ F2 Hwf1) as (Hwf2 & Ha2 & Hl2).
  pose proof (find_or_create_effect _ _ _ _ _ F1) as (E1 & Hb1 & K1).
  pose proof (find_or_create_effect _ _ _ _ _ F2) as (E2 & Hb2 & K2).
  pose proof (find_or_create_keeps _ _ _ _ _ _ F2 Hb1) as Hb1'.
  assert (b2 = b1) as ->.
  { apply (NoDup_map_inj b_key _ _ _ (wf_keys _ Hwf2) Hb2 Hb1'). congruence. }
  pose proof (update_effect _ _ _ _ _ _ _ U1 Hwf2 Hb1') as E3.
  pose proof (posts_wf _ _ _ (be_posts _ _ _ _ E3) Hwf2) as Hwf3.
  set (b' := BalanceService.set_amounts b1 (i64 (b_available_balance b1 - amount))
               (b_locked_balance b1) (env_now e2)) in *.
  assert (b' ∈ balances (env_db e3)) as Hb'.
  { unfold update in U1. run_inv. simpl. by apply update_row_elem. }
  pose proof (update_effect b' _ _ _ _ _ _ U2 Hwf3 Hb') as E4.
  apply (balance_effect_app _ _ _ _ _ _ _ E4), (balance_effect_app _ _ _ _ _ _ _ E3),
    (balance_effect_app _ _ _ _ _ _ _ E2), (balance_effect_app _ _ _ _ _ _ _ E1) in Hl.
  eapply posts_merge; [apply (be_posts _ _ _ _ Hl)|done|..]; simpl; try done.
  all: fold av in Ha1; rewrite ?Ha1; lia.
Qed.

(** ** Writes that address the row by account and asset *)

(** UPDATE balances SET available_balance = available_balance + da,
    locked_balance = locked_balance + dl WHERE account_id AND asset [AND cond];
    a BIGINT out of range is an error. *)
Definition add_to_row (da dl t : Z) (r : Balance) : option Balance :=
  av ← bigint (b_available_balance r + da);
  lk ← bigint (b_locked_balance r + dl);
  Some (BalanceService.set_amounts r av lk t).

Lemma add_to_row_Some da dl t r r' :
  add_to_row da dl t r = Some r' →
  BalanceService.set_amounts r (b_available_balance r + da) (b_locked_balance r + dl) t = r'.
Proof.
  unfold add_to_row. intros (av & (_ & ->)%bigint_Some & H)%bind_Some.
  apply bind_Some in H as (lk & (_ & ->)%bigint_Some & H). naive_solver.
Qed.

Lemma posts_add_to_row sel acc asset da dl ts t t' b :
  sql_try_update sel (add_to_row da dl ts) t = Some t' →
  (∀ r, sel r = true → b_key r = (acc, asset)) →
  wf_balances t → b ∈ t → sel b = true →
  posts [mkPosting (acc, asset) da dl] t t'.
Proof.
  intros H Hsel Hwf Hb Hselb. eapply sql_try_update_Some in H; [|apply add_to_row_Some]. subst t'.
  rewrite <- (Hsel b Hselb).
  eapply posts_eq; [eapply (posts_update sel _ t b)|]; simpl; try done.
  - intros r Hr Hs. apply (NoDup_map_inj b_key t); [apply Hwf|done|done|].
    by rewrite (Hsel r), (Hsel b).
  - do 2 f_equal; simpl; lia.
Qed.

Lemma try_update_none sel f (t t' : list Balance) :
  sql_try_update sel f t = Some t' → (∀ r, r ∈ t → sel r = false) → t' = t.
Proof.
  intros H Hn. apply mapM_Some_1 in H.
  induction H as [|r r' t t' Hr H IH]; [done|]. rewrite (Hn r) in Hr by left.
  injection Hr as ->. f_equal. apply IH. intros r0 Hr0. apply Hn. by right.
Qed.

(** ** Effects with the ledger's side given by keys *)

(** [books ls es]: the entries [es] add to each ledger balance what the list
    [ls] of (key, signed amount) says. *)
Definition booked (k : Key) (x : Key * Z) : Z := if decide (fst x = k) then snd x else 0%Z.
Definition books (ls : list (Key * Z)) (es : list LedgerEntry) : Prop :=
  ∀ k, sum_by (entry_effect (fst k) (snd k)) es = sum_by (booked k) ls.

Record db_effect (ps : list Posting) (ls : list (Key * Z)) (d d' : CoreDb) : Prop := {
  eff_posts : posts ps (balances d) (balances d');
  eff_ledger : ∃ es, ledger_entries d' = ledger_entries d ++ es ∧ books ls es;
  eff_frame : other_tables d' = other_tables d;
}.

Lemma db_effect_refl d : db_effect [] [] d d.
Proof. split; [apply posts_nil|exists []; by rewrite app_nil_r|done]. Qed.

Lemma db_effect_app ps1 ls1 ps2 ls2 d1 d2 d3 :
  db_effect ps1 ls1 d1 d2 → db_effect ps2 ls2 d2 d3 →
  db_effect (ps1 ++ ps2) (ls1 ++ ls2) d1 d3.
Proof.
  intros [P1 (es1 & L1 & B1) F1] [P2 (es2 & L2 & B2) F2]. split.
  - by eapply posts_app.
  - exists (es1 ++ es2). rewrite L2, L1, <- app_assoc. split; [done|].
    intros k. by rewrite !sum_by_app, B1, B2.
  - by rewrite F2.
Qed.

Lemma db_effect_posts ps d d' :
  posts ps (balances d) (balances d') → ledger_entries d' = ledger_entries d →
  other_tables d' = other_tables d → db_effect ps [] d d'.
Proof. intros P L F. split; [done|exists []; by rewrite app_nil_r|done]. Qed.

Lemma db_effect_wf ps ls d d' :
  db_effect ps ls d d' → wf_balances (balances d) → wf_balances (balances d').
Proof. intros H. apply (posts_wf _ _ _ (eff_posts _ _ _ _ H)). Qed.

Lemma db_effect_row ps ls d d' k :
  db_effect ps ls d d' → has_row k (balances d) → has_row k (balances d').
Proof. intros H. apply (posts_keeps _ _ _ (eff_posts _ _ _ _ H)). Qed.

(** Extends the effect [Acc] so far with the next call, by its lemma [L]. *)
Ltac effect_step Acc L :=
  match type of Acc with db_effect _ _ _ (env_db ?e) =>
    match goal with H : _ e = (Ok _, _) |- _ =>
      apply L in H;
      [ apply (db_effect_app _ _ _ _ _ _ _ Acc) in H; clear Acc; rename H into Acc
      | first [done | by eapply db_effect_wf | by eapply db_effect_row | lia] .. ]
    end
  end.

(** Appending one entry. *)
Lemma db_effect_insert le e u e' :
  LedgerRepository.insert le e = (Ok u, e') →
  db_effect [] [((l_account_id le, l_asset le), LedgerRepository.signed_amount le)]
    (env_db e) (env_db e').
Proof.
  intros H%insert_Ok. rewrite H. split; simpl; [apply posts_nil| |done].
  exists [le]. split; [done|]. intros [x y]. simpl.
  by rewrite (entry_effect_key (l_account_id le) (l_asset le)).
Qed.

(** ** The invariant of the table *)

(** Unique keys, no negative balance, and a supply of each asset that an [i64]
    can hold. *)
Record balances_inv (t : list Balance) : Prop := {
  inv_wf : wf_balances t;
  inv_solvent : solvent t;
  inv_supply a : (asset_total a t ≤ i64_max)%Z;
}.

Lemma holding_nonneg t a r : solvent t → r ∈ t → (0 ≤ holding a r)%Z.
Proof. intros H Hr. unfold holding. specialize (H r Hr). case_decide; lia. Qed.

Lemma holdings_nonneg t k : solvent t → (0 ≤ available t k ∧ 0 ≤ locked t k)%Z.
Proof. auto using solvent_available, solvent_locked. Qed.

Lemma two_balances_le_total t acc1 acc2 a :
  solvent t → acc1 ≠ acc2 →
  (available t (acc1, a) + available t (acc2, a) ≤ asset_total a t)%Z.
Proof.
  intros H Hne.
  pose proof (balance_le_total t (acc1, a) H) as B1. pose proof (balance_le_total t (acc2, a) H) as B2.
  pose proof (holdings_nonneg t (acc1, a) H). pose proof (holdings_nonneg t (acc2, a) H).
  simpl in *. unfold available at 1 2. simpl.
  destruct (find_row acc1 a t) as [r1|] eqn:E1, (find_row acc2 a t) as [r2|] eqn:E2;
    unfold available in *; simpl in *; rewrite ?E1, ?E2 in *; try lia.
  apply (find_row_Some (acc1, a)) in E1 as [R1 K1]. apply (find_row_Some (acc2, a)) in E2 as [R2 K2].
  assert (r1 ≠ r2) as Hr by congruence.
  pose proof (sum_by_elem2_le (holding a) t r1 r2 (λ r Hr, holding_nonneg t a r H Hr) R1 R2 Hr) as Hs.
  unfold holding at 1 2 in Hs. injection K1 as _ K1. injection K2 as _ K2.
  rewrite !decide_True in Hs by done. pose proof (H r1 R1). pose proof (H r2 R2).
  unfold asset_total. lia.
Qed.

(** Postings that leave every touched balance non-negative and create nothing
    beyond [i64_max] keep the invariant. *)
Lemma balances_inv_posts ps t t' :
  posts ps t t' → balances_inv t →
  (∀ k, 0 ≤ available t k + sum_by (at_key k p_available) ps)%Z →
  (∀ k, 0 ≤ locked t k + sum_by (at_key k p_locked) ps)%Z →
  (∀ a, asset_total a t + sum_by (at_asset a) ps ≤ i64_max)%Z →
  balances_inv t'.
Proof.
  intros [_ W A L T] [Hwf Hs Hm] Ha Hl Ht. split.
  - auto.
  - apply solvent_iff; [auto|]. intros k. by rewrite A, L.
  - intros a. by rewrite T.
Qed.

Lemma balance_in_i64 t k : balances_inv t →
  (0 ≤ available t k ≤ i64_max ∧ 0 ≤ locked t k ≤ i64_max ∧
   available t k + locked t k ≤ asset_total (snd k) t ≤ i64_max)%Z.
Proof.
  intros [Hwf Hs Hm]. pose proof (balance_le_total t k Hs). pose proof (holdings_nonneg t k Hs).
  specialize (Hm (snd k)). lia.
Qed.

Ltac no_wrap := rewrite ?i64_id in * by (unfold in_i64, i64_min, i64_max in *; lia).

(** ** The contract of the service *)

Inductive BalanceOp :=
| Deposit (acc : Uuid) (asset : Asset) (amount : Z)
| Withdraw (acc : Uuid) (asset : Asset) (amount : Z)
| Lock (acc : Uuid) (asset : Asset) (amount : Z)
| Unlock (acc : Uuid) (asset : Asset) (amount : Z)
| Transfer (from to : Uuid) (asset : Asset) (amount : Z).

Definition run_op (c : bool) (op : BalanceOp) : M CoreDb unit BalanceError :=
  match op with
  | Deposit acc a n => BalanceService.deposit c acc a n ;;; ret tt
  | Withdraw acc a n => BalanceService.withdraw c acc a n ;;; ret tt
  | Lock acc a n => BalanceService.lock_balance c acc a n ;;; ret tt
  | Unlock acc a n => BalanceService.unlock_balance c acc a n ;;; ret tt
  | Transfer f t a n => BalanceService.transfer c f t a n ;;; ret tt
  end.

(** The specification: the postings of each operation .. *)
Definition op_postings (op : BalanceOp) : list Posting :=
  match op with
  | Deposit acc a n => [mkPosting (acc, a) n 0]
  | Withdraw acc a n => [mkPosting (acc, a) (- n) 0]
  | Lock acc a n => [mkPosting (acc, a) (- n) n]
  | Unlock acc a n => [mkPosting (acc, a) n (- n)]
  | Transfer f t a n => [mkPosting (f, a) (- n) 0; mkPosting (t, a) n 0]
  end.

(** .. what it adds to the ledger balance of a key .. *)
Definition op_ledger (op : BalanceOp) (k : Key) : Z :=
  match op with
  | Deposit acc a n => if decide ((acc, a) = k) then n else 0
  | Withdraw acc a n => if decide ((acc, a) = k) then - n else 0
  | Lock _ _ _ | Unlock _ _ _ => 0
  | Transfer f t a n =>
      (if decide ((f, a) = k) then n else 0) + (if decide ((t, a) = k) then - n else 0)
  end%Z.

(** .. and where it applies: no self-transfer, no deposit beyond [i64_max]. *)
Definition op_admissible (op : BalanceOp) (t : list Balance) : Prop :=
  match op with
  | Deposit _ a n => (asset_total a t + n ≤ i64_max)%Z
  | Transfer f t _ _ => f ≠ t
  | _ => True
  end.

(** The amount it takes must be there. *)
Definition op_funded (op : BalanceOp) (t : list Balance) : Prop :=
  match op with
  | Deposit _ _ n => 0 < n
  | Withdraw acc a n | Lock acc a n | Transfer acc _ a n => 0 < n ≤ available t (acc, a)
  | Unlock acc a n => 0 < n ≤ locked t (acc, a)
  end%Z.

Lemma run_op_effect c op e e' :
  run_op c op e = (Ok tt, e') → balances_inv (balances (env_db e)) →
  op_admissible op (balances (env_db e)) →
  op_funded op (balances (env_db e)) ∧ ∃ es,
    balance_effect (op_postings op) es (env_db e) (env_db e') ∧
    (∀ k, sum_by (entry_effect (fst k) (snd k)) es = op_ledger op k).
Proof.
  intros Hrun Hinv Hadm. pose proof (inv_wf _ Hinv) as Hwf.
  destruct op as [acc a n|acc a n|acc a n|acc a n|f t a n]; simpl in *; run_inv;
    match goal with H : _ = (Ok _, _) |- _ => rename H into Hop end.
  - apply deposit_effect in Hop as (Hn & le & Heff & Hle); [|done]. split; [done|].
    exists [le]. pose proof (balance_in_i64 _ (acc, a) Hinv). simpl in *. no_wrap.
    split; [|intros [x y]; simpl; rewrite Hle; lia].
    eapply balance_effect_eq; [exact Heff|]. repeat f_equal; lia.
  - apply withdraw_effect in Hop as (Hn & le & Heff & Hle); [|done]. split; [done|].
    exists [le]. pose proof (balance_in_i64 _ (acc, a) Hinv). simpl in *. no_wrap.
    split; [|intros [x y]; simpl; rewrite Hle; lia].
    eapply balance_effect_eq; [exact Heff|]. repeat f_equal; lia.
  - apply lock_effect in Hop as (Hn & Heff); [|done]. split; [done|]. exists [].
    pose proof (balance_in_i64 _ (acc, a) Hinv). simpl in *. no_wrap.
    split; [|done]. eapply balance_effect_eq; [exact Heff|]. repeat f_equal; lia.
  - apply unlock_effect in Hop as (Hn & Heff); [|done]. split; [done|]. exists [].
    pose proof (balance_in_i64 _ (acc, a) Hinv). simpl in *. no_wrap.
    split; [|done]. eapply balance_effect_eq; [exact Heff|]. repeat f_equal; lia.
  - apply transfer_effect in Hop as (Hn & le1 & le2 & Heff & Hl1 & Hl2); [|done..].
    split; [done|]. exists [le1; le2].
    pose proof (balance_in_i64 _ (f, a) Hinv). pose proof (balance_in_i64 _ (t, a) Hinv).
    pose proof (two_balances_le_total _ f t a (inv_solvent _ Hinv) Hadm). simpl in *. no_wrap.
    split; [|intros [x y]; simpl; rewrite Hl1, Hl2; lia].
    eapply balance_effect_eq; [exact Heff|]. repeat f_equal; lia.
Qed.

(** Case analysis on the keys the postings of [op] touch. *)
Ltac posting_cases op :=
  destruct op; simpl in *; unfold at_key, at_asset; simpl in *;
  repeat case_decide; simplify_eq/=; lia.


(** What each account's balance should be by the ledger. *)
Definition reconciled (d : CoreDb) : Prop :=
  ∀ k, (available (balances d) k + locked (balances d) k =
        LedgerRepository.ledger_sum (fst k) (snd k) (ledger_entries d))%Z.

Definition is_transfer (op : BalanceOp) : bool :=
  match op with Transfer _ _ _ _ => true | _ => false end.


(** A transfer between accounts moves the sender's ledger balance up and
    the recipient's down, while the balances move the other way: after it the
    two differ by twice the amount. *)
Theorem transfer_unbalances_ledger c f t a n e p e' :
  BalanceService.transfer c f t a n e = (Ok p, e') → balances_inv (balances (env_db e)) →
  f ≠ t → reconciled (env_db e) →
  LedgerRepository.ledger_sum f a (ledger_entries (env_db e')) =
    (available (balances (env_db e')) (f, a) + locked (balances (env_db e')) (f, a) + 2 * n)%Z ∧
  LedgerRepository.ledger_sum t a (ledger_entries (env_db e')) =
    (available (balances (env_db e')) (t, a) + locked (balances (env_db e')) (t, a) - 2 * n)%Z.
Proof.
  intros Hrun Hinv Hne Hrec.
  assert (run_op c (Transfer f t a n) e = (Ok tt, e')) as Hop.
  { simpl. unfold bind. by rewrite Hrun. }
  pose proof (run_op_effect _ _ _ _ Hop Hinv Hne) as (Hf & es & [P L F] & Hes).
  rewrite !(posts_available _ _ _ P), !(posts_locked _ _ _ P) by apply Hinv.
  rewrite L, !ledger_sum_app, !ledger_sum_effect.
  pose proof (Hes (f, a)) as Ef. pose proof (Hes (t, a)) as Et.
  pose proof (Hrec (f, a)) as Rf. pose proof (Hrec (t, a)) as Rt. simpl in *.
  rewrite Ef, Et, <- !ledger_sum_effect, <- Rf, <- Rt. unfold at_key. simpl.
  repeat case_decide; simplify_eq/=; lia.
Qed.

(** A transfer from an account to itself creates money: the account and
    the total supply of the asset grow by the amount. *)
Theorem self_transfer_mints c acc a n e p e' :
  BalanceService.transfer c acc acc a n e = (Ok p, e') → balances_inv (balances (env_db e)) →
  (available (balances (env_db e)) (acc, a) + n ≤ i64_max)%Z →
  (0 < n)%Z ∧
  available (balances (env_db e')) (acc, a) = (available (balances (env_db e)) (acc, a) + n)%Z ∧
  asset_total a (balances (env_db e')) = (asset_total a (balances (env_db e)) + n)%Z.
Proof.
  intros Hrun Hinv Hmax. pose proof (balance_in_i64 _ (acc, a) Hinv).
  apply self_transfer_effect in Hrun as (Hn & P); [|apply Hinv]. no_wrap.
  rewrite (posts_available _ _ _ P), (posts_total _ _ _ P) by apply Hinv.
  simpl. unfold at_key, at_asset. simpl. rewrite !decide_True by done. lia.
Qed.

(** ** When an operation succeeds *)

(** No statement fails, and the UUIDs still to be drawn are new. *)
Record ready (e : Env CoreDb) : Prop := {
  ready_faults : env_faults e = [];
  ready_inj m n : env_uuid e m = env_uuid e n → m = n;
  ready_balances r n : r ∈ balances (env_db e) → env_drawn e ≤ n → b_id r ≠ env_uuid e n;
  ready_ledger r n : r ∈ ledger_entries (env_db e) → env_drawn e ≤ n → l_id r ≠ env_uuid e n;
}.

Definition has_account (acc : Uuid) (d : CoreDb) : Prop := ∃ a, a ∈ accounts d ∧ a_id a = acc.

Lemma existsb_false {R} (q : R → bool) t : (∀ r, r ∈ t → q r = false) → existsb q t = false.
Proof.
  intros H. destruct (existsb q t) eqn:E; [|done].
  apply existsb_true_elem in E as (r & Hr & Hq). rewrite H in Hq; done.
Qed.

Lemma find_or_create_succeeds acc asset e :
  ready e → has_account acc (env_db e) →
  ∃ b e', find_or_create acc asset e = (Ok b, e') ∧ ready e' ∧
    accounts (env_db e') = accounts (env_db e).
Proof.
  destruct e as [d fl uuid n t]. intros [Hf Hi Hb Hl] (a & Ha & Hacc). simpl in *. subst fl.
  unfold find_or_create, query, stmt, bind, faulty. simpl.
  destruct (find_row acc asset (balances d)) as [b|] eqn:E.
  - eexists b, _. split_and!; [done| |done]. by split.
  - simpl. unfold insert_row. simpl.
    rewrite (existsb_false _ (balances d)); simpl.
    2: { intros r Hr. apply N.eqb_neq. by apply Hb. }
    rewrite existsb_false; simpl.
    2: { intros r Hr. destruct (is_row acc asset r) eqn:Er; [|done].
         apply (is_row_true (acc, asset)) in Er. by eapply (find_row_None (acc, asset)) in E. }
    destruct (existsb _ (accounts d)) eqn:Ex; simpl.
    2: { eapply existsb_false_elem in Ex; [|done]. by apply N.eqb_neq in Ex. }
    eexists _, _. split_and!; [done| |done]. split; simpl; [done|done| |].
    + intros r m [Hr | ->%list_elem_of_singleton]%elem_of_app Hm; [apply Hb; [done|lia]|].
      simpl. intros Hid%Hi. lia.
    + intros r m Hr Hm. apply Hl; [done|lia].
Qed.

Lemma update_succeeds b e :
  ready e → ∃ e', update b e = (Ok tt, e') ∧ ready e' ∧
    accounts (env_db e') = accounts (env_db e).
Proof.
  destruct e as [d fl uuid n t]. intros [Hf Hi Hb Hl]. simpl in *. subst fl.
  eexists. split_and!; [done| |done]. split; simpl; try done.
  intros r m (r0 & Hr & ->)%elem_of_sql_update Hm. destruct (_ =? _)%N; simpl; by apply Hb.
Qed.

Lemma invalidate_succeeds c acc e :
  ready e → ∃ e', BalanceService.invalidate_cache c acc e = (Ok tt, e') ∧ ready e' ∧
    accounts (env_db e') = accounts (env_db e).
Proof.
  intros [Hf Hi Hb Hl]. unfold BalanceService.invalidate_cache. destruct c.
  - eexists. split_and!; [done| |done]. by split.
  - by exists e.
Qed.

Lemma new_v4_succeeds {E} (e : Env CoreDb) :
  ready e → ∃ u e', new_v4 (E := E) e = (Ok u, e') ∧ ready e' ∧
    accounts (env_db e') = accounts (env_db e).
Proof.
  intros [Hf Hi Hb Hl]. eexists _, _. split_and!; [done| |done]. split; simpl; auto with lia.
Qed.

Lemma create_entry_succeeds acc asset n et rt rid e :
  ready e → ∃ le e', LedgerService.create_entry acc asset n et rt rid e = (Ok le, e') ∧
    ready e' ∧ accounts (env_db e') = accounts (env_db e).
Proof.
  destruct e as [d fl uuid k t]. intros [Hf Hi Hb Hl]. simpl in *. subst fl.
  unfold LedgerService.create_entry, LedgerRepository.insert, stmt, bind, map_err, faulty.
  simpl. unfold LedgerRepository.insert_row.
  rewrite existsb_false; simpl.
  2: { intros r Hr. apply andb_false_iff. left. apply N.eqb_neq. by apply Hl. }
  eexists _, _. split_and!; [done| |done]. split; simpl; auto with lia.
  intros r m [Hr | ->%list_elem_of_singleton]%elem_of_app Hm; [apply Hl; [done|lia]|].
  simpl. intros Hid%Hi. lia.
Qed.

Definition op_accounts (op : BalanceOp) : list Uuid :=
  match op with
  | Deposit acc _ _ | Withdraw acc _ _ | Lock acc _ _ | Unlock acc _ _ => [acc]
  | Transfer f t _ _ => [f; t]
  end.

(** Runs the next call of the goal forward, by its lemma [L]. *)
Tactic Notation "succeed" constr(L) :=
  edestruct L as (? & ? & Hstep & ? & ?);
  [try eassumption..|cbv [bind map_err now ret]; rewrite Hstep; cbv beta iota; clear Hstep].
Tactic Notation "succeed_unit" constr(L) :=
  edestruct L as (? & Hstep & ? & ?);
  [try eassumption..|cbv [bind map_err now ret]; rewrite Hstep; cbv beta iota; clear Hstep].

Lemma has_account_eq acc d d' : accounts d' = accounts d → has_account acc d → has_account acc d'.
Proof. intros H (a & Ha & Hid). exists a. by rewrite H. Qed.

Lemma row_succeeds acc asset e :
  ready e → wf_balances (balances (env_db e)) → has_account acc (env_db e) →
  ∃ b e', find_or_create acc asset e = (Ok b, e') ∧ ready e' ∧
    (accounts (env_db e') = accounts (env_db e) ∧
     b_available_balance b = available (balances (env_db e)) (acc, asset) ∧
     b_locked_balance b = locked (balances (env_db e)) (acc, asset)).
Proof.
  intros Hr Hwf Ha. destruct (find_or_create_succeeds acc asset e Hr Ha) as (b & e' & H & ? & ?).
  pose proof (find_or_create_row _ _ _ _ _ H Hwf) as (_ & ? & ?). eauto 10.
Qed.

(** The guard on the funds passes. *)
Ltac covered :=
  destruct_and?; match goal with |- context [if (?x <? ?y)%Z then _ else _] =>
    destruct (Z.ltb_spec x y); [lia|] end.

(** With no failure from outside and the accounts in place, an operation
    whose amount is positive and covered by the account's funds succeeds. *)
Theorem balance_op_succeeds c op e :
  ready e → balances_inv (balances (env_db e)) →
  (∀ acc, acc ∈ op_accounts op → has_account acc (env_db e)) →
  op_funded op (balances (env_db e)) →
  ∃ e', run_op c op e = (Ok tt, e').
Proof.
  intros Hr Hinv Hacc Hf. pose proof (inv_wf _ Hinv) as Hwf.
  destruct op as [acc a n|acc a n|acc a n|acc a n|f t a n]; simpl in *.
  - unfold BalanceService.deposit. destruct (Z.leb_spec n 0); [lia|].
    succeed (find_or_create_succeeds acc a e); [apply Hacc; set_solver|].
    succeed_unit update_succeeds. succeed_unit invalidate_succeeds.
    succeed @new_v4_succeeds. succeed create_entry_succeeds. eauto.
  - unfold BalanceService.withdraw. destruct (Z.leb_spec n 0); [lia|].
    succeed (row_succeeds acc a e); [apply Hacc; set_solver|].
    covered. succeed_unit update_succeeds. succeed_unit invalidate_succeeds.
    succeed @new_v4_succeeds. succeed create_entry_succeeds. eauto.
  - unfold BalanceService.lock_balance. destruct (Z.leb_spec n 0); [lia|].
    succeed (row_succeeds acc a e); [apply Hacc; set_solver|].
    covered. succeed_unit update_succeeds. succeed_unit invalidate_succeeds. eauto.
  - unfold BalanceService.unlock_balance. destruct (Z.leb_spec n 0); [lia|].
    succeed (row_succeeds acc a e); [apply Hacc; set_solver|].
    covered. succeed_unit update_succeeds. succeed_unit invalidate_succeeds. eauto.
  - unfold BalanceService.transfer. destruct (Z.leb_spec n 0); [lia|].
    succeed (row_succeeds f a e); [apply Hacc; set_solver|].
    covered. succeed find_or_create_succeeds.
    { eapply has_account_eq; [eassumption|]. apply Hacc; set_solver. }
    succeed_unit update_succeeds. succeed_unit update_succeeds.
    succeed_unit invalidate_succeeds. succeed_unit invalidate_succeeds.
    succeed @new_v4_succeeds. unfold LedgerService.create_double_entry.
    succeed create_entry_succeeds. succeed create_entry_succeeds. eauto.
Qed.

(** The errors an operation answers of its own accord. *)
Definition is_rejection (x : BalanceError) : bool :=
  match x with
  | InsufficientBalance | InsufficientLockedBalance | InvalidAmount => true
  | DbError _ | LedgerError _ => false
  end.

Lemma map_err_rejected {A F} (g : F → BalanceError) (m : M CoreDb A F) e x e' :
  map_err g m e = (Err x, e') → (∀ y, is_rejection (g y) = false) → is_rejection x = false.
Proof. unfold map_err. destruct (m e) as [[?|?] ?]; naive_solver. Qed.

Lemma bind_Err {A B E} (m : M CoreDb A E) (k : A → M CoreDb B E) e x e' :
  bind m k e = (Err x, e') →
  m e = (Err x, e') ∨ ∃ a e1, m e = (Ok a, e1) ∧ k a e1 = (Err x, e').
Proof. unfold bind. destruct (m e) as [[a|y] e1]; naive_solver. Qed.

(** Follows a rejected run to the guard that refused it. *)
Ltac rejected_run :=
  repeat match goal with
  | H : bind _ _ _ = (Err _, _) |- _ => apply bind_Err in H as [H|(? & ? & ? & H)]
  | H : map_err _ _ _ = (Err _, _), R : is_rejection _ = true |- _ =>
      apply map_err_rejected in H; [congruence|done]
  | H : map_err _ _ _ = (Ok _, _) |- _ => apply map_err_Ok in H
  | H : throw _ _ = (Err _, _) |- _ => injection H as <- <-
  | H : ret _ _ = (Err _, _) |- _ => discriminate H
  | H : now _ = (Err _, _) |- _ => discriminate H
  | H : new_v4 _ = (Err _, _) |- _ => discriminate H
  | H : BalanceService.invalidate_cache ?c _ _ = (Err _, _) |- _ => destruct c; discriminate H
  | H : (if (?x <=? ?y)%Z then _ else _) _ = (Err _, _) |- _ => destruct (Z.leb_spec x y)
  | H : (if (?x <? ?y)%Z then _ else _) _ = (Err _, _) |- _ => destruct (Z.ltb_spec x y)
  | H : find_or_create _ _ ?e = (Ok _, _), W : wf_balances (balances (env_db ?e)) |- _ =>
      let H' := fresh in pose proof (find_or_create_effect _ _ _ _ _ H) as (H' & _ & _);
      apply find_or_create_row in H as (? & ? & ?); [|exact W]
  end.

(** An operation is refused with [InvalidAmount], [InsufficientBalance] or
    [InsufficientLockedBalance] only when it is not covered, and then no
    balance has changed and nothing has been entered in the ledger. *)
Theorem balance_op_rejected c op e x e' :
  run_op c op e = (Err x, e') → is_rejection x = true →
  wf_balances (balances (env_db e)) →
  ¬ op_funded op (balances (env_db e)) ∧
  balance_effect [] [] (env_db e) (env_db e').
Proof.
  intros Hrun Hx Hwf.
  destruct op as [acc a n|acc a n|acc a n|acc a n|f t a n]; simpl in *;
    unfold BalanceService.deposit, BalanceService.withdraw, BalanceService.lock_balance,
      BalanceService.unlock_balance, BalanceService.transfer in Hrun;
    rejected_run; (split; [lia|first [apply balance_effect_refl | eassumption]]).
Qed.

(** ** A concrete database, and the contract on it *)

Definition alice : Uuid := 10%N.
Definition bob : Uuid := 11%N.

Definition sample_db : CoreDb :=
  set_ledger_entries
    [mkLedgerEntry 200 alice USDC 600 DEBIT DEPOSIT 300 0;
     mkLedgerEntry 201 bob USDC 200 DEBIT DEPOSIT 301 0]
  (set_balances
    [mkBalance 100 alice USDC 500 100 0; mkBalance 101 bob USDC 200 0 0]
  (set_accounts
    [mkAccount alice 1 Spot 0; mkAccount bob 2 Spot 0] empty_db)).

Definition sample_env : Env CoreDb := mkEnv sample_db [] (λ n, 1000 + N.of_nat n)%N 0 7.

Lemma sample_inv : balances_inv (balances sample_db).
Proof.
  split.
  - split; by apply (bool_decide_unpack _); vm_compute.
  - intros b Hb.
    apply (elem_of_forallb (λ b, (0 <=? b_available_balance b)%Z && (0 <=? b_locked_balance b)%Z))
      in Hb; [|done]. lia.
  - intros a. by destruct a.
Qed.

Lemma sample_ready : ready sample_env.
Proof.
  split; simpl; [done|intros; lia|..]; intros r n Hr _.
  - apply (elem_of_forallb (λ b, b_id b <? 1000)%N) in Hr; [apply N.ltb_lt in Hr; lia|done].
  - apply (elem_of_forallb (λ b, l_id b <? 1000)%N) in Hr; [apply N.ltb_lt in Hr; lia|done].
Qed.

Lemma sample_reconciled : reconciled sample_db.
Proof.
  intros [acc a]. unfold available, locked, find_row, sql_one, LedgerRepository.ledger_sum, is_row.
  cbn -[N.eqb alice bob].
  destruct (N.eqb_spec alice acc) as [<-|]; [by destruct a|].
  destruct (N.eqb_spec bob acc) as [<-|]; by destruct a.
Qed.



Lemma transfer_unbalances_ledger_witness :
  let e' := snd (BalanceService.transfer true alice bob USDC 50 sample_env) in
  LedgerRepository.ledger_sum alice USDC (ledger_entries (env_db e')) =
    (available (balances (env_db e')) (alice, USDC) +
     locked (balances (env_db e')) (alice, USDC) + 2 * 50)%Z.
Proof.
  intros e'. eapply (transfer_unbalances_ledger true alice bob USDC 50 sample_env _ e').
  - by vm_compute.
  - apply sample_inv.
  - done.
  - apply sample_reconciled.
Defined.

Lemma self_transfer_mints_witness :
  let e' := snd (BalanceService.transfer true alice alice USDC 50 sample_env) in
  asset_total USDC (balances (env_db e')) = (asset_total USDC (balances sample_db) + 50)%Z.
Proof.
  intros e'. eapply (self_transfer_mints true alice USDC 50 sample_env _ e').
  - by vm_compute.
  - apply sample_inv.
  - by vm_compute.
Defined.

Lemma balance_op_succeeds_witness :
  ∃ e', run_op true (Transfer alice bob USDC 500) sample_env = (Ok tt, e').
Proof.
  apply balance_op_succeeds.
  - apply sample_ready.
  - apply sample_inv.
  - intros acc [->|[->|[]%not_elem_of_nil]%elem_of_cons]%elem_of_cons.
    + exists (mkAccount alice 1 Spot 0). split; [left|done].
    + exists (mkAccount bob 2 Spot 0). split; [right; left|done].
  - by vm_compute.
Defined.

Lemma balance_op_rejected_witness :
  let op := Unlock alice USDC 101 in
  balance_effect [] [] sample_db (env_db (snd (run_op true op sample_env))).
Proof.
  intros op. eapply (balance_op_rejected true op sample_env _ (snd (run_op true op sample_env))).
  - by vm_compute.
  - done.
  - apply sample_inv.
Defined.

(** A transfer is not atomic: when its second UPDATE fails, the sender has
    been debited, nobody credited, and the amount is gone from the supply. *)
Theorem transfer_not_atomic :
  let e := mkEnv sample_db [false; false; false; true] (env_uuid sample_env) 0 7 in
  let r := BalanceService.transfer true alice bob USDC 50 e in
  fst r = Err (DbError SqlIo) ∧
  asset_total USDC (balances (env_db (snd r))) =
    (asset_total USDC (balances (env_db e)) - 50)%Z.
Proof. by vm_compute. Qed.
