(* ===== verification/Fees.v ===== *)
(** * Fees: [src/src/fees/service.rs]

    The split of a trade's fee, and its application inside a transaction the
    caller owns. *)
From S2P Require Import Prelude Monad Float64 Model Ledger Balances.

Module Fees.

(** The parse of ["00000000-0000-0000-0000-000000000001"]. *)
Definition platform_account_id : Uuid := 1%N.
Definition SOLVER_FEE_SHARE : f64 := f64_lit 3 10.
Definition TAKER_SHARE : f64 := f64_lit 6 10.

Record FeeBreakdown := mkFeeBreakdown {
  total_fee : Z;
  platform_fee : Z;
  solver_fee : Z;
  maker_fee : Z;
  taker_fee : Z;
}.

Definition calculate_fees (trade : Trade) (market : MarketRow) : FeeBreakdown :=
  let total_fee := mul_rate (t_amount_in trade) (m_fee_rate market) in
  let solver_fee := mul_rate total_fee SOLVER_FEE_SHARE in
  let platform_fee := i64 (total_fee - solver_fee) in
  let taker_fee := mul_rate total_fee TAKER_SHARE in
  let maker_fee := i64 (total_fee - taker_fee) in
  mkFeeBreakdown total_fee platform_fee solver_fee maker_fee taker_fee.

Definition debit_fee (account_id : Uuid) (asset : Asset) (amount t : Z)
  : M CoreDb unit SqlxError :=
  if (amount =? 0)%Z then ret tt else
  stmt (λ d,
    bs ← sql_try_update (is_row account_id asset) (add_to_row (- amount) 0 t) (balances d);
    Some (tt, set_balances bs d)).

Definition credit_fee (account_id : Uuid) (asset : Asset) (amount t : Z)
  : M CoreDb unit SqlxError :=
  if (amount =? 0)%Z then ret tt else
  let* exists_ := query (λ d, existsb (is_row account_id asset) (balances d)) in
  if negb exists_ then
    let* id := new_v4 in
    stmt (BalanceRepository.insert_row (mkBalance id account_id asset amount 0 t))
  else
    stmt (λ d,
      bs ← sql_try_update (is_row account_id asset) (add_to_row amount 0 t) (balances d);
      Some (tt, set_balances bs d)).

Definition insert_fee_ledger (account_id : Uuid) (asset : Asset) (amount : Z)
    (entry_type : EntryType) (reference_id : Uuid) (t : Z) : M CoreDb unit SqlxError :=
  if (amount =? 0)%Z then ret tt else
  let* id := new_v4 in
  LedgerRepository.insert
    (mkLedgerEntry id account_id asset amount entry_type FEE reference_id t).

Definition apply_fees (trade : Trade) (fees : FeeBreakdown) : M CoreDb unit SqlxError :=
  let* t := now in
  let platform_id := platform_account_id in
  let asset := t_asset_in trade in
  debit_fee (t_buyer_account_id trade) asset (taker_fee fees) t ;;;
  debit_fee (t_seller_account_id trade) asset (maker_fee fees) t ;;;
  credit_fee platform_id asset (platform_fee fees) t ;;;
  credit_fee (t_solver_account_id trade) asset (solver_fee fees) t ;;;
  insert_fee_ledger (t_buyer_account_id trade) asset (taker_fee fees) CREDIT (t_id trade) t ;;;
  insert_fee_ledger (t_seller_account_id trade) asset (maker_fee fees) CREDIT (t_id trade) t ;;;
  insert_fee_ledger platform_id asset (platform_fee fees) DEBIT (t_id trade) t ;;;
  insert_fee_ledger (t_solver_account_id trade) asset (solver_fee fees) DEBIT (t_id trade) t.

End Fees.
Import Fees.

(** At a rate between 0 and 7/8 the fee of a trade lies between zero and
    its amount, the platform's and the solver's parts add up to it, and so do
    the maker's and the taker's; no part is negative and nothing wraps. *)
Theorem calculate_fees_bounds trade market :
  (0 ≤ t_amount_in trade ≤ i64_max)%Z → unit_rate (m_fee_rate market) = true →
  let f := calculate_fees trade market in
  (0 ≤ total_fee f ≤ t_amount_in trade ∧
   0 ≤ solver_fee f ∧ 0 ≤ platform_fee f ∧ platform_fee f + solver_fee f = total_fee f ∧
   0 ≤ maker_fee f ∧ 0 ≤ taker_fee f ∧ maker_fee f + taker_fee f = total_fee f)%Z.
Proof.
  intros Ha Hr f. subst f. unfold calculate_fees; simpl.
  pose proof (mul_rate_bounds _ _ Ha Hr) as Ht.
  set (T := mul_rate (t_amount_in trade) _) in *.
  pose proof (mul_rate_bounds T SOLVER_FEE_SHARE ltac:(lia) eq_refl).
  pose proof (mul_rate_bounds T TAKER_SHARE ltac:(lia) eq_refl).
  no_wrap. lia.
Qed.

(** ** Conservation *)

Section effects.
Implicit Types e : Env CoreDb.

Lemma debit_fee_effect acc asset n t e u e' :
  debit_fee acc asset n t e = (Ok u, e') →
  wf_balances (balances (env_db e)) → has_row (acc, asset) (balances (env_db e)) →
  db_effect [mkPosting (acc, asset) (- n) 0] [] (env_db e) (env_db e').
Proof.
  unfold debit_fee. intros H Hwf (b & Hb & Hk). destruct (Z.eqb_spec n 0) as [->|Hn].
  - run_inv. apply db_effect_posts; [apply posts_refl_zero|done|done].
  - run_inv. match goal with H : _ ≫= _ = Some _ |- _ =>
      apply bind_Some in H as (t' & Hu & [= <- <-]) end.
    apply db_effect_posts; simpl; [|done|done].
    apply (posts_add_to_row _ _ _ _ _ _ _ _ b Hu); try done.
    + intros r Hr. by apply (is_row_true (acc, asset)).
    + by apply (is_row_true (acc, asset)).
Qed.

Lemma credit_fee_effect acc asset n t e u e' :
  credit_fee acc asset n t e = (Ok u, e') → wf_balances (balances (env_db e)) →
  db_effect [mkPosting (acc, asset) n 0] [] (env_db e) (env_db e').
Proof.
  unfold credit_fee. intros H Hwf. destruct (Z.eqb_spec n 0) as [->|Hn].
  { run_inv. apply db_effect_posts; [apply posts_refl_zero|done|done]. }
  run_inv1. run_inv1. destruct (existsb _ _) eqn:E; simpl in H; run_inv.
  - match goal with H : _ ≫= _ = Some _ |- _ =>
      apply bind_Some in H as (t' & Hu & [= <- <-]) end.
    apply existsb_true_elem in E as (b & Hb & Hs).
    apply db_effect_posts; simpl; [|done|done].
    apply (posts_add_to_row _ _ _ _ _ _ _ _ b Hu); try done.
    intros r Hr. by apply (is_row_true (acc, asset)).
  - match goal with H : BalanceRepository.insert_row _ _ = _ |- _ =>
      apply posts_insert in H as [-> Hp] end.
    by apply db_effect_posts.
Qed.

Lemma insert_fee_ledger_effect acc asset n et rid t e u e' :
  insert_fee_ledger acc asset n et rid t e = (Ok u, e') →
  db_effect [] [((acc, asset), match et with DEBIT => n | CREDIT => - n end)%Z]
    (env_db e) (env_db e').
Proof.
  unfold insert_fee_ledger. destruct (Z.eqb_spec n 0) as [->|Hn]; intros H; run_inv.
  - split; [apply posts_nil| |done]. exists []. rewrite app_nil_r. split; [done|].
    intros k. simpl. unfold booked. simpl. by destruct (decide _), et.
  - by match goal with H : LedgerRepository.insert _ _ = _ |- _ =>
      apply db_effect_insert in H; simpl in H end.
Qed.

End effects.

(** The specification: who pays and who is paid. *)
Definition fee_postings (trade : Trade) (fees : FeeBreakdown) : list Posting :=
  let a := t_asset_in trade in
  [mkPosting (t_buyer_account_id trade, a) (- taker_fee fees) 0;
   mkPosting (t_seller_account_id trade, a) (- maker_fee fees) 0;
   mkPosting (platform_account_id, a) (platform_fee fees) 0;
   mkPosting (t_solver_account_id trade, a) (solver_fee fees) 0].
Definition fee_entries (trade : Trade) (fees : FeeBreakdown) : list (Key * Z) :=
  let a := t_asset_in trade in
  [((t_buyer_account_id trade, a), - taker_fee fees);
   ((t_seller_account_id trade, a), - maker_fee fees);
   ((platform_account_id, a), platform_fee fees);
   ((t_solver_account_id trade, a), solver_fee fees)]%Z.

(** Applying fees takes the maker's and the taker's part, pays the
    platform's and the solver's and enters the same amounts in the ledger;
    when both pairs add up to the same total, as [calculate_fees] guarantees,
    the supply of every asset is unchanged. *)
Theorem apply_fees_conserves trade fees e e' :
  apply_fees trade fees e = (Ok tt, e') → wf_balances (balances (env_db e)) →
  has_row (t_buyer_account_id trade, t_asset_in trade) (balances (env_db e)) →
  has_row (t_seller_account_id trade, t_asset_in trade) (balances (env_db e)) →
  (maker_fee fees + taker_fee fees = platform_fee fees + solver_fee fees)%Z →
  db_effect (fee_postings trade fees) (fee_entries trade fees) (env_db e) (env_db e') ∧
  ∀ x, asset_total x (balances (env_db e')) = asset_total x (balances (env_db e)).
Proof.
  intros Hrun Hwf Hb Hs Hsum.
  assert (db_effect (fee_postings trade fees) (fee_entries trade fees) (env_db e) (env_db e'))
    as Heff.
  { unfold apply_fees in Hrun. repeat run_inv1. pose proof (db_effect_refl (env_db e)) as Acc.
    do 2 effect_step Acc debit_fee_effect. do 2 effect_step Acc credit_fee_effect.
    do 4 effect_step Acc insert_fee_ledger_effect. done. }
  split; [done|]. intros x. rewrite (posts_total _ _ _ (eff_posts _ _ _ _ Heff)) by done.
  simpl. unfold at_asset. simpl. case_decide; lia.
Qed.

(** ** Witnesses *)

Definition sample_market : MarketRow :=
  mkMarket 5 ETH USDC 1 1 (f64_lit 1 100) "ethereum" None None None 18 6 0.
Definition fee_trade : Trade :=
  mkTrade 70 alice bob bob USDC ETH 500 10 0 0 TPending 0 None.
Definition fee_env : Env CoreDb :=
  with_db (set_accounts (mkAccount platform_account_id 9 Spot 0 :: accounts sample_db) sample_db)
    sample_env.

Lemma calculate_fees_bounds_witness :
  let f := calculate_fees fee_trade sample_market in
  f = mkFeeBreakdown 5 4 1 2 3 ∧ (0 ≤ total_fee f ≤ 500)%Z.
Proof.
  split; [by vm_compute|]. apply (calculate_fees_bounds fee_trade sample_market).
  - by vm_compute.
  - by vm_compute.
Defined.

Lemma apply_fees_conserves_witness :
  let f := calculate_fees fee_trade sample_market in
  let e' := snd (apply_fees fee_trade f fee_env) in
  asset_total USDC (balances (env_db e')) = asset_total USDC (balances sample_db).
Proof.
  intros f e'.
  refine (proj2 (apply_fees_conserves fee_trade f fee_env e' _ _ _ _ _) USDC).
  - by vm_compute.
  - apply sample_inv.
  - exists (mkBalance 100 alice USDC 500 100 0). split; [left|done].
  - exists (mkBalance 101 bob USDC 200 0 0). split; [right; left|done].
  - by vm_compute.
Defined.
