(* ===== verification/Solvers.v ===== *)
(** * Solvers: [src/src/solver_reputation/{stats,repository,service}.rs]

    The registry of solvers, their reputation, and the per-solver counters the
    settlement engine keeps. *)
From stdpp Require Import gmap.
From Stdlib Require Import SpecFloat.
From S2P Require Import Prelude Monad Float64 Model.

(** ** Counters: [stats.rs] *)

Module Stats.

Definition zero_row (solver_id : Uuid) : SolverStatsRow :=
  mkStats solver_id 0 0 0 0 0 0 0 0 0.

(** INSERT .. ON CONFLICT (solver_id) DO UPDATE: [bump] adds to a row; the
    inserted row is [bump] of zeros.  solver_id REFERENCES solvers(id). *)
Definition upsert (solver_id : Uuid) (bump : SolverStatsRow → option SolverStatsRow)
  : M CoreDb unit SqlxError :=
  stmt (λ d,
    if existsb (λ r, (ss_solver_id r =? solver_id)%N) (solver_stats d) then
      rs ← sql_try_update (λ r, (ss_solver_id r =? solver_id)%N) bump (solver_stats d);
      Some (tt, set_solver_stats rs d)
    else if existsb (λ s, (so_id s =? solver_id)%N) (solvers d) then
      r ← bump (zero_row solver_id);
      Some (tt, set_solver_stats (solver_stats d ++ [r]) d)
    else None).

Definition bump_settled (volume profit latency_ms slippage_bps : Z) (r : SolverStatsRow)
  : option SolverStatsRow :=
  fills ← bigint (ss_total_fills r + 1);
  settled ← bigint (ss_total_settled r + 1);
  vol ← bigint (ss_total_volume r + volume);
  prof ← bigint (ss_total_profit r + profit);
  lat ← bigint (ss_sum_latency_ms r + latency_ms);
  slip ← bigint (ss_sum_slippage_bps r + slippage_bps);
  Some (mkStats (ss_solver_id r) (ss_total_auctions_entered r) (ss_total_auctions_won r)
          fills settled (ss_total_failed r) vol prof lat slip).

Definition record_settled_fill (solver_id : Uuid) (volume profit latency_ms slippage_bps : Z)
  : M CoreDb unit SqlxError :=
  upsert solver_id (bump_settled volume profit latency_ms slippage_bps).

Definition bump_failed (r : SolverStatsRow) : option SolverStatsRow :=
  fills ← bigint (ss_total_fills r + 1);
  failed ← bigint (ss_total_failed r + 1);
  Some (mkStats (ss_solver_id r) (ss_total_auctions_entered r) (ss_total_auctions_won r)
          fills (ss_total_settled r) failed (ss_total_volume r) (ss_total_profit r)
          (ss_sum_latency_ms r) (ss_sum_slippage_bps r)).

Definition record_failed_fill (solver_id : Uuid) : M CoreDb unit SqlxError :=
  upsert solver_id bump_failed.

Definition bump_auction (won_inc : Z) (r : SolverStatsRow) : option SolverStatsRow :=
  entered ← bigint (ss_total_auctions_entered r + 1);
  won ← bigint (ss_total_auctions_won r + won_inc);
  Some (mkStats (ss_solver_id r) entered won (ss_total_fills r) (ss_total_settled r)
          (ss_total_failed r) (ss_total_volume r) (ss_total_profit r) (ss_sum_latency_ms r)
          (ss_sum_slippage_bps r)).

Definition record_auction_result (solver_id : Uuid) (won : bool) : M CoreDb unit SqlxError :=
  let won_inc := if won then 1%Z else 0%Z in
  upsert solver_id (bump_auction won_inc).

Record SolverStats := mkSolverStats {
  st_solver_id : Uuid;
  st_fill_rate : f64;
  st_avg_latency_ms : f64;
  st_total_profit : Z;
  st_auction_win_rate : f64;
  st_failed_settlement_rate : f64;
  st_avg_slippage_bps : f64;
  st_total_auctions_entered : Z;
  st_total_auctions_won : Z;
  st_total_fills : Z;
  st_total_settled : Z;
  st_total_failed : Z;
  st_total_volume : Z;
}.

(** [a as f64 / b as f64], and the same [* 100.0] *)
Definition ratio (a b : Z) : f64 := f64_div (f64_of_i64 a) (f64_of_i64 b).
Definition percent (a b : Z) : f64 := f64_mul (ratio a b) (f64_of_i64 100).
Definition f64_zero : f64 := S754_zero false.

Definition compute (r : SolverStatsRow) : SolverStats :=
  let fill_rate :=
    if (0 <? ss_total_fills r)%Z then percent (ss_total_settled r) (ss_total_fills r)
    else f64_zero in
  let avg_latency_ms :=
    if (0 <? ss_total_settled r)%Z then ratio (ss_sum_latency_ms r) (ss_total_settled r)
    else f64_zero in
  let auction_win_rate :=
    if (0 <? ss_total_auctions_entered r)%Z
    then percent (ss_total_auctions_won r) (ss_total_auctions_entered r) else f64_zero in
  let failed_settlement_rate :=
    if (0 <? ss_total_fills r)%Z then percent (ss_total_failed r) (ss_total_fills r)
    else f64_zero in
  let avg_slippage_bps :=
    if (0 <? ss_total_settled r)%Z then ratio (ss_sum_slippage_bps r) (ss_total_settled r)
    else f64_zero in
  mkSolverStats (ss_solver_id r) fill_rate avg_latency_ms (ss_total_profit r) auction_win_rate
    failed_settlement_rate avg_slippage_bps (ss_total_auctions_entered r)
    (ss_total_auctions_won r) (ss_total_fills r) (ss_total_settled r) (ss_total_failed r)
    (ss_total_volume r).

Definition get_stats (solver_id : Uuid) : M CoreDb (option SolverStats) SqlxError :=
  let* row := query (λ d, sql_one (λ r, (ss_solver_id r =? solver_id)%N) (solver_stats d)) in
  ret (compute <$> row).

Record LeaderboardEntry := mkLeader {
  lb_solver_id : Uuid;
  lb_name : string;
  lb_reputation_score : f64;
  lb_fill_rate : f64;
  lb_avg_latency_ms : f64;
  lb_total_profit : Z;
  lb_auction_win_rate : f64;
  lb_failed_settlement_rate : f64;
  lb_avg_slippage_bps : f64;
  lb_total_volume : Z;
  lb_total_settled : Z;
}.

Definition leaderboard_entry (s : Solver) (r : SolverStatsRow) : LeaderboardEntry :=
  let total_fills := (ss_total_fills r `max` 1)%Z in
  let total_settled := (ss_total_settled r `max` 1)%Z in
  let auctions_entered := (ss_total_auctions_entered r `max` 1)%Z in
  mkLeader (so_id s) (so_name s) (so_reputation_score s)
    (percent (ss_total_settled r) total_fills)
    (ratio (ss_sum_latency_ms r) total_settled) (ss_total_profit r)
    (percent (ss_total_auctions_won r) auctions_entered)
    (percent (ss_total_failed r) total_fills)
    (ratio (ss_sum_slippage_bps r) total_settled)
    (ss_total_volume r) (ss_total_settled r).

(** [i64::clamp] *)
Definition clamp (x lo hi : Z) : Z := (lo `max` (hi `min` x))%Z.

(** [ORDER BY reputation_score DESC LIMIT n] *)
Definition top (limit : Z) (ss : list Solver) : list Solver :=
  take (Z.to_nat limit)
    (sort_by (λ x y, negb (f64_gt (so_reputation_score y) (so_reputation_score x))) ss).

Definition get_leaderboard (limit : Z) : M CoreDb (list LeaderboardEntry) SqlxError :=
  let limit := clamp limit 1 100 in
  query (λ d,
    map (λ s, leaderboard_entry s
           (default (zero_row (so_id s))
              (sql_one (λ r, (ss_solver_id r =? so_id s)%N) (solver_stats d))))
      (top limit (sql_select so_active (solvers d)))).

End Stats.

(** ** The registry: [repository.rs] *)

Module SolverRepository.

(** PRIMARY KEY (id), UNIQUE name, and UNIQUE api_key and email where not
    null (migration 032). *)
Definition same_opt (x y : option string) : bool :=
  match x, y with Some a, Some b => String.eqb a b | _, _ => false end.
Definition conflicts (s r : Solver) : bool :=
  String.eqb (so_name s) (so_name r) || same_opt (so_api_key s) (so_api_key r)
  || same_opt (so_email s) (so_email r).
Definition unused (s : Solver) (t : list Solver) : bool :=
  negb (existsb (λ r, (so_id r =? so_id s)%N || conflicts s r) t).

Definition new_solver (id : Uuid) (name : string) (email webhook_url api_key : option string)
    (t : Z) : Solver :=
  mkSolver id name email api_key webhook_url true 0 0 0 0 0 Stats.f64_zero t.

Definition register (id : Uuid) (name : string) (email webhook_url : option string)
    (api_key : string) : M CoreDb Solver SqlxError :=
  let* t := now in
  let s := new_solver id name email webhook_url (Some api_key) t in
  stmt (λ d, if unused s (solvers d) then Some (s, set_solvers (solvers d ++ [s]) d) else None).

Definition find_by_name (name : string) : M CoreDb (option Solver) SqlxError :=
  query (λ d, sql_one (λ s, String.eqb (so_name s) name) (solvers d)).
Definition find_by_api_key (api_key : string) : M CoreDb (option Solver) SqlxError :=
  query (λ d, sql_one (λ s, same_opt (so_api_key s) (Some api_key) && so_active s) (solvers d)).
Definition find_by_id (id : Uuid) : M CoreDb (option Solver) SqlxError :=
  query (λ d, sql_one (λ s, (so_id s =? id)%N) (solvers d)).

(** INSERT .. ON CONFLICT (id) DO NOTHING: a clash on the name is an error. *)
Definition find_or_create (id : Uuid) (name : string) : M CoreDb Solver SqlxError :=
  let* existing := find_by_id id in
  match existing with
  | Some solver => ret solver
  | None =>
      let* t := now in
      let s := new_solver id name None None None t in
      stmt (λ d,
        if existsb (λ r, (so_id r =? id)%N) (solvers d) then Some (s, d)
        else if unused s (solvers d) then Some (s, set_solvers (solvers d ++ [s]) d)
        else None)
  end.

Definition update (solver : Solver) : M CoreDb unit SqlxError :=
  exec (λ d, set_solvers
    (sql_update (λ r, (so_id r =? so_id solver)%N)
      (λ r, mkSolver (so_id r) (so_name r) (so_email r) (so_api_key r) (so_webhook_url r)
              (so_active r) (so_successful_trades solver) (so_failed_trades solver)
              (so_total_volume solver) (so_total_fills solver) (so_failed_fills solver)
              (so_reputation_score solver) (so_created_at r)) (solvers d)) d).

Definition with_profile (r : Solver) (name email webhook_url : option string) : Solver :=
  mkSolver (so_id r) (default (so_name r) name)
    (match email with Some e => Some e | None => so_email r end) (so_api_key r)
    (match webhook_url with Some w => Some w | None => so_webhook_url r end)
    (so_active r) (so_successful_trades r) (so_failed_trades r) (so_total_volume r)
    (so_total_fills r) (so_failed_fills r) (so_reputation_score r) (so_created_at r).

Definition update_profile (id : Uuid) (name email webhook_url : option string)
  : M CoreDb (option Solver) SqlxError :=
  stmt (λ d,
    match sql_one (λ s, (so_id s =? id)%N) (solvers d) with
    | None => Some (None, d)
    | Some r =>
        let s := with_profile r name email webhook_url in
        if existsb (λ r', negb (so_id r' =? id)%N && conflicts s r') (solvers d) then None
        else Some (Some s, set_solvers
               (sql_update (λ r', (so_id r' =? id)%N)
                  (λ r', with_profile r' name email webhook_url) (solvers d)) d)
    end).

Definition set_inactive (r : Solver) : Solver :=
  mkSolver (so_id r) (so_name r) (so_email r) (so_api_key r) (so_webhook_url r) false
    (so_successful_trades r) (so_failed_trades r) (so_total_volume r) (so_total_fills r)
    (so_failed_fills r) (so_reputation_score r) (so_created_at r).

Definition deactivate (id : Uuid) : M CoreDb bool SqlxError :=
  stmt (λ d,
    let p := λ s, (so_id s =? id)%N && so_active s in
    Some (negb (rows_affected p (solvers d) =? 0)%nat,
          set_solvers (sql_update p set_inactive (solvers d)) d)).

Definition find_top (limit : Z) : M CoreDb (list Solver) SqlxError :=
  query (λ d, Stats.top limit (sql_select so_active (solvers d))).

End SolverRepository.

(** ** The service: [service.rs] *)

Module SolverReputationService.

Inductive SolverError :=
| NotFound
| NameTaken
| DbError (e : SqlxError).

(** Functions of the platform's math library the reputation formula uses. *)
Class Libm := { f64_log2 : f64 → f64; f64_log10 : f64 → f64; f64_round : f64 → f64 }.

Definition f64_one : f64 := f64_of_i64 1.

Definition calculate_reputation `{Libm} (solver : Solver) : f64 :=
  let total := i64 (so_successful_trades solver + so_failed_trades solver) in
  if (total =? 0)%Z then Stats.f64_zero else
  let success_rate := Stats.ratio (so_successful_trades solver) total in
  let fill_attempts := i64 (so_total_fills solver + so_failed_fills solver) in
  let reliability :=
    if (0 <? fill_attempts)%Z then Stats.ratio (so_total_fills solver) fill_attempts
    else f64_one in
  let activity := f64_log2 (f64_add f64_one (f64_of_i64 total)) in
  let volume_bonus :=
    f64_add f64_one
      (f64_div (f64_log10 (f64_add f64_one (f64_of_i64 (so_total_volume solver))))
         (f64_of_i64 20)) in
  let score := f64_mul (f64_mul (f64_mul success_rate reliability) activity) volume_bonus in
  f64_div (f64_round (f64_mul score (f64_of_i64 10000))) (f64_of_i64 10000).

Section service.
Context `{Libm} (has_cache : bool).

Definition invalidate_leaderboard : M CoreDb unit SolverError :=
  if has_cache
  then modify (λ d, set_spawned_leaderboard_invalidations
                      (S (spawned_leaderboard_invalidations d)) d)
  else ret tt.

(** The key comes from the random number generator: an argument. *)
Definition register (api_key : string) (name : string) (email webhook_url : option string)
  : M CoreDb (Solver * string) SolverError :=
  let* existing := map_err DbError (SolverRepository.find_by_name name) in
  match existing with
  | Some _ => throw NameTaken
  | None =>
      let* id := new_v4 in
      let* solver :=
        map_err DbError (SolverRepository.register id name email webhook_url api_key) in
      ret (solver, api_key)
  end.

Definition authenticate (api_key : string) : M CoreDb Solver SolverError :=
  let* o := map_err DbError (SolverRepository.find_by_api_key api_key) in
  of_option NotFound o.

Definition update_profile (solver_id : Uuid) (name email webhook_url : option string)
  : M CoreDb Solver SolverError :=
  match name with
  | Some new_name =>
      let* existing := map_err DbError (SolverRepository.find_by_name new_name) in
      guard (match existing with Some s => (so_id s =? solver_id)%N | None => true end) NameTaken
  | None => ret tt
  end ;;;
  let* o := map_err DbError (SolverRepository.update_profile solver_id name email webhook_url) in
  of_option NotFound o.

Definition deactivate (solver_id : Uuid) : M CoreDb unit SolverError :=
  let* found := map_err DbError (SolverRepository.deactivate solver_id) in
  guard found NotFound ;;;
  invalidate_leaderboard.

(** A solver's counters, with the score recomputed from them. *)
Definition with_counts (s : Solver) (wins losses volume fills failed : Z) : Solver :=
  let s' := mkSolver (so_id s) (so_name s) (so_email s) (so_api_key s) (so_webhook_url s)
              (so_active s) wins losses volume fills failed (so_reputation_score s)
              (so_created_at s) in
  mkSolver (so_id s) (so_name s) (so_email s) (so_api_key s) (so_webhook_url s) (so_active s)
    wins losses volume fills failed (calculate_reputation s') (so_created_at s).

Definition record_successful_trade (solver_id : Uuid) (solver_name : string) (volume : Z)
  : M CoreDb Solver SolverError :=
  let* s := map_err DbError (SolverRepository.find_or_create solver_id solver_name) in
  let s := with_counts s (i64 (so_successful_trades s + 1)) (so_failed_trades s)
             (i64 (so_total_volume s + volume)) (i64 (so_total_fills s + 1))
             (so_failed_fills s) in
  map_err DbError (SolverRepository.update s) ;;;
  invalidate_leaderboard ;;;
  ret s.

Definition record_failed_trade (solver_id : Uuid) (solver_name : string)
  : M CoreDb Solver SolverError :=
  let* s := map_err DbError (SolverRepository.find_or_create solver_id solver_name) in
  let s := with_counts s (so_successful_trades s) (i64 (so_failed_trades s + 1))
             (so_total_volume s) (so_total_fills s) (i64 (so_failed_fills s + 1)) in
  map_err DbError (SolverRepository.update s) ;;;
  invalidate_leaderboard ;;;
  ret s.

Definition record_fill (solver_id : Uuid) (solver_name : string) (volume : Z)
  : M CoreDb Solver SolverError :=
  let* s := map_err DbError (SolverRepository.find_or_create solver_id solver_name) in
  let s := with_counts s (so_successful_trades s) (so_failed_trades s)
             (i64 (so_total_volume s + volume)) (i64 (so_total_fills s + 1))
             (so_failed_fills s) in
  map_err DbError (SolverRepository.update s) ;;;
  invalidate_leaderboard ;;;
  ret s.

Definition penalize_failed_settlement (solver_id : Uuid) (solver_name : string)
  : M CoreDb Solver SolverError :=
  let* s := map_err DbError (SolverRepository.find_or_create solver_id solver_name) in
  let s := with_counts s (so_successful_trades s) (i64 (so_failed_trades s + 1))
             (so_total_volume s) (so_total_fills s) (i64 (so_failed_fills s + 1)) in
  map_err DbError (SolverRepository.update s) ;;;
  invalidate_leaderboard ;;;
  ret s.

Definition get_solver (solver_id : Uuid) : M CoreDb Solver SolverError :=
  let* o := map_err DbError (SolverRepository.find_by_id solver_id) in
  of_option NotFound o.

Record SolverDashboard := mkDashboard {
  db_solver : Solver;
  db_win_rate : f64;
  db_fill_success_rate : f64;
  db_avg_volume_per_trade : f64;
}.

(** [SolverPublic::from] drops the contact fields and the key. *)
Definition public (s : Solver) : Solver :=
  mkSolver (so_id s) (so_name s) None None None (so_active s) (so_successful_trades s)
    (so_failed_trades s) (so_total_volume s) (so_total_fills s) (so_failed_fills s)
    (so_reputation_score s) (so_created_at s).

Definition get_dashboard (solver_id : Uuid) : M CoreDb SolverDashboard SolverError :=
  let* o := map_err DbError (SolverRepository.find_by_id solver_id) in
  let* s := of_option NotFound o in
  let total_trades := i64 (so_successful_trades s + so_failed_trades s) in
  let win_rate :=
    if (0 <? total_trades)%Z then Stats.percent (so_successful_trades s) total_trades
    else Stats.f64_zero in
  let attempts := i64 (so_total_fills s + so_failed_fills s) in
  let fill_success_rate :=
    if (0 <? attempts)%Z then Stats.percent (so_total_fills s) attempts else Stats.f64_zero in
  let avg_volume :=
    if (0 <? so_successful_trades s)%Z
    then Stats.ratio (so_total_volume s) (so_successful_trades s) else Stats.f64_zero in
  ret (mkDashboard (public s) win_rate fill_success_rate avg_volume).

(** The Redis cache of the leaderboard; a failed read is a miss. *)
Definition get_top_solvers (limit : Z) : M CoreDb (list Solver) SolverError :=
  let limit := Stats.clamp limit 1 100 in
  let* hit :=
    (if has_cache then
       let* r := attempt (query (λ d,
           snd <$> sql_one (λ kv, (fst kv =? limit)%Z) (cached_leaderboard d))) in
       ret (match r with Ok o => o | Err _ => None end)
     else ret None) in
  match hit with
  | Some ss => ret ss
  | None =>
      let* ss := map_err DbError (SolverRepository.find_top limit) in
      (if has_cache then
         attempt (exec (λ d, set_cached_leaderboard
           ((limit, ss) :: sql_delete (λ kv, (fst kv =? limit)%Z) (cached_leaderboard d)) d)) ;;;
         ret tt
       else ret tt) ;;;
      ret ss
  end.

(** [invalidate_pattern("leaderboard")], spawned by [invalidate_leaderboard]. *)
Definition run_leaderboard_invalidation : M CoreDb unit SolverError :=
  let* n := reads spawned_leaderboard_invalidations in
  match n with
  | O => ret tt
  | S n' =>
      modify (set_spawned_leaderboard_invalidations n') ;;;
      attempt (exec (set_cached_leaderboard [])) ;;;
      ret tt
  end.

Definition get_solver_stats (solver_id : Uuid) : M CoreDb Stats.SolverStats SolverError :=
  let* o := map_err DbError (Stats.get_stats solver_id) in
  of_option NotFound o.

Definition get_leaderboard (limit : Z) : M CoreDb (list Stats.LeaderboardEntry) SolverError :=
  map_err DbError (Stats.get_leaderboard limit).

End service.
End SolverReputationService.

(** ** Properties *)

(** What the counters of every row satisfy: each fill was settled or failed,
    no more auctions won than entered, nothing negative. *)
Definition stats_row_ok (r : SolverStatsRow) : Prop :=
  (ss_total_fills r = ss_total_settled r + ss_total_failed r ∧
   0 ≤ ss_total_settled r ∧ 0 ≤ ss_total_failed r ∧
   0 ≤ ss_total_auctions_won r ≤ ss_total_auctions_entered r)%Z.
Definition stats_ok (d : CoreDb) : Prop := ∀ r, r ∈ solver_stats d → stats_row_ok r.

Inductive StatsOp :=
| Settled (solver_id : Uuid) (volume profit latency slippage : Z)
| FailedFill (solver_id : Uuid)
| Auction (solver_id : Uuid) (won : bool).

Definition run_stats (op : StatsOp) : M CoreDb unit SqlxError :=
  match op with
  | Settled s v p l b => Stats.record_settled_fill s v p l b
  | FailedFill s => Stats.record_failed_fill s
  | Auction s w => Stats.record_auction_result s w
  end.

Lemma upsert_ok sid bump e r e' :
  (∀ r r', bump r = Some r' → stats_row_ok r → stats_row_ok r') →
  Stats.upsert sid bump e = (r, e') → stats_ok (env_db e) → stats_ok (env_db e').
Proof.
  intros Hb H Hok. unfold Stats.upsert, stmt in H.
  destruct (faulty e); [by injection H as <- <-|].
  destruct (existsb (λ r, (ss_solver_id r =? sid)%N) _) eqn:E; simpl in H.
  - destruct (sql_try_update _ _ _) as [rs|] eqn:Eu; simpl in H; injection H as <- <-; [|done].
    intros r' Hr'. simpl in Hr'. apply mapM_Some_1 in Eu.
    apply list_elem_of_lookup in Hr' as [i Hi].
    eapply Forall2_lookup_r in Eu as (r0 & Hr0 & Hu); [|exact Hi].
    apply list_elem_of_lookup_2 in Hr0. specialize (Hok _ Hr0).
    destruct (_ =? _)%N; [eauto|by injection Hu as <-].
  - destruct (existsb _ (solvers _)); simpl in H; [|by injection H as <- <-].
    destruct (bump _) as [r0|] eqn:Er; simpl in H; injection H as <- <-; [|done].
    intros r' Hr'. simpl in Hr'. apply elem_of_app in Hr' as [?| ->%list_elem_of_singleton]; [auto|].
    eapply Hb; [done|]. unfold stats_row_ok. simpl. lia.
Qed.

(** Whatever the counters record, and whether the statement succeeds or
    fails, every solver's settled and failed fills add up to its fills and it
    has not won more auctions than it entered. *)
Theorem stats_counters_consistent op e r e' :
  run_stats op e = (r, e') → stats_ok (env_db e) → stats_ok (env_db e').
Proof.
  destruct op as [s v p l b|s|s w]; apply upsert_ok; intros r0 r1 H;
    unfold Stats.bump_settled, Stats.bump_failed, Stats.bump_auction in H;
    repeat (apply bind_Some in H as (? & (_ & ->)%bigint_Some & H));
    injection H as <-; unfold stats_row_ok; simpl; [lia..|].
  destruct w; lia.
Qed.

(** Once a solver has been deactivated, its API key no longer
    authenticates: keys are unique, and [authenticate] only answers active
    solvers. *)
Theorem deactivated_cannot_authenticate c sid key s e e1 e2 r :
  s ∈ solvers (env_db e) → so_id s = sid → so_api_key s = Some key →
  (∀ s', s' ∈ solvers (env_db e) → so_api_key s' = Some key → so_id s' = sid) →
  SolverReputationService.deactivate c sid e = (Ok tt, e1) →
  SolverReputationService.authenticate key e1 = (r, e2) → is_ok r = false.
Proof.
  intros Hs Hid Hkey Huniq Hd Ha.
  assert (∀ x, x ∈ solvers (env_db e1) → so_api_key x = Some key → so_active x = false) as Hin.
  { clear Hid Hs Hkey Ha.
    unfold SolverReputationService.deactivate, SolverRepository.deactivate in Hd. run_inv.
    assert (solvers (env_db e1) = sql_update (λ s, (so_id s =? sid)%N && so_active s)
              SolverRepository.set_inactive (solvers (env_db e))) as ->.
    { unfold SolverReputationService.invalidate_leaderboard in Hd.
      destruct c; run_inv; simpl; by simplify_eq. }
    intros y (x0 & Hx0 & ->)%elem_of_sql_update Hy.
    destruct (so_active x0) eqn:Eact; [|by rewrite andb_false_r].
    rewrite (Huniq x0), N.eqb_refl; [done|done|].
    destruct (_ && _); [done|]. done. }
  unfold SolverReputationService.authenticate, SolverRepository.find_by_api_key, bind, map_err,
    query, stmt, of_option in Ha.
  destruct (faulty e1); [by injection Ha as <- <-|].
  destruct (sql_one _ _) as [x|] eqn:E; [|by injection Ha as <- <-]. exfalso.
  apply sql_one_Some in E as (Hx & [Hk Hact]%andb_true_iff).
  unfold SolverRepository.same_opt in Hk. destruct (so_api_key x) as [k|] eqn:Ek; [|done].
  apply String.eqb_eq in Hk as ->. rewrite (Hin x) in Hact; done.
Qed.

(** ** Witnesses *)

Definition sample_solver : Solver :=
  SolverRepository.new_solver 12 "acme" None None (Some "sk_1") 0.
Definition solver_env : Env CoreDb :=
  mkEnv (set_solvers [sample_solver] empty_db) [] (λ n, 1000 + N.of_nat n)%N 0 7.

Lemma stats_counters_consistent_witness :
  stats_ok (env_db (snd (run_stats (FailedFill 12)
    (snd (run_stats (Settled 12 100 3 7 0) solver_env))))).
Proof.
  eapply stats_counters_consistent; [by apply surjective_pairing|].
  eapply stats_counters_consistent; [by apply surjective_pairing|].
  intros r Hr. by apply not_elem_of_nil in Hr.
Defined.

Lemma deactivated_cannot_authenticate_witness :
  let e1 := snd (SolverReputationService.deactivate true 12 solver_env) in
  is_ok (fst (SolverReputationService.authenticate "sk_1" e1)) = false ∧
  is_ok (fst (SolverReputationService.authenticate "sk_1" solver_env)) = true.
Proof.
  split; [|done].
  eapply (deactivated_cannot_authenticate true 12 "sk_1" sample_solver solver_env).
  - left.
  - done.
  - done.
  - by intros s' ->%list_elem_of_singleton.
  - by vm_compute.
  - apply surjective_pairing.
Defined.
