(* ===== verification/Settlement.v ===== *)
(** * Settlement: [src/src/settlement/{engine,retry,model}.rs]

    [Engine] settles a fill or a trade inside one database transaction;
    [Retry] keeps the failed ones and tries them again with a growing delay. *)
From stdpp Require Import gmap.
From S2P Require Import Prelude Monad Float64 Model Ledger Balances Fees Solvers.

Definition platform_account_id : Uuid := 1%N.
Definition SOLVER_SHARE : f64 := f64_lit 3 10.

Inductive SettlementError :=
| TradeNotFound
| FillNotFound
| AlreadySettled
| InsufficientBalance
| FeeError (msg : string)
| ChainError (msg : string)
| UnsupportedChain (chain : string)
| DbError (e : SqlxError).

(** How [sqlx] prints an error: third-party text. *)
Class SqlxDisplay := { sqlx_text : SqlxError → string }.

(** [impl Display for SettlementError] *)
Definition error_text `{SqlxDisplay} (x : SettlementError) : string :=
  match x with
  | TradeNotFound => "Trade not found"
  | FillNotFound => "Fill not found"
  | AlreadySettled => "Already settled"
  | InsufficientBalance => "Insufficient balance"
  | FeeError e => "Fee error: " +:+ e
  | ChainError e => "Chain error: " +:+ e
  | UnsupportedChain c => "Unsupported chain: " +:+ c
  | DbError e => "Database error: " +:+ sqlx_text e
  end.

(** ** Transaction helpers *)

Module Tx.

Definition unlock_and_debit (account_id : Uuid) (asset : Asset) (amount t : Z)
  : M CoreDb unit SettlementError :=
  let sel := λ r, is_row account_id asset r && (amount <=? b_locked_balance r)%Z in
  let* rows := map_err DbError (stmt (λ d,
    bs ← sql_try_update sel (add_to_row 0 (- amount) t) (balances d);
    Some (rows_affected sel (balances d), set_balances bs d))) in
  if (rows =? 0)%nat then throw InsufficientBalance else ret tt.

Definition find_or_create_balance (account_id : Uuid) (asset : Asset) (t : Z)
  : M CoreDb Balance SqlxError :=
  let* existing := query (λ d, find_row account_id asset (balances d)) in
  match existing with
  | Some b => ret b
  | None =>
      let* id := new_v4 in
      let b := mkBalance id account_id asset 0 0 t in
      stmt (BalanceRepository.insert_row b) ;;;
      ret b
  end.

(** UPDATE balances SET available_balance, updated_at WHERE id *)
Definition set_available (id : Uuid) (available t : Z) : M CoreDb unit SqlxError :=
  exec (λ d, set_balances
    (sql_update (λ r, (b_id r =? id)%N)
       (λ r, BalanceService.set_amounts r available (b_locked_balance r) t) (balances d)) d).

Definition debit_balance (account_id : Uuid) (asset : Asset) (amount t : Z)
  : M CoreDb unit SqlxError :=
  let* b := find_or_create_balance account_id asset t in
  if (b_available_balance b <? amount)%Z then throw (SqlProtocol "Insufficient balance") else
  set_available (b_id b) (i64 (b_available_balance b - amount)) t.

Definition credit_balance (account_id : Uuid) (asset : Asset) (amount t : Z)
  : M CoreDb unit SqlxError :=
  let* b := find_or_create_balance account_id asset t in
  set_available (b_id b) (i64 (b_available_balance b + amount)) t.

Definition insert_ledger (account_id : Uuid) (asset : Asset) (amount : Z)
    (entry_type : EntryType) (reference_type : ReferenceType) (reference_id : Uuid) (t : Z)
  : M CoreDb unit SqlxError :=
  let* id := new_v4 in
  LedgerRepository.insert
    (mkLedgerEntry id account_id asset amount entry_type reference_type reference_id t).

End Tx.

(** ** Recording failures: the first half of [retry.rs] *)

Module Retry.

Definition MAX_RETRIES : Z := 5.

(** [10 * 3_i64.pow(retry_count as u32)] *)
Definition backoff_secs (retry_count : Z) : Z := i64 (10 * i64 (3 ^ u32 retry_count)).

(** INSERT .. ON CONFLICT (trade_id) DO UPDATE SET last_error, next_retry_at *)
Definition record_failure (trade_id : Uuid) (error : string) : M CoreDb unit SqlxError :=
  let* id := new_v4 in
  let* t := now in
  let next_retry := (t + backoff_secs 0)%Z in
  stmt (λ d,
    if existsb (λ r, (fs_trade_id r =? trade_id)%N) (failed_settlements d) then
      Some (tt, set_failed_settlements
        (sql_update (λ r, (fs_trade_id r =? trade_id)%N)
           (λ r, mkFailed (fs_id r) (fs_trade_id r) (fs_fill_id r) (fs_retry_count r) error
                   next_retry (fs_permanently_failed r)) (failed_settlements d)) d)
    else if existsb (λ r, (fs_id r =? id)%N) (failed_settlements d) then None
    else Some (tt, set_failed_settlements
           (failed_settlements d ++ [mkFailed id trade_id None 0 error next_retry false]) d)).

(** INSERT (id, trade_id := id, fill_id, ..) ON CONFLICT DO NOTHING *)
Definition record_fill_failure (fill_id : Uuid) (error : string) : M CoreDb unit SqlxError :=
  let* id := new_v4 in
  let* t := now in
  let next_retry := (t + backoff_secs 0)%Z in
  exec (λ d,
    if existsb (λ r, (fs_trade_id r =? id)%N || (fs_id r =? id)%N) (failed_settlements d) then d
    else set_failed_settlements
           (failed_settlements d ++ [mkFailed id id (Some fill_id) 0 error next_retry false]) d).

End Retry.

(** ** The engine *)

Module Engine.
Section engine.
Context `{UuidText, NumericDecode, SqlxDisplay}.

Record CreateTradeRequest := mkTradeRequest {
  r_buyer_account_id : Uuid;
  r_seller_account_id : Uuid;
  r_solver_account_id : Uuid;
  r_asset_in : Asset;
  r_asset_out : Asset;
  r_amount_in : Z;
  r_amount_out : Z;
  r_platform_fee : Z;
  r_solver_fee : Z;
}.

Definition create_trade (req : CreateTradeRequest) : M CoreDb Trade SettlementError :=
  let* t := now in
  let* id := new_v4 in
  let trade := mkTrade id (r_buyer_account_id req) (r_seller_account_id req)
    (r_solver_account_id req) (r_asset_in req) (r_asset_out req) (r_amount_in req)
    (r_amount_out req) (r_platform_fee req) (r_solver_fee req) TPending t None in
  map_err DbError (stmt (λ d,
    if existsb (λ r, (t_id r =? id)%N && (t_created_at r =? t)%Z) (trades d) then None
    else Some (tt, set_trades (trades d ++ [trade]) d))) ;;;
  ret trade.

Definition get_trade (trade_id : Uuid) : M CoreDb (option Trade) SettlementError :=
  map_err DbError (query (λ d, sql_one (λ r, (t_id r =? trade_id)%N) (trades d))).

(** SELECT a.id FROM accounts a JOIN users u ON u.id = a.user_id
    WHERE u.id::text = $1 LIMIT 1 *)
Definition solver_account (solver_id : string) (d : CoreDb) : option Uuid :=
  a_id <$> sql_one (λ a,
    existsb (λ u, (u_id u =? a_user_id a)%N && String.eqb (uuid_text (u_id u)) solver_id)
      (users d)) (accounts d).

Definition with_settled (t : Z) (f : Fill) : Fill :=
  mkFill (f_id f) (f_intent_id f) (f_solver_id f) (f_price f) (f_qty f) (f_filled_qty f)
    (f_tx_hash f) (f_timestamp f) true (Some t).

(** The fees of one fill. *)
Definition fill_fees (amount : Z) (fee_rate : f64) : Z * Z * Z :=
  let total_fee := mul_rate amount fee_rate in
  let solver_fee := mul_rate total_fee SOLVER_SHARE in
  let platform_fee := i64 (total_fee - solver_fee) in
  (total_fee, solver_fee, platform_fee).

(** The body of the transaction of [settle_fill]: the fill it read, and the
    solver's fee. *)
Definition settle_fill_tx (fill_id buyer_account_id seller_account_id : Uuid)
    (asset_in asset_out : Asset) (fee_rate : f64) : M CoreDb (Fill * Z) SettlementError :=
  let* o := map_err DbError (query (λ d, sql_one (λ f, (f_id f =? fill_id)%N) (fills d))) in
  let* fill := of_option FillNotFound o in
  if f_settled fill then throw AlreadySettled else
  let* t := now in
  let platform_id := platform_account_id in
  let amount := f_filled_qty fill in
  let '(total_fee, solver_fee, platform_fee) := fill_fees amount fee_rate in
  let seller_receives := i64 (amount - total_fee) in
  Tx.unlock_and_debit buyer_account_id asset_in amount t ;;;
  map_err DbError (Tx.credit_balance seller_account_id asset_in seller_receives t) ;;;
  map_err DbError (Tx.credit_balance buyer_account_id asset_out (f_qty fill) t) ;;;
  map_err (λ _, InsufficientBalance)
    (Tx.debit_balance seller_account_id asset_out (f_qty fill) t) ;;;
  (if (0 <? platform_fee)%Z
   then map_err DbError (Tx.credit_balance platform_id asset_in platform_fee t) else ret tt) ;;;
  (if (0 <? solver_fee)%Z then
     let* acc := map_err DbError (query (solver_account (f_solver_id fill))) in
     let solver_acc := default platform_id acc in
     map_err DbError (Tx.credit_balance solver_acc asset_in solver_fee t)
   else ret tt) ;;;
  map_err DbError (Tx.insert_ledger buyer_account_id asset_in amount CREDIT TRADE (f_id fill) t) ;;;
  map_err DbError
    (Tx.insert_ledger buyer_account_id asset_out (f_qty fill) DEBIT TRADE (f_id fill) t) ;;;
  map_err DbError
    (Tx.insert_ledger seller_account_id asset_in seller_receives DEBIT TRADE (f_id fill) t) ;;;
  map_err DbError
    (Tx.insert_ledger seller_account_id asset_out (f_qty fill) CREDIT TRADE (f_id fill) t) ;;;
  (if (0 <? platform_fee)%Z
   then map_err DbError
          (Tx.insert_ledger platform_id asset_in platform_fee DEBIT FEE (f_id fill) t)
   else ret tt) ;;;
  (if (0 <? solver_fee)%Z
   then map_err DbError
          (Tx.insert_ledger platform_id asset_in solver_fee DEBIT FEE (f_id fill) t)
   else ret tt) ;;;
  map_err DbError (exec (λ d, set_fills
    (sql_update (λ f, (f_id f =? fill_id)%N) (with_settled t) (fills d)) d)) ;;;
  ret (fill, solver_fee).

(** [((fill.qty - fill.filled_qty).abs() * 10_000) / fill.price] *)
Definition slippage_bps (fill : Fill) : Z :=
  if (0 <? f_price fill)%Z
  then Z.quot (i64 (i64 (Z.abs (i64 (f_qty fill - f_filled_qty fill))) * 10000)) (f_price fill)
  else 0%Z.

(** [latency_ms] is what the monotonic clock measured. *)
Definition settle_fill (latency_ms : Z) (fill_id buyer_account_id seller_account_id : Uuid)
    (asset_in asset_out : Asset) (fee_rate : f64) : M CoreDb unit SettlementError :=
  let* p := transaction DbError
    (settle_fill_tx fill_id buyer_account_id seller_account_id asset_in asset_out fee_rate) in
  let '(fill, solver_fee) := p in
  match uuid_parse (f_solver_id fill) with
  | Some sid =>
      attempt (Stats.record_settled_fill sid (f_filled_qty fill) solver_fee latency_ms
                 (slippage_bps fill)) ;;;
      ret tt
  | None => ret tt
  end.

Definition asset_text (a : Asset) : string :=
  match a with USDC => "USDC" | ETH => "ETH" | BTC => "BTC" | SOL => "SOL" end.

(** Postgres' UPPER, on the ASCII letters. *)
Definition upper_char (c : Ascii.ascii) : Ascii.ascii :=
  let n := Ascii.nat_of_ascii c in
  if ((97 <=? n) && (n <=? 122))%nat then Ascii.ascii_of_nat (n - 32) else c.
Fixpoint upper (s : string) : string :=
  match s with
  | EmptyString => EmptyString
  | String c s => String (upper_char c) (upper s)
  end.

(** The join of fills, intents and markets, first row. *)
Definition resolve_fill_chain (fill_id : Uuid)
  : M CoreDb (string * option string * option string * option string) SettlementError :=
  let* row := map_err DbError (query (λ d,
    head (f ← sql_select (λ f, (f_id f =? fill_id)%N) (fills d);
          i ← sql_select (λ i, (i_id i =? f_intent_id f)%N) (intents d);
          m ← sql_select (λ m,
                String.eqb (upper (asset_text (m_base_asset m))) (upper (i_token_in i)) &&
                String.eqb (upper (asset_text (m_quote_asset m))) (upper (i_token_out i)))
                (markets d);
          [(m_chain m, m_settlement_contract m, m_base_token_mint m, m_quote_token_mint m)]))) in
  of_option FillNotFound row.

Definition compute_intent_status (intent_id : Uuid) : M CoreDb IntentStatus SettlementError :=
  let* o := map_err DbError (query (λ d,
      i_amount_in <$> sql_one (λ i, (i_id i =? intent_id)%N) (intents d))) in
  let* intent_amount := of_option (DbError SqlRowNotFound) o in
  let* sum := map_err DbError (query (λ d,
      sum_by f_filled_qty
        (sql_select (λ f, (f_intent_id f =? intent_id)%N && f_settled f) (fills d)))) in
  let* settled_qty := of_option (DbError (SqlProtocol "ColumnDecode")) (numeric_as_i64 sum) in
  let* total_fills := map_err DbError (query (λ d,
      length (sql_select (λ f, (f_intent_id f =? intent_id)%N) (fills d)))) in
  if (total_fills =? 0)%nat then ret IFailed
  else if (intent_amount <=? settled_qty)%Z then ret ICompleted
  else if (0 <? settled_qty)%Z then ret IPartiallyFilled
  else ret IExecuting.

Definition with_status (s : IntentStatus) (i : Intent) : Intent :=
  mkIntent (i_id i) (i_user_id i) (i_token_in i) (i_token_out i) (i_amount_in i)
    (i_min_amount_out i) (i_deadline i) s (i_created_at i) (i_order_type i) (i_limit_price i)
    (i_stop_price i) (i_stop_side i) (i_triggered_at i) (i_source_chain i)
    (i_destination_chain i) (i_cross_chain i).

(** The loop's body: one fill, its failure recorded and swallowed. *)
Definition settle_one (latency_ms : Z) (buyer_account_id seller_account_id : Uuid)
    (asset_in asset_out : Asset) (fee_rate : f64) (fill : Fill)
  : M CoreDb unit SettlementError :=
  let* r := attempt (settle_fill latency_ms (f_id fill) buyer_account_id seller_account_id
                       asset_in asset_out fee_rate) in
  match r with
  | Ok _ | Err AlreadySettled => ret tt
  | Err x =>
      attempt (Retry.record_fill_failure (f_id fill) (error_text x)) ;;;
      ret tt
  end.

Definition settle_intent_fills (latency_ms : Z) (intent_id buyer_account_id seller_account_id : Uuid)
    (asset_in asset_out : Asset) (fee_rate : f64) : M CoreDb IntentStatus SettlementError :=
  let* unsettled := map_err DbError (query (λ d,
      sort_by (λ x y, (f_price y <=? f_price x)%Z)
        (sql_select (λ f, (f_intent_id f =? intent_id)%N && negb (f_settled f)) (fills d)))) in
  mfor unsettled
    (settle_one latency_ms buyer_account_id seller_account_id asset_in asset_out fee_rate) ;;;
  let* status := compute_intent_status intent_id in
  map_err DbError (exec (λ d, set_intents
    (sql_update (λ i, (i_id i =? intent_id)%N) (with_status status) (intents d)) d)) ;;;
  ret status.

Definition with_trade_settled (t : Z) (r : Trade) : Trade :=
  mkTrade (t_id r) (t_buyer_account_id r) (t_seller_account_id r) (t_solver_account_id r)
    (t_asset_in r) (t_asset_out r) (t_amount_in r) (t_amount_out r) (t_platform_fee r)
    (t_solver_fee r) TSettled (t_created_at r) (Some t).

Definition settle_trade_tx (trade_id : Uuid) : M CoreDb (Trade * Z) SettlementError :=
  let* o := map_err DbError (query (λ d, sql_one (λ r, (t_id r =? trade_id)%N) (trades d))) in
  let* trade := of_option TradeNotFound o in
  if bool_decide (t_status trade = TSettled) then throw AlreadySettled else
  let* t := now in
  let platform_id := platform_account_id in
  let buyer := t_buyer_account_id trade in
  let seller := t_seller_account_id trade in
  let solver := t_solver_account_id trade in
  map_err (λ _, InsufficientBalance)
    (Tx.debit_balance buyer (t_asset_in trade) (t_amount_in trade) t) ;;;
  let seller_receives := i64 (i64 (t_amount_in trade - t_platform_fee trade) - t_solver_fee trade) in
  map_err DbError (Tx.credit_balance seller (t_asset_in trade) seller_receives t) ;;;
  map_err DbError (Tx.credit_balance buyer (t_asset_out trade) (t_amount_out trade) t) ;;;
  map_err (λ _, InsufficientBalance)
    (Tx.debit_balance seller (t_asset_out trade) (t_amount_out trade) t) ;;;
  map_err DbError (Tx.credit_balance platform_id (t_asset_in trade) (t_platform_fee trade) t) ;;;
  map_err DbError (Tx.credit_balance solver (t_asset_in trade) (t_solver_fee trade) t) ;;;
  map_err DbError
    (Tx.insert_ledger buyer (t_asset_in trade) (t_amount_in trade) CREDIT TRADE (t_id trade) t) ;;;
  map_err DbError
    (Tx.insert_ledger buyer (t_asset_out trade) (t_amount_out trade) DEBIT TRADE (t_id trade) t) ;;;
  map_err DbError
    (Tx.insert_ledger seller (t_asset_in trade) seller_receives DEBIT TRADE (t_id trade) t) ;;;
  map_err DbError
    (Tx.insert_ledger seller (t_asset_out trade) (t_amount_out trade) CREDIT TRADE (t_id trade) t) ;;;
  map_err DbError
    (Tx.insert_ledger platform_id (t_asset_in trade) (t_platform_fee trade) DEBIT FEE
       (t_id trade) t) ;;;
  map_err DbError
    (Tx.insert_ledger solver (t_asset_in trade) (t_solver_fee trade) DEBIT FEE (t_id trade) t) ;;;
  map_err DbError (exec (λ d, set_trades
    (sql_update (λ r, (t_id r =? t_id trade)%N) (with_trade_settled t) (trades d)) d)) ;;;
  ret (trade, t).

Definition settle_trade (trade_id : Uuid) : M CoreDb Trade SettlementError :=
  let* p := transaction DbError (settle_trade_tx trade_id) in
  let '(trade, t) := p in
  ret (with_trade_settled t trade).

Definition settle_trade_with_retry (trade_id : Uuid) : M CoreDb Trade SettlementError :=
  let* r := attempt (settle_trade trade_id) in
  match r with
  | Ok trade => ret trade
  | Err AlreadySettled => throw AlreadySettled
  | Err x =>
      attempt (Retry.record_failure trade_id (error_text x)) ;;;
      throw x
  end.

End engine.
End Engine.

(** ** Retrying: the second half of [retry.rs] *)

Module RetryWorker.
Section worker.
Context `{UuidText, NumericDecode, SqlxDisplay}.

Definition update_failed (id : Uuid) (f : FailedSettlement → FailedSettlement)
  : M CoreDb unit SqlxError :=
  exec (λ d, set_failed_settlements
    (sql_update (λ r, (fs_id r =? id)%N) f (failed_settlements d)) d).
Definition delete_failed (id : Uuid) : M CoreDb unit SqlxError :=
  exec (λ d, set_failed_settlements
    (sql_delete (λ r, (fs_id r =? id)%N) (failed_settlements d)) d).

Definition handle_retry_failure (entry : FailedSettlement) (attempt_ : Z) (error_msg : string)
  : M CoreDb unit SqlxError :=
  if (Retry.MAX_RETRIES <=? attempt_)%Z then
    update_failed (fs_id entry)
      (λ r, mkFailed (fs_id r) (fs_trade_id r) (fs_fill_id r) attempt_ error_msg
              (fs_next_retry_at r) true)
  else
    let* t := now in
    let next := (t + Retry.backoff_secs attempt_)%Z in
    update_failed (fs_id entry)
      (λ r, mkFailed (fs_id r) (fs_trade_id r) (fs_fill_id r) attempt_ error_msg next
              (fs_permanently_failed r)).

Definition retry_trade (entry : FailedSettlement) (attempt_ : Z) : M CoreDb unit SqlxError :=
  let* r := attempt (Engine.settle_trade (fs_trade_id entry)) in
  match r with
  | Ok _ | Err AlreadySettled => delete_failed (fs_id entry)
  | Err x => handle_retry_failure entry attempt_ (error_text x)
  end.

Definition retry_fill (entry : FailedSettlement) (fill_id : Uuid) (attempt_ : Z)
  : M CoreDb unit SqlxError :=
  let* fill_ctx := query (λ d,
    head (f ← sql_select (λ f, (f_id f =? fill_id)%N) (fills d);
          i ← sql_select (λ i, (i_id i =? f_intent_id f)%N) (intents d);
          [(f_intent_id f, i_token_in i, i_token_out i)])) in
  match fill_ctx with
  | None => delete_failed (fs_id entry)
  | Some _ =>
      let* o := query (λ d, f_settled <$> sql_one (λ f, (f_id f =? fill_id)%N) (fills d)) in
      let settled := default true o in
      if (settled : bool) then delete_failed (fs_id entry)
      else handle_retry_failure entry attempt_ "fill retry requires execution context"
  end.

Definition retry_entry (entry : FailedSettlement) : M CoreDb unit SqlxError :=
  let attempt_ := i32 (fs_retry_count entry + 1) in
  match fs_fill_id entry with
  | Some fill_id => retry_fill entry fill_id attempt_
  | None => retry_trade entry attempt_
  end.

Definition due (t : Z) (r : FailedSettlement) : bool :=
  negb (fs_permanently_failed r) && (fs_next_retry_at r <=? t)%Z.

Definition process_retries : M CoreDb unit SqlxError :=
  let* t := now in
  let* pending := query (λ d,
    take 50 (sort_by (λ x y, (fs_next_retry_at x <=? fs_next_retry_at y)%Z)
               (sql_select (due t) (failed_settlements d)))) in
  mfor pending retry_entry.

(** One turn of the worker's loop; an error of the cycle is logged only. *)
Definition run_retry_cycle : M CoreDb unit SqlxError :=
  attempt process_retries ;;;
  ret tt.

End worker.
End RetryWorker.

(** ** The consumer of [execution.completed]: [worker.rs] *)

Module Worker.
Section worker.
Context `{UuidText, NumericDecode, SqlxDisplay}.

(** [str::to_uppercase] on the ASCII letters, all that the names have. *)
Definition parse_asset (s : string) : option Asset :=
  let u := Engine.upper s in
  if String.eqb u "USDC" then Some USDC
  else if String.eqb u "ETH" then Some ETH
  else if String.eqb u "BTC" then Some BTC
  else if String.eqb u "SOL" then Some SOL
  else None.

(** [format!("{new_status:?}")] of the two statuses it is used on *)
Definition status_text (s : IntentStatus) : string :=
  match s with
  | ICompleted => "Completed" | IPartiallyFilled => "PartiallyFilled" | IOpen => "Open"
  | IBidding => "Bidding" | IMatched => "Matched" | IExecuting => "Executing"
  | IFailed => "Failed" | ICancelled => "Cancelled" | IExpired => "Expired"
  end.

Definition update_intent_status {E} (intent_id : Uuid) : M CoreDb unit E :=
  let* r := attempt (query (λ d,
      i_amount_in <$> sql_one (λ i, (i_id i =? intent_id)%N) (intents d))) in
  match r with
  | Ok (Some intent_amount) =>
      let* s := attempt (query (λ d,
          sum_by f_filled_qty
            (sql_select (λ f, (f_intent_id f =? intent_id)%N && f_settled f) (fills d)))) in
      (* [.unwrap_or(0)]: a failed query, or a column the driver cannot read *)
      let settled_qty := match s with Ok n => default 0%Z (numeric_as_i64 n) | Err _ => 0%Z end in
      if (intent_amount <=? settled_qty)%Z || (0 <? settled_qty)%Z then
        let new_status :=
          if (intent_amount <=? settled_qty)%Z then ICompleted else IPartiallyFilled in
        attempt (exec (λ d, set_intents
          (sql_update (λ i, (i_id i =? intent_id)%N) (Engine.with_status new_status)
             (intents d)) d)) ;;;
        attempt (exec (λ d, set_stream_bus
          (stream_bus d ++ [StreamIntentSettled
             (mkIntentSettledEvent intent_id settled_qty (status_text new_status))]) d)) ;;;
        ret tt
      else ret tt
  | _ => ret tt
  end.

(** [process_event] on the parsed payload; one that does not parse is dropped. *)
Definition process_event {E} (latency_ms : Z) (payload : option ExecutionCompletedEvent)
  : M CoreDb unit E :=
  match payload with
  | None => ret tt
  | Some event =>
      match parse_asset (ev_token_in event), parse_asset (ev_token_out event) with
      | Some asset_in, Some asset_out =>
          let* r := attempt (Engine.settle_fill latency_ms (ev_fill_id event)
                      (ev_buyer_account_id event) (ev_seller_account_id event)
                      asset_in asset_out (ev_fee_rate event)) in
          match r with
          | Ok _ | Err AlreadySettled => update_intent_status (ev_intent_id event)
          | Err x =>
              attempt (Retry.record_fill_failure (ev_fill_id event) (error_text x)) ;;;
              match uuid_parse (ev_solver_id event) with
              | Some sid => attempt (Stats.record_failed_fill sid) ;;; ret tt
              | None => ret tt
              end
          end
      | _, _ => ret tt
      end
  end.

End worker.
End Worker.
