(* ===== verification/Storage.v ===== *)
(** * Storage and event buses: [src/src/db/{storage,redis,stream_bus}.rs],
    and the constructors of [src/src/models]

    The reads swallow their errors ([ok().flatten()], [unwrap_or_default()]);
    [publish] is one Redis call, which can fail. *)
From stdpp Require Import gmap.
From S2P Require Import Prelude Monad Float64 Model Settlement.

Inductive RedisError := RedisFailure.

Module EventBus.
Definition publish (event : Event) : M CoreDb unit RedisError :=
  map_err (λ _, RedisFailure) (exec (λ d, set_event_bus (event_bus d ++ [event]) d)).
End EventBus.

Module StreamBus.
Definition publish (msg : StreamMsg) : M CoreDb unit RedisError :=
  map_err (λ _, RedisFailure) (exec (λ d, set_stream_bus (stream_bus d ++ [msg]) d)).
End StreamBus.

(** The value of a read whose error is swallowed. *)
Definition swallow {A B} (d : B) (f : A → B) (r : result A SqlxError) : B :=
  match r with Ok a => f a | Err _ => d end.

Module Storage.

(** Columns the INSERT leaves out take their defaults (migrations 028-038). *)
Definition insert_intent (i : Intent) : M CoreDb unit SqlxError :=
  stmt (λ d,
    if existsb (λ r, (i_id r =? i_id i)%N) (intents d) then None
    else Some (tt, set_intents (intents d ++
      [mkIntent (i_id i) (i_user_id i) (i_token_in i) (i_token_out i) (i_amount_in i)
         (i_min_amount_out i) (i_deadline i) (i_status i) (i_created_at i) (i_order_type i)
         (i_limit_price i) (i_stop_price i) (Some "sell") None "ethereum" "ethereum" false]) d)).

Definition get_intent {E} (id : Uuid) : M CoreDb (option Intent) E :=
  let* r := attempt (query (λ d, sql_one (λ i, (i_id i =? id)%N) (intents d))) in
  ret (swallow None (λ o, o) r).

Definition list_intents {E} : M CoreDb (list Intent) E :=
  let* r := attempt (query (λ d,
    sort_by (λ x y, (i_created_at y <=? i_created_at x)%Z) (intents d))) in
  ret (swallow [] (λ l, l) r).

Definition is_active (s : IntentStatus) : bool :=
  match s with IOpen | IBidding | IMatched | IExecuting => true | _ => false end.

Definition list_active_intents {E} : M CoreDb (list Intent) E :=
  let* r := attempt (query (λ d,
    sort_by (λ x y, (i_created_at y <=? i_created_at x)%Z)
      (sql_select (λ i, is_active (i_status i)) (intents d)))) in
  ret (swallow [] (λ l, l) r).

Definition update_intent (i : Intent) : M CoreDb unit SqlxError :=
  exec (λ d, set_intents
    (sql_update (λ r, (i_id r =? i_id i)%N) (Engine.with_status (i_status i)) (intents d)) d).

(** bids.intent_id REFERENCES intents(id) *)
Definition insert_bid (b : SolverBid) : M CoreDb unit SqlxError :=
  stmt (λ d,
    if existsb (λ r, (bid_id r =? bid_id b)%N) (bids d)
       || negb (existsb (λ i, (i_id i =? bid_intent_id b)%N) (intents d))
    then None
    else Some (tt, set_bids (bids d ++ [b]) d)).

Definition get_bids {E} (intent_id : Uuid) : M CoreDb (list SolverBid) E :=
  let* r := attempt (query (λ d,
    sort_by (λ x y, (bid_timestamp x <=? bid_timestamp y)%Z)
      (sql_select (λ b, (bid_intent_id b =? intent_id)%N) (bids d)))) in
  ret (swallow [] (λ l, l) r).

Definition insert_fill (f : Fill) : M CoreDb unit SqlxError :=
  exec (λ d, set_fills (fills d ++ [f]) d).

Definition get_fills {E} (intent_id : Uuid) : M CoreDb (list Fill) E :=
  let* r := attempt (query (λ d,
    sort_by (λ x y, (f_price y <=? f_price x)%Z)
      (sql_select (λ f, (f_intent_id f =? intent_id)%N) (fills d)))) in
  ret (swallow [] (λ l, l) r).

Definition insert_execution (x : Execution) : M CoreDb unit SqlxError :=
  exec (λ d, set_executions (executions d ++ [x]) d).

Definition update_execution (x : Execution) : M CoreDb unit SqlxError :=
  exec (λ d, set_executions
    (sql_update (λ r, (x_id r =? x_id x)%N)
       (λ r, mkExecution (x_id r) (x_intent_id r) (x_solver_id r) (x_tx_hash r) (x_status x)
               (x_created_at r)) (executions d)) d).

End Storage.

(** ** Constructors *)

(** [u64 as i64] *)
Definition as_i64 (z : Z) : Z := i64 z.

Definition Intent_new {E} (user_id token_in token_out : string)
    (amount_in min_amount_out deadline : Z) : M CoreDb Intent E :=
  let* id := new_v4 in
  let* t := now in
  ret (mkIntent id user_id token_in token_out (as_i64 amount_in) (as_i64 min_amount_out) deadline
         IOpen t Market None None None None "ethereum" "ethereum" false).

Definition SolverBid_new {E} (intent_id : Uuid) (solver_id : string) (amount_out fee : Z)
  : M CoreDb SolverBid E :=
  let* id := new_v4 in
  let* t := now in
  ret (mkBid id intent_id solver_id (as_i64 amount_out) (as_i64 fee) t).

Definition Fill_new {E} (intent_id : Uuid) (solver_id : string) (price qty filled_qty : Z)
  : M CoreDb Fill E :=
  let* id := new_v4 in
  let* t := now in
  ret (mkFill id intent_id solver_id price qty filled_qty "" t false None).

Definition Execution_new {E} (intent_id : Uuid) (solver_id tx_hash : string)
  : M CoreDb Execution E :=
  let* id := new_v4 in
  let* t := now in
  ret (mkExecution id intent_id solver_id tx_hash XPending t).
