(* ===== verification/Markets.v ===== *)
(** * Markets: [src/src/markets/{repository,service}.rs]

    The markets table and the service in front of it, whose two caches are
    read first.  A cache entry that has expired is a read that fails. *)
From stdpp Require Import gmap.
From S2P Require Import Prelude Monad Float64 Model.

Module MarketRepository.

Definition insert (market : MarketRow) : M CoreDb unit SqlxError :=
  stmt (λ d,
    if existsb (λ r, (m_id r =? m_id market)%N) (markets d) then None
    else Some (tt, set_markets (markets d ++ [market]) d)).

Definition find_by_id (id : Uuid) : M CoreDb (option MarketRow) SqlxError :=
  query (λ d, sql_one (λ r, (m_id r =? id)%N) (markets d)).

Definition newest_first (x y : MarketRow) : bool := (m_created_at y <=? m_created_at x)%Z.

Definition find_all : M CoreDb (list MarketRow) SqlxError :=
  query (λ d, sort_by newest_first (markets d)).

Definition find_by_chain (chain : string) : M CoreDb (list MarketRow) SqlxError :=
  query (λ d, sort_by newest_first (sql_select (λ r, String.eqb (m_chain r) chain) (markets d))).

End MarketRepository.

Record CreateMarketRequest := mkMarketRequest {
  cm_base_asset : Asset;
  cm_quote_asset : Asset;
  cm_tick_size : Z;
  cm_min_order_size : Z;
  cm_fee_rate : f64;
  cm_chain : option string;
  cm_settlement_contract : option string;
  cm_base_token_mint : option string;
  cm_quote_token_mint : option string;
  cm_base_decimals : option Z;
  cm_quote_decimals : option Z;
}.

Inductive MarketError := MarketNotFound | MarketDbError (e : SqlxError).

Definition is_solana (m : MarketRow) : bool := String.eqb (m_chain m) "solana".
Definition is_ethereum (m : MarketRow) : bool := String.eqb (m_chain m) "ethereum".

Module MarketService.
Section service.
(** [self.cache.is_some()] *)
Context (has_cache : bool).

Definition cached {A} (get : CoreDb → option A) : M CoreDb (option A) MarketError :=
  if has_cache then
    let* r := attempt (query get) in
    ret (match r with Ok o => o | Err _ => None end)
  else ret None.
Definition cache_write (f : CoreDb → CoreDb) : M CoreDb unit MarketError :=
  if has_cache then attempt (exec f) ;;; ret tt else ret tt.

Definition create_market (req : CreateMarketRequest) : M CoreDb MarketRow MarketError :=
  let* id := new_v4 in
  let* t := now in
  let market :=
    mkMarket id (cm_base_asset req) (cm_quote_asset req) (cm_tick_size req)
      (cm_min_order_size req) (cm_fee_rate req) (default "ethereum"%string (cm_chain req))
      (cm_settlement_contract req) (cm_base_token_mint req) (cm_quote_token_mint req)
      (default 18%Z (cm_base_decimals req)) (default 6%Z (cm_quote_decimals req)) t in
  map_err MarketDbError (MarketRepository.insert market) ;;;
  cache_write (set_cached_market_list None) ;;;
  ret market.

Definition get_market (market_id : Uuid) : M CoreDb MarketRow MarketError :=
  let* hit := cached (λ d, snd <$> sql_one (λ kv, (fst kv =? market_id)%N) (cached_market d)) in
  match hit with
  | Some market => ret market
  | None =>
      let* o := map_err MarketDbError (MarketRepository.find_by_id market_id) in
      let* market := of_option MarketNotFound o in
      cache_write (λ d, set_cached_market
        ((market_id, market) :: sql_delete (λ kv, (fst kv =? market_id)%N) (cached_market d)) d) ;;;
      ret market
  end.

Definition list_markets : M CoreDb (list MarketRow) MarketError :=
  let* hit := cached cached_market_list in
  match hit with
  | Some markets => ret markets
  | None =>
      let* markets := map_err MarketDbError MarketRepository.find_all in
      cache_write (set_cached_market_list (Some markets)) ;;;
      ret markets
  end.

End service.
End MarketService.

(** What the two caches hold was read from the table. *)
Definition caches_sound (d : CoreDb) : Prop :=
  (∀ id m, (id, m) ∈ cached_market d → m_id m = id ∧ m ∈ markets d) ∧
  (∀ ms, cached_market_list d = Some ms → ∀ m, m ∈ ms → m ∈ markets d).

Lemma cached_read c {A} (get : CoreDb → option A) e o e' :
  MarketService.cached c get e = (Ok o, e') →
  env_db e' = env_db e ∧ ∀ a, o = Some a → get (env_db e) = Some a.
Proof.
  unfold MarketService.cached. destruct c; intros H; [|by run_inv].
  unfold bind, attempt, query, stmt in H. destruct (faulty e); simpl in H; injection H as <- <-; done.
Qed.

Lemma cache_write_run c f e r e' :
  MarketService.cache_write c f e = (r, e') →
  r = Ok tt ∧ (env_db e' = env_db e ∨ env_db e' = f (env_db e)).
Proof.
  unfold MarketService.cache_write. destruct c; [|intros [= <- <-]; auto].
  unfold bind, attempt, exec, stmt. destruct (faulty e); intros [= <- <-]; auto.
Qed.

(** Whichever of the table and the two caches answers, a market that
    [get_market] or [list_markets] returns is a row of the table, the one
    asked for; and the caches keep holding only rows of the table. *)
Theorem markets_read_the_table c id e :
  caches_sound (env_db e) →
  (∀ m e', MarketService.get_market c id e = (Ok m, e') →
     m_id m = id ∧ m ∈ markets (env_db e) ∧ markets (env_db e') = markets (env_db e) ∧
     caches_sound (env_db e')) ∧
  (∀ ms e', MarketService.list_markets c e = (Ok ms, e') →
     (∀ m, m ∈ ms → m ∈ markets (env_db e)) ∧ markets (env_db e') = markets (env_db e) ∧
     caches_sound (env_db e')) ∧
  (∀ req m e', MarketService.create_market c req e = (Ok m, e') →
     markets (env_db e') = markets (env_db e) ++ [m] ∧ caches_sound (env_db e')).
Proof.
  intros [Hone Hall]. split_and!.
  - intros m e' H. unfold MarketService.get_market in H.
    apply bind_Ok in H as (o & e1 & [Hdb Hhit]%cached_read & H). destruct o as [m'|].
    + specialize (Hhit _ eq_refl). apply fmap_Some in Hhit as ([k m''] & Hk & ->).
      apply sql_one_Some in Hk as [Hin Heq]. simpl in Heq. apply N.eqb_eq in Heq as ->.
      run_inv. simpl. destruct (Hone _ _ Hin). by rewrite Hdb.
    + unfold MarketRepository.find_by_id in H. run_inv.
      match goal with H : _ = Some _ |- _ => rename H into Hrow end.
      apply sql_one_Some in Hrow as [Hin Heq%N.eqb_eq]. rewrite Hdb in Hin.
      match goal with H : MarketService.cache_write _ _ _ = _ |- _ => apply cache_write_run in H as [_ Hw] end.
      simpl in Hw. rewrite Hdb in Hw. split; [done|].
      destruct Hw as [Hw|Hw]; rewrite Hw; simpl; [done|]. split_and!; [done..|]. split; simpl; [|done].
      intros k m' [[= -> ->]|Hk]%elem_of_cons; [done|].
      apply Hone, list_elem_of_In. by apply list_elem_of_In, filter_In in Hk as [Hk _].
  - intros ms e' H. unfold MarketService.list_markets in H.
    apply bind_Ok in H as (o & e1 & [Hdb Hhit]%cached_read & H). destruct o as [ms'|].
    + specialize (Hhit _ eq_refl). run_inv. rewrite Hdb. by split; [apply Hall|].
    + unfold MarketRepository.find_all in H. run_inv. rewrite Hdb.
      match goal with H : MarketService.cache_write _ _ _ = _ |- _ => apply cache_write_run in H as [_ Hw] end.
      simpl in Hw. rewrite Hdb in Hw. split; [intros m; by rewrite elem_of_sort_by|].
      destruct Hw as [Hw|Hw]; rewrite Hw; simpl; [done|]. split; [done|]. split; simpl; [done|].
      intros ? [= <-] m. by rewrite elem_of_sort_by.
  - intros req m e' H. unfold MarketService.create_market, MarketRepository.insert in H. run_inv.
    destruct (existsb _ _); [done|]. simplify_eq.
    match goal with H : MarketService.cache_write _ _ _ = _ |- _ => apply cache_write_run in H as [_ Hw] end.
    destruct Hw as [Hw|Hw]; rewrite Hw; simpl; split; try done; split; simpl; try done.
    + intros k m Hk. destruct (Hone k m Hk). split; [done|]. apply elem_of_app. by left.
    + intros ms Hms m Hm. apply elem_of_app. left. eauto.
    + intros k m Hk. destruct (Hone k m Hk). split; [done|]. apply elem_of_app. by left.
Qed.

Definition eth_market : MarketRow :=
  mkMarket 1 ETH USDC 10 5 (f64_lit 1 100) "ethereum" None None None 18 6 0.
Definition sol_market : MarketRow :=
  mkMarket 2 SOL USDC 10 5 (f64_lit 1 100) "solana" None (Some "So1"%string) None 9 6 1.
Definition markets_env : Env CoreDb :=
  mkEnv (set_cached_market [(2%N, sol_market)] (set_markets [eth_market; sol_market] empty_db)) []
    (λ n, N.of_nat n) 0 5.

Lemma markets_read_the_table_witness :
  m_id sol_market = 2%N ∧ sol_market ∈ markets (env_db markets_env).
Proof.
  destruct (markets_read_the_table true 2 markets_env) as [H _].
  - split; simpl; [|done]. intros id m [[= -> ->]|Hk]%elem_of_cons; [|by apply not_elem_of_nil in Hk].
    split; [reflexivity|]. apply elem_of_cons. right. left.
  - destruct (H sol_market (snd (MarketService.get_market true 2 markets_env))) as (Hid & Hin & _);
      [vm_compute; reflexivity|]. split; assumption.
Defined.
