(* ===== verification/Oracle.v ===== *)
(** * The price oracle: [src/src/oracle/service.rs]

    Every tick asks the exchanges for each market, takes the median of what
    they answer, stores it (price, history, cache) and publishes it.  The
    exchanges' answers come over HTTP and are a parameter. *)
From Stdlib Require Import SpecFloat.
From stdpp Require Import gmap.
From S2P Require Import Prelude Monad Float64 Model Markets.

Record SourcePrice := mkSourcePrice { sp_source : string; sp_price : f64 }.

Record PriceAnomaly := mkAnomaly {
  pa_market_id : Uuid;
  pa_prices : list SourcePrice;
  pa_max_deviation : f64;
  pa_detected_at : Z;
}.

(** [f64::min] and [f64::max]: a NaN loses. *)
Definition is_nan (x : f64) : bool := match x with S754_nan => true | _ => false end.
Definition f64_min (x y : f64) : f64 :=
  if is_nan x then y else if is_nan y then x else if f64_gt x y then y else x.
Definition f64_max (x y : f64) : f64 :=
  if is_nan x then y else if is_nan y then x else if f64_gt y x then y else x.
(** [partial_cmp(b).unwrap_or(Equal)] does not put [a] after [b]. *)
Definition f64_not_after (a b : f64) : bool := negb (f64_gt a b).

Definition asset_name (a : Asset) : string :=
  match a with USDC => "USDC" | ETH => "ETH" | BTC => "BTC" | SOL => "SOL" end.

Module OracleService.

Definition ANOMALY_THRESHOLD : f64 := f64_lit 40 100.

(** The three exchanges: what each would answer for a symbol. *)
Class Exchanges := {
  fetch_binance : string → option f64;
  fetch_coinbase : string → option f64;
  fetch_kraken : string → option f64;
}.

Definition symbol_for_market (market : MarketRow) : string :=
  asset_name (m_base_asset market) +:+ asset_name (m_quote_asset market).

(** *** The exchanges over HTTP

    What [serde] reads of their answers; the client and the parser of numbers
    are the interface.  The pairs of Kraken come in the order of iteration of
    the map. *)
Record BinanceTicker := mkBinanceTicker { bi_last_price : option string; bi_price : option string }.
Record KrakenPair := mkKrakenPair { kp_c : option (list string) }.
Record KrakenResponse := mkKrakenResponse { kr_result : option (list (string * KrakenPair)) }.

Class PriceApis := {
  get_binance : string → option BinanceTicker;
  get_coinbase : string → option string;
  get_kraken : string → option KrakenResponse;
  parse_f64 : string → option f64;
}.

(** [symbol.to_uppercase()] of a symbol, which is upper case already, is left
    out; [symbol[..3]] is within a symbol, whose names have three letters or
    more. *)
Definition binance_url (symbol : string) : string :=
  "https://api.binance.com/api/v3/ticker/price?symbol=" +:+ symbol.
Definition coinbase_pair (symbol : string) : string :=
  String.substring 0 3 symbol +:+ "-" +:+ String.substring 3 (String.length symbol - 3) symbol.
Definition coinbase_url (symbol : string) : string :=
  "https://api.coinbase.com/v2/prices/" +:+ coinbase_pair symbol +:+ "/spot".
Definition kraken_pair (upper : string) : string :=
  if String.eqb upper "ETHUSDC" || String.eqb upper "ETHUSD" then "XETHZUSD"
  else if String.eqb upper "BTCUSDC" || String.eqb upper "BTCUSD" then "XXBTZUSD"
  else if String.eqb upper "SOLUSDC" || String.eqb upper "SOLUSD" then "SOLUSD"
  else upper.
Definition kraken_url (symbol : string) : string :=
  "https://api.kraken.com/0/public/Ticker?pair=" +:+ kraken_pair symbol.

Section fetching.
Context `{PriceApis}.
Definition fetch_binance_http (symbol : string) : option f64 :=
  resp ← get_binance (binance_url symbol);
  s ← match bi_price resp with Some p => Some p | None => bi_last_price resp end;
  parse_f64 s.
Definition fetch_coinbase_http (symbol : string) : option f64 :=
  s ← get_coinbase (coinbase_url symbol); parse_f64 s.
Definition fetch_kraken_http (symbol : string) : option f64 :=
  resp ← get_kraken (kraken_url symbol);
  result ← kr_result resp;
  '(_, p) ← head result;
  c ← kp_c p;
  s ← head c;
  parse_f64 s.
End fetching.
Definition over_http `{PriceApis} : Exchanges :=
  {| fetch_binance := fetch_binance_http; fetch_coinbase := fetch_coinbase_http; fetch_kraken := fetch_kraken_http |}.

Definition fetch_all_sources `{Exchanges} (market : MarketRow) : list SourcePrice :=
  let symbol := symbol_for_market market in
  let push source o := match o with Some p => [mkSourcePrice source p] | None => [] end in
  push "binance"%string (fetch_binance symbol) ++ push "coinbase"%string (fetch_coinbase symbol)
    ++ push "kraken"%string (fetch_kraken symbol).

Definition median (prices : list f64) : f64 :=
  let prices := sort_by f64_not_after prices in
  let n := length prices in
  if (n =? 0)%nat then f64_lit 0 1
  else if (n mod 2 =? 0)%nat then
    f64_div (f64_add (nth (n / 2 - 1) prices S754_nan) (nth (n / 2) prices S754_nan)) (f64_lit 2 1)
  else nth (n / 2) prices S754_nan.

Definition detect_anomaly {E} (market_id : Uuid) (source_prices : list SourcePrice)
  : M CoreDb (option PriceAnomaly) E :=
  if (length source_prices <? 2)%nat then ret None else
  let prices := map sp_price source_prices in
  let min := foldl f64_min (S754_infinity false) prices in
  let max := foldl f64_max (S754_infinity true) prices in
  if SFleb min (f64_lit 0 1) then ret None else
  let deviation := f64_div (f64_sub max min) min in
  if f64_gt deviation ANOMALY_THRESHOLD then
    let* t := now in
    ret (Some (mkAnomaly market_id source_prices deviation t))
  else ret None.

Definition get_cached_price {E} (market_id : Uuid) : M CoreDb (option MarketPrice) E :=
  let* r := attempt (query (λ d,
    snd <$> sql_one (λ kv, (fst kv =? market_id)%N) (cached_prices d))) in
  ret (match r with Ok o => o | Err _ => None end).

Definition get_price {E} (market_id : Uuid) : M CoreDb (option MarketPrice) E :=
  let* hit := get_cached_price market_id in
  match hit with
  | Some cached => ret (Some cached)
  | None =>
      let* r := attempt (query (λ d,
        sql_one (λ p, (mp_market_id p =? market_id)%N) (market_prices d))) in
      ret (match r with Ok o => o | Err _ => None end)
  end.

Definition get_all_prices {E} : M CoreDb (list MarketPrice) E :=
  let* r := attempt (query (λ d,
    sort_by (λ x y, (mp_updated_at y <=? mp_updated_at x)%Z) (market_prices d))) in
  ret (match r with Ok ps => ps | Err _ => [] end).

Definition get_price_value {E} (market_id : Uuid) : M CoreDb (option Z) E :=
  let* o := get_price market_id in
  ret (mp_price <$> o).

(** AVG of a BIGINT column, cast to float8 *)
Class NumericAverage := { average : list Z → f64 }.

Record TwapPrice := mkTwapPrice { twp_market_id : Uuid; twp_twap : f64; twp_samples : Z; twp_window_secs : Z }.

(** The average of no rows is NULL, which is not an [f64]: the row is not
    decoded.  Instants are seconds. *)
Definition get_twap `{NumericAverage} {E} (market_id : Uuid) (window_secs : Z) : M CoreDb (option TwapPrice) E :=
  let* t := now in
  let cutoff := (t - window_secs)%Z in
  let* r := attempt (query (λ d,
    sql_select (λ p, (mp_market_id p =? market_id)%N && (cutoff <=? mp_updated_at p)%Z) (oracle_price_history d))) in
  match r with
  | Ok [] | Err _ => ret None
  | Ok rows => ret (Some (mkTwapPrice market_id (average (map mp_price rows)) (Z.of_nat (length rows)) window_secs))
  end.

Definition cache_price {E} (price : MarketPrice) : M CoreDb unit E :=
  attempt (exec (λ d, set_cached_prices
    ((mp_market_id price, price) ::
     sql_delete (λ kv, (fst kv =? mp_market_id price)%N) (cached_prices d)) d)) ;;;
  ret tt.

Definition publish_price_update {E} (price : MarketPrice) : M CoreDb unit E :=
  attempt (exec (λ d, set_price_updates (price_updates d ++ [price]) d)) ;;; ret tt.

(** INSERT .. ON CONFLICT (market_id) DO UPDATE *)
Definition upsert_price (price : MarketPrice) (t : list MarketPrice) : list MarketPrice :=
  if existsb (λ p, (mp_market_id p =? mp_market_id price)%N) t then
    sql_update (λ p, (mp_market_id p =? mp_market_id price)%N) (λ _, price) t
  else t ++ [price].

(** [sources.join(",")] *)
Fixpoint join (sep : string) (xs : list string) : string :=
  match xs with
  | [] => ""
  | [x] => x
  | x :: xs => x +:+ sep +:+ join sep xs
  end.

(** The price in cents that a tick stores for a market. *)
Definition tick_price (source_prices : list SourcePrice) : Z :=
  i64_of_f64 (f64_mul (median (map sp_price source_prices)) (f64_lit 100 1)).

(** The body of the loop over the markets. *)
Definition update_market `{Exchanges} {E} (t : Z) (market : MarketRow) : M CoreDb unit E :=
  let source_prices := fetch_all_sources market in
  match source_prices with
  | [] => ret tt
  | _ =>
      detect_anomaly (E := E) (m_id market) source_prices ;;;
      let price := mkMarketPrice (m_id market) (tick_price source_prices)
                     (join "," (map sp_source source_prices)) t in
      let* r := attempt (exec (λ d, set_market_prices (upsert_price price (market_prices d)) d)) in
      match r with
      | Err _ => ret tt
      | Ok _ =>
          attempt (exec (λ d,
            set_oracle_price_history (oracle_price_history d ++ [price]) d)) ;;;
          cache_price price ;;;
          publish_price_update price
      end
  end.

(** DELETE the oldest 500 of the entries that are more than 24 hours old. *)
Definition prune_history (t : Z) (h : list MarketPrice) : list MarketPrice :=
  let is_old p := (mp_updated_at p <? t - 86400)%Z in
  sql_select (λ p, negb (is_old p)) h
  ++ drop 500 (sort_by (λ x y, (mp_updated_at x <=? mp_updated_at y)%Z) (sql_select is_old h)).

Definition update_all_prices `{Exchanges} {E} (has_cache : bool) : M CoreDb unit E :=
  let* r := attempt (MarketService.list_markets has_cache) in
  match r with
  | Err _ => ret tt
  | Ok ms =>
      let* t := now in
      mfor ms (update_market t) ;;;
      attempt (exec (λ d, set_oracle_price_history (prune_history t (oracle_price_history d)) d)) ;;;
      ret tt
  end.

End OracleService.
Import OracleService.

(** The split after three letters gives Coinbase the pair of the market unless
    the base asset is USDC, which has four. *)
Theorem coinbase_misreads_usdc market :
  coinbase_pair (symbol_for_market market) = asset_name (m_base_asset market) +:+ "-" +:+ asset_name (m_quote_asset market)
  ↔ m_base_asset market ≠ USDC.
Proof. unfold symbol_for_market. by destruct (m_base_asset market), (m_quote_asset market); vm_compute; split. Qed.

(** A TWAP price comes from rows of the market in its window, and from at least
    one; without rows there is none. *)
Theorem twap_is_over_the_window `{NumericAverage} {E} market window e :
  let rows := sql_select (λ p, (mp_market_id p =? market)%N && (env_now e - window <=? mp_updated_at p)%Z)
                (oracle_price_history (env_db e)) in
  faulty e = false →
  fst (get_twap (E := E) market window e) =
    Ok (if decide (rows = []) then None
        else Some (mkTwapPrice market (average (map mp_price rows)) (Z.of_nat (length rows)) window)).
Proof.
  intros rows Hf. unfold get_twap, now, attempt, bind, query, stmt. simpl. rewrite Hf.
  fold rows. unfold env_db at 1. simpl. destruct rows; by case_decide.
Qed.

(** ** Robustness of the median *)

Lemma SFltb_antisym x y : SFltb x y = true → SFltb y x = false.
Proof.
  assert (∀ m m', Pos.compare_cont Eq m m' = CompOpp (Pos.compare_cont Eq m' m)) as Hm.
  { intros m m'. apply (Pos.compare_antisym m' m). }
  unfold SFltb, SFcompare.
  destruct x as [ [] | [] | | [] mx ex ], y as [ [] | [] | | [] my ey ]; try done;
    rewrite (Z.compare_antisym ey ex), (Hm my mx);
    destruct (Z.compare ey ex); simpl; try done; by destruct (Pos.compare_cont Eq mx my).
Qed.

Lemma f64_not_after_total x y : f64_not_after x y = false → f64_not_after y x = true.
Proof.
  unfold f64_not_after, f64_gt. intros H%negb_false_iff%SFltb_antisym. by rewrite H.
Qed.

(** Of three quotes the oracle takes one, and of the other two one is not
    above it and one is not below it: a single exchange that answers anything
    at all cannot move the price out of the range of the other two. *)
Theorem median_of_three x y z :
  ∃ lo hi, [lo; median [x; y; z]; hi] ≡ₚ [x; y; z] ∧
    f64_gt lo (median [x; y; z]) = false ∧ f64_gt (median [x; y; z]) hi = false.
Proof.
  unfold median. pose proof (sort_by_perm f64_not_after [x; y; z]) as Hp.
  pose proof (sort_by_sorted f64_not_after [x; y; z] f64_not_after_total) as Hs.
  pose proof (Permutation_length Hp) as Hl. revert Hp Hs Hl.
  generalize (sort_by f64_not_after [x; y; z]). intros [|a [|b [|c [|]]]] Hp Hs Hl; try done.
  exists a, c. simpl. split; [done|].
  inversion Hs as [|? ? Hs1 Hab]; subst. inversion Hs1 as [|? ? _ Hbc]; subst.
  inversion Hab as [|? ? Hle1]; subst. inversion Hbc as [|? ? Hle2]; subst.
  unfold f64_not_after in *. by apply negb_true_iff in Hle1, Hle2.
Qed.

(** ** A tick is what readers see *)

Lemma upsert_price_one p t : sql_one (λ q, (mp_market_id q =? mp_market_id p)%N) (upsert_price p t) = Some p.
Proof.
  unfold upsert_price. destruct (existsb _ t) eqn:E.
  - apply existsb_exists in E as (q & Hq & E). induction t as [|q' t IH]; [done|].
    unfold sql_one, sql_select, sql_update in *. simpl. destruct (mp_market_id q' =? mp_market_id p)%N eqn:E'.
    + by rewrite N.eqb_refl.
    + rewrite E'. apply IH. destruct Hq as [->|Hq]; [congruence|done].
  - rewrite sql_one_app. destruct (sql_one _ t) as [q|] eqn:E1.
    + apply sql_one_Some in E1 as [Hin Hq]. eapply existsb_false_elem in E; [|done]. congruence.
    + unfold sql_one, sql_select. simpl. by rewrite N.eqb_refl.
Qed.

Lemma detect_anomaly_pure {E A} id qs (k : M CoreDb A E) e :
  snd ((detect_anomaly id qs ;;; k) e) = snd (k e).
Proof.
  unfold bind, detect_anomaly. destruct (_ <? 2)%nat; [done|].
  destruct (SFleb _ _); [done|]. by destruct (f64_gt _ _).
Qed.

(** Without failures a tick stores for a market the median of the quotes
    in cents, stamped with its sources, both in the table and in the cache,
    so the next reader gets exactly that price; it appends it to the history
    and publishes it; a market no exchange answers for keeps its price. *)
Theorem tick_is_read_back `{Exchanges} (m : MarketRow) t e :
  env_faults e = [] →
  let e' := snd (update_market (E := SqlxError) t m e) in
  match fetch_all_sources m with
  | [] => e' = e
  | quotes =>
      let p := mkMarketPrice (m_id m) (tick_price quotes) (join "," (map sp_source quotes)) t in
      fst (get_price_value (E := SqlxError) (m_id m) e') = Ok (Some (tick_price quotes)) ∧
      sql_one (λ q, (mp_market_id q =? m_id m)%N) (market_prices (env_db e')) = Some p ∧
      oracle_price_history (env_db e') = oracle_price_history (env_db e) ++ [p] ∧
      price_updates (env_db e') = price_updates (env_db e) ++ [p]
  end.
Proof.
  intros Hf. destruct e as [d fl u n t0]. simpl in Hf. subst fl. cbv zeta. unfold update_market.
  destruct (fetch_all_sources m) as [|q qs]; [done|].
  set (p := mkMarketPrice _ _ _ _). rewrite !detect_anomaly_pure.
  unfold get_price_value, get_price, get_cached_price, bind, attempt, query, exec, stmt, faulty. simpl.
  unfold sql_one at 1, sql_select. simpl. rewrite N.eqb_refl. simpl.
  split_and!; try done. apply (upsert_price_one p).
Qed.

Definition three_quotes : Exchanges :=
  {| fetch_binance _ := Some (f64_lit 3500 1); fetch_coinbase _ := Some (f64_lit 9999 1);
     fetch_kraken _ := Some (f64_lit 3510 1) |}.

Lemma tick_is_read_back_witness :
  fst (get_price_value (E := SqlxError) 1
         (snd (update_market (H := three_quotes) (E := SqlxError) 60 eth_market markets_env)))
  = Ok (Some 351000%Z).
Proof.
  destruct (tick_is_read_back (H := three_quotes) eth_market 60 markets_env) as [H _]; [reflexivity|].
  etransitivity; [exact H|]. vm_compute. reflexivity.
Defined.
