(* ===== verification/Risk.v ===== *)
(** * The risk engine: [src/src/risk/service.rs]

    What an intent or a bid has to pass: a market for the pair, a minimum
    size, funds, a price near the oracle's, and the user's limits on intents
    per minute and volume per day.  Days and instants are seconds of one
    clock. *)
From Stdlib Require Import SpecFloat.
From stdpp Require Import gmap pretty.
From S2P Require Import Prelude Monad Float64 Model Balances Settlement Markets Oracle.

(** The settings the engine reads ([config::get()]). *)
Record Settings := mkSettings {
  max_price_deviation : f64;
  max_intents_per_minute : Z;
  daily_volume_limit : Z;
}.

(** [{x:.1}] and [{x:.2}] of an [f64]. *)
Class F64Display := { f64_fixed : nat → f64 → string }.

Inductive RiskRejection :=
| RInsufficientBalance (available required : Z)
| RBelowMinOrderSize (min got : Z)
| RPriceDeviationTooHigh (deviation_pct max_pct : f64)
| RBidPriceDeviation (bid_price oracle_price deviation_pct : f64)
| RCrossMarketArbitrage (market_a_price market_b_price spread_pct : f64)
| RMarketNotFound
| RMarketInactive
| RRateLimitExceeded (limit : Z)
| RDailyVolumeLimitExceeded (used limit : Z)
| RInvalidAsset (a : string)
| RMissingChainConfig (msg : string).

Definition rejection_text `{F64Display} (x : RiskRejection) : string :=
  match x with
  | RInsufficientBalance available required =>
      "Insufficient balance: have " +:+ pretty available +:+ ", need " +:+ pretty required
  | RBelowMinOrderSize min got =>
      "Order size " +:+ pretty got +:+ " below minimum " +:+ pretty min
  | RPriceDeviationTooHigh deviation_pct max_pct =>
      "Price deviation " +:+ f64_fixed 1 deviation_pct +:+ "% exceeds max " +:+
      f64_fixed 1 max_pct +:+ "%"
  | RBidPriceDeviation bid_price oracle_price deviation_pct =>
      "Bid price " +:+ f64_fixed 2 bid_price +:+ " deviates " +:+ f64_fixed 1 deviation_pct +:+
      "% from oracle " +:+ f64_fixed 2 oracle_price
  | RCrossMarketArbitrage market_a_price market_b_price spread_pct =>
      "Cross-market arbitrage detected: prices " +:+ f64_fixed 2 market_a_price +:+ " vs " +:+
      f64_fixed 2 market_b_price +:+ " (" +:+ f64_fixed 1 spread_pct +:+ "% spread)"
  | RMarketNotFound => "Market not found"
  | RMarketInactive => "Market is not active"
  | RRateLimitExceeded limit =>
      "Rate limit exceeded: max " +:+ pretty limit +:+ " intents per minute"
  | RDailyVolumeLimitExceeded used limit =>
      "Daily volume " +:+ pretty used +:+ " exceeds limit " +:+ pretty limit
  | RInvalidAsset a => "Invalid asset: " +:+ a
  | RMissingChainConfig msg => "Chain config: " +:+ msg
  end%string.

Record IntentRiskParams := mkRiskParams {
  rp_user_id : string;
  rp_account_id : Uuid;
  rp_token_in : string;
  rp_token_out : string;
  rp_amount_in : Z;
  rp_min_amount_out : Z;
}.

(** ** The activity of a user *)

Module UserActivity.

Definition day_of (t : Z) : Z := (t / 86400)%Z.

Definition new (t : Z) : UserActivity := mkActivity [] 0 (day_of t).

Definition reset_if_new_day (t : Z) (a : UserActivity) : UserActivity :=
  if (day_of t =? ua_day_start a)%Z then a
  else mkActivity (ua_recent_intents a) 0 (day_of t).

Definition prune_old_intents (t : Z) (a : UserActivity) : UserActivity :=
  mkActivity (List.filter (λ x, (t - 60 <? x)%Z) (ua_recent_intents a)) (ua_daily_volume a)
    (ua_day_start a).

End UserActivity.

Module RiskEngine.
Section engine.
Context (config : Settings) (has_cache : bool).

Definition parse_asset (token : string) : result Asset RiskRejection :=
  match Worker.parse_asset token with
  | Some a => Ok a
  | None => Err (RInvalidAsset (Engine.upper token))
  end.

(** [e?] of a pure result *)
Definition lift {A E} (r : result A E) : M CoreDb A E :=
  match r with Ok a => ret a | Err x => throw x end.

Definition asset_eqb (a b : Asset) : bool := bool_decide (a = b).

Definition serves (asset_in asset_out : Asset) (m : MarketRow) : bool :=
  (asset_eqb (m_base_asset m) asset_in && asset_eqb (m_quote_asset m) asset_out)
  || (asset_eqb (m_base_asset m) asset_out && asset_eqb (m_quote_asset m) asset_in).

Definition find_market (asset_in asset_out : Asset) : M CoreDb MarketRow RiskRejection :=
  let* ms := map_err (λ _, RMarketNotFound) (MarketService.list_markets has_cache) in
  of_option RMarketNotFound (List.find (serves asset_in asset_out) ms).

Definition check_balance (account_id : Uuid) (asset : Asset) (required : Z)
  : M CoreDb unit RiskRejection :=
  let* balances := map_err (λ _, RInsufficientBalance 0 required)
                     (BalanceService.get_balances has_cache account_id) in
  let available :=
    match List.find (λ b, asset_eqb (b_asset b) asset) balances with
    | Some b => b_available_balance b
    | None => 0%Z
    end in
  guard (i64 required <=? available)%Z (RInsufficientBalance available required).

Definition check_price_deviation (amount_in min_amount_out : Z) (market : MarketRow)
  : M CoreDb unit RiskRejection :=
  if (min_amount_out =? 0)%Z || (amount_in =? 0)%Z then ret tt else
  let implied_price := f64_div (f64_of_i64 amount_in) (f64_of_i64 min_amount_out) in
  let* oracle := OracleService.get_price_value (m_id market) in
  let reference :=
    match oracle with
    | Some p => if (0 <? p)%Z then Some p
                else if (0 <? m_tick_size market)%Z then Some (m_tick_size market) else None
    | None => if (0 <? m_tick_size market)%Z then Some (m_tick_size market) else None
    end in
  match reference with
  | None => ret tt
  | Some p =>
      let reference_price := f64_of_i64 p in
      let max_deviation := max_price_deviation config in
      let deviation :=
        if f64_gt implied_price reference_price
        then f64_div (f64_sub implied_price reference_price) reference_price
        else f64_div (f64_sub reference_price implied_price) reference_price in
      guard (negb (f64_gt deviation max_deviation))
        (RPriceDeviationTooHigh (f64_mul deviation (f64_lit 100 1))
           (f64_mul max_deviation (f64_lit 100 1)))
  end.

(** [activity.entry(user_id).or_insert_with(UserActivity::new)]: the entry,
    which the caller writes back when it changes it. *)
Definition entry {E} (user_id : string) : M CoreDb UserActivity E :=
  let* t := now in
  reads (λ d, default (UserActivity.new t) (user_activity d !! user_id)).
Definition store_entry {E} (user_id : string) (a : UserActivity) : M CoreDb unit E :=
  modify (λ d, set_user_activity (<[user_id := a]> (user_activity d)) d).

Definition check_user_limits (user_id : string) (amount : Z) : M CoreDb unit RiskRejection :=
  let* a := entry user_id in
  let* t := now in
  let a := UserActivity.prune_old_intents t a in
  store_entry user_id a ;;;
  if (max_intents_per_minute config <=? Z.of_nat (length (ua_recent_intents a)))%Z
  then throw (RRateLimitExceeded (max_intents_per_minute config)) else
  let a := UserActivity.reset_if_new_day t a in
  store_entry user_id a ;;;
  guard (u64 (ua_daily_volume a + amount) <=? daily_volume_limit config)%Z
    (RDailyVolumeLimitExceeded (ua_daily_volume a) (daily_volume_limit config)).

Definition record_accepted_intent {E} (user_id : string) (amount : Z) : M CoreDb unit E :=
  let* a := entry user_id in
  let* t := now in
  let a := mkActivity (ua_recent_intents a ++ [t]) (ua_daily_volume a) (ua_day_start a) in
  let a := UserActivity.reset_if_new_day t a in
  store_entry user_id
    (mkActivity (ua_recent_intents a) (u64 (ua_daily_volume a + amount)) (ua_day_start a)).

Definition validate_intent (params : IntentRiskParams) : M CoreDb MarketRow RiskRejection :=
  let* asset_in := lift (parse_asset (rp_token_in params)) in
  let* asset_out := lift (parse_asset (rp_token_out params)) in
  let* market := find_market asset_in asset_out in
  if negb (String.eqb (m_chain market) "ethereum") && negb (String.eqb (m_chain market) "solana")
  then throw (RMissingChainConfig ("Unknown chain: " +:+ m_chain market)) else
  if is_solana market && bool_decide (m_base_token_mint market = None)
  then throw (RMissingChainConfig "Solana market missing base_token_mint") else
  if (i64 (rp_amount_in params) <? m_min_order_size market)%Z
  then throw (RBelowMinOrderSize (m_min_order_size market) (rp_amount_in params)) else
  check_balance (rp_account_id params) asset_in (rp_amount_in params) ;;;
  check_price_deviation (rp_amount_in params) (rp_min_amount_out params) market ;;;
  check_user_limits (rp_user_id params) (rp_amount_in params) ;;;
  ret market.

(** ** Bids *)

Definition check_bid_vs_oracle (bid_price : f64) (market : MarketRow)
  : M CoreDb unit RiskRejection :=
  let* oracle := OracleService.get_price_value (m_id market) in
  match oracle with
  | Some p =>
      if (0 <? p)%Z then
        let oracle_price := f64_of_i64 p in
        let deviation := f64_div (f64_abs (f64_sub bid_price oracle_price)) oracle_price in
        guard (negb (f64_gt deviation (max_price_deviation config)))
          (RBidPriceDeviation bid_price oracle_price (f64_mul deviation (f64_lit 100 1)))
      else ret tt
  | None => ret tt
  end.

Definition check_cross_market (base_asset : Asset) (bid_price : f64)
  : M CoreDb unit RiskRejection :=
  let* r := attempt (MarketService.list_markets has_cache) in
  match r with
  | Err _ => ret tt
  | Ok ms =>
      let related := List.filter (λ m, asset_eqb (m_base_asset m) base_asset) ms in
      if (length related <? 2)%nat then ret tt else
      let max_spread := f64_mul (max_price_deviation config) (f64_lit 2 1) in
      mfor related (λ market,
        let* oracle := OracleService.get_price_value (m_id market) in
        match oracle with
        | Some p =>
            if (0 <? p)%Z then
              let oracle_price := f64_of_i64 p in
              let spread := f64_div (f64_abs (f64_sub bid_price oracle_price)) oracle_price in
              guard (negb (f64_gt spread max_spread))
                (RCrossMarketArbitrage bid_price oracle_price (f64_mul spread (f64_lit 100 1)))
            else ret tt
        | None => ret tt
        end)
  end.

Definition validate_bid (intent_token_in intent_token_out : string)
    (bid_amount_out bid_fee intent_amount_in : Z) : M CoreDb unit RiskRejection :=
  if (intent_amount_in =? 0)%Z then ret tt else
  let* asset_in := lift (parse_asset intent_token_in) in
  let* asset_out := lift (parse_asset intent_token_out) in
  let* market := find_market asset_in asset_out in
  let net_bid := i64_saturating_sub bid_amount_out bid_fee in
  if (net_bid <=? 0)%Z then ret tt else
  let bid_price := f64_div (f64_of_i64 intent_amount_in) (f64_of_i64 net_bid) in
  check_bid_vs_oracle bid_price market ;;;
  check_cross_market asset_in bid_price.

End engine.
End RiskEngine.
