(* ===== verification/Auction.v ===== *)
(** * The auction: [src/src/engine/auction_engine.rs]

    When an intent is created its auction collects bids for a while; closing
    it ranks them by net value, filters them by the intent's limit and fills
    the intent greedily. *)
From stdpp Require Import gmap.
From S2P Require Import Prelude Monad Float64 Model Balances Settlement Storage.

Module Auction.

(** [bid.amount_out.saturating_sub(bid.fee)] *)
Definition net_value (b : SolverBid) : Z := i64_saturating_sub (bid_amount_out b) (bid_fee b).

(** The comparison of [sort_by]: net value descending, then earliest first. *)
Definition bid_le (a b : SolverBid) : bool :=
  (net_value b <? net_value a)%Z
  || ((net_value a =? net_value b)%Z && (bid_timestamp a <=? bid_timestamp b)%Z).

Definition sort_bids_by_price {E} (intent_id : Uuid) : M CoreDb (list SolverBid) E :=
  let* bids := Storage.get_bids intent_id in
  ret (sort_by bid_le bids).

Definition filter_bids_for_order_type (intent : Intent) (bids : list SolverBid)
  : list SolverBid :=
  match i_order_type intent with
  | Limit =>
      let limit := default 0%Z (i_limit_price intent) in
      List.filter (λ b, (limit <=? net_value b)%Z) bids
  | Market | Stop => bids
  end.

(** The loop of [generate_partial_fills]. *)
Fixpoint fill_loop {E} (intent : Intent) (remaining : Z) (sorted_bids : list SolverBid)
  : M CoreDb (list Fill) E :=
  match sorted_bids with
  | [] => ret []
  | bid :: rest =>
      if (remaining <=? 0)%Z then ret [] else
      let fill_qty := (remaining `min` net_value bid)%Z in
      if (fill_qty <=? 0)%Z then fill_loop intent remaining rest else
      let* f := Fill_new (i_id intent) (bid_solver_id bid) (bid_amount_out bid) (net_value bid)
                  fill_qty in
      let* fs := fill_loop intent (i64 (remaining - fill_qty)) rest in
      ret (f :: fs)
  end.

Definition generate_partial_fills {E} (intent : Intent) (sorted_bids : list SolverBid)
  : M CoreDb (list Fill) E :=
  fill_loop intent (i_amount_in intent) sorted_bids.

(** [fills.iter().map(|f| f.filled_qty).sum::<i64>()] *)
Definition total_filled (fs : list Fill) : Z := i64 (sum_by f_filled_qty fs).

Definition close_auction (intent_id : Uuid) : M CoreDb unit RedisError :=
  let* o := Storage.get_intent intent_id in
  match o with
  | None => ret tt
  | Some intent =>
      let* all_bids := sort_bids_by_price intent_id in
      let bids := filter_bids_for_order_type intent all_bids in
      match bids with
      | [] =>
          let intent := Engine.with_status IFailed intent in
          attempt (Storage.update_intent intent) ;;;
          EventBus.publish (IntentFailed intent)
      | _ =>
          let* fills := generate_partial_fills intent bids in
          let fully_filled := (i_amount_in intent <=? total_filled fills)%Z in
          mfor fills (λ fill, attempt (Storage.insert_fill fill) ;;; ret tt) ;;;
          let intent :=
            Engine.with_status (if fully_filled then IMatched else IPartiallyFilled) intent in
          attempt (Storage.update_intent intent) ;;;
          match fills with
          | [] => ret tt
          | best_fill :: _ =>
              match List.find (λ b, String.eqb (bid_solver_id b) (f_solver_id best_fill)) bids with
              | Some bid => EventBus.publish (IntentMatched intent bid)
              | None => ret tt
              end
          end
      end
  end.

(** [run_auction] up to the sleep, and after it: the bids arrive between. *)
Definition open_auction (intent_id : Uuid) : M CoreDb unit RedisError :=
  let* o := Storage.get_intent intent_id in
  match o with
  | Some intent =>
      let intent := Engine.with_status IBidding intent in
      attempt (Storage.update_intent intent) ;;;
      EventBus.publish (IntentBidding intent)
  | None => ret tt
  end.

Definition run_auction (intent_id : Uuid) (while_open : M CoreDb unit RedisError)
  : M CoreDb unit RedisError :=
  open_auction intent_id ;;;
  while_open ;;;
  Storage.get_bids (E := RedisError) intent_id ;;;
  close_auction intent_id.

End Auction.
Import Auction.

(** ** The matching is greedy by price and time *)

Definition positive (b : SolverBid) : bool := (0 <? net_value b)%Z.
(** What a fill takes from its bid. *)
Definition bid_terms (b : SolverBid) : string * Z * Z :=
  (bid_solver_id b, bid_amount_out b, net_value b).
Definition fill_terms (f : Fill) : string * Z * Z := (f_solver_id f, f_price f, f_qty f).

(** The quantity the bids together offer. *)
Definition offered (bids : list SolverBid) : Z := sum_by (λ b, 0 `max` net_value b)%Z bids.

(** Every fill but the last takes its bid's whole offer. *)
Fixpoint only_last_partial (fs : list Fill) : Prop :=
  match fs with
  | [] => True
  | f :: fs' => (fs' ≠ [] → f_filled_qty f = f_qty f) ∧ only_last_partial fs'
  end.

Lemma offered_nonneg bids : (0 ≤ offered bids)%Z.
Proof. apply sum_by_nonneg. intros b _. lia. Qed.

Lemma fill_loop_spec {E} intent bids r (e : Env CoreDb) :
  (r ≤ i64_max)%Z →
  ∃ fs e', fill_loop (E := E) intent r bids e = (Ok fs, e') ∧ env_db e' = env_db e ∧
    sum_by f_filled_qty fs = ((0 `max` r) `min` offered bids)%Z ∧
    map fill_terms fs = take (length fs) (map bid_terms (List.filter positive bids)) ∧
    only_last_partial fs ∧
    ∀ f, f ∈ fs → f_intent_id f = i_id intent ∧ (0 < f_filled_qty f ≤ f_qty f)%Z.
Proof.
  revert r e. induction bids as [|b bids IH]; intros r e Hr; simpl.
  { exists [], e. split_and!; try done; [simpl; lia|]. by intros f ?%not_elem_of_nil. }
  pose proof (offered_nonneg bids) as Hoff. unfold offered in *. simpl.
  destruct (Z.leb_spec r 0).
  { exists [], e. split_and!; try done; [simpl; lia|]. by intros f ?%not_elem_of_nil. }
  destruct (Z.leb_spec (r `min` net_value b) 0).
  - destruct (IH r e Hr) as (fs & e' & -> & Hdb & Hsum & Hmap & Hlast & Hall).
    exists fs, e'. split_and!; try done; [lia|].
    unfold positive at 1. destruct (Z.ltb_spec 0 (net_value b)); [lia|done].
  - unfold Fill_new, bind at 1 2 3 4, new_v4, now, ret at 1. simpl.
    rewrite i64_id by (unfold in_i64, i64_min, i64_max in *; lia).
    match goal with |- context [fill_loop _ _ _ ?e1] => set (e1' := e1) end.
    destruct (IH (r - r `min` net_value b)%Z e1' ltac:(lia))
      as (fs & e' & Hrun & Hdb & Hsum & Hmap & Hlast & Hall).
    unfold bind. rewrite Hrun. eexists _, e'. split; [reflexivity|].
    unfold positive at 1. destruct (Z.ltb_spec 0 (net_value b)); [|lia]. simpl.
    split_and!; [done|lia|by rewrite Hmap| |done|].
    + intros Hne. enough (r `min` net_value b = net_value b)%Z by done.
      destruct fs as [|f fs]; [done|]. simpl in Hsum.
      pose proof (Hall f (list_elem_of_here _ _)).
      assert (0 ≤ sum_by f_filled_qty fs)%Z; [|lia].
      apply sum_by_nonneg. intros f' Hf'.
      pose proof (Hall f' (list_elem_of_further _ _ _ Hf')). lia.
    + intros f [->|Hf]%elem_of_cons; [simpl; split; [done|lia]|by apply Hall].
Qed.

(** C15: the fills of an intent are for its acceptable bids in their order,
    each takes its bid's whole net value except possibly the last, every one
    is positive, and together they fill exactly the smaller of the intent's
    amount and of what the bids offer. *)
Theorem partial_fills_greedy {E} intent bids (e : Env CoreDb) :
  (0 ≤ i_amount_in intent ≤ i64_max)%Z →
  ∃ fs e', generate_partial_fills (E := E) intent bids e = (Ok fs, e') ∧
    env_db e' = env_db e ∧
    total_filled fs = (i_amount_in intent `min` offered bids)%Z ∧
    map fill_terms fs = take (length fs) (map bid_terms (List.filter positive bids)) ∧
    only_last_partial fs ∧
    (∀ f, f ∈ fs → f_intent_id f = i_id intent ∧ (0 < f_filled_qty f ≤ f_qty f)%Z).
Proof.
  intros Hr. destruct (fill_loop_spec (E := E) intent bids _ e (proj2 Hr))
    as (fs & e' & Hrun & Hdb & Hsum & Hrest).
  exists fs, e'. split_and!; try done; [|by apply Hrest..].
  unfold total_filled. rewrite Hsum. pose proof (offered_nonneg bids). no_wrap. lia.
Qed.

(** Bids in the order of the book. *)
Definition better (a b : SolverBid) : Prop :=
  (net_value b < net_value a)%Z ∨
  (net_value a = net_value b ∧ bid_timestamp a ≤ bid_timestamp b)%Z.

Lemma bid_le_better a b : bid_le a b = true ↔ better a b.
Proof.
  unfold bid_le, better. rewrite orb_true_iff, andb_true_iff, Z.ltb_lt, Z.eqb_eq, Z.leb_le. done.
Qed.

Lemma bid_le_total a b : bid_le a b = false → bid_le b a = true.
Proof.
  intros H. apply bid_le_better. assert (¬ better a b) as Hn by (rewrite <- bid_le_better; congruence).
  unfold better in *. lia.
Qed.

Lemma better_trans : Transitive better.
Proof. unfold better. intros a b c. lia. Qed.

(** The order book of an intent holds exactly its bids, best net value
    first and, among equal ones, the earliest first; whoever precedes another
    in it is better in that sense. *)
Theorem order_book_sorted {E} iid e book e' :
  sort_bids_by_price (E := E) iid e = (Ok book, e') → env_faults e = [] →
  book ≡ₚ sql_select (λ b, (bid_intent_id b =? iid)%N) (bids (env_db e)) ∧
  StronglySorted better book.
Proof.
  intros Hrun Hf. unfold sort_bids_by_price, Storage.get_bids, bind, attempt, query, stmt, faulty in Hrun.
  rewrite Hf in Hrun. simpl in Hrun. injection Hrun as <- <-. split.
  - by rewrite !sort_by_perm.
  - apply Sorted_StronglySorted; [apply better_trans|].
    eapply Sorted_weaken; [|apply (sort_by_sorted bid_le), bid_le_total].
    intros x y Hxy. by apply bid_le_better.
Qed.

(** Nothing of an auction touches balances or the ledger. *)
Definition money (d : CoreDb) : list Balance * list LedgerEntry := (balances d, ledger_entries d).

Lemma fill_loop_keeps {X E} (φ : CoreDb → X) intent r bs : keeps φ (fill_loop (E := E) intent r bs).
Proof.
  revert r. induction bs as [|b bs IH]; intros r; simpl; unfold Fill_new; keeps; apply IH.
Qed.

Lemma close_auction_keeps iid : keeps money (close_auction iid).
Proof.
  unfold close_auction, Storage.get_intent, sort_bids_by_price, Storage.get_bids,
    generate_partial_fills, Storage.insert_fill, Storage.update_intent, EventBus.publish.
  keeps; apply fill_loop_keeps.
Qed.

Lemma insert_fills_run fs (e : Env CoreDb) :
  env_faults e = [] →
  ∃ e', mfor fs (λ f, attempt (F := RedisError) (Storage.insert_fill f) ;;; ret tt) e = (Ok tt, e') ∧
    env_db e' = set_fills (fills (env_db e) ++ fs) (env_db e) ∧ env_faults e' = [].
Proof.
  revert e. induction fs as [|f fs IH]; intros [d fl u n t] Hf; simpl in *; subst fl.
  - eexists. split_and!; [done| |done]. simpl. rewrite app_nil_r. by destruct d.
  - unfold bind at 1 2, attempt at 1, Storage.insert_fill at 1, exec, stmt, faulty. simpl.
    match goal with |- context [mfor fs _ ?e1] => destruct (IH e1 eq_refl) as (e' & -> & Hdb & Hf) end.
    exists e'. split_and!; [done| |done]. rewrite Hdb. simpl. unfold set_fills. simpl.
    by rewrite <- app_assoc.
Qed.

Lemma fill_loop_faults {E} intent r bs (e : Env CoreDb) fs e' :
  fill_loop (E := E) intent r bs e = (Ok fs, e') → env_faults e' = env_faults e.
Proof.
  revert r e fs. induction bs as [|b bs IH]; intros r e fs; simpl; [by intros [= _ <-]|].
  destruct (r <=? 0)%Z; [by intros [= _ <-]|].
  destruct (_ <=? 0)%Z; [by apply IH|]. unfold Fill_new. intros H. run_inv.
  by match goal with H : fill_loop _ _ _ _ = _ |- _ => apply IH in H end.
Qed.

Lemma partial_fills_spec {E} intent bids (e : Env CoreDb) :
  (i_amount_in intent ≤ i64_max)%Z → env_faults e = [] →
  ∃ fs e', generate_partial_fills (E := E) intent bids e = (Ok fs, e') ∧
    env_db e' = env_db e ∧ sum_by f_filled_qty fs = ((0 `max` i_amount_in intent) `min` offered bids)%Z ∧
    map fill_terms fs = take (length fs) (map bid_terms (List.filter positive bids)) ∧
    (∀ f, f ∈ fs → f_intent_id f = i_id intent) ∧ env_faults e' = [].
Proof.
  intros Hr Hf. destruct (fill_loop_spec (E := E) intent bids _ e Hr)
    as (fs & e' & Hrun & Hdb & Hsum & Hmap & _ & Hall).
  exists fs, e'. split_and!; try done; [|by apply fill_loop_faults in Hrun; congruence].
  intros f Hin. by apply Hall.
Qed.

(** The bids of an intent as the auction ranks them. *)
Definition book (iid : Uuid) (d : CoreDb) : list SolverBid :=
  sort_by bid_le (sort_by (λ x y, (bid_timestamp x <=? bid_timestamp y)%Z)
    (sql_select (λ b, (bid_intent_id b =? iid)%N) (bids d))).

(** What an auction makes of an intent. *)
Definition verdict (i : Intent) (accepted : list SolverBid) : IntentStatus :=
  if bool_decide (accepted = []) then IFailed
  else if (i_amount_in i <=? offered accepted)%Z then IMatched else IPartiallyFilled.

Lemma close_auction_run iid i e :
  env_faults e = [] → sql_one (λ i, (i_id i =? iid)%N) (intents (env_db e)) = Some i →
  (i_amount_in i ≤ i64_max)%Z →
  let d' := env_db (snd (close_auction iid e)) in
  let accepted := filter_bids_for_order_type i (book iid (env_db e)) in
  ∃ fs, d' = set_event_bus (event_bus d') (set_fills (fills (env_db e) ++ fs)
      (set_intents (sql_update (λ r, (i_id r =? i_id i)%N) (Engine.with_status (verdict i accepted))
                     (intents (env_db e))) (env_db e))) ∧
    sum_by f_filled_qty fs = ((0 `max` i_amount_in i) `min` offered accepted)%Z ∧
    map fill_terms fs = take (length fs) (map bid_terms (List.filter positive accepted)) ∧
    ∀ f, f ∈ fs → f_intent_id f = i_id i.
Proof.
  intros Hf Hi Ha. cbv zeta. destruct (close_auction iid e) as [r e'] eqn:Hrun. simpl.
  destruct e as [d fl u n t]. simpl in *. subst fl.
  unfold close_auction, Storage.get_intent, sort_bids_by_price, Storage.get_bids in Hrun.
  unfold bind at 1 2 3 4 in Hrun. unfold attempt at 1 2 in Hrun. unfold query, stmt, faulty in Hrun.
  simpl in Hrun. rewrite Hi in Hrun. simpl in Hrun. fold (book iid d) in Hrun. unfold verdict.
  destruct (filter_bids_for_order_type i (book iid d)) as [|b bs] eqn:Eacc; simpl in Hrun |- *.
  { unfold bind, attempt, Storage.update_intent, EventBus.publish, map_err, exec, stmt in Hrun.
    simpl in Hrun. injection Hrun as <- <-. exists []. rewrite app_nil_r. split_and!; [by destruct d| |done|].
    - unfold offered. simpl. lia.
    - by intros f ?%not_elem_of_nil. }
  match type of Hrun with bind _ _ ?e1 = _ =>
    destruct (partial_fills_spec (E := RedisError) i (b :: bs) e1 Ha eq_refl)
      as (fs & e2 & Hgen & Hdb & Htot & Hmap & Hids & Hf2) end.
  unfold bind at 1 in Hrun. rewrite Hgen in Hrun.
  destruct (insert_fills_run fs e2 Hf2) as (e3 & Hins & Hdb3 & Hf3).
  pose proof (offered_nonneg (b :: bs)) as Hoff.
  assert (total_filled fs = (0 `max` i_amount_in i) `min` offered (b :: bs))%Z as Htf.
  { unfold total_filled. rewrite Htot. no_wrap. done. }
  unfold bind at 1 in Hrun. rewrite Hins, Htf in Hrun. rewrite Hdb in Hdb3. simpl in Hdb3.
  replace (i_amount_in i <=? (0 `max` i_amount_in i) `min` offered (b :: bs))%Z
    with (i_amount_in i <=? offered (b :: bs))%Z in Hrun by lia.
  destruct e3 as [d3 fl3 u3 n3 t3]. simpl in Hdb3, Hf3. subst fl3 d3.
  exists fs. split_and!; [|done..].
  revert Hrun. unfold bind, attempt, Storage.update_intent, EventBus.publish, map_err, exec, stmt.
  destruct fs as [|f fs]; [by intros [= <- <-]|].
  match goal with |- context [match ?o with Some _ => _ | None => _ end] => destruct o end;
    simpl; by intros [= <- <-].
Qed.

(** Closing an auction without outside failures: with no acceptable bid
    the intent becomes failed; otherwise the fills of the greedy matching over
    the acceptable bids are stored, and the intent becomes matched when they
    offer its whole amount, partially filled when they do not.  No balance
    moves either way, so the funds of a failed intent stay locked; and the
    intent's status is not consulted, so a cancelled or expired intent whose
    funds were released is matched all the same. *)
Theorem close_auction_outcome iid i e :
  env_faults e = [] → sql_one (λ i, (i_id i =? iid)%N) (intents (env_db e)) = Some i →
  (i_amount_in i ≤ i64_max)%Z →
  let e' := snd (close_auction iid e) in
  let accepted := filter_bids_for_order_type i (book iid (env_db e)) in
  intents (env_db e') = sql_update (λ r, (i_id r =? i_id i)%N) (Engine.with_status (verdict i accepted))
                          (intents (env_db e)) ∧
  money (env_db e') = money (env_db e) ∧
  ∃ fs, fills (env_db e') = fills (env_db e) ++ fs ∧
    sum_by f_filled_qty fs = ((0 `max` i_amount_in i) `min` offered accepted)%Z ∧
    map fill_terms fs = take (length fs) (map bid_terms (List.filter positive accepted)).
Proof.
  intros Hf Hi Ha. cbv zeta.
  destruct (close_auction_run iid i e Hf Hi Ha) as (fs & Hd & Hsum & Hmap & _). rewrite Hd. simpl.
  split_and!; [done|done|]. by exists fs.
Qed.

(** ** A concrete auction: three bids, the best two fill the intent *)

Definition sample_intent : Intent :=
  mkIntent 5 "7" "USDC" "ETH" 100 1 1000 IBidding 0 Limit (Some 40%Z) None (Some "sell"%string) None
    "ethereum" "ethereum" false.
Definition sample_bids : list SolverBid :=
  [mkBid 1 5 "s1" 50 5 10; mkBid 2 5 "s2" 70 5 11; mkBid 3 5 "s3" 20 0 12; mkBid 4 6 "s1" 99 0 9].
Definition auction_db : CoreDb := set_bids sample_bids (set_intents [sample_intent] empty_db).
Definition auction_env : Env CoreDb := mkEnv auction_db [] (λ n, N.of_nat n) 0 50.

Lemma partial_fills_greedy_witness :
  ∃ fs e', generate_partial_fills (E := RedisError) sample_intent sample_bids auction_env = (Ok fs, e') ∧
    total_filled fs = 100%Z.
Proof.
  destruct (partial_fills_greedy (E := RedisError) sample_intent sample_bids auction_env)
    as (fs & e' & H & _ & Ht & _).
  - vm_compute. split; discriminate.
  - exists fs, e'. split; [exact H|]. rewrite Ht. vm_compute. reflexivity.
Defined.

Lemma order_book_sorted_witness :
  StronglySorted better (book 5 auction_db).
Proof.
  apply (order_book_sorted (E := RedisError) 5 auction_env (book 5 auction_db) auction_env).
  - vm_compute. reflexivity.
  - reflexivity.
Defined.

Lemma close_auction_outcome_witness :
  let e' := snd (close_auction 5 auction_env) in
  map i_status (intents (env_db e')) = [IMatched] ∧
  map f_filled_qty (fills (env_db e')) = [65; 35]%Z.
Proof.
  destruct (close_auction_outcome 5 sample_intent auction_env) as (H & _).
  - reflexivity.
  - vm_compute. reflexivity.
  - vm_compute. discriminate.
  - cbv zeta. rewrite H. vm_compute. split; reflexivity.
Defined.
