(* ===== verification/Intents.v ===== *)
(** * Intents and bids: [src/src/services/{intent_service,bid_service}.rs]

    Creating an intent passes the risk checks and then, in one transaction,
    moves its amount from available to locked and inserts it; cancelling,
    failing and amending move it back.  Bids are only recorded. *)
From stdpp Require Import gmap pretty.
From S2P Require Import Prelude Monad Float64 Model Balances Settlement Storage Markets Risk Auction.

Inductive IntentError :=
| InsufficientBalance
| InvalidAsset (a : string)
| IntentNotFound
| NotAmendable (s : string)
| RiskRejected (e : string)
| RedisFailed (e : RedisError)
| BalanceFailed (e : string)
| StorageError (e : string).

Module IntentService.
Section service.
Context `{SqlxDisplay, F64Display} (config : Settings) (has_cache : bool).

(** [map_err(|e| IntentError::StorageError(e.to_string()))] *)
Definition storage (e : SqlxError) : IntentError := StorageError (sqlx_text e).

Definition parse_asset (token : string) : M CoreDb Asset IntentError :=
  of_option (InvalidAsset (Engine.upper token)) (Worker.parse_asset token).

(** UPDATE balances SET available_balance = available_balance + da,
    locked_balance = locked_balance + dl WHERE account_id AND asset *)
Definition move_balance (account_id : Uuid) (asset : Asset) (da dl t : Z)
  : M CoreDb unit IntentError :=
  map_err storage (stmt (λ d,
    bs ← sql_try_update (is_row account_id asset) (add_to_row da dl t) (balances d);
    Some (tt, set_balances bs d))).

(** SELECT available_balance FROM balances .. FOR UPDATE; no row reads as 0 *)
Definition available_for_update (account_id : Uuid) (asset : Asset) : M CoreDb Z IntentError :=
  map_err storage (query (λ d,
    default 0%Z (b_available_balance <$> find_row account_id asset (balances d)))).

(** INSERT INTO intents without the order columns, which take their defaults. *)
Definition insert_new (i : Intent) : M CoreDb unit IntentError :=
  map_err storage (stmt (λ d,
    if existsb (λ r, (i_id r =? i_id i)%N) (intents d) then None
    else Some (tt, set_intents (intents d ++
      [mkIntent (i_id i) (i_user_id i) (i_token_in i) (i_token_out i) (i_amount_in i)
         (i_min_amount_out i) (i_deadline i) (i_status i) (i_created_at i) Market
         None None (Some "sell") None "ethereum" "ethereum" false]) d))).

Definition set_status (intent_id : Uuid) (s : IntentStatus) : M CoreDb unit IntentError :=
  map_err storage (exec (λ d, set_intents
    (sql_update (λ r, (i_id r =? intent_id)%N) (Engine.with_status s) (intents d)) d)).

Definition publish (ev : Event) : M CoreDb unit IntentError := map_err RedisFailed (EventBus.publish ev).

(** The transaction of [create_intent]. *)
Definition create_tx (account_id : Uuid) (asset : Asset) (amount : Z) (intent : Intent)
  : M CoreDb unit IntentError :=
  transaction storage (
    let* available := available_for_update account_id asset in
    if (available <? amount)%Z then throw InsufficientBalance else
    let* t := now in
    move_balance account_id asset (- amount) amount t ;;;
    insert_new intent).

Definition create_intent (user_id : string) (account_id : Uuid) (token_in token_out : string)
    (amount_in min_amount_out deadline : Z) : M CoreDb Intent IntentError :=
  map_err (λ x, RiskRejected (rejection_text x))
    (RiskEngine.validate_intent config has_cache
       (mkRiskParams user_id account_id token_in token_out amount_in min_amount_out)) ;;;
  let* asset := parse_asset token_in in
  let amount := as_i64 amount_in in
  let* intent := Intent_new user_id token_in token_out amount_in min_amount_out deadline in
  create_tx account_id asset amount intent ;;;
  RiskEngine.record_accepted_intent user_id amount_in ;;;
  publish (IntentCreated intent) ;;;
  attempt (StreamBus.publish (StreamIntentCreated intent)) ;;;
  ret intent.

Definition update_intent_status {E} (intent_id : Uuid) (status : IntentStatus)
  : M CoreDb (option Intent) E :=
  let* o := Storage.get_intent intent_id in
  match o with
  | None => ret None
  | Some intent =>
      let intent := Engine.with_status status intent in
      attempt (Storage.update_intent intent) ;;;
      ret (Some intent)
  end.

(** [cancel_intent] and [fail_intent], which differ in the status and event. *)
Definition close_intent (status : IntentStatus) (event : Intent → Event)
    (intent_id account_id : Uuid) : M CoreDb (option Intent) IntentError :=
  let* o := Storage.get_intent intent_id in
  match o with
  | None => ret None
  | Some intent =>
      let* asset := parse_asset (i_token_in intent) in
      let amount := i_amount_in intent in
      transaction storage (
        let* t := now in
        move_balance account_id asset amount (- amount) t ;;;
        set_status intent_id status) ;;;
      let intent := Engine.with_status status intent in
      publish (event intent) ;;;
      ret (Some intent)
  end.
Definition cancel_intent := close_intent ICancelled IntentCancelled.
Definition fail_intent := close_intent IFailed IntentFailed.

Definition start_bidding (intent_id : Uuid) : M CoreDb (option Intent) IntentError :=
  let* o := Storage.get_intent intent_id in
  match o with
  | None => ret None
  | Some intent =>
      let intent := Engine.with_status IBidding intent in
      attempt (Storage.update_intent intent) ;;;
      publish (IntentBidding intent) ;;;
      ret (Some intent)
  end.

(** ** Amending *)

Definition record_amendment (intent_id : Uuid) (n : Z) (field : AmendField) (old new : Z)
    (by_user : string) : M CoreDb unit IntentError :=
  map_err storage (exec (λ d, set_intent_amendments
    (intent_amendments d ++ [mkAmendment intent_id n field old new by_user]) d)).

Definition is_amendable (s : IntentStatus) : bool :=
  match s with IOpen | IBidding => true | _ => false end.

(** The balance adjustment of [amend_intent]; [diff] and its opposite wrap. *)
Definition adjust_lock (account_id : Uuid) (asset : Asset) (diff t : Z)
  : M CoreDb unit IntentError :=
  if (0 <? diff)%Z then
    let* available := available_for_update account_id asset in
    if (available <? diff)%Z then throw InsufficientBalance else
    move_balance account_id asset (- diff) diff t
  else if (diff <? 0)%Z then
    move_balance account_id asset (i64 (- diff)) (- i64 (- diff)) t
  else ret tt.

Definition amended (amount min_out : Z) (limit : option Z) (r : Intent) : Intent :=
  mkIntent (i_id r) (i_user_id r) (i_token_in r) (i_token_out r) amount min_out (i_deadline r)
    IOpen (i_created_at r) (i_order_type r) limit (i_stop_price r) (i_stop_side r)
    (i_triggered_at r) (i_source_chain r) (i_destination_chain r) (i_cross_chain r).

Definition amend_tx (intent_id account_id : Uuid) (new_amount_in new_min_amount_out : option Z)
    (new_limit_price : option Z) : M CoreDb unit IntentError :=
  transaction storage (
    let* o := map_err storage (query (λ d, sql_one (λ i, (i_id i =? intent_id)%N) (intents d))) in
    let* intent := of_option IntentNotFound o in
    if negb (is_amendable (i_status intent))
    then throw (NotAmendable ("status is " +:+ Worker.status_text (i_status intent))) else
    let* asset := parse_asset (i_token_in intent) in
    let old_amount := i_amount_in intent in
    let new_amount := default old_amount (as_i64 <$> new_amount_in) in
    let* t := now in
    let* amendment_count := map_err storage (query (λ d,
      i32 (Z.of_nat (rows_affected (λ a, (am_intent_id a =? intent_id)%N)
                       (intent_amendments d))))) in
    let amendment_num := i32 (amendment_count + 1) in
    adjust_lock account_id asset (i64 (new_amount - old_amount)) t ;;;
    (if (new_amount =? old_amount)%Z then ret tt
     else record_amendment intent_id amendment_num AmAmountIn old_amount new_amount
            (i_user_id intent)) ;;;
    let new_min_out := default (i_min_amount_out intent) (as_i64 <$> new_min_amount_out) in
    (if (new_min_out =? i_min_amount_out intent)%Z then ret tt
     else record_amendment intent_id amendment_num AmMinAmountOut (i_min_amount_out intent)
            new_min_out (i_user_id intent)) ;;;
    let final_limit_price :=
      match new_limit_price with Some p => Some p | None => i_limit_price intent end in
    (if bool_decide (new_limit_price ≠ None ∧ new_limit_price ≠ i_limit_price intent)
     then record_amendment intent_id amendment_num AmLimitPrice
            (default 0%Z (i_limit_price intent)) (default 0%Z new_limit_price) (i_user_id intent)
     else ret tt) ;;;
    map_err storage (exec (λ d, set_intents
      (sql_update (λ r, (i_id r =? intent_id)%N)
         (amended new_amount new_min_out final_limit_price) (intents d)) d))).

Definition amend_intent (intent_id account_id : Uuid)
    (new_amount_in new_min_amount_out new_limit_price : option Z) : M CoreDb Intent IntentError :=
  amend_tx intent_id account_id new_amount_in new_min_amount_out new_limit_price ;;;
  let* o := Storage.get_intent intent_id in
  let* intent := of_option IntentNotFound o in
  publish (IntentAmended intent) ;;;
  ret intent.

End service.
End IntentService.

(** ** Bids *)

Inductive BidError :=
| BidRedisError (e : RedisError)
| BidRiskRejected (e : string)
| BidIntentNotFound.

Module BidService.
Section service.
Context `{F64Display} (config : Settings) (has_cache : bool).

Definition submit_bid (intent_id : Uuid) (solver_id : string) (amount_out fee : Z)
  : M CoreDb SolverBid BidError :=
  let* o := Storage.get_intent intent_id in
  let* intent := of_option BidIntentNotFound o in
  map_err (λ x, BidRiskRejected (rejection_text x))
    (RiskEngine.validate_bid config has_cache (i_token_in intent) (i_token_out intent)
       (as_i64 amount_out) (as_i64 fee) (i_amount_in intent)) ;;;
  let* bid := SolverBid_new intent_id solver_id amount_out fee in
  attempt (Storage.insert_bid bid) ;;;
  map_err BidRedisError (EventBus.publish (BidSubmitted bid)) ;;;
  attempt (StreamBus.publish (StreamBidSubmitted bid)) ;;;
  ret bid.

(** [max_by]: the last of the greatest elements. *)
Definition best_of (bids : list SolverBid) : option SolverBid :=
  foldl (λ acc b, match acc with
                  | None => Some b
                  | Some a => if Auction.bid_le b a then Some b else Some a
                  end) None bids.

Definition get_best_bid {E} (intent_id : Uuid) : M CoreDb (option SolverBid) E :=
  let* bids := Storage.get_bids intent_id in
  ret (best_of bids).

Definition build_orderbook {E} (intent_id : Uuid) : M CoreDb (list SolverBid) E :=
  Auction.sort_bids_by_price intent_id.

End service.
End BidService.
