(* ===== verification/RiskCorrect.v ===== *)
(** * What the risk checks guarantee

    Over the definitions of [Risk]: what an accepted intent satisfies, what
    the checks can change, and that a user's limits hold after every
    recorded intent. *)
From stdpp Require Import gmap pretty.
From S2P Require Import Prelude Monad Float64 Model Balances Settlement Markets Oracle Risk.

(** Everything but the engine's own memory and the caches it reads through. *)
Definition risk_frame (d : CoreDb) : CoreDb :=
  set_cached_balances [] (set_cached_market_list None (set_user_activity ∅ d)).

Lemma list_markets_keeps c : keeps risk_frame (MarketService.list_markets c).
Proof.
  unfold MarketService.list_markets, MarketService.cached, MarketService.cache_write,
    MarketRepository.find_all. keeps.
Qed.

Lemma get_balances_keeps c acc : keeps risk_frame (BalanceService.get_balances c acc).
Proof.
  unfold BalanceService.get_balances, BalanceService.cache_get, BalanceService.cache_set,
    BalanceRepository.find_by_account_id. keeps.
Qed.

Lemma get_price_keeps {E} id : keeps risk_frame (OracleService.get_price_value (E := E) id).
Proof.
  unfold OracleService.get_price_value, OracleService.get_price, OracleService.get_cached_price.
  keeps.
Qed.

Lemma check_user_limits_keeps cfg uid n : keeps risk_frame (RiskEngine.check_user_limits cfg uid n).
Proof. unfold RiskEngine.check_user_limits, RiskEngine.entry, RiskEngine.store_entry. keeps. Qed.

Lemma record_accepted_keeps {E} uid n :
  keeps risk_frame (RiskEngine.record_accepted_intent (E := E) uid n).
Proof. unfold RiskEngine.record_accepted_intent, RiskEngine.entry, RiskEngine.store_entry. keeps. Qed.

#[export] Hint Resolve list_markets_keeps get_balances_keeps get_price_keeps
  check_user_limits_keeps record_accepted_keeps : keeps.

Lemma validate_intent_keeps cfg c p : keeps risk_frame (RiskEngine.validate_intent cfg c p).
Proof.
  unfold RiskEngine.validate_intent, RiskEngine.lift, RiskEngine.find_market,
    RiskEngine.check_balance, RiskEngine.check_price_deviation. keeps.
Qed.

Lemma validate_bid_keeps cfg c tin tout out fee n : keeps risk_frame (RiskEngine.validate_bid cfg c tin tout out fee n).
Proof.
  unfold RiskEngine.validate_bid, RiskEngine.find_market, RiskEngine.lift, RiskEngine.check_bid_vs_oracle,
    RiskEngine.check_cross_market. keeps.
Qed.

(** ** The limits *)

(** At time [t] the user has made at most the allowed number of intents in the
    last minute and at most the allowed volume today. *)
Definition within_limits (cfg : Settings) (t : Z) (a : UserActivity) : Prop :=
  (Z.of_nat (length (ua_recent_intents (UserActivity.prune_old_intents t a)))
     ≤ max_intents_per_minute cfg)%Z ∧
  (ua_daily_volume a ≤ daily_volume_limit cfg)%Z ∧ ua_day_start a = UserActivity.day_of t.

(** The activity that the limits of a user are judged by at time [t]. *)
Definition activity_at (t : Z) (uid : string) (d : CoreDb) : UserActivity :=
  UserActivity.reset_if_new_day t
    (UserActivity.prune_old_intents t (default (UserActivity.new t) (user_activity d !! uid))).

Lemma check_user_limits_Ok cfg uid n e e' :
  RiskEngine.check_user_limits cfg uid n e = (Ok tt, e') →
  let a := activity_at (env_now e) uid (env_db e) in
  (Z.of_nat (length (ua_recent_intents a)) < max_intents_per_minute cfg)%Z ∧
  (u64 (ua_daily_volume a + n) ≤ daily_volume_limit cfg)%Z ∧
  env_db e' = set_user_activity (<[uid := a]> (user_activity (env_db e))) (env_db e) ∧
  env_now e' = env_now e.
Proof.
  intros H. cbv zeta. unfold RiskEngine.check_user_limits, RiskEngine.entry, RiskEngine.store_entry in H.
  run_inv. destruct (_ <=? _)%Z eqn:E in H; [by run_inv|]. run_inv. simpl.
  match goal with H : (u64 _ <=? _)%Z = true |- _ => rename H into Hv; apply Z.leb_le in Hv end.
  apply Z.leb_gt in E. split_and!; [|done| |done].
  - unfold activity_at, UserActivity.reset_if_new_day. by case_match.
  - unfold set_user_activity. simpl. f_equal. apply insert_insert_eq.
Qed.

Lemma prune_snoc t a :
  UserActivity.prune_old_intents t
    (mkActivity (ua_recent_intents (UserActivity.prune_old_intents t a) ++ [t])
       (ua_daily_volume a) (ua_day_start a)) =
  mkActivity (ua_recent_intents (UserActivity.prune_old_intents t a) ++ [t]) (ua_daily_volume a)
    (ua_day_start a).
Proof.
  unfold UserActivity.prune_old_intents. simpl. f_equal. rewrite List.filter_app. f_equal.
  - induction (ua_recent_intents a) as [|x l IH]; simpl; [done|].
    destruct (t - 60 <? x)%Z eqn:E; simpl; [rewrite E; by f_equal|done].
  - simpl. replace (t - 60 <? t)%Z with true by lia. done.
Qed.

(** What recording an accepted intent makes of an activity. *)
Definition accepted (t n : Z) (a : UserActivity) : UserActivity :=
  let a := UserActivity.reset_if_new_day t
             (mkActivity (ua_recent_intents a ++ [t]) (ua_daily_volume a) (ua_day_start a)) in
  mkActivity (ua_recent_intents a) (u64 (ua_daily_volume a + n)) (ua_day_start a).

Lemma record_accepted_run {E} uid n (e : Env CoreDb) :
  RiskEngine.record_accepted_intent (E := E) uid n e =
  (Ok tt, with_db (set_user_activity
     (<[uid := accepted (env_now e) n
                 (default (UserActivity.new (env_now e)) (user_activity (env_db e) !! uid))]>
      (user_activity (env_db e))) (env_db e)) e).
Proof. done. Qed.

Lemma activity_at_day t uid d : ua_day_start (activity_at t uid d) = UserActivity.day_of t.
Proof.
  unfold activity_at, UserActivity.reset_if_new_day. case_match; [|done]. simpl in *. lia.
Qed.

Lemma activity_at_pruned t uid d :
  ua_recent_intents (activity_at t uid d) =
  ua_recent_intents (UserActivity.prune_old_intents t
    (default (UserActivity.new t) (user_activity d !! uid))).
Proof. unfold activity_at, UserActivity.reset_if_new_day. by case_match. Qed.

Lemma accepted_within cfg t uid n d :
  let a := activity_at t uid d in
  (Z.of_nat (length (ua_recent_intents a)) < max_intents_per_minute cfg)%Z →
  (u64 (ua_daily_volume a + n) ≤ daily_volume_limit cfg)%Z →
  within_limits cfg t (accepted t n a) ∧
  ua_daily_volume (accepted t n a) = u64 (ua_daily_volume a + n).
Proof.
  intros a Hlen Hvol. pose proof (activity_at_day t uid d) as Hday. fold a in Hday.
  assert (accepted t n a = mkActivity (ua_recent_intents a ++ [t]) (u64 (ua_daily_volume a + n))
    (ua_day_start a)) as ->.
  { unfold accepted, UserActivity.reset_if_new_day. simpl. by rewrite Hday, Z.eqb_refl. }
  split; [|done]. split_and!; [|done|done].
  unfold a in *. rewrite activity_at_pruned in *.
  set (a0 := default _ _) in *.
  pose proof (f_equal ua_recent_intents (prune_snoc t a0)) as Hp.
  unfold UserActivity.prune_old_intents in *. cbn [ua_recent_intents] in *.
  rewrite Hp, length_app. cbn [length]. lia.
Qed.

(** ** What an accepted intent satisfies *)

Record risk_accepts (cfg : Settings) (has_cache : bool) (p : IntentRiskParams) (m : MarketRow)
    (d : CoreDb) (t : Z) : Prop := {
  ra_market : ∃ asset_in asset_out,
    Worker.parse_asset (rp_token_in p) = Some asset_in ∧
    Worker.parse_asset (rp_token_out p) = Some asset_out ∧
    RiskEngine.serves asset_in asset_out m = true;
  ra_listed : caches_sound d → m ∈ markets d;
  ra_chain : m_chain m = "ethereum" ∨ m_chain m = "solana" ∧ m_base_token_mint m ≠ None;
  ra_size : (m_min_order_size m ≤ i64 (rp_amount_in p))%Z;
  ra_rate : (Z.of_nat (length (ua_recent_intents (activity_at t (rp_user_id p) d)))
               < max_intents_per_minute cfg)%Z;
  ra_volume : (u64 (ua_daily_volume (activity_at t (rp_user_id p) d) + rp_amount_in p)
                 ≤ daily_volume_limit cfg)%Z;
}.

Lemma list_markets_subset c e ms e' :
  MarketService.list_markets c e = (Ok ms, e') → caches_sound (env_db e) →
  ∀ m, m ∈ ms → m ∈ markets (env_db e).
Proof.
  intros H [_ Hall]. unfold MarketService.list_markets in H.
  apply bind_Ok in H as (o & e1 & [Hdb Hhit]%cached_read & H). destruct o as [ms'|].
  - specialize (Hhit _ eq_refl). run_inv. by apply Hall.
  - unfold MarketRepository.find_all in H. run_inv. rewrite Hdb. intros m. by rewrite elem_of_sort_by.
Qed.

(** The checks before the limits touch neither the clock nor the activities. *)
Lemma early_checks_keep cfg c asset_in asset_out acc n k m :
  keeps user_activity (RiskEngine.find_market c asset_in asset_out) ∧
  keeps user_activity (RiskEngine.check_balance c acc asset_in n) ∧
  keeps user_activity (RiskEngine.check_price_deviation cfg n k m).
Proof.
  unfold RiskEngine.find_market, RiskEngine.check_balance, RiskEngine.check_price_deviation,
    MarketService.list_markets, MarketService.cached, MarketService.cache_write,
    MarketRepository.find_all, BalanceService.get_balances, BalanceService.cache_get,
    BalanceService.cache_set, BalanceRepository.find_by_account_id,
    OracleService.get_price_value, OracleService.get_price, OracleService.get_cached_price.
  split_and!; keeps.
Qed.

Lemma early_checks_steady cfg c asset_in asset_out acc n k m :
  steady (RiskEngine.find_market c asset_in asset_out) ∧
  steady (RiskEngine.check_balance c acc asset_in n) ∧
  steady (RiskEngine.check_price_deviation cfg n k m).
Proof.
  unfold RiskEngine.find_market, RiskEngine.check_balance, RiskEngine.check_price_deviation,
    MarketService.list_markets, MarketService.cached, MarketService.cache_write,
    MarketRepository.find_all, BalanceService.get_balances, BalanceService.cache_get,
    BalanceService.cache_set, BalanceRepository.find_by_account_id,
    OracleService.get_price_value, OracleService.get_price, OracleService.get_cached_price.
  split_and!; steady.
Qed.

Lemma find_market_Ok c asset_in asset_out e m e' :
  RiskEngine.find_market c asset_in asset_out e = (Ok m, e') →
  RiskEngine.serves asset_in asset_out m = true ∧
  (caches_sound (env_db e) → m ∈ markets (env_db e)).
Proof.
  intros H. unfold RiskEngine.find_market in H. run_inv.
  match goal with H : List.find _ _ = Some _ |- _ => apply find_some in H as [Hin Hs] end.
  split; [done|]. intros. eapply list_markets_subset; [done..|]. by apply list_elem_of_In.
Qed.

Lemma parse_asset_Ok token (e : Env CoreDb) a e' :
  RiskEngine.lift (RiskEngine.parse_asset token) e = (Ok a, e') →
  Worker.parse_asset token = Some a ∧ e' = e.
Proof.
  unfold RiskEngine.lift, RiskEngine.parse_asset. destruct (Worker.parse_asset token); intros; by run_inv.
Qed.

Lemma validate_intent_Ok cfg c p e m e' :
  RiskEngine.validate_intent cfg c p e = (Ok m, e') →
  risk_accepts cfg c p m (env_db e) (env_now e) ∧
  user_activity (env_db e') =
    <[rp_user_id p := activity_at (env_now e) (rp_user_id p) (env_db e)]> (user_activity (env_db e)).
Proof.
  intros H. unfold RiskEngine.validate_intent in H.
  apply bind_Ok in H as (asset_in & ? & [Hin ->]%parse_asset_Ok & H).
  apply bind_Ok in H as (asset_out & ? & [Hout ->]%parse_asset_Ok & H).
  apply bind_Ok in H as (market & e1 & Hm & H).
  destruct (early_checks_keep cfg c asset_in asset_out (rp_account_id p) (rp_amount_in p)
    (rp_min_amount_out p) market) as (K1 & K2 & K3).
  destruct (early_checks_steady cfg c asset_in asset_out (rp_account_id p) (rp_amount_in p)
    (rp_min_amount_out p) market) as (S1 & S2 & S3).
  destruct (negb _ && negb _) eqn:Hc in H; [by run_inv|].
  destruct (is_solana market && _) eqn:Hmint in H; [by run_inv|].
  destruct (_ <? _)%Z eqn:Hsize in H; [by run_inv|].
  apply bind_Ok in H as (u2 & e2 & H2 & H). apply bind_Ok in H as (u3 & e3 & H3 & H).
  apply bind_Ok in H as ([] & e4 & H4 & H). run_inv.
  apply check_user_limits_Ok in H4 as (Hr & Hv & Hdb & _).
  pose proof (keeps_run _ _ _ _ _ Hm K1) as A1. pose proof (keeps_run _ _ _ _ _ H2 K2) as A2.
  pose proof (keeps_run _ _ _ _ _ H3 K3) as A3.
  pose proof (steady_run _ _ _ _ Hm S1) as B1. pose proof (steady_run _ _ _ _ H2 S2) as B2.
  pose proof (steady_run _ _ _ _ H3 S3) as B3.
  assert (activity_at (env_now e3) (rp_user_id p) (env_db e3) =
          activity_at (env_now e) (rp_user_id p) (env_db e)) as Hact.
  { unfold activity_at. by rewrite A3, A2, A1, B3, B2, B1. }
  rewrite Hact in *. apply find_market_Ok in Hm as [Hs Hl]. split.
  - split; try done; [by exists asset_in, asset_out| |lia].
    unfold is_solana in Hmint. destruct (String.eqb_spec (m_chain market) "ethereum"); [by left|].
    destruct (String.eqb_spec (m_chain market) "solana"); [|done]. right. split; [done|].
    simpl in Hmint. by apply bool_decide_eq_false in Hmint.
  - rewrite Hdb. simpl. by rewrite A3, A2, A1.
Qed.

Lemma validate_intent_steady cfg c p : steady (RiskEngine.validate_intent cfg c p).
Proof.
  unfold RiskEngine.validate_intent, RiskEngine.lift, RiskEngine.find_market,
    RiskEngine.check_balance, RiskEngine.check_price_deviation, RiskEngine.check_user_limits,
    RiskEngine.entry, RiskEngine.store_entry, MarketService.list_markets, MarketService.cached,
    MarketService.cache_write, MarketRepository.find_all, BalanceService.get_balances,
    BalanceService.cache_get, BalanceService.cache_set, BalanceRepository.find_by_account_id,
    OracleService.get_price_value, OracleService.get_price, OracleService.get_cached_price.
  steady.
Qed.
