(* ===== verification/IntentsCorrect.v ===== *)
(** * What the intent service guarantees

    Creating an intent reserves its funds or changes nothing; amending keeps
    what is reserved equal to the amount; cancelling releases it, every time
    it is called. *)
From stdpp Require Import gmap pretty.
From S2P Require Import Prelude Monad Float64 Model Balances Settlement Storage Markets Oracle Risk Auction Intents RiskCorrect.

(** The posting made to the row of [k], when there is one. *)
Definition row_posting (k : Key) (da dl : Z) (t : list Balance) : list Posting :=
  match find_row (fst k) (snd k) t with Some _ => [mkPosting k da dl] | None => [] end.

Lemma posts_try_update k da dl ts t t' :
  sql_try_update (is_row (fst k) (snd k)) (add_to_row da dl ts) t = Some t' → wf_balances t →
  posts (row_posting k da dl t) t t' ∧ map b_key t' = map b_key t.
Proof.
  intros H Hwf. split.
  2:{ eapply sql_try_update_Some in H; [|apply add_to_row_Some]. subst t'. by apply map_sql_update. }
  unfold row_posting. destruct (find_row _ _ t) as [b|] eqn:E.
  - pose proof E as [Hb Hk]%find_row_Some. destruct k as [acc a].
    eapply posts_add_to_row; try done; [|by apply (is_row_true (acc, a))].
    intros r Hr. by apply (is_row_true (acc, a)) in Hr.
  - apply try_update_none in H; [subst; apply posts_nil|].
    intros r Hr. by eapply sql_one_None in E.
Qed.

Lemma row_posting_row k da dl t : has_row k t → row_posting k da dl t = [mkPosting k da dl].
Proof.
  intros (b & Hb & Hk). unfold row_posting. destruct (find_row _ _ t) eqn:E; [done|].
  by eapply find_row_None in E.
Qed.

Lemma row_posting_total k n t a : sum_by (at_asset a) (row_posting k (- n) n t) = 0%Z.
Proof.
  unfold row_posting. destruct (find_row _ _ t); [|done]. simpl. unfold at_asset. case_decide; simpl; lia.
Qed.

(** Where no row was added, a key has the same row posting before and after. *)
Lemma row_posting_stable k da dl t t' :
  map b_key t' = map b_key t → row_posting k da dl t' = row_posting k da dl t.
Proof.
  intros Hk. unfold row_posting.
  assert (∀ t1 t2, map b_key t1 = map b_key t2 → find_row (fst k) (snd k) t1 = None →
    find_row (fst k) (snd k) t2 = None) as Hnone.
  { intros t1 t2 Hm Hn. destruct (find_row _ _ t2) as [b|] eqn:E; [|done].
    apply find_row_Some in E as [Hb Hkb]. exfalso. apply (elem_of_map b_key) in Hb.
    rewrite <- Hm, list_elem_of_In, in_map_iff in Hb. destruct Hb as (b' & Hb' & Hin).
    apply list_elem_of_In in Hin. eapply find_row_None in Hn; [|done]. congruence. }
  destruct (find_row _ _ t) eqn:E1, (find_row _ _ t') eqn:E2; try done.
  - by rewrite (Hnone t' t) in E1.
  - by rewrite (Hnone t t') in E2.
Qed.

(** Moving [n] between the two balances of a key, as far as both allow. *)
Lemma balances_inv_move k n t t' :
  posts (row_posting k (- n) n t) t t' → balances_inv t →
  (- locked t k ≤ n ≤ available t k)%Z → balances_inv t'.
Proof.
  intros Hp Hinv Hn. pose proof Hinv as [_ Hs Hm].
  apply (balances_inv_posts _ _ _ Hp Hinv); intros x; rewrite ?row_posting_total; [| |specialize (Hm x); lia];
    pose proof (holdings_nonneg t x Hs); unfold row_posting; destruct (find_row _ _ t); simpl;
    unfold at_key; simpl; repeat case_decide; subst; lia.
Qed.

Section service.
Context `{SqlxDisplay, F64Display} (cfg : Settings) (c : bool).
Import IntentService.

Lemma move_balance_Ok acc a da dl ts e u e' :
  move_balance acc a da dl ts e = (Ok u, e') → wf_balances (balances (env_db e)) →
  ∃ bs, env_db e' = set_balances bs (env_db e) ∧
    posts (row_posting (acc, a) da dl (balances (env_db e))) (balances (env_db e)) bs ∧
    map b_key bs = map b_key (balances (env_db e)).
Proof.
  intros H1 Hwf. unfold move_balance in H1. run_inv.
  match goal with H : mbind _ _ = Some _ |- _ => apply bind_Some in H as (bs & Hbs & Heq) end.
  simplify_eq. exists bs. split; [done|]. by eapply (posts_try_update (acc, a)).
Qed.

(** The row that [create_intent] inserts: the columns it leaves out have
    their defaults. *)
Definition stored (i : Intent) : Intent :=
  mkIntent (i_id i) (i_user_id i) (i_token_in i) (i_token_out i) (i_amount_in i)
    (i_min_amount_out i) (i_deadline i) (i_status i) (i_created_at i) Market
    None None (Some "sell"%string) None "ethereum" "ethereum" false.

(** What the transaction of [create_intent] does: [n] moves from available to
    locked, and the intent is inserted under a fresh id. *)
Record reserves (k : Key) (n : Z) (i : Intent) (d d' : CoreDb) : Prop := {
  rv_funded : (n ≤ available (balances d) k)%Z;
  rv_posts : posts (row_posting k (- n) n (balances d)) (balances d) (balances d');
  rv_rows : map b_key (balances d') = map b_key (balances d);
  rv_fresh : ∀ r, r ∈ intents d → i_id r ≠ i_id i;
  rv_intents : intents d' = intents d ++ [stored i];
  rv_frame : set_balances [] (set_intents [] d') = set_balances [] (set_intents [] d);
}.

Lemma create_tx_Ok acc a n i e u e' :
  create_tx acc a n i e = (Ok u, e') → wf_balances (balances (env_db e)) →
  reserves (acc, a) n i (env_db e) (env_db e').
Proof.
  intros H1 Hwf. apply transaction_Ok in H1 as (e2 & H1 & ->). simpl.
  unfold available_for_update, insert_new in H1. run_inv.
  destruct (_ <? _)%Z eqn:Hav in H1; [by run_inv|]. run_inv.
  match goal with H : move_balance _ _ _ _ _ _ = _ |- _ =>
    apply move_balance_Ok in H as (bs & Hdb & Hp & Hrows); [|done] end.
  simpl in Hdb, Hp. rewrite Hdb in *. simpl in *.
  match goal with H : (if ?b then _ else _) = Some _ |- _ => destruct b eqn:Hfresh; [done|] end.
  simplify_eq. split; simpl; try done.
  - unfold available. simpl. destruct (find_row acc a _) in *; simpl in *; lia.
  - intros r Hr Heq. apply (existsb_false_elem _ _ _ Hfresh) in Hr. by apply N.eqb_neq in Hr.
Qed.

Lemma create_tx_raises acc a n i : raises (λ x, ∀ y, x ≠ RedisFailed y) (create_tx acc a n i).
Proof.
  apply raises_transaction; [done|]. apply raises_bind; [by apply raises_map_err|]. intros av.
  destruct (_ <? _)%Z; [by apply raises_throw|]. apply raises_bind; [apply raises_now|]. intros ts.
  apply raises_bind; [|intros _]; by apply raises_map_err.
Qed.

Lemma create_tx_activity acc a n i : keeps user_activity (create_tx acc a n i).
Proof.
  unfold create_tx, available_for_update, move_balance, insert_new. keeps; apply keeps_stmt; intros d ? d' Hd.
  - apply bind_Some in Hd as (? & _ & Hd). by simplify_eq.
  - case_match; by simplify_eq.
Qed.

Lemma create_tx_steady acc a n i : steady (create_tx acc a n i).
Proof. unfold create_tx, available_for_update, move_balance, insert_new. steady. Qed.

(** The new intent, from the request. *)
Definition requested (uid tin tout : string) (amount_in min_out deadline : Z) (i : Intent) : Prop :=
  i_user_id i = uid ∧ i_token_in i = tin ∧ i_token_out i = tout ∧ i_amount_in i = i64 amount_in ∧
  i_min_amount_out i = i64 min_out ∧ i_deadline i = deadline ∧ i_status i = IOpen.

(** Everything but the risk engine's memory and the events. *)
Definition intent_frame (d : CoreDb) : CoreDb :=
  set_event_bus [] (set_stream_bus [] (risk_frame d)).

(** Every way [create_intent] can end. *)
Inductive created (uid : string) (acc : Uuid) (tin tout : string) (amt mo dl : Z)
    (d d' : CoreDb) : result Intent IntentError → Prop :=
| created_refused x :
    risk_frame d' = risk_frame d → (∀ y, x ≠ RedisFailed y) →
    created uid acc tin tout amt mo dl d d' (Err x)
| created_reserved a i r :
    Worker.parse_asset tin = Some a → requested uid tin tout amt mo dl i →
    reserves (acc, a) (i64 amt) i (intent_frame d) (intent_frame d') →
    match r with
    | Ok i' => i' = i ∧ event_bus d' = event_bus d ++ [IntentCreated i]
    | Err x => (∃ y, x = RedisFailed y) ∧ event_bus d' = event_bus d
    end → created uid acc tin tout amt mo dl d d' r.

Lemma reserves_frame k n i d d1 d2 d3 :
  reserves k n i d1 d2 → intent_frame d1 = intent_frame d → intent_frame d3 = intent_frame d2 →
  reserves k n i (intent_frame d) (intent_frame d3).
Proof.
  intros [Hf Hp Hrw Hfr Hi Hframe] <- ->. split; try done. exact (f_equal intent_frame Hframe).
Qed.

Lemma create_intent_created uid acc tin tout amt mo dl e r e' :
  create_intent cfg c uid acc tin tout amt mo dl e = (r, e') →
  wf_balances (balances (env_db e)) →
  created uid acc tin tout amt mo dl (env_db e) (env_db e') r.
Proof.
  intros H1 Hwf. unfold create_intent, bind at 1 in H1.
  pose proof (validate_intent_keeps cfg c (mkRiskParams uid acc tin tout amt mo) e) as Hk.
  unfold map_err at 1 in H1.
  destruct (RiskEngine.validate_intent _ _ _ e) as [[m|x] e1]; simpl in Hk;
    [|injection H1 as <- <-; by apply created_refused].
  unfold bind at 1, parse_asset, of_option in H1.
  destruct (Worker.parse_asset tin) as [a|] eqn:Ha; [|injection H1 as <- <-; by apply created_refused].
  unfold ret at 1, bind at 1 in H1.
  destruct (Intent_new uid tin tout amt mo dl e1) as [[i|x] e2] eqn:Hi; [|done].
  assert (requested uid tin tout amt mo dl i ∧ env_db e2 = env_db e1) as [Hreq He2].
  { unfold Intent_new, bind, new_v4, now, ret in Hi. by injection Hi as <- <-. }
  unfold bind at 1 in H1.
  destruct (create_tx acc a (as_i64 amt) i e2) as [[u|x] e3] eqn:Htx.
  2:{ injection H1 as <- <-. apply created_refused.
      - apply transaction_Err in Htx as ->. by rewrite He2.
      - intros r' ->. by eapply create_tx_raises. }
  apply create_tx_Ok in Htx; [|by rewrite He2, (f_equal balances Hk : balances (env_db e1) = _)].
  assert (intent_frame (env_db e2) = intent_frame (env_db e)) as Hfr.
  { rewrite He2. exact (f_equal (λ d, set_event_bus [] (set_stream_bus [] d)) Hk). }
  assert (event_bus (env_db e3) = event_bus (env_db e)) as Hbus.
  { pose proof (f_equal event_bus (rv_frame _ _ _ _ _ Htx)) as Hb. simpl in Hb.
    rewrite Hb, He2. exact (f_equal event_bus Hk). }
  unfold bind at 1 in H1. rewrite record_accepted_run in H1.
  destruct e3 as [d3 fl3 u3 n3 t3]. simpl in *.
  apply (created_reserved _ _ _ _ _ _ _ _ _ a i); [done|done|..].
  - eapply reserves_frame; [exact Htx|done|].
    revert H1. unfold bind, publish, EventBus.publish, StreamBus.publish, attempt, map_err, exec, stmt, ret.
    simpl. destruct fl3 as [|[] [|[] fl]]; by intros [= <- <-].
  - revert H1. unfold bind, publish, EventBus.publish, StreamBus.publish, attempt, map_err, exec, stmt, ret.
    simpl. rewrite <- Hbus. destruct fl3 as [|[] [|[] fl]]; intros [= <- <-]; simpl; eauto.
Qed.

(** C1: a successful [create_intent] reserves exactly the amount of the new
    intent: the amount fits an [i64] and was available to the account in the
    asset the intent sells; it moves from available to locked, so the supply
    of every asset stays the same and no balance becomes negative; one open
    intent with the requested terms and a fresh id is inserted, its creation
    is published, and no other table changes. *)
Theorem create_intent_reserves uid acc tin tout amt mo dl e i e' :
  create_intent cfg c uid acc tin tout amt mo dl e = (Ok i, e') →
  balances_inv (balances (env_db e)) → caches_sound (env_db e) →
  (∀ m, m ∈ markets (env_db e) → 0 ≤ m_min_order_size m)%Z → in_u64 amt →
  ∃ a, Worker.parse_asset tin = Some a ∧ requested uid tin tout amt mo dl i ∧
    i_amount_in i = amt ∧ (amt ≤ available (balances (env_db e)) (acc, a))%Z ∧
    reserves (acc, a) amt i (intent_frame (env_db e)) (intent_frame (env_db e')) ∧
    event_bus (env_db e') = event_bus (env_db e) ++ [IntentCreated i] ∧
    (∀ b, asset_total b (balances (env_db e')) = asset_total b (balances (env_db e))) ∧
    balances_inv (balances (env_db e')).
Proof.
  intros Hrun Hinv Hsound Hmin Hamt. pose proof Hinv as [Hwf _ _].
  assert (0 ≤ i64 amt)%Z as Hpos.
  { unfold create_intent in Hrun. apply bind_Ok in Hrun as (m & e1 & Hv & _).
    apply map_err_Ok, validate_intent_Ok in Hv as [Hacc _].
    pose proof (ra_size _ _ _ _ _ _ Hacc). pose proof (Hmin m (ra_listed _ _ _ _ _ _ Hacc Hsound)).
    simpl in *. lia. }
  assert (i64 amt = amt) as Hid.
  { unfold i64, wrap_s, in_u64, u64_max in *. change (2 ^ (64 - 1))%Z with (2 ^ 63)%Z in *.
    destruct (decide (amt < 2 ^ 63)%Z); [rewrite Z.mod_small; lia|].
    rewrite <- (Z.mod_unique_pos (amt + 2 ^ 63) (2 ^ 64) 1 (amt + 2 ^ 63 - 2 ^ 64)) in Hpos |- *; lia. }
  apply create_intent_created in Hrun; [|done]. inversion Hrun as [|a i' r Ha Hreq Hres Hend Heq]; subst. destruct Hend as [-> Hbus].
  rewrite Hid in *. pose proof Hres as [Hf Hp _ _ _ _]. simpl in Hf, Hp.
  exists a. split_and!; try done.
  - destruct Hreq as (_ & _ & _ & Hi & _). congruence.
  - intros b. rewrite (posts_total _ _ _ Hp) by done. rewrite row_posting_total. lia.
  - apply (balances_inv_move _ _ _ _ Hp Hinv). pose proof (solvent_locked _ (acc, a) (inv_solvent _ Hinv)). lia.
Qed.

(** C39: a [create_intent] that fails changes nothing but the risk engine's
    memory, with one exception: when the event bus refuses the event, the
    error comes after the commit, and the intent has been inserted and its
    amount locked all the same. *)
Theorem create_intent_fails uid acc tin tout amt mo dl e x e' :
  create_intent cfg c uid acc tin tout amt mo dl e = (Err x, e') →
  wf_balances (balances (env_db e)) →
  (risk_frame (env_db e') = risk_frame (env_db e) ∧ ∀ y, x ≠ RedisFailed y) ∨
  (∃ y a i, x = RedisFailed y ∧ requested uid tin tout amt mo dl i ∧
     reserves (acc, a) (i64 amt) i (intent_frame (env_db e)) (intent_frame (env_db e')) ∧
     event_bus (env_db e') = event_bus (env_db e)).
Proof.
  intros Hrun Hwf. apply create_intent_created in Hrun; [|done].
  inversion Hrun as [x' Hf Hne|a i r Ha Hreq Hres Hend Heq]; subst; [by left|].
  destruct Hend as [[y ->] Hbus].
  right. by exists y, a, i.
Qed.

(** C40: right after an intent is accepted its user is within the limits, the
    new intent included: no more intents in the last minute and no more volume
    today than the settings allow.  The volume is what was counted today plus
    the amount whenever that sum fits an [u64]; no other user's count moves. *)
Theorem create_intent_within_limits uid acc tin tout amt mo dl e i e' :
  create_intent cfg c uid acc tin tout amt mo dl e = (Ok i, e') →
  ∃ a, user_activity (env_db e') !! uid = Some a ∧ within_limits cfg (env_now e) a ∧
    ua_daily_volume a = u64 (ua_daily_volume (activity_at (env_now e) uid (env_db e)) + amt) ∧
    ∀ uid', uid' ≠ uid → user_activity (env_db e') !! uid' = user_activity (env_db e) !! uid'.
Proof.
  intros Hrun. unfold create_intent in Hrun.
  apply bind_Ok in Hrun as (m & e1 & Hv%map_err_Ok & Hrun).
  pose proof (steady_run _ _ _ _ Hv (validate_intent_steady _ _ _)) as T1.
  apply validate_intent_Ok in Hv as [Hacc Hact]. simpl in Hact.
  apply bind_Ok in Hrun as (a & e2 & [_ ->]%of_option_Ok & Hrun).
  apply bind_Ok in Hrun as (i' & e3 & Hi & Hrun).
  assert (env_db e3 = env_db e1 ∧ env_now e3 = env_now e1) as [D3 T3].
  { unfold Intent_new, bind, new_v4, now, ret in Hi. by injection Hi as <- <-. }
  apply bind_Ok in Hrun as (u & e4 & Htx & Hrun).
  pose proof (keeps_run user_activity _ _ _ _ Htx (create_tx_activity _ _ _ _)) as D4.
  pose proof (steady_run _ _ _ _ Htx (create_tx_steady _ _ _ _)) as T4.
  apply bind_Ok in Hrun as (u5 & e5 & Hrec & Hrun). rewrite record_accepted_run in Hrec.
  injection Hrec as <- <-.
  assert (user_activity (env_db e') =
    <[uid := accepted (env_now e) amt (activity_at (env_now e) uid (env_db e))]>
      (user_activity (env_db e))) as Hua.
  { assert (keeps user_activity (publish (IntentCreated i') ;;;
      attempt (StreamBus.publish (StreamIntentCreated i')) ;;; ret (E := IntentError) i')) as Hk.
    { unfold publish, EventBus.publish, StreamBus.publish. keeps. }
    rewrite (keeps_run _ _ _ _ _ Hrun Hk). simpl.
    by rewrite D4, D3, Hact, T4, T3, T1, lookup_insert_eq, insert_insert_eq. }
  destruct Hacc as [_ _ _ _ Hr Hvol]. simpl in Hr, Hvol.
  destruct (accepted_within cfg (env_now e) uid amt (env_db e) Hr Hvol) as [Hw Hvn].
  eexists. rewrite Hua. split_and!; [apply lookup_insert_eq|done|done|].
  intros uid' Hne. by apply lookup_insert_ne.
Qed.
(** ** Releasing *)

Definition row_of (id : Uuid) (d : CoreDb) : option Intent :=
  sql_one (λ i, (i_id i =? id)%N) (intents d).

Lemma get_intent_Ok {E} id e o e' :
  Storage.get_intent (E := E) id e = (Ok o, e') →
  env_db e' = env_db e ∧ (o = row_of id (env_db e) ∨ o = None).
Proof.
  unfold Storage.get_intent, bind, attempt, query, stmt. destruct (faulty e); simpl;
    intros [= <- <-]; auto.
Qed.

(** What cancelling and failing do to the intent [i]: its amount goes back to
    the available balance of the account named in the call, whatever the
    status of the intent was. *)
Record releases (status : IntentStatus) (id acc : Uuid) (a : Asset) (i : Intent) (d d' : CoreDb)
  : Prop := {
  rl_posts : posts (row_posting (acc, a) (i_amount_in i) (- i_amount_in i) (balances d))
               (balances d) (balances d');
  rl_intents : intents d' =
    sql_update (λ r, (i_id r =? id)%N) (Engine.with_status status) (intents d);
  rl_frame : set_balances [] (set_intents [] (set_event_bus [] d')) =
             set_balances [] (set_intents [] (set_event_bus [] d));
}.

Lemma close_intent_Ok status ev id acc e o e' :
  close_intent status ev id acc e = (Ok (Some o), e') → wf_balances (balances (env_db e)) →
  ∃ i a, row_of id (env_db e) = Some i ∧ Worker.parse_asset (i_token_in i) = Some a ∧
    o = Engine.with_status status i ∧ releases status id acc a i (env_db e) (env_db e') ∧
    event_bus (env_db e') = event_bus (env_db e) ++ [ev o].
Proof.
  intros Hrun Hwf. unfold close_intent in Hrun.
  apply bind_Ok in Hrun as (o1 & e1 & [Hdb Ho]%get_intent_Ok & Hrun).
  destruct o1 as [i|]; [|by run_inv]. destruct Ho as [Ho|]; [|done].
  unfold parse_asset in Hrun. run_inv.
  match goal with H : transaction _ _ _ = _ |- _ => apply transaction_Ok in H as (ex & Ht & ->) end.
  unfold set_status, publish, EventBus.publish in *. run_inv.
  match goal with H : move_balance _ _ _ _ _ _ = _ |- _ =>
    apply move_balance_Ok in H as (bs & Hdb2 & Hp & _); [|simpl; by rewrite Hdb] end.
  simplify_eq. simpl in *. rewrite Hdb in *. exists i. eexists. split_and!; try done.
  - rewrite Hdb2. split; simpl; [exact Hp|done|done].
  - by rewrite Hdb2.
Qed.

(** Cancelling an intent right after creating it gives the account back
    what the creation reserved: every balance is as it was, and the intent is
    cancelled. *)
Theorem create_cancel_roundtrip uid acc tin tout amt mo dl e i e1 o e2 :
  create_intent cfg c uid acc tin tout amt mo dl e = (Ok i, e1) →
  cancel_intent (i_id i) acc e1 = (Ok (Some o), e2) →
  wf_balances (balances (env_db e)) →
  (∀ k, available (balances (env_db e2)) k = available (balances (env_db e)) k ∧
        locked (balances (env_db e2)) k = locked (balances (env_db e)) k) ∧
  (row_of (i_id i) (env_db e2)) = Some (Engine.with_status ICancelled (stored i)).
Proof.
  intros Hrun Hcancel Hwf. apply create_intent_created in Hrun; [|done].
  inversion Hrun as [|a i' ? Ha Hreq Hres Hend Heq]; subst. destruct Hend as [-> Hbus].
  destruct Hres as [_ Hp Hrows Hfresh Hins _]. simpl in Hp, Hrows, Hfresh, Hins.
  assert (row_of (i_id i') (env_db e1) = Some (stored i')) as Hrow.
  { unfold row_of. rewrite Hins, sql_one_app. destruct (sql_one _ (intents (env_db e))) as [r|] eqn:E.
    - apply sql_one_Some in E as [Hr Heq']. apply N.eqb_eq in Heq'. by destruct (Hfresh r).
    - unfold sql_one, sql_select. simpl. by rewrite N.eqb_refl. }
  pose proof (posts_wf _ _ _ Hp Hwf) as Hwf1.
  apply close_intent_Ok in Hcancel as (i2 & a2 & Hi2 & Ha2 & _ & [Hp2 Hi _] & _); [|done].
  rewrite Hrow in Hi2. injection Hi2 as <-. simpl in Ha2, Hp2.
  destruct Hreq as (_ & Htin & _ & Hamt & _). rewrite Htin, Ha in Ha2. injection Ha2 as <-.
  split.
  - intros k. rewrite (posts_available _ _ _ Hp2), (posts_locked _ _ _ Hp2) by done.
    rewrite (posts_available _ _ _ Hp), (posts_locked _ _ _ Hp) by done. rewrite Hamt.
    rewrite (row_posting_stable _ _ _ _ _ Hrows). unfold row_posting.
    destruct (find_row _ _ (balances (env_db e))); simpl; [|lia]. unfold at_key. simpl.
    case_decide; lia.
  - unfold row_of. rewrite Hi. unfold sql_update. rewrite sql_one_map; [|intros r; by destruct (i_id r =? i_id i')%N eqn:Hr; simpl; rewrite ?Hr].
    unfold row_of in Hrow. rewrite Hrow. simpl. by rewrite N.eqb_refl.
Qed.

(** [cancel_intent] asks neither the status of the intent nor how much is
    locked: cancelling the same intent twice releases its amount twice, out of
    what the account has locked for its other intents, and below zero when
    there is nothing else. *)
Theorem cancel_twice_releases_twice id acc e o1 e1 o2 e2 :
  cancel_intent id acc e = (Ok (Some o1), e1) → cancel_intent id acc e1 = (Ok (Some o2), e2) →
  wf_balances (balances (env_db e)) →
  ∃ i a, row_of id (env_db e) = Some i ∧ Worker.parse_asset (i_token_in i) = Some a ∧
    (has_row (acc, a) (balances (env_db e)) →
     available (balances (env_db e2)) (acc, a) =
       (available (balances (env_db e)) (acc, a) + 2 * i_amount_in i)%Z ∧
     locked (balances (env_db e2)) (acc, a) =
       (locked (balances (env_db e)) (acc, a) - 2 * i_amount_in i)%Z).
Proof.
  intros H1 H2 Hwf. apply close_intent_Ok in H1 as (i & a & Hi & Ha & _ & [Hp1 Hu1 _] & _); [|done].
  pose proof (posts_wf _ _ _ Hp1 Hwf) as Hwf1.
  apply close_intent_Ok in H2 as (i2 & a2 & Hi2 & Ha2 & _ & [Hp2 _ _] & _); [|done].
  assert (i2 = Engine.with_status ICancelled i) as ->.
  { unfold row_of, sql_update in *. rewrite Hu1, sql_one_map, Hi in Hi2.
    - simpl in Hi2. apply sql_one_Some in Hi as [_ Hid]. rewrite Hid in Hi2. by injection Hi2.
    - intros r. by destruct (i_id r =? id)%N eqn:Hr; simpl; rewrite ?Hr. }
  simpl in Ha2, Hp2. rewrite Ha in Ha2. injection Ha2 as <-. exists i, a. split_and!; [done..|].
  intros Hrow. assert (has_row (acc, a) (balances (env_db e1))) as Hrow1 by by eapply posts_keeps.
  rewrite (posts_available _ _ _ Hp2), (posts_locked _ _ _ Hp2) by done.
  rewrite (posts_available _ _ _ Hp1), (posts_locked _ _ _ Hp1) by done.
  rewrite !row_posting_row by done. simpl. unfold at_key. simpl. rewrite !decide_True by done. lia.
Qed.

(** ** Amending *)

(** The entries of an amendment numbered [n]. *)
Definition amendment_rows (id : Uuid) (n amount min_out : Z) (limit : option Z) (i : Intent)
  : list Amendment :=
  (if (amount =? i_amount_in i)%Z then []
   else [mkAmendment id n AmAmountIn (i_amount_in i) amount (i_user_id i)]) ++
  (if (min_out =? i_min_amount_out i)%Z then []
   else [mkAmendment id n AmMinAmountOut (i_min_amount_out i) min_out (i_user_id i)]) ++
  (if bool_decide (limit ≠ None ∧ limit ≠ i_limit_price i)
   then [mkAmendment id n AmLimitPrice (default 0%Z (i_limit_price i)) (default 0%Z limit)
           (i_user_id i)] else []).

Lemma record_amendment_Ok id n f old new u e r e' :
  record_amendment id n f old new u e = (Ok r, e') →
  env_db e' = set_intent_amendments
    (intent_amendments (env_db e) ++ [mkAmendment id n f old new u]) (env_db e).
Proof. unfold record_amendment. intros. by run_inv. Qed.

Lemma set_amendments_nil d : set_intent_amendments (intent_amendments d ++ []) d = d.
Proof. rewrite app_nil_r. by destruct d. Qed.

Lemma amendment_rows_Ok id n amount min_out limit i (k : M CoreDb unit IntentError) e u e' :
  ((if (amount =? i_amount_in i)%Z then ret tt
    else record_amendment id n AmAmountIn (i_amount_in i) amount (i_user_id i)) ;;;
   (if (min_out =? i_min_amount_out i)%Z then ret tt
    else record_amendment id n AmMinAmountOut (i_min_amount_out i) min_out (i_user_id i)) ;;;
   (if bool_decide (limit ≠ None ∧ limit ≠ i_limit_price i)
    then record_amendment id n AmLimitPrice (default 0%Z (i_limit_price i)) (default 0%Z limit)
           (i_user_id i) else ret tt) ;;; k) e = (Ok u, e') →
  ∃ e1, k e1 = (Ok u, e') ∧ env_db e1 = set_intent_amendments
    (intent_amendments (env_db e) ++ amendment_rows id n amount min_out limit i) (env_db e).
Proof.
  intros H1. apply bind_Ok in H1 as (u1 & e1 & H1 & H2). apply bind_Ok in H2 as (u2 & e2 & H2 & H3).
  apply bind_Ok in H3 as (u3 & e3 & H3 & H4). exists e3. split; [done|]. unfold amendment_rows.
  destruct (amount =? _)%Z; run_inv; [|apply record_amendment_Ok in H1];
  (destruct (min_out =? _)%Z; run_inv; [|apply record_amendment_Ok in H2]);
  (case_bool_decide; run_inv; [apply record_amendment_Ok in H3|]);
  db_rw; simpl; rewrite ?set_amendments_nil; try done; unfold set_intent_amendments; simpl;
  by rewrite <- ?app_assoc.
Qed.

(** What leaves the locked balance when the amount changes by [d]. *)
Definition unlocked_by (d : Z) : Z := if (0 <? d)%Z then (- d)%Z else i64 (- d).

Lemma adjust_lock_Ok acc a d ts e u e' :
  adjust_lock acc a d ts e = (Ok u, e') → wf_balances (balances (env_db e)) →
  ∃ bs, env_db e' = set_balances bs (env_db e) ∧
    posts (row_posting (acc, a) (unlocked_by d) (- unlocked_by d) (balances (env_db e)))
      (balances (env_db e)) bs ∧
    (0 < d → d ≤ available (balances (env_db e)) (acc, a))%Z.
Proof.
  intros H1 Hwf. unfold adjust_lock, available_for_update in H1. unfold unlocked_by.
  destruct (Z.ltb_spec 0 d) as [Hd|Hd].
  - run_inv. destruct (_ <? _)%Z eqn:Hav in H1; [by run_inv|].
    apply move_balance_Ok in H1 as (bs & Hdb & Hp & _); [|done]. exists bs. simpl in *.
    rewrite Z.opp_involutive. split_and!; [done..|]. intros _. unfold available. simpl.
    destruct (find_row acc a _) in *; simpl in *; lia.
  - destruct (Z.ltb_spec d 0) as [Hd'|Hd'].
    + apply move_balance_Ok in H1 as (bs & Hdb & Hp & _); [|done]. exists bs. split_and!; [done..|lia].
    + run_inv. replace d with 0%Z by lia. change (i64 (- 0)) with 0%Z.
      exists (balances (env_db e)). split_and!; [by destruct (env_db e)| |lia].
      unfold row_posting. destruct (find_row _ _ _); [apply posts_refl_zero|apply posts_nil].
Qed.

(** What a successful amendment does: of the new amount and the old one the
    difference, as the code computes it, changes places. *)
Record amends (id acc : Uuid) (na nm nl : option Z) (i : Intent) (a : Asset) (d d' : CoreDb)
  : Prop := {
  am_status : is_amendable (i_status i) = true;
  am_asset : Worker.parse_asset (i_token_in i) = Some a;
  am_funded : let diff := i64 (default (i_amount_in i) (as_i64 <$> na) - i_amount_in i) in
    (0 < diff → diff ≤ available (balances d) (acc, a))%Z;
  am_posts : let u := unlocked_by (i64 (default (i_amount_in i) (as_i64 <$> na) - i_amount_in i)) in
    posts (row_posting (acc, a) u (- u) (balances d)) (balances d) (balances d');
  am_intents : intents d' = sql_update (λ r, (i_id r =? id)%N)
    (amended (default (i_amount_in i) (as_i64 <$> na)) (default (i_min_amount_out i) (as_i64 <$> nm))
       (match nl with Some p => Some p | None => i_limit_price i end)) (intents d);
  am_rows : ∃ n, intent_amendments d' = intent_amendments d ++
    amendment_rows id n (default (i_amount_in i) (as_i64 <$> na))
      (default (i_min_amount_out i) (as_i64 <$> nm)) nl i;
  am_frame : set_balances [] (set_intents [] (set_intent_amendments [] d')) =
             set_balances [] (set_intents [] (set_intent_amendments [] d));
}.

Lemma amend_tx_Ok id acc na nm nl e u e' :
  amend_tx id acc na nm nl e = (Ok u, e') → wf_balances (balances (env_db e)) →
  ∃ i a, row_of id (env_db e) = Some i ∧ amends id acc na nm nl i a (env_db e) (env_db e').
Proof.
  intros H1 Hwf. apply transaction_Ok in H1 as (ex & H1 & ->). cbn [env_db pop_fault].
  unfold parse_asset in H1.
  apply bind_Ok in H1 as (o & e1 & [_ [-> ->]]%map_err_Ok%query_Ok & H1).
  apply bind_Ok in H1 as (i & e2 & [Hi ->]%of_option_Ok & H1).
  destruct (negb _) eqn:Hst in H1; [by run_inv|]. apply negb_false_iff in Hst.
  apply bind_Ok in H1 as (a & e3 & [Ha ->]%of_option_Ok & H1).
  apply bind_Ok in H1 as (ts & e4 & [-> ->]%now_Ok & H1).
  apply bind_Ok in H1 as (n & e5 & [_ [-> ->]]%map_err_Ok%query_Ok & H1).
  apply bind_Ok in H1 as (u6 & e6 & Hadj & H1).
  apply adjust_lock_Ok in Hadj as (bs & Hdb & Hp & Hf); [|done]. simpl in Hdb, Hp, Hf.
  apply amendment_rows_Ok in H1 as (e7 & H1 & Hdb7). rewrite Hdb in Hdb7.
  apply map_err_Ok, exec_Ok in H1 as [_ ->]. cbn [env_db with_db pop_fault]. rewrite Hdb7.
  exists i, a. split; [done|]. split; try done. simpl. by eexists.
Qed.

Lemma amend_intent_Ok id acc na nm nl e i' e' :
  amend_intent id acc na nm nl e = (Ok i', e') → wf_balances (balances (env_db e)) →
  ∃ i a d, row_of id (env_db e) = Some i ∧ amends id acc na nm nl i a (env_db e) d ∧
    row_of id d = Some i' ∧
    env_db e' = set_event_bus (event_bus (env_db e) ++ [IntentAmended i']) d.
Proof.
  intros H1 Hwf. unfold amend_intent in H1.
  apply bind_Ok in H1 as (u & e1 & (i & a & Hi & Ha)%amend_tx_Ok & H1); [|done].
  apply bind_Ok in H1 as (o & e2 & [Hdb Ho]%get_intent_Ok & H1).
  unfold publish, EventBus.publish in H1. run_inv. destruct Ho as [Ho|Ho]; [|done].
  exists i, a, (env_db e1). split_and!; try done. simpl. rewrite Hdb. f_equal. f_equal.
  exact (f_equal event_bus (am_frame _ _ _ _ _ _ _ _ _ Ha)).
Qed.

Lemma amended_row id na nm nl i a d d' acc :
  row_of id d = Some i → amends id acc na nm nl i a d d' →
  row_of id d' = Some (amended (default (i_amount_in i) (as_i64 <$> na))
    (default (i_min_amount_out i) (as_i64 <$> nm))
    (match nl with Some p => Some p | None => i_limit_price i end) i).
Proof.
  intros Hi Ha. unfold row_of in *. rewrite (am_intents _ _ _ _ _ _ _ _ _ Ha).
  unfold sql_update. rewrite sql_one_map, Hi.
  - apply sql_one_Some in Hi as [_ Hid]. simpl. by rewrite Hid.
  - intros r. by destruct (i_id r =? id)%N eqn:Hr; simpl; rewrite ?Hr.
Qed.

(** An amendment goes through only for an open or bidding intent, moves
    exactly the difference between the new and the old amount into or out of
    the locked balance, needing it available when it is an increase, so that
    no supply changes; it records one numbered entry per changed term and
    reopens the intent with the new terms. *)
Theorem amend_intent_moves_the_difference id acc na nm nl e i' e' :
  amend_intent id acc na nm nl e = (Ok i', e') → wf_balances (balances (env_db e)) →
  (∀ i, row_of id (env_db e) = Some i → 0 ≤ i_amount_in i ≤ i64_max)%Z →
  (∀ n, na = Some n → 0 ≤ n ≤ i64_max)%Z → (∀ n, nm = Some n → 0 ≤ n ≤ i64_max)%Z →
  ∃ i a, row_of id (env_db e) = Some i ∧ is_amendable (i_status i) = true ∧
    Worker.parse_asset (i_token_in i) = Some a ∧
    let new := default (i_amount_in i) na in
    i' = amended new (default (i_min_amount_out i) nm)
           (match nl with Some p => Some p | None => i_limit_price i end) i ∧
    (i_amount_in i < new → new - i_amount_in i ≤ available (balances (env_db e)) (acc, a))%Z ∧
    posts (row_posting (acc, a) (i_amount_in i - new) (new - i_amount_in i) (balances (env_db e)))
      (balances (env_db e)) (balances (env_db e')) ∧
    (∀ b, asset_total b (balances (env_db e')) = asset_total b (balances (env_db e))) ∧
    (∃ n, intent_amendments (env_db e') = intent_amendments (env_db e) ++
       amendment_rows id n new (default (i_min_amount_out i) nm) nl i) ∧
    row_of id (env_db e') = Some i'.
Proof.
  intros H1 Hwf Hold Hna Hnm. apply amend_intent_Ok in H1 as (i & a & d & Hi & Ha & Hi' & Hdb); [|done].
  specialize (Hold i Hi).
  assert (default (i_amount_in i) (as_i64 <$> na) = default (i_amount_in i) na) as Hamt.
  { destruct na as [n|]; [|done]. simpl. unfold as_i64. specialize (Hna n eq_refl). by no_wrap. }
  assert (default (i_min_amount_out i) (as_i64 <$> nm) = default (i_min_amount_out i) nm) as Hmin.
  { destruct nm as [n|]; [|done]. simpl. unfold as_i64. specialize (Hnm n eq_refl). by no_wrap. }
  pose proof (amended_row _ _ _ _ _ _ _ _ _ Hi Ha) as Hrow. rewrite Hi' in Hrow.
  destruct Ha as [Hst Has Hf Hp _ [n Hrows] _]. rewrite Hamt, Hmin in *.
  exists i, a. cbv zeta in *. rewrite Hdb. simpl.
  assert (0 ≤ default (i_amount_in i) na ≤ i64_max)%Z as Hr
    by (destruct na; simpl; [by apply Hna|done]).
  set (new := default (i_amount_in i) na) in *.
  assert (unlocked_by (i64 (new - i_amount_in i)) = i_amount_in i - new)%Z as Hu.
  { unfold unlocked_by. no_wrap. destruct (0 <? new - i_amount_in i)%Z; [lia|]. no_wrap. lia. }
  rewrite Hu in Hp. replace (- (i_amount_in i - new))%Z with (new - i_amount_in i)%Z in Hp by lia.
  split_and!; try done.
  - congruence.
  - intros. revert Hf. no_wrap. lia.
  - intros b. rewrite (posts_total _ _ _ Hp) by done.
    replace (i_amount_in i - new)%Z with (- (new - i_amount_in i))%Z by lia.
    rewrite row_posting_total. lia.
  - by exists n.
Qed.

(** The new amount of an amendment is an [u64] read as an [i64], and
    nothing checks its sign: an amount far enough above [i64_max] is a
    negative new amount, and the amendment releases the old amount and as much
    again as it lies below zero, whatever the account has locked. *)
Theorem amend_intent_overdraws id acc n nm nl e i i' e' :
  amend_intent id acc (Some n) nm nl e = (Ok i', e') → wf_balances (balances (env_db e)) →
  row_of id (env_db e) = Some i → (0 ≤ i_amount_in i)%Z → (2 ^ 63 + i_amount_in i < n < 2 ^ 64)%Z →
  ∃ a, Worker.parse_asset (i_token_in i) = Some a ∧ i_amount_in i' = (n - 2 ^ 64)%Z ∧
    (has_row (acc, a) (balances (env_db e)) →
     available (balances (env_db e')) (acc, a) =
       (available (balances (env_db e)) (acc, a) + i_amount_in i + (2 ^ 64 - n))%Z ∧
     locked (balances (env_db e')) (acc, a) =
       (locked (balances (env_db e)) (acc, a) - i_amount_in i - (2 ^ 64 - n))%Z).
Proof.
  intros H1 Hwf Hi Hpos Hn. apply amend_intent_Ok in H1 as (i2 & a & d & Hi2 & Ha & Hi' & Hdb); [|done].
  rewrite Hi in Hi2. injection Hi2 as <-.
  assert (as_i64 n = n - 2 ^ 64)%Z as Has.
  { unfold as_i64, i64, wrap_s. change (2 ^ (64 - 1))%Z with (2 ^ 63)%Z.
    rewrite <- (Z.mod_unique_pos (n + 2 ^ 63) (2 ^ 64) 1 (n + 2 ^ 63 - 2 ^ 64)); lia. }
  pose proof (amended_row _ _ _ _ _ _ _ _ _ Hi Ha) as Hrow. rewrite Hi' in Hrow.
  destruct Ha as [_ Hasset _ Hp _ _ _]. simpl in *. rewrite Has in *. exists a.
  split; [done|]. split; [injection Hrow as ->; done|]. intros Hr. rewrite Hdb. simpl.
  assert (unlocked_by (i64 (n - 2 ^ 64 - i_amount_in i)) = i_amount_in i + (2 ^ 64 - n))%Z as Hu.
  { unfold unlocked_by. no_wrap. destruct (0 <? n - 2 ^ 64 - i_amount_in i)%Z eqn:E; [lia|].
    no_wrap. lia. }
  rewrite Hu in Hp. rewrite row_posting_row in Hp by done.
  rewrite (posts_available _ _ _ Hp), (posts_locked _ _ _ Hp) by done. simpl. unfold at_key. simpl.
  rewrite !decide_True by done. lia.
Qed.
End service.

(** ** A concrete exchange *)

Definition plain_errors : SqlxDisplay := {| sqlx_text _ := "database error"%string |}.
Definition plain_floats : F64Display := {| f64_fixed _ _ := "?"%string |}.
#[local] Existing Instances plain_errors plain_floats.
Definition defaults : Settings := mkSettings (f64_lit 20 100) 30 10000000.

Definition trading_db : CoreDb := set_markets [eth_market; sol_market] sample_db.
Definition trading_env : Env CoreDb := mkEnv trading_db [] (λ n, 1000 + N.of_nat n)%N 0 7.

Definition sell_100 : M CoreDb Intent IntentError :=
  IntentService.create_intent defaults true "7" alice "usdc" "ETH" 100 0 500.
Definition result_of {A} (m : M CoreDb A IntentError) (dflt : A) (e : Env CoreDb) : A :=
  match fst (m e) with Ok a => a | Err _ => dflt end.
Definition new_intent : Intent := Eval vm_compute in result_of sell_100 sample_intent trading_env.
Definition created_env : Env CoreDb := snd (sell_100 trading_env).

Lemma trading_caches : caches_sound (env_db trading_env).
Proof. split; simpl; [|done]. intros id m Hk. by apply not_elem_of_nil in Hk. Qed.

Lemma trading_markets m : m ∈ markets (env_db trading_env) → (0 ≤ m_min_order_size m)%Z.
Proof.
  intros Hm. apply (elem_of_forallb (λ m, 0 <=? m_min_order_size m)%Z) in Hm; [|done]. lia.
Qed.

Lemma create_intent_reserves_witness :
  balances_inv (balances (env_db created_env)) ∧
  intents (env_db created_env) = [stored new_intent].
Proof.
  destruct (create_intent_reserves defaults true "7" alice "usdc" "ETH" 100 0 500 trading_env
    new_intent created_env) as (a & _ & _ & _ & _ & _ & _ & _ & Hinv).
  - vm_compute. reflexivity.
  - apply sample_inv.
  - apply trading_caches.
  - apply trading_markets.
  - vm_compute. split; discriminate.
  - split; [exact Hinv|]. vm_compute. reflexivity.
Defined.

(** The twelfth external call of the run is the publication of the event. *)
Definition deaf_env : Env CoreDb :=
  mkEnv trading_db (replicate 11 false ++ [true]) (λ n, 1000 + N.of_nat n)%N 0 7.

Lemma create_intent_fails_witness :
  intents (env_db (snd (sell_100 deaf_env))) = [stored new_intent].
Proof.
  destruct (create_intent_fails defaults true "7" alice "usdc" "ETH" 100 0 500 deaf_env
    (RedisFailed RedisFailure) (snd (sell_100 deaf_env)))
    as [[_ H]|(y & a & i & _ & Hreq & Hres & _)].
  - vm_compute. reflexivity.
  - apply sample_inv.
  - destruct (H RedisFailure). reflexivity.
  - vm_compute. reflexivity.
Defined.

Lemma create_intent_within_limits_witness :
  ∃ a, user_activity (env_db created_env) !! "7"%string = Some a ∧ ua_daily_volume a = 100%Z.
Proof.
  destruct (create_intent_within_limits defaults true "7" alice "usdc" "ETH" 100 0 500 trading_env
    new_intent created_env) as (a & Ha & _ & Hv & _).
  - vm_compute. reflexivity.
  - exists a. split; [exact Ha|]. rewrite Hv. vm_compute. reflexivity.
Defined.

Definition cancel : M CoreDb (option Intent) IntentError := IntentService.cancel_intent 1000 alice.
Definition cancelled_env : Env CoreDb := snd (cancel created_env).
Definition cancelled_intent : Intent := Engine.with_status ICancelled (stored new_intent).

Lemma create_cancel_roundtrip_witness :
  available (balances (env_db cancelled_env)) (alice, USDC) = 500%Z.
Proof.
  destruct (create_cancel_roundtrip defaults true "7" alice "usdc" "ETH" 100 0 500 trading_env
    new_intent created_env cancelled_intent cancelled_env) as [H _].
  - vm_compute. reflexivity.
  - vm_compute. reflexivity.
  - apply sample_inv.
  - destruct (H (alice, USDC)) as [Ha _]. etransitivity; [exact Ha|]. vm_compute. reflexivity.
Defined.

Lemma cancel_twice_releases_twice_witness :
  locked (balances (env_db (snd (cancel (cancelled_env))))) (alice, USDC) = 0%Z.
Proof.
  destruct (cancel_twice_releases_twice 1000 alice created_env cancelled_intent cancelled_env
    cancelled_intent (snd (cancel cancelled_env))) as (i & a & _ & _ & _).
  - vm_compute. reflexivity.
  - vm_compute. reflexivity.
  - split; apply (bool_decide_unpack _); vm_compute; exact I.
  - vm_compute. reflexivity.
Defined.

Definition amend_to (n : Z) : M CoreDb Intent IntentError :=
  IntentService.amend_intent 1000 alice (Some n) None (Some 3%Z).

Lemma amend_intent_moves_the_difference_witness :
  let e' := snd (amend_to 250 created_env) in
  posts (row_posting (alice, USDC) (-150) 150 (balances (env_db created_env)))
    (balances (env_db created_env)) (balances (env_db e')).
Proof.
  destruct (amend_intent_moves_the_difference 1000 alice (Some 250%Z) None (Some 3%Z) created_env
    (IntentService.amended 250 0 (Some 3%Z) (stored new_intent)) (snd (amend_to 250 created_env)))
    as (i & a & Hi & _ & Ha & _ & _ & Hp & _).
  - vm_compute. reflexivity.
  - split; apply (bool_decide_unpack _); vm_compute; exact I.
  - intros i Hi. vm_compute in Hi. injection Hi as <-. vm_compute. split; discriminate.
  - intros n [= <-]. vm_compute. split; discriminate.
  - intros n [=].
  - vm_compute in Hi. injection Hi as <-. vm_compute in Ha. injection Ha as <-. exact Hp.
Defined.

Lemma amend_intent_overdraws_witness :
  ∃ a, Worker.parse_asset "usdc" = Some a ∧
    (available (balances (env_db (snd (amend_to (2 ^ 64 - 900) created_env)))) (alice, a) = 1400)%Z.
Proof.
  destruct (amend_intent_overdraws 1000 alice (2 ^ 64 - 900) None (Some 3%Z) created_env
    (stored new_intent) (IntentService.amended (-900) 0 (Some 3%Z) (stored new_intent))
    (snd (amend_to (2 ^ 64 - 900) created_env))) as (a & Ha & _ & _).
  - vm_compute. reflexivity.
  - split; apply (bool_decide_unpack _); vm_compute; exact I.
  - vm_compute. reflexivity.
  - vm_compute. discriminate.
  - vm_compute. split; reflexivity.
  - exists a. split; [exact Ha|]. vm_compute in Ha. injection Ha as <-. vm_compute. reflexivity.
Defined.
