(* ===== verification/Workers.v ===== *)
(** * Background workers over intents: [src/src/engine/execution_engine.rs],
    [src/src/workers/{intent_expiry,stop_order_monitor}.rs]

    The execution engine turns the fills of a matched intent into executions
    and asks for their settlement; the expiry worker releases intents past
    their deadline; the stop monitor activates stop orders. *)
From stdpp Require Import gmap.
From S2P Require Import Prelude Monad Float64 Model Balances Settlement Storage Auction.

Module ExecutionEngine.
Section engine.
Context `{UuidText}.

(** [Uuid::simple]: 32 lowercase hexadecimal digits. *)
Definition hex_digit (n : N) : Ascii.ascii :=
  Ascii.ascii_of_N (if (n <? 10)%N then 48 + n else 87 + n)%N.
Fixpoint hex_digits (k : nat) (n : N) : string :=
  match k with
  | O => ""
  | S k => hex_digits k (n / 16) +:+ String (hex_digit (n mod 16)) ""
  end.
Definition uuid_simple (u : Uuid) : string := hex_digits 32 u.

(** SELECT a.id FROM accounts a JOIN users u .. WHERE p(u) LIMIT 1 *)
Definition account_where (p : User → bool) (d : CoreDb) : option Uuid :=
  a_id <$> sql_one (λ a, existsb (λ u, (u_id u =? a_user_id a)%N && p u) (users d)) (accounts d).

Definition resolve_account {E} (user_id : string) : M CoreDb (option Uuid) E :=
  let* r := attempt (query (account_where (λ u, String.eqb (uuid_text (u_id u)) user_id))) in
  ret (swallow None (λ o, o) r).

Definition with_execution_status (s : ExecutionStatus) (x : Execution) : Execution :=
  mkExecution (x_id x) (x_intent_id x) (x_solver_id x) (x_tx_hash x) s (x_created_at x).

(** The body of the loop over the fills. *)
Definition execute_fill (intent : Intent) (intent_id : Uuid) (buyer_account_id : option Uuid)
    (fill : Fill) : M CoreDb unit RedisError :=
  let* h := new_v4 in
  let tx_hash := ("0x" +:+ uuid_simple h)%string in
  let* execution := Execution_new intent_id (f_solver_id fill) tx_hash in
  let execution := with_execution_status XExecuting execution in
  attempt (Storage.insert_execution execution) ;;;
  EventBus.publish (ExecutionStarted execution) ;;;
  let execution := with_execution_status XCompleted execution in
  attempt (Storage.update_execution execution) ;;;
  EventBus.publish (ExecutionCompleted execution) ;;;
  attempt (StreamBus.publish (StreamExecutionCompleted
    (mkExecutionCompletedEvent (x_id execution) (f_id fill) intent_id (f_solver_id fill)
       (default nil_uuid buyer_account_id) nil_uuid (i_token_in intent) (i_token_out intent)
       (f64_lit 1 1000)))) ;;;
  ret tt.

Definition execute_fills (intent_id : Uuid) : M CoreDb unit RedisError :=
  let* fills := Storage.get_fills intent_id in
  match fills with
  | [] => ret tt
  | _ =>
      let* o := Storage.get_intent intent_id in
      match o with
      | None => ret tt
      | Some intent =>
          let* buyer_account_id := resolve_account (i_user_id intent) in
          let* o2 := Storage.get_intent intent_id in
          match o2 with
          | Some i => attempt (Storage.update_intent (Engine.with_status IExecuting i)) ;;; ret tt
          | None => ret tt
          end ;;;
          mfor fills (execute_fill intent intent_id buyer_account_id)
      end
  end.

End engine.
End ExecutionEngine.

Module IntentExpiry.
Section worker.
Context `{UuidText}.

Definition BATCH_SIZE : nat := 100.

Definition is_expirable (s : IntentStatus) : bool :=
  match s with IOpen | IBidding => true | _ => false end.

(** UPDATE balances .. WHERE account_id AND asset AND locked_balance >= amount *)
Definition unlock (account_id : Uuid) (asset : Asset) (amount t : Z) : M CoreDb unit SqlxError :=
  let sel := λ r, is_row account_id asset r && (amount <=? b_locked_balance r)%Z in
  stmt (λ d,
    bs ← sql_try_update sel (add_to_row amount (- amount) t) (balances d);
    Some (tt, set_balances bs d)).

(** The transaction of [expire_intent].  [throw None] is an early return that
    drops the transaction; [Ok false] a return after its commit. *)
Definition expire_tx (intent : Intent) : M CoreDb bool (option SqlxError) :=
  transaction Some (
    let* current := map_err Some (query (λ d,
      sql_one (λ i, (i_id i =? i_id intent)%N) (intents d))) in
    let* current := of_option None current in
    if negb (is_expirable (i_status current)) then throw None else
    map_err Some (exec (λ d, set_intents
      (sql_update (λ i, (i_id i =? i_id intent)%N) (Engine.with_status IExpired) (intents d)) d)) ;;;
    let* account_id := map_err Some (query (ExecutionEngine.account_where (λ u,
      String.eqb (uuid_text (u_id u)) (i_user_id intent) ||
      String.eqb (u_email u) (i_user_id intent)))) in
    match account_id with
    | None => ret true
    | Some account_id =>
        match Worker.parse_asset (i_token_in intent) with
        | None => ret false
        | Some asset =>
            let* t := now in
            map_err Some (unlock account_id asset (i_amount_in intent) t) ;;;
            ret true
        end
    end).

Definition expire_intent (intent : Intent) : M CoreDb unit SqlxError :=
  let* r := attempt (expire_tx intent) in
  match r with
  | Err (Some e) => throw e
  | Err None | Ok false => ret tt
  | Ok true =>
      attempt (EventBus.publish (IntentExpired (Engine.with_status IExpired intent))) ;;;
      attempt (StreamBus.publish (StreamIntentSettled
        (mkIntentSettledEvent (i_id intent) 0 "Expired"))) ;;;
      ret tt
  end.

Definition due (t : Z) (d : CoreDb) : list Intent :=
  take BATCH_SIZE (sort_by (λ x y, (i_deadline x <=? i_deadline y)%Z)
    (sql_select (λ i, (i_deadline i <? t)%Z && is_expirable (i_status i)) (intents d))).

Definition expire_batch : M CoreDb unit SqlxError :=
  let* t := now in
  let* expired := query (due t) in
  mfor expired (λ intent, attempt (expire_intent intent) ;;; ret tt).

End worker.
End IntentExpiry.

Module StopOrderMonitor.

Definition is_pending_stop (i : Intent) : bool :=
  match i_order_type i, i_status i, i_stop_price i, i_triggered_at i with
  | Stop, IOpen, Some _, None => true
  | _, _, _, _ => false
  end.

Definition pending_stops (d : CoreDb) : list Intent :=
  take 100 (sort_by (λ x y, (i_created_at x <=? i_created_at y)%Z)
    (sql_select is_pending_stop (intents d))).

(** SELECT mp.price FROM market_prices mp JOIN markets m .. LIMIT 1 *)
Definition market_price (token_in token_out : string) (d : CoreDb) : option Z :=
  mp_price <$> sql_one (λ mp, existsb (λ m,
      (m_id m =? mp_market_id mp)%N &&
      String.eqb (Engine.upper (Engine.asset_text (m_base_asset m))) (Engine.upper token_in) &&
      String.eqb (Engine.upper (Engine.asset_text (m_quote_asset m))) (Engine.upper token_out))
    (markets d)) (market_prices d).

Definition is_triggered (side : string) (current_price stop_price : Z) : bool :=
  if String.eqb side "buy" then (stop_price <=? current_price)%Z
  else (current_price <=? stop_price)%Z.

Definition activated (t : OrderType) (at_time : Z) (r : Intent) : Intent :=
  mkIntent (i_id r) (i_user_id r) (i_token_in r) (i_token_out r) (i_amount_in r)
    (i_min_amount_out r) (i_deadline r) IOpen (i_created_at r) t (i_limit_price r)
    (i_stop_price r) (i_stop_side r) (Some at_time) (i_source_chain r) (i_destination_chain r)
    (i_cross_chain r).

(** UPDATE .. WHERE id AND order_type = 'stop' AND triggered_at IS NULL *)
Definition untriggered (id : Uuid) (r : Intent) : bool :=
  (i_id r =? id)%N && bool_decide (i_order_type r = Stop) && bool_decide (i_triggered_at r = None).

(** The body of the loop over the pending stop orders. *)
Definition check_stop_order (intent : Intent) : M CoreDb unit SqlxError :=
  let stop_price := default 0%Z (i_stop_price intent) in
  let side := default "sell"%string (i_stop_side intent) in
  let* price_row := query (market_price (i_token_in intent) (i_token_out intent)) in
  match price_row with
  | None => ret tt
  | Some current_price =>
      if negb (is_triggered side current_price stop_price) then ret tt else
      let new_order_type := match i_limit_price intent with Some _ => Limit | None => Market end in
      let* t := now in
      let* n := stmt (λ d, Some (rows_affected (untriggered (i_id intent)) (intents d),
        set_intents (sql_update (untriggered (i_id intent)) (activated new_order_type t)
          (intents d)) d)) in
      if (n =? 0)%nat then ret tt else
      let triggered_intent := activated new_order_type t intent in
      attempt (EventBus.publish (StopTriggered triggered_intent)) ;;;
      attempt (EventBus.publish (IntentCreated triggered_intent)) ;;;
      ret tt
  end.

Definition check_stop_orders : M CoreDb unit SqlxError :=
  let* stops := query pending_stops in
  mfor stops check_stop_order.

End StopOrderMonitor.
