(* ===== verification/SettlementCorrect.v ===== *)
(** * Settlement is correct: theorems on [Settlement.v]

    A settlement is specified by the list of its postings and ledger bookings.
    [headroom] carries the room below [i64_max] that keeps the engine's
    wrapping additions exact from one call of the transaction to the next. *)
From stdpp Require Import gmap.
From S2P Require Import Prelude Monad Float64 Model Ledger Balances Fees Solvers Settlement.

Lemma solvent_posts_nil t t' : posts [] t t' → wf_balances t → solvent t → solvent t'.
Proof.
  intros [_ W A L _] Hw Hs. apply solvent_iff; [auto|]. intros k.
  rewrite A, L by done. simpl. pose proof (holdings_nonneg t k Hs). lia.
Qed.

(** ** The helpers of the transaction *)

(** A well-formed, solvent table whose supplies can grow by [h]. *)
Record headroom (h : Z) (t : list Balance) : Prop := {
  hr_wf : wf_balances t;
  hr_solvent : solvent t;
  hr_supply a : (asset_total a t + h ≤ i64_max)%Z;
}.

Lemma headroom_inv h t : (0 ≤ h)%Z → headroom h t → balances_inv t.
Proof. intros Hh [W S T]. split; [done|done|]. intros a. specialize (T a). lia. Qed.

Lemma headroom_posts h k da dl t t' :
  posts [mkPosting k da dl] t t' → headroom h t →
  (0 ≤ available t k + da)%Z → (0 ≤ locked t k + dl)%Z → (0 ≤ h)%Z → (da + dl ≤ h)%Z →
  headroom (h - (0 `max` (da + dl))) t'.
Proof.
  intros [_ W A L T] [Hw Hs Hm] Ha Hl Hh Hd. split; [auto|apply solvent_iff; [auto|]|].
  - intros k'. rewrite A, L by done. pose proof (holdings_nonneg t k' Hs).
    simpl. unfold at_key. simpl. case_decide; subst; lia.
  - intros a. rewrite T by done. specialize (Hm a). simpl. unfold at_asset. simpl.
    case_decide; lia.
Qed.

Lemma headroom_le h h' t : headroom h t → (h' ≤ h)%Z → headroom h' t.
Proof. intros [W S T] Hh. split; [done|done|]. intros a. specialize (T a). lia. Qed.

Section helpers.
Implicit Types e : Env CoreDb.

Lemma unlock_and_debit_effect acc asset n t h e u e' :
  Tx.unlock_and_debit acc asset n t e = (Ok u, e') →
  headroom h (balances (env_db e)) → (0 ≤ n)%Z → (0 ≤ h)%Z →
  db_effect [mkPosting (acc, asset) 0 (- n)] [] (env_db e) (env_db e') ∧
  headroom h (balances (env_db e')) ∧
  (n ≤ locked (balances (env_db e)) (acc, asset))%Z.
Proof.
  unfold Tx.unlock_and_debit. intros H Hh Hn Hh0. run_inv1. run_inv1. run_inv1.
  match goal with H : _ ≫= _ = Some _ |- _ => apply bind_Some in H as (bs & Hu & [= <- <-]) end.
  destruct (Nat.eqb_spec (rows_affected (λ r, is_row acc asset r && (n <=? b_locked_balance r)%Z)
    (balances (env_db e))) 0) as [E|E]; [by run_inv1|]. run_inv. simpl.
  destruct (sql_one (λ r, is_row acc asset r && (n <=? b_locked_balance r)%Z)
    (balances (env_db e))) as [b|] eqn:Eb.
  2: { by apply rows_affected_one in Eb. }
  apply sql_one_Some in Eb as (Hb & Hsel). pose proof Hsel as [Hrow Hle]%andb_true_iff.
  apply (is_row_true (acc, asset)) in Hrow. apply Z.leb_le in Hle.
  pose proof (locked_row _ _ (hr_wf _ _ Hh) Hb) as Hl. rewrite Hrow in Hl.
  assert (posts [mkPosting (acc, asset) 0 (- n)] (balances (env_db e)) bs) as P.
  { apply (posts_add_to_row _ _ _ _ _ _ _ _ b Hu); [|apply Hh|done|done].
    intros r [Hr _]%andb_true_iff. by apply (is_row_true (acc, asset)). }
  split_and!; [by apply db_effect_posts| |lia].
  pose proof (holdings_nonneg _ (acc, asset) (hr_solvent _ _ Hh)).
  eapply headroom_le; [eapply headroom_posts; [done|done|..]|]; lia.
Qed.

Lemma find_or_create_balance_Ok acc asset t e b e' :
  Tx.find_or_create_balance acc asset t e = (Ok b, e') →
  wf_balances (balances (env_db e)) →
  db_effect [] [] (env_db e) (env_db e') ∧ b ∈ balances (env_db e') ∧
  b_key b = (acc, asset) ∧
  b_available_balance b = available (balances (env_db e)) (acc, asset) ∧
  b_locked_balance b = locked (balances (env_db e)) (acc, asset).
Proof.
  intros H Hwf.
  assert (db_effect [] [] (env_db e) (env_db e') ∧ b ∈ balances (env_db e') ∧
          b_key b = (acc, asset)) as (He & Hb & Hk).
  { unfold Tx.find_or_create_balance in H. run_inv1. run_inv1.
    destruct (find_row acc asset (balances (env_db e))) as [r|] eqn:E.
    - run_inv. simpl. apply (find_row_Some (acc, asset)) in E as [??].
      split_and!; [apply db_effect_refl|done|done].
    - run_inv. simpl in *.
      match goal with H : BalanceRepository.insert_row _ _ = Some _ |- _ =>
        apply posts_insert in H as [-> Hp] end.
      split_and!; [by apply db_effect_posts; [eapply posts_zero|..]|simpl; set_solver|done]. }
  split_and!; try done; pose proof (eff_posts _ _ _ _ He) as P.
  - rewrite <- (available_row (balances (env_db e'))), Hk by eauto using posts_wf.
    rewrite (posts_available _ _ _ P) by done. simpl. lia.
  - rewrite <- (locked_row (balances (env_db e'))), Hk by eauto using posts_wf.
    rewrite (posts_locked _ _ _ P) by done. simpl. lia.
Qed.

Lemma set_available_effect b av t e u e' :
  Tx.set_available (b_id b) av t e = (Ok u, e') →
  wf_balances (balances (env_db e)) → b ∈ balances (env_db e) →
  db_effect [mkPosting (b_key b) (av - b_available_balance b) 0] [] (env_db e) (env_db e').
Proof.
  unfold Tx.set_available. intros H Hwf Hb. run_inv. simpl.
  apply db_effect_posts; simpl; [|done|done].
  eapply posts_eq; [eapply (posts_update _ _ _ b); try done|].
  - apply N.eqb_refl.
  - intros r Hr Hi%N.eqb_eq. by apply (NoDup_map_inj b_id (balances (env_db e))); [apply Hwf|..].
  - simpl. do 2 f_equal; lia.
Qed.

(** [find_or_create_balance] then [set_available]. *)
Lemma find_set_effect acc asset t e b e1 av u e2 :
  Tx.find_or_create_balance acc asset t e = (Ok b, e1) →
  Tx.set_available (b_id b) av t e1 = (Ok u, e2) →
  wf_balances (balances (env_db e)) →
  db_effect [mkPosting (acc, asset) (av - available (balances (env_db e)) (acc, asset)) 0] []
    (env_db e) (env_db e2).
Proof.
  intros Hf Hs Hwf. apply find_or_create_balance_Ok in Hf as (He & Hb & <- & <- & _); [|done].
  apply set_available_effect in Hs; [|by eapply db_effect_wf|done].
  by apply (db_effect_app _ _ _ _ _ _ _ He Hs).
Qed.

Lemma credit_balance_effect acc asset n t h e u e' :
  Tx.credit_balance acc asset n t e = (Ok u, e') →
  headroom h (balances (env_db e)) → (0 ≤ n ≤ h)%Z →
  db_effect [mkPosting (acc, asset) n 0] [] (env_db e) (env_db e') ∧
  headroom (h - n) (balances (env_db e')).
Proof.
  unfold Tx.credit_balance. intros H Hh Hn. repeat run_inv1.
  match goal with Hf : Tx.find_or_create_balance _ _ _ _ = _ |- _ =>
    pose proof (find_or_create_balance_Ok _ _ _ _ _ _ Hf (hr_wf _ _ Hh)) as (_ & _ & _ & Ha & _);
    pose proof (find_set_effect _ _ _ _ _ _ _ _ _ Hf H (hr_wf _ _ Hh)) as He end.
  pose proof (balance_le_total _ (acc, asset) (hr_solvent _ _ Hh)) as Hle.
  pose proof (holdings_nonneg _ (acc, asset) (hr_solvent _ _ Hh)) as Hnn.
  pose proof (hr_supply _ _ Hh asset) as Hs. simpl in *. rewrite Ha in He. no_wrap.
  rewrite Z.add_simpl_l in He. split; [done|].
  eapply headroom_le; [eapply headroom_posts; [apply He|done|..]|]; lia.
Qed.

Lemma debit_balance_effect acc asset n t h e u e' :
  Tx.debit_balance acc asset n t e = (Ok u, e') →
  headroom h (balances (env_db e)) → (0 ≤ n)%Z → (0 ≤ h)%Z →
  db_effect [mkPosting (acc, asset) (- n) 0] [] (env_db e) (env_db e') ∧
  headroom h (balances (env_db e')) ∧
  (n ≤ available (balances (env_db e)) (acc, asset))%Z.
Proof.
  unfold Tx.debit_balance. intros H Hh Hn Hh0. run_inv1.
  match type of H with (if (?x <? ?y)%Z then _ else _) _ = _ =>
    destruct (Z.ltb_spec x y); [done|] end.
  match goal with Hf : Tx.find_or_create_balance _ _ _ _ = _ |- _ =>
    pose proof (find_or_create_balance_Ok _ _ _ _ _ _ Hf (hr_wf _ _ Hh)) as (_ & _ & _ & Ha & _);
    pose proof (find_set_effect _ _ _ _ _ _ _ _ _ Hf H (hr_wf _ _ Hh)) as He end.
  pose proof (balance_in_i64 _ (acc, asset) (headroom_inv _ _ Hh0 Hh)) as Hb.
  simpl in *. rewrite Ha in *. no_wrap.
  match type of He with db_effect [mkPosting _ ?x _] _ _ _ => replace x with (- n)%Z in He by lia end.
  split_and!; [done| |done].
  eapply headroom_le; [eapply headroom_posts; [apply He|done|..]|]; lia.
Qed.

Lemma insert_ledger_effect acc asset n et rt rid t e u e' :
  Tx.insert_ledger acc asset n et rt rid t e = (Ok u, e') →
  db_effect [] [((acc, asset), match et with DEBIT => n | CREDIT => - n end)%Z]
    (env_db e) (env_db e').
Proof.
  unfold Tx.insert_ledger. intros H. run_inv.
  by match goal with H : LedgerRepository.insert _ _ = _ |- _ => apply db_effect_insert in H end.
Qed.

End helpers.

(** Extends the effect [Acc] and the room [HR] with the next call. *)
Ltac room_step Acc HR L :=
  match type of Acc with db_effect _ _ _ (env_db ?e) =>
    match goal with H : _ e = (Ok _, _) |- _ =>
      eapply L in H; [|exact HR|lia..]; clear HR;
      lazymatch type of H with
      | _ ∧ headroom _ _ ∧ _ =>
          let F := fresh "Hfunds" in destruct H as (H & HR & F)
      | _ => destruct H as (H & HR)
      end;
      apply (db_effect_app _ _ _ _ _ _ _ Acc) in H; clear Acc; rename H into Acc
    end
  end.

(** The row a run read is the row [r] the table has ([Hrow]). *)
Ltac same_row r Hrow :=
  match goal with H : sql_one _ _ = Some ?a |- _ =>
    match a with
    | r => fail 1
    | _ => assert (Some r = Some a) as [= <-] by (rewrite <- H; symmetry; exact Hrow)
    end
  end.

(** ** The settlement of a fill *)

Section fill.
Context `{UuidText, NumericDecode, SqlxDisplay}.
Context (buyer seller : Uuid) (ain aout : Asset) (rate : f64).
Implicit Types e : Env CoreDb.

Definition fill_postings (solver_acc : Uuid) (fill : Fill) : list Posting :=
  let amount := f_filled_qty fill in
  let '(total_fee, solver_fee, platform_fee) := Engine.fill_fees amount rate in
  [mkPosting (buyer, ain) 0 (- amount);
   mkPosting (seller, ain) (amount - total_fee) 0;
   mkPosting (buyer, aout) (f_qty fill) 0;
   mkPosting (seller, aout) (- f_qty fill) 0;
   mkPosting (platform_account_id, ain) platform_fee 0;
   mkPosting (solver_acc, ain) solver_fee 0].

Definition fill_bookings (fill : Fill) : list (Key * Z) :=
  let amount := f_filled_qty fill in
  let '(total_fee, solver_fee, platform_fee) := Engine.fill_fees amount rate in
  [((buyer, ain), - amount); ((buyer, aout), f_qty fill);
   ((seller, ain), amount - total_fee); ((seller, aout), - f_qty fill);
   ((platform_account_id, ain), platform_fee); ((platform_account_id, ain), solver_fee)]%Z.

(** Who is paid the solver's fee: the account of the user the fill's solver
    names, the platform's when there is none. *)
Definition fill_solver_account (fill : Fill) (d : CoreDb) : Uuid :=
  default platform_account_id (Engine.solver_account (f_solver_id fill) d).

Lemma fill_fees_bounds amount :
  (0 ≤ amount ≤ i64_max)%Z → unit_rate rate = true →
  let '(total_fee, solver_fee, platform_fee) := Engine.fill_fees amount rate in
  (0 ≤ total_fee ≤ amount ∧ 0 ≤ solver_fee ∧ 0 ≤ platform_fee ∧
   platform_fee + solver_fee = total_fee)%Z.
Proof.
  intros Ha Hr. unfold Engine.fill_fees. pose proof (mul_rate_bounds _ _ Ha Hr) as Ht.
  set (T := mul_rate amount rate) in *.
  pose proof (mul_rate_bounds T SOLVER_SHARE ltac:(lia) eq_refl). no_wrap. lia.
Qed.

Lemma maybe_credit_effect acc asset n t h e u e' :
  (if (0 <? n)%Z then map_err DbError (Tx.credit_balance acc asset n t) else ret tt) e = (Ok u, e') →
  headroom h (balances (env_db e)) → (0 ≤ n ≤ h)%Z →
  db_effect [mkPosting (acc, asset) n 0] [] (env_db e) (env_db e') ∧
  headroom (h - n) (balances (env_db e')).
Proof.
  intros Hr Hh Hn. destruct (Z.ltb_spec 0 n); run_inv; [by eapply credit_balance_effect|].
  assert (n = 0)%Z as -> by lia. rewrite Z.sub_0_r.
  split; [by apply db_effect_posts; [apply posts_refl_zero|..]|done].
Qed.

Lemma maybe_ledger_effect acc asset n rid t e u e' :
  (if (0 <? n)%Z then map_err DbError (Tx.insert_ledger acc asset n DEBIT FEE rid t) else ret tt) e
    = (Ok u, e') → (0 ≤ n)%Z →
  db_effect [] [((acc, asset), n)] (env_db e) (env_db e').
Proof.
  intros Hr Hn. destruct (Z.ltb_spec 0 n); run_inv; [by eapply insert_ledger_effect in Hr|].
  assert (n = 0)%Z as -> by lia. split; [apply posts_nil| |done].
  exists []. rewrite app_nil_r. split; [done|]. intros k. simpl. unfold booked. simpl.
  by destruct (decide _).
Qed.

Lemma solver_account_effect ps ls d d' s :
  db_effect ps ls d d' → Engine.solver_account s d' = Engine.solver_account s d.
Proof.
  intros [_ _ F]. unfold Engine.solver_account.
  assert (users d' = users d) as -> by apply (f_equal users F).
  by assert (accounts d' = accounts d) as -> by apply (f_equal accounts F).
Qed.

Lemma solver_credit_effect s n t h e u e' :
  (if (0 <? n)%Z then
     let* acc := map_err DbError (query (Engine.solver_account s)) in
     map_err DbError (Tx.credit_balance (default platform_account_id acc) ain n t)
   else ret tt) e = (Ok u, e') →
  headroom h (balances (env_db e)) → (0 ≤ n ≤ h)%Z →
  db_effect [mkPosting (default platform_account_id (Engine.solver_account s (env_db e)), ain) n 0]
    [] (env_db e) (env_db e') ∧ headroom (h - n) (balances (env_db e')).
Proof.
  intros Hr Hh Hn. destruct (Z.ltb_spec 0 n).
  - run_inv. by eapply credit_balance_effect in Hr.
  - run_inv. assert (n = 0)%Z as -> by lia. rewrite Z.sub_0_r.
    split; [by apply db_effect_posts; [apply posts_refl_zero|..]|done].
Qed.

(** What the transaction of [settle_fill] does when it commits. *)
Lemma settle_fill_tx_effect fid e fill sfee e' :
  Engine.settle_fill_tx fid buyer seller ain aout rate e = (Ok (fill, sfee), e') →
  sql_one (λ f, (f_id f =? fid)%N) (fills (env_db e)) = Some fill →
  unit_rate rate = true → (0 ≤ f_filled_qty fill)%Z → (0 ≤ f_qty fill)%Z →
  headroom (f_filled_qty fill + f_qty fill) (balances (env_db e)) →
  f_settled fill = false ∧
  (f_filled_qty fill ≤ locked (balances (env_db e)) (buyer, ain))%Z ∧
  ∃ d, db_effect (fill_postings (fill_solver_account fill (env_db e)) fill)
         (fill_bookings fill) (env_db e) d ∧ solvent (balances d) ∧
    env_db e' = set_fills (sql_update (λ f, (f_id f =? fid)%N)
                  (Engine.with_settled (env_now e)) (fills d)) d.
Proof.
  intros Hrun Hfill Hr Ha Hq Hh.
  assert (f_filled_qty fill ≤ i64_max)%Z as Hmax.
  { pose proof (hr_supply _ _ Hh ain). pose proof (balance_le_total _ (buyer, ain) (hr_solvent _ _ Hh)).
    pose proof (holdings_nonneg _ (buyer, ain) (hr_solvent _ _ Hh)). simpl in *. lia. }
  pose proof (fill_fees_bounds (f_filled_qty fill) ltac:(lia) Hr) as Hf.
  unfold Engine.settle_fill_tx in Hrun. repeat run_inv1.
  same_row fill Hfill.
  destruct (f_settled fill) eqn:Es; [done|]. split; [done|].
  unfold fill_postings, fill_bookings.
  destruct (Engine.fill_fees (f_filled_qty fill) rate) as [[tf sf] pf]. no_wrap.
  repeat run_inv1. pose proof (db_effect_refl (env_db e)) as Acc.
  change (env_db e) with (env_db (pop_fault e)) in Acc at 2. rename Hh into HR.
  room_step Acc HR unlock_and_debit_effect. room_step Acc HR credit_balance_effect.
  room_step Acc HR credit_balance_effect. room_step Acc HR debit_balance_effect.
  room_step Acc HR maybe_credit_effect.
  pose proof (solver_account_effect _ _ _ _ (f_solver_id fill) Acc) as Hsol.
  room_step Acc HR solver_credit_effect. rewrite Hsol in Acc.
  pose proof (db_effect_refl (env_db e6)) as Led. do 4 effect_step Led insert_ledger_effect.
  do 2 effect_step Led maybe_ledger_effect.
  split; [done|]. exists (env_db e12). split_and!; [|by eapply solvent_posts_nil; eauto using eff_posts, hr_wf, hr_solvent|done].
  by apply (db_effect_app _ _ _ _ _ _ _ Acc Led).
Qed.

(** Statistics change their own table only. *)
Lemma upsert_frame sid bump e r e' :
  Stats.upsert sid bump e = (r, e') →
  ∃ ss, env_db e' = set_solver_stats ss (env_db e).
Proof.
  unfold Stats.upsert, stmt. intros Hr.
  assert (∃ ss, env_db e = set_solver_stats ss (env_db e)) as Hid.
  { exists (solver_stats (env_db e)). by destruct (env_db e). }
  destruct (faulty e); [by injection Hr as <- <-|].
  destruct (existsb (λ r, (ss_solver_id r =? sid)%N) _).
  - destruct (sql_try_update _ _ _); simpl in Hr; injection Hr as <- <-; [by eexists|done].
  - destruct (existsb _ (solvers _)); simpl in Hr; [|by injection Hr as <- <-].
    destruct (bump _); simpl in Hr; injection Hr as <- <-; [by eexists|done].
Qed.

(** A successful [settle_fill] is its transaction, then statistics. *)
Lemma settle_fill_Ok lat fid e e' :
  Engine.settle_fill lat fid buyer seller ain aout rate e = (Ok tt, e') →
  ∃ fill sfee e2 ss,
    Engine.settle_fill_tx fid buyer seller ain aout rate (pop_fault e) = (Ok (fill, sfee), e2) ∧
    env_db e' = set_solver_stats ss (env_db e2).
Proof.
  unfold Engine.settle_fill. intros Hr. apply bind_Ok in Hr as ([fill sfee] & e1 & Ht & Hr).
  apply transaction_Ok in Ht as (e2 & Ht & ->). exists fill, sfee, e2.
  destruct (uuid_parse _); run_inv.
  - match goal with H : Stats.record_settled_fill _ _ _ _ _ _ = _ |- _ =>
      apply upsert_frame in H as [ss Hss] end. eauto.
  - exists (solver_stats (env_db e2)). split; [done|]. simpl. by destruct (env_db e2).
Qed.

Lemma settle_fill_rolls_back lat fid e x e' :
  Engine.settle_fill lat fid buyer seller ain aout rate e = (Err x, e') → env_db e' = env_db e.
Proof.
  unfold Engine.settle_fill. intros [Hr|([fill sfee] & e1 & _ & Hr)]%bind_Err.
  - by apply transaction_Err in Hr.
  - destruct (uuid_parse _); [|done]. apply bind_Err in Hr as [Hr|(? & ? & _ & Hr)]; [|done].
    unfold attempt in Hr. by destruct (Stats.record_settled_fill _ _ _ _ _ _).
Qed.

(** A settlement that fails, for whatever reason and at whatever point,
    leaves the database as it was. *)
Theorem settle_fill_atomic lat fid e x e' :
  Engine.settle_fill lat fid buyer seller ain aout rate e = (Err x, e') →
  env_db e' = env_db e.
Proof. apply settle_fill_rolls_back. Qed.

(** What a settlement may change besides balances and ledger. *)
Definition settlement_frame (d : CoreDb) : CoreDb :=
  set_solver_stats [] (set_fills [] (other_tables d)).

(** The hypotheses of a settlement: the fill, a fee rate in range, quantities
    that are not negative, and room below [i64_max] for them. *)
Record fill_valid (fid : Uuid) (fill : Fill) (d : CoreDb) : Prop := {
  fv_row : sql_one (λ f, (f_id f =? fid)%N) (fills d) = Some fill;
  fv_rate : unit_rate rate = true;
  fv_filled : (0 ≤ f_filled_qty fill)%Z;
  fv_qty : (0 ≤ f_qty fill)%Z;
  fv_room : headroom (f_filled_qty fill + f_qty fill) (balances d);
}.

Lemma settle_fill_effect lat fid fill e e' :
  Engine.settle_fill lat fid buyer seller ain aout rate e = (Ok tt, e') →
  fill_valid fid fill (env_db e) →
  f_settled fill = false ∧
  (f_filled_qty fill ≤ locked (balances (env_db e)) (buyer, ain))%Z ∧
  posts (fill_postings (fill_solver_account fill (env_db e)) fill)
    (balances (env_db e)) (balances (env_db e')) ∧
  (∃ es, ledger_entries (env_db e') = ledger_entries (env_db e) ++ es ∧
         books (fill_bookings fill) es) ∧
  fills (env_db e') = sql_update (λ f, (f_id f =? fid)%N)
    (Engine.with_settled (env_now e)) (fills (env_db e)) ∧
  settlement_frame (env_db e') = settlement_frame (env_db e) ∧
  solvent (balances (env_db e')).
Proof.
  intros Hr [Hf Hrate Ha Hq Hh].
  apply settle_fill_Ok in Hr as (fill' & sfee & e2 & ss & Ht & ->).
  assert (fill' = fill) as ->.
  { unfold Engine.settle_fill_tx in Ht. repeat run_inv1.
    same_row fill Hf.
    destruct (f_settled fill); [done|]. repeat run_inv1. destruct (Engine.fill_fees _ _) as [[??] ?].
    repeat run_inv1. congruence. }
  apply settle_fill_tx_effect in Ht as (Hs & Hl & d & [P L F] & Hsolv & ->); [|done..].
  split_and!; try done.
  - simpl. f_equal. apply (f_equal fills F).
  - exact (f_equal (λ d, set_solver_stats [] (set_fills [] d)) F).
Qed.

(** C2: settling a fill takes its amount from the buyer's locked balance, pays
    the seller the amount less the fee, exchanges the other asset, pays the
    platform and the solver their parts of the fee, books the same in the
    ledger, marks the fill, and changes nothing else but statistics. *)
Theorem settle_fill_refines lat fid fill e e' :
  Engine.settle_fill lat fid buyer seller ain aout rate e = (Ok tt, e') →
  fill_valid fid fill (env_db e) →
  f_settled fill = false ∧
  posts (fill_postings (fill_solver_account fill (env_db e)) fill)
    (balances (env_db e)) (balances (env_db e')) ∧
  (∃ es, ledger_entries (env_db e') = ledger_entries (env_db e) ++ es ∧
         books (fill_bookings fill) es) ∧
  fills (env_db e') = sql_update (λ f, (f_id f =? fid)%N)
    (Engine.with_settled (env_now e)) (fills (env_db e)) ∧
  settlement_frame (env_db e') = settlement_frame (env_db e).
Proof.
  intros Hr Hv. pose proof (settle_fill_effect _ _ _ _ _ Hr Hv) as (? & ? & ? & ? & ? & ? & ?). auto.
Qed.


(** C37: a fill is settled at most once: after a success, settling it again,
    between whatever accounts and at whatever rate, fails and moves nothing. *)
Theorem settle_fill_once lat fid fill e e' lat2 buyer2 seller2 ain2 aout2 rate2 r e2 :
  Engine.settle_fill lat fid buyer seller ain aout rate e = (Ok tt, e') →
  fill_valid fid fill (env_db e) →
  Engine.settle_fill lat2 fid buyer2 seller2 ain2 aout2 rate2 (with_db (env_db e') e2) = r →
  is_ok (fst r) = false ∧ env_db (snd r) = env_db e'.
Proof.
  intros Hr Hv. pose proof (settle_fill_effect _ _ _ _ _ Hr Hv) as (_ & _ & _ & _ & Hfills & _ & _).
  assert (sql_one (λ f, (f_id f =? fid)%N) (fills (env_db e')) =
          Some (Engine.with_settled (env_now e) fill)) as Hset.
  { rewrite Hfills. unfold sql_update. rewrite sql_one_map.
    - rewrite (fv_row _ _ _ Hv). simpl.
      pose proof (sql_one_Some _ _ _ (fv_row _ _ _ Hv)) as [_ ->]. done.
    - intros f. destruct (f_id f =? fid)%N eqn:E; simpl; by rewrite E. }
  intros <-. unfold Engine.settle_fill at 1 2, bind.
  destruct (transaction DbError _ (with_db (env_db e') e2)) as [[[f s]|x] e3] eqn:Et.
  2: { split; [done|]. simpl. by apply transaction_Err in Et. }
  exfalso. apply transaction_Ok in Et as (e4 & Ht & _). unfold Engine.settle_fill_tx in Ht.
  repeat run_inv1. simpl in *. by simplify_eq.
Qed.

(** The ledger of a settlement books the solver's part of the fee to the
    platform, while the solver's account receives it: a reconciled solver
    account ends with that much more than its ledger says. *)
Theorem settle_fill_ledger_drift lat fid fill e e' :
  Engine.settle_fill lat fid buyer seller ain aout rate e = (Ok tt, e') →
  fill_valid fid fill (env_db e) → reconciled (env_db e) →
  let acc := fill_solver_account fill (env_db e) in
  let solver_fee := snd (fst (Engine.fill_fees (f_filled_qty fill) rate)) in
  acc ≠ platform_account_id →
  (available (balances (env_db e')) (acc, ain) + locked (balances (env_db e')) (acc, ain) =
   LedgerRepository.ledger_sum acc ain (ledger_entries (env_db e')) + solver_fee)%Z.
Proof.
  intros Hr Hv Hrec acc sfee Hne.
  pose proof (settle_fill_effect _ _ _ _ _ Hr Hv) as (_ & _ & P & (es & L & B) & _ & _ & _).
  pose proof (hr_wf _ _ (fv_room _ _ _ Hv)) as Hwf.
  rewrite (posts_available _ _ _ P), (posts_locked _ _ _ P) by done.
  rewrite L, ledger_sum_app, (ledger_sum_effect _ _ es).
  pose proof (B (acc, ain)) as HB. pose proof (Hrec (acc, ain)) as HR. cbn [fst snd] in HB, HR.
  rewrite <- HR, HB. unfold sfee, fill_postings, fill_bookings. fold acc.
  destruct (Engine.fill_fees _ _) as [[tf sf] pf]. simpl. unfold at_key, booked. simpl.
  repeat case_decide; simplify_eq/=; lia.
Qed.

End fill.

(** ** The settlement of a trade *)

Section trade.
Implicit Types e : Env CoreDb.

Definition trade_postings (r : Trade) : list Posting :=
  [mkPosting (t_buyer_account_id r, t_asset_in r) (- t_amount_in r) 0;
   mkPosting (t_seller_account_id r, t_asset_in r)
     (t_amount_in r - t_platform_fee r - t_solver_fee r) 0;
   mkPosting (t_buyer_account_id r, t_asset_out r) (t_amount_out r) 0;
   mkPosting (t_seller_account_id r, t_asset_out r) (- t_amount_out r) 0;
   mkPosting (platform_account_id, t_asset_in r) (t_platform_fee r) 0;
   mkPosting (t_solver_account_id r, t_asset_in r) (t_solver_fee r) 0].

Definition trade_bookings (r : Trade) : list (Key * Z) :=
  [((t_buyer_account_id r, t_asset_in r), - t_amount_in r);
   ((t_buyer_account_id r, t_asset_out r), t_amount_out r);
   ((t_seller_account_id r, t_asset_in r), t_amount_in r - t_platform_fee r - t_solver_fee r);
   ((t_seller_account_id r, t_asset_out r), - t_amount_out r);
   ((platform_account_id, t_asset_in r), t_platform_fee r);
   ((t_solver_account_id r, t_asset_in r), t_solver_fee r)]%Z.

Record trade_valid (tid : Uuid) (r : Trade) (d : CoreDb) : Prop := {
  tv_row : sql_one (λ x, (t_id x =? tid)%N) (trades d) = Some r;
  tv_amounts : (0 ≤ t_amount_in r ∧ 0 ≤ t_amount_out r)%Z;
  tv_fees : (0 ≤ t_platform_fee r ∧ 0 ≤ t_solver_fee r ∧
             t_platform_fee r + t_solver_fee r ≤ t_amount_in r)%Z;
  tv_room : headroom (t_amount_in r + t_amount_out r) (balances d);
}.

Lemma settle_trade_tx_effect tid e r t e' :
  Engine.settle_trade_tx tid e = (Ok (r, t), e') → trade_valid tid r (env_db e) →
  t_status r ≠ TSettled ∧
  ∃ d, db_effect (trade_postings r) (trade_bookings r) (env_db e) d ∧ solvent (balances d) ∧
    env_db e' = set_trades (sql_update (λ x, (t_id x =? t_id r)%N)
                  (Engine.with_trade_settled t) (trades d)) d.
Proof.
  intros Hrun [Hrow Ham Hfee Hh].
  assert (balances_inv (balances (env_db e))) as Hinv by (eapply headroom_inv; [|exact Hh]; lia).
  pose proof (hr_supply _ _ Hh (t_asset_in r)) as Hsup.
  pose proof (balance_in_i64 _ (t_buyer_account_id r, t_asset_in r) Hinv) as Hb. simpl in Hb.
  unfold Engine.settle_trade_tx in Hrun. repeat run_inv1.
  same_row r Hrow.
  case_bool_decide as Hs; [done|]. split; [done|]. repeat run_inv1.
  match goal with H : (r, t) = _ |- _ => injection H as -> end.
  assert (i64 (i64 (t_amount_in r - t_platform_fee r) - t_solver_fee r) =
          t_amount_in r - t_platform_fee r - t_solver_fee r)%Z as Hrecv.
  { rewrite (i64_id (t_amount_in r - _)); [rewrite i64_id; [done|]|];
      unfold in_i64, i64_min, i64_max in *; lia. }
  rewrite Hrecv in *.
  pose proof (db_effect_refl (env_db e)) as Acc.
  change (env_db e) with (env_db (pop_fault e)) in Acc at 2. rename Hh into HR.
  room_step Acc HR debit_balance_effect. room_step Acc HR credit_balance_effect.
  room_step Acc HR credit_balance_effect. room_step Acc HR debit_balance_effect.
  room_step Acc HR credit_balance_effect. room_step Acc HR credit_balance_effect.
  match type of Acc with db_effect _ _ _ (env_db ?e6) =>
    pose proof (db_effect_refl (env_db e6)) as Led end.
  do 6 effect_step Led insert_ledger_effect.
  match type of Led with db_effect _ _ _ (env_db ?e12) => exists (env_db e12) end.
  split_and!; [|by eapply solvent_posts_nil; eauto using eff_posts, hr_wf, hr_solvent|done].
  by apply (db_effect_app _ _ _ _ _ _ _ Acc Led).
Qed.

Lemma trade_postings_total r a :
  sum_by (at_asset a) (trade_postings r) = 0%Z.
Proof. simpl. unfold at_asset. simpl. repeat case_decide; simplify_eq/=; lia. Qed.

Lemma trade_books_what_it_posts r k :
  sum_by (booked k) (trade_bookings r) =
  (sum_by (at_key k p_available) (trade_postings r) +
   sum_by (at_key k p_locked) (trade_postings r))%Z.
Proof. simpl. unfold at_key, booked. simpl. repeat case_decide; simplify_eq/=; lia. Qed.

(** Settling a valid trade moves the two amounts between buyer and seller,
    pays both fees out of the seller's side, conserves every asset's supply,
    keeps the ledger reconciled, leaves no balance negative and returns the
    trade marked settled, which it was not before. *)
Theorem settle_trade_correct tid r e r' e' :
  Engine.settle_trade tid e = (Ok r', e') → trade_valid tid r (env_db e) →
  t_status r ≠ TSettled ∧ r' = Engine.with_trade_settled (env_now e) r ∧
  posts (trade_postings r) (balances (env_db e)) (balances (env_db e')) ∧
  (∀ a, asset_total a (balances (env_db e')) = asset_total a (balances (env_db e))) ∧
  balances_inv (balances (env_db e')) ∧
  (reconciled (env_db e) → reconciled (env_db e')).
Proof.
  intros Hrun Hv. unfold Engine.settle_trade in Hrun.
  apply bind_Ok in Hrun as ([r0 t] & e1 & Ht & Hrun). run_inv.
  apply transaction_Ok in Ht as (e2 & Ht & ->).
  assert (r0 = r ∧ t = env_now e) as [-> ->].
  { pose proof (tv_row _ _ _ Hv) as Hrow. unfold Engine.settle_trade_tx in Ht. repeat run_inv1.
    same_row r Hrow.
    case_bool_decide; [done|]. repeat run_inv1. by simplify_eq. }
  apply settle_trade_tx_effect in Ht as (Hs & d & [P (es & L & B) F] & Hsolv & Hdb); [|done].
  simpl. rewrite Hdb. simpl in *.
  assert (∀ a, asset_total a (balances d) = asset_total a (balances (env_db e))) as HT.
  { intros a. rewrite (posts_total _ _ _ P), trade_postings_total by apply Hv. lia. }
  split_and!; try done.
  - split; [apply (posts_wf _ _ _ P), Hv|done|]. intros a. rewrite HT.
    pose proof (hr_supply _ _ (tv_room _ _ _ Hv) a). destruct (tv_amounts _ _ _ Hv). lia.
  - intros Hrec k. simpl. rewrite L, ledger_sum_app, (ledger_sum_effect _ _ es), B, <- Hrec.
    rewrite (posts_available _ _ _ P), (posts_locked _ _ _ P), trade_books_what_it_posts by apply Hv.
    lia.
Qed.

(** A trade that fails to settle leaves the database as it was, and one
    that settled cannot be settled again. *)
Theorem settle_trade_once tid e :
  (∀ x e', Engine.settle_trade tid e = (Err x, e') → env_db e' = env_db e) ∧
  (∀ r r' e' e2, Engine.settle_trade tid e = (Ok r', e') → trade_valid tid r (env_db e) →
     is_ok (fst (Engine.settle_trade tid (with_db (env_db e') e2))) = false).
Proof.
  split.
  - intros x e' [Hr|([r t] & e1 & _ & Hr)]%bind_Err; [|done]. by apply transaction_Err in Hr.
  - intros r r' e' e2 Hrun Hv. unfold Engine.settle_trade in Hrun.
    apply bind_Ok in Hrun as ([r0 t] & e1 & Ht & Hrun). run_inv.
    apply transaction_Ok in Ht as (e3 & Ht & ->).
    pose proof (tv_row _ _ _ Hv) as Hrow.
    assert (r0 = r) as ->.
    { unfold Engine.settle_trade_tx in Ht. repeat run_inv1.
      same_row r Hrow.
      case_bool_decide; [done|]. repeat run_inv1. by simplify_eq. }
    apply settle_trade_tx_effect in Ht as (_ & d & [_ _ F] & _ & Hdb); [|done].
    unfold Engine.settle_trade, bind.
    destruct (transaction DbError _ _) as [[[r2 t2]|x] e5] eqn:Et; [|done]. exfalso.
    apply transaction_Ok in Et as (e4 & Ht & _). unfold Engine.settle_trade_tx in Ht.
    repeat run_inv1. simpl in *. rewrite Hdb in *. simpl in *.
    assert (trades d = trades (env_db e)) as Htr by apply (f_equal trades F).
    rewrite Htr in *. unfold sql_update in *.
    pose proof (sql_one_Some _ _ _ Hrow) as [_ Htid%N.eqb_eq].
    match goal with H : sql_one _ (map _ _) = Some _ |- _ => rewrite sql_one_map in H;
      [rewrite Hrow in H; simpl in H; rewrite N.eqb_refl in H; injection H as <-|] end.
    + done.
    + intros x. destruct (_ =? t_id r)%N eqn:E; done.
Qed.
End trade.

(** ** The worker and the retries *)

Section worker.
Context `{UuidText, NumericDecode, SqlxDisplay}.
Implicit Types e : Env CoreDb.

Definition settled_sum (intent_id : Uuid) (d : CoreDb) : Z :=
  sum_by f_filled_qty
    (sql_select (λ f, (f_intent_id f =? intent_id)%N && f_settled f) (fills d)).

(** The status the settled quantity calls for, if any. *)
Definition status_of_settled (amount_in settled : Z) : option IntentStatus :=
  if (amount_in <=? settled)%Z then Some ICompleted
  else if (0 <? settled)%Z then Some IPartiallyFilled else None.

(** When nothing fails and the driver reads the sum, the worker sets the
    intent completed once the settled quantity reaches its amount, partially
    filled when some of it is settled, and otherwise leaves it, and publishes
    the change. *)
Theorem worker_updates_status iid i e :
  env_faults e = [] → (∀ n, numeric_as_i64 n = Some n) →
  sql_one (λ i, (i_id i =? iid)%N) (intents (env_db e)) = Some i →
  let e' := snd (Worker.update_intent_status (E := unit) iid e) in
  let q := settled_sum iid (env_db e) in
  match status_of_settled (i_amount_in i) q with
  | Some s =>
      intents (env_db e') = sql_update (λ i, (i_id i =? iid)%N) (Engine.with_status s)
                              (intents (env_db e)) ∧
      stream_bus (env_db e') = stream_bus (env_db e) ++
        [StreamIntentSettled (mkIntentSettledEvent iid q (Worker.status_text s))]
  | None => env_db e' = env_db e
  end.
Proof.
  destruct e as [d fl u n t]. simpl. intros -> Hnum Hi.
  unfold Worker.update_intent_status, bind, attempt, query, exec, stmt, faulty. simpl.
  rewrite Hi. simpl. fold (settled_sum iid d). rewrite Hnum. simpl. unfold status_of_settled.
  destruct (Z.leb_spec (i_amount_in i) (settled_sum iid d)); simpl; [done|].
  by destruct (Z.ltb_spec 0 (settled_sum iid d)).
Qed.

(** The sum of a BIGINT column is a NUMERIC, which the driver does not
    read into an [i64]: then no settlement ever changes an intent's status (a
    flaw of the code). *)
Theorem worker_never_completes iid e :
  (∀ n, numeric_as_i64 n = None) →
  (∀ i, i ∈ intents (env_db e) → (0 < i_amount_in i)%Z) →
  env_db (snd (Worker.update_intent_status (E := unit) iid e)) = env_db e.
Proof.
  intros Hnum Hpos. unfold Worker.update_intent_status, bind, attempt, query, stmt.
  destruct (faulty e); [done|]. simpl.
  destruct (sql_one _ (intents _)) as [i|] eqn:Ei; simpl; [|done].
  apply sql_one_Some in Ei as [Hi%Hpos _].
  assert ((i_amount_in i <=? 0)%Z = false) as Hle by lia.
  destruct (faulty _); simpl; [|rewrite Hnum; simpl]; by rewrite Hle.
Qed.

(** The row a failing retry leaves. *)
Definition retried (t : Z) (msg : string) (r : FailedSettlement) : FailedSettlement :=
  let n := (fs_retry_count r + 1)%Z in
  mkFailed (fs_id r) (fs_trade_id r) (fs_fill_id r) n msg
    (if (n <? 5)%Z then t + 10 * 3 ^ n else fs_next_retry_at r)%Z
    (if (n <? 5)%Z then fs_permanently_failed r else true).

Lemma backoff_schedule n : (0 ≤ n < 5)%Z → Retry.backoff_secs n = (10 * 3 ^ n)%Z.
Proof.
  intros Hn. assert (n = 0 ∨ n = 1 ∨ n = 2 ∨ n = 3 ∨ n = 4)%Z as Hc by lia.
  by destruct Hc as [-> | [-> | [-> | [-> | ->]]]].
Qed.

(** Retrying a fill that is not settled never settles it: each attempt
    only counts, waits 30, 90, 270, 810 seconds, and gives the fill up for
    good at the fifth (the code says so: it has no execution context). *)
Theorem retry_fill_gives_up r fid fill i e :
  env_faults e = [] → fs_fill_id r = Some fid →
  (0 ≤ fs_retry_count r < 5)%Z →
  sql_one (λ f, (f_id f =? fid)%N) (fills (env_db e)) = Some fill → f_settled fill = false →
  sql_one (λ i, (i_id i =? f_intent_id fill)%N) (intents (env_db e)) = Some i →
  (∀ r', r' ∈ failed_settlements (env_db e) → fs_id r' = fs_id r → r' = r) →
  let e' := snd (RetryWorker.retry_entry r e) in
  env_db e' = set_failed_settlements
    (sql_update (λ r', (fs_id r' =? fs_id r)%N)
       (retried (env_now e) "fill retry requires execution context")
       (failed_settlements (env_db e))) (env_db e).
Proof.
  destruct e as [d fl u n t]. simpl. intros -> Hfid Hn Hfill Hs Hi Huniq.
  unfold RetryWorker.retry_entry, RetryWorker.retry_fill. rewrite Hfid.
  unfold bind, query, stmt, faulty. simpl.
  assert (head (f ← sql_select (λ f, (f_id f =? fid)%N) (fills d);
          i ← sql_select (λ i, (i_id i =? f_intent_id f)%N) (intents d);
          [(f_intent_id f, i_token_in i, i_token_out i)]) =
          Some (f_intent_id fill, i_token_in i, i_token_out i)) as ->.
  { unfold sql_one in Hfill, Hi. destruct (sql_select _ (fills d)) as [|f fs]; [done|].
    injection Hfill as ->. simpl.
    destruct (sql_select _ (intents d)) as [|i' l]; [done|]. by injection Hi as ->. }
  simpl. rewrite Hfill. simpl. rewrite Hs.
  assert (i32 (fs_retry_count r + 1) = fs_retry_count r + 1)%Z as ->.
  { apply wrap_s_id; [lia|]. change (2 ^ (32 - 1))%Z with 2147483648%Z. lia. }
  unfold RetryWorker.handle_retry_failure, RetryWorker.update_failed, Retry.MAX_RETRIES, retried.
  destruct (Z.leb_spec 5 (fs_retry_count r + 1)); unfold exec, stmt, bind, now, faulty; simpl;
    f_equal; apply map_ext_in; intros r' Hr'%list_elem_of_In;
    (destruct (N.eqb_spec (fs_id r') (fs_id r)) as [E|]; [|done]);
    apply Huniq in E as ->; [|done| |done].
  - destruct (Z.ltb_spec (fs_retry_count r + 1) 5); [lia|done].
  - destruct (Z.ltb_spec (fs_retry_count r + 1) 5); [|lia].
    by rewrite backoff_schedule by lia.
Qed.

End worker.

(** ** Witnesses *)

#[local] Instance uuids : UuidText := DecimalUuid.instance.
#[local] Instance decodes : NumericDecode := {| numeric_as_i64 := Some |}.
#[local] Instance prints : SqlxDisplay := {| sqlx_text := λ _, "error" |}.

Definition carol : Uuid := 12%N.
Definition five_percent : f64 := f64_lit 5 100.
Definition sample_fill : Fill := mkFill 50 60 "3" 1 40 100 "" 0 false None.
Definition sample_trade : Trade :=
  mkTrade 70 alice bob carol USDC ETH 50 10 2 1 TPending 0 None.
Definition sample_intent : Intent :=
  mkIntent 60 "10" "USDC" "ETH" 100 1 99 IExecuting 0 Market None None None None "ethereum"
    "ethereum" false.
Definition sample_failed : FailedSettlement := mkFailed 80 80 (Some 50%N) 4 "" 0 false.

Definition market_db : CoreDb :=
  set_users [mkUser 3 "carol@example.org" "" 0 0]
  (set_accounts [mkAccount alice 5 Spot 0; mkAccount bob 6 Spot 0; mkAccount carol 3 Spot 0;
                 mkAccount platform_account_id 9 Spot 0]
  (set_balances [mkBalance 100 alice USDC 500 100 0; mkBalance 101 bob ETH 100 0 0]
  (set_ledger_entries [mkLedgerEntry 200 alice USDC 600 DEBIT DEPOSIT 300 0;
                       mkLedgerEntry 201 bob ETH 100 DEBIT DEPOSIT 301 0]
  (set_fills [sample_fill] (set_intents [sample_intent] (set_trades [sample_trade]
  (set_failed_settlements [sample_failed] empty_db))))))).
Definition market_env : Env CoreDb := mkEnv market_db [] (λ n, 1000 + N.of_nat n)%N 0 7.

Lemma market_room h : (h <=? 1000)%Z = true → headroom h (balances market_db).
Proof.
  intros Hh%Z.leb_le. split.
  - split; by apply (bool_decide_unpack _); vm_compute.
  - intros b Hb.
    apply (elem_of_forallb (λ b, (0 <=? b_available_balance b)%Z && (0 <=? b_locked_balance b)%Z))
      in Hb; [|done]. lia.
  - intros a. assert (asset_total a (balances market_db) ≤ 600)%Z by (by destruct a).
    unfold i64_max. lia.
Qed.

Lemma market_reconciled : reconciled market_db.
Proof.
  intros [acc a]. unfold available, locked, find_row, sql_one, LedgerRepository.ledger_sum, is_row.
  cbn -[N.eqb alice bob].
  destruct (N.eqb_spec alice acc) as [<-|]; [by destruct a|].
  destruct (N.eqb_spec bob acc) as [<-|]; by destruct a.
Qed.

Lemma sample_fill_valid : fill_valid five_percent 50 sample_fill market_db.
Proof. split; [by vm_compute|by vm_compute|done|done|by apply market_room]. Qed.

Lemma sample_trade_valid : trade_valid 70 sample_trade market_db.
Proof. split; [by vm_compute|done|done|by apply market_room]. Qed.

Definition settled_run :=
  Engine.settle_fill 3 50 alice bob USDC ETH five_percent market_env.
Definition traded_run := Engine.settle_trade 70 market_env.

Lemma settle_fill_refines_witness :
  posts (fill_postings alice bob USDC ETH five_percent carol sample_fill)
    (balances market_db) (balances (env_db (snd settled_run))).
Proof.
  refine (proj1 (proj2 (settle_fill_refines alice bob USDC ETH five_percent 3 50 sample_fill
                          market_env (snd settled_run) _ _))).
  - by vm_compute.
  - apply sample_fill_valid.
Defined.


Lemma settle_fill_once_witness :
  is_ok (fst (Engine.settle_fill 0 50 bob alice USDC ETH five_percent
    (with_db (env_db (snd settled_run)) market_env))) = false.
Proof.
  eapply (settle_fill_once alice bob USDC ETH five_percent 3 50 sample_fill market_env
            (snd settled_run)).
  - by vm_compute.
  - apply sample_fill_valid.
  - done.
Defined.

Lemma settle_fill_atomic_witness :
  let e := mkEnv market_db [false; false; false; false; true] (env_uuid market_env) 0 7 in
  let r := Engine.settle_fill 3 50 alice bob USDC ETH five_percent e in
  env_db (snd r) = market_db.
Proof.
  intros e r. eapply (settle_fill_atomic alice bob USDC ETH five_percent 3 50 e).
  by vm_compute.
Defined.

Lemma settle_fill_ledger_drift_witness :
  let e' := snd settled_run in
  let acc := fill_solver_account sample_fill market_db in
  let fee := snd (fst (Engine.fill_fees (f_filled_qty sample_fill) five_percent)) in
  acc = carol ∧ fee = 1%Z ∧
  (available (balances (env_db e')) (acc, USDC) + locked (balances (env_db e')) (acc, USDC) =
   LedgerRepository.ledger_sum acc USDC (ledger_entries (env_db e')) + fee)%Z.
Proof.
  split; [by vm_compute|]. split; [by vm_compute|].
  refine (settle_fill_ledger_drift alice bob USDC ETH five_percent 3 50 sample_fill market_env
           (snd settled_run) _ _ _ _).
  - by vm_compute.
  - apply sample_fill_valid.
  - apply market_reconciled.
  - by vm_compute.
Defined.

Lemma settle_trade_correct_witness :
  reconciled (env_db (snd traded_run)) ∧ balances_inv (balances (env_db (snd traded_run))).
Proof.
  destruct (settle_trade_correct 70 sample_trade market_env
    (Engine.with_trade_settled 7 sample_trade) (snd traded_run))
    as (_ & _ & _ & _ & Hinv & Hrec).
  - by vm_compute.
  - apply sample_trade_valid.
  - split; [apply Hrec, market_reconciled|done].
Defined.

Lemma settle_trade_once_witness :
  is_ok (fst (Engine.settle_trade 70 (with_db (env_db (snd traded_run)) market_env))) = false.
Proof.
  eapply (proj2 (settle_trade_once 70 market_env) sample_trade _ (snd traded_run)).
  - by vm_compute.
  - apply sample_trade_valid.
Defined.

Lemma worker_updates_status_witness :
  intents (env_db (snd (Worker.update_intent_status (E := unit) 60 (snd settled_run)))) =
  sql_update (λ i, (i_id i =? 60)%N) (Engine.with_status ICompleted) [sample_intent].
Proof.
  refine (proj1 (worker_updates_status 60 sample_intent (snd settled_run) _ _ _)).
  - by vm_compute.
  - done.
  - by vm_compute.
Defined.

Lemma worker_never_completes_witness :
  let none : NumericDecode := {| numeric_as_i64 := λ _, None |} in
  env_db (snd (@Worker.update_intent_status none unit 60 (snd settled_run))) =
  env_db (snd settled_run).
Proof.
  intros none. apply (@worker_never_completes none).
  - done.
  - intros i Hi. apply (elem_of_forallb (λ i, (0 <? i_amount_in i)%Z)) in Hi; [lia|by vm_compute].
Defined.

Lemma retry_fill_gives_up_witness :
  fs_permanently_failed <$> head (failed_settlements (env_db
    (snd (RetryWorker.retry_entry sample_failed market_env)))) = Some true.
Proof.
  rewrite (retry_fill_gives_up sample_failed 50 sample_fill sample_intent market_env);
    [done|done|done|done|done|done|done|].
  by intros r' ->%list_elem_of_singleton.
Defined.
