(* ===== verification/WorkersCorrect.v ===== *)
(** * What the workers guarantee

    The settlement an execution asks for, the release of expired intents, and
    the activation of stop orders. *)
From stdpp Require Import gmap.
From S2P Require Import Prelude Monad Float64 Model Ledger Balances Settlement Storage Auction Solvers Workers SettlementCorrect Risk Intents IntentsCorrect.

(** ** Executions ask for settlements with a seller that does not exist *)

Section execution.
Context `{UuidText, NumericDecode, SqlxDisplay}.

(** No account has the nil id, and so no balance belongs to it. *)
Definition no_nil_account (d : CoreDb) : Prop :=
  (∀ a, a ∈ accounts d → a_id a ≠ nil_uuid) ∧ (∀ b, b ∈ balances d → b_account_id b ≠ nil_uuid).

Lemma no_nil_posted (sel : Balance → bool) f d bs :
  sql_try_update sel f (balances d) = Some bs →
  (∀ r r', f r = Some r' → b_account_id r' = b_account_id r) →
  no_nil_account d → no_nil_account (set_balances bs d).
Proof.
  intros H2 Hf [Ha Hb]. split; [done|]. simpl. apply mapM_Some_1 in H2.
  revert Hb. induction H2 as [|r r' t t' Hr H2 IH]; intros Hb b Hin; [by apply not_elem_of_nil in Hin|].
  apply elem_of_cons in Hin as [->|Hin].
  - destruct (sel r); [rewrite (Hf _ _ Hr)|injection Hr as <-]; apply Hb; by left.
  - apply IH; [|done]. intros b' Hb'. apply Hb. by right.
Qed.

Lemma add_to_row_account da dl t r r' : add_to_row da dl t r = Some r' → b_account_id r' = b_account_id r.
Proof. intros <-%add_to_row_Some. done. Qed.

Lemma unlock_and_debit_no_nil acc a n t e u e' :
  Tx.unlock_and_debit acc a n t e = (Ok u, e') → no_nil_account (env_db e) → no_nil_account (env_db e').
Proof.
  unfold Tx.unlock_and_debit. intros Hrun Hn. run_inv. simpl in *.
  match goal with H : mbind _ _ = Some _ |- _ => apply bind_Some in H as (bs & Hbs & Heq) end.
  simplify_eq. destruct (_ =? 0)%nat in *; run_inv. simpl.
  eapply no_nil_posted; [exact Hbs|apply add_to_row_account|done].
Qed.

Lemma credit_nil_fails a n t e u e' :
  no_nil_account (env_db e) → Tx.credit_balance nil_uuid a n t e ≠ (Ok u, e').
Proof.
  intros [Ha Hb] Hrun. unfold Tx.credit_balance, Tx.find_or_create_balance in Hrun.
  apply bind_Ok in Hrun as (b & e1 & Hfind & _). apply bind_Ok in Hfind as (o & e2 & [_ [-> ->]]%query_Ok & Hfind).
  destruct (find_row nil_uuid a (balances (env_db e))) as [r|] eqn:E.
  - apply (find_row_Some (nil_uuid, a)) in E as [Hin Hk]. apply (Hb r Hin). by injection Hk.
  - apply bind_Ok in Hfind as (id & e3 & Hid & Hfind). injection Hid as <- <-.
    apply bind_Ok in Hfind as (u' & e4 & (_ & d & Hins & _)%stmt_Ok & _). simpl in Hins.
    unfold BalanceRepository.insert_row in Hins. destruct (_ || _) eqn:Hor in Hins; [done|].
    apply orb_false_iff in Hor as [_ Hacc]. apply negb_false_iff, existsb_true_elem in Hacc as (acc & Hin & Hid').
    simpl in Hid'. apply N.eqb_eq in Hid'. by apply (Ha acc Hin).
Qed.

Lemma settle_to_nil_fails lat fid buyer ain aout rate e u e' :
  no_nil_account (env_db e) →
  Engine.settle_fill lat fid buyer nil_uuid ain aout rate e ≠ (Ok u, e').
Proof.
  intros Hn Hrun. unfold Engine.settle_fill in Hrun.
  apply bind_Ok in Hrun as (p & e1 & (ex & Htx & _)%transaction_Ok & _).
  unfold Engine.settle_fill_tx in Htx.
  apply bind_Ok in Htx as (o & e2 & [_ [-> ->]]%map_err_Ok%query_Ok & Htx).
  apply bind_Ok in Htx as (fill & e3 & [_ ->]%of_option_Ok & Htx).
  destruct (f_settled fill); [by run_inv|].
  apply bind_Ok in Htx as (ts & e4 & [-> ->]%now_Ok & Htx).
  destruct (Engine.fill_fees _ _) as [[total sfee] pfee].
  apply bind_Ok in Htx as (u1 & e5 & Hud & Htx).
  apply unlock_and_debit_no_nil in Hud; [|done].
  apply bind_Ok in Htx as (u2 & e6 & Hcr%map_err_Ok & _). by apply credit_nil_fails in Hcr.
Qed.

(** The tables a settlement is about. *)
Definition settled_tables (d : CoreDb) : list Balance * list LedgerEntry * list Fill :=
  (balances d, ledger_entries d, fills d).

Lemma update_intent_status_keeps {E} iid :
  keeps settled_tables (Worker.update_intent_status (E := E) iid).
Proof. unfold Worker.update_intent_status. keeps. Qed.

Lemma failure_keeps fid msg : keeps settled_tables (Retry.record_fill_failure fid msg).
Proof.
  unfold Retry.record_fill_failure. keeps. apply keeps_exec. intros d. by destruct (existsb _ _).
Qed.

Lemma failed_fill_keeps sid : keeps settled_tables (Stats.record_failed_fill sid).
Proof.
  apply keeps_stmt. intros d u d' Hd.
  destruct (existsb _ _); [|destruct (existsb _ _); [|done]]; apply bind_Some in Hd as (? & _ & Hd);
    by simplify_eq.
Qed.

#[local] Hint Resolve update_intent_status_keeps failure_keeps failed_fill_keeps : keeps.

Lemma process_nil_event lat ev (e : Env CoreDb) :
  ev_seller_account_id ev = nil_uuid → no_nil_account (env_db e) →
  settled_tables (env_db (snd (Worker.process_event (E := unit) lat (Some ev) e))) =
  settled_tables (env_db e).
Proof.
  intros Hseller Hn. unfold Worker.process_event. rewrite Hseller.
  destruct (Worker.parse_asset (ev_token_in ev)) as [ain|],
    (Worker.parse_asset (ev_token_out ev)) as [aout|]; try done.
  unfold bind at 1, attempt at 1.
  destruct (Engine.settle_fill _ _ _ _ _ _ _ e) as [[u|x] e1] eqn:Hs.
  { by apply settle_to_nil_fails in Hs. }
  apply settle_fill_rolls_back in Hs. rewrite <- Hs.
  assert (∀ m : M CoreDb unit unit, keeps settled_tables m →
    settled_tables (env_db (snd (m e1))) = settled_tables (env_db e1)) as Hk by (intros m Hm; apply Hm).
  destruct x; apply Hk; keeps.
Qed.

(** What [execute_fill] appends to the stream: nothing but settlement requests
    with the nil seller. *)
Lemma execute_fill_requests i iid buyer f e :
  ∃ evs, stream_bus (env_db (snd (ExecutionEngine.execute_fill i iid buyer f e))) =
      stream_bus (env_db e) ++ map StreamExecutionCompleted evs ∧
    (∀ ev, ev ∈ evs → ev_seller_account_id ev = nil_uuid) ∧ (length evs ≤ 1)%nat.
Proof.
  unfold ExecutionEngine.execute_fill, Execution_new, Storage.insert_execution,
    Storage.update_execution, EventBus.publish, StreamBus.publish, bind, attempt, map_err, exec, stmt,
    new_v4, now, ret, faulty.
  destruct e as [d fl u n t]. simpl.
  destruct fl as [|[] [|[] [|[] [|[] [|[] fl]]]]]; simpl;
    first [by exists []; rewrite app_nil_r; split_and!; [done|intros ? ?%not_elem_of_nil|simpl; lia]
          | eexists [_]; simpl; split_and!; [done|intros ? ->%list_elem_of_singleton; done|lia]].
Qed.

Lemma get_fills_keeps {E} iid : keeps stream_bus (Storage.get_fills (E := E) iid).
Proof. unfold Storage.get_fills. keeps. Qed.
Lemma get_intent_keeps {E} iid : keeps stream_bus (Storage.get_intent (E := E) iid).
Proof. unfold Storage.get_intent. keeps. Qed.
Lemma resolve_account_keeps {E} u : keeps stream_bus (ExecutionEngine.resolve_account (E := E) u).
Proof. unfold ExecutionEngine.resolve_account. keeps. Qed.

Definition set_executing (o : option Intent) : M CoreDb unit RedisError :=
  match o with
  | Some i => attempt (Storage.update_intent (Engine.with_status IExecuting i)) ;;; ret tt
  | None => ret tt
  end.
Lemma set_executing_keeps o : keeps stream_bus (set_executing o).
Proof. unfold set_executing, Storage.update_intent. keeps. Qed.

Lemma mfor_requests i iid buyer fs e ev :
  StreamExecutionCompleted ev ∈
    stream_bus (env_db (snd (mfor fs (ExecutionEngine.execute_fill i iid buyer) e))) →
  StreamExecutionCompleted ev ∈ stream_bus (env_db e) ∨ ev_seller_account_id ev = nil_uuid.
Proof.
  revert e. induction fs as [|f fs IH]; intros e; simpl; [by left|].
  destruct (execute_fill_requests i iid buyer f e) as (evs & Hs & Hnil & _).
  unfold bind. destruct (ExecutionEngine.execute_fill i iid buyer f e) as [[u|x] e1]; simpl in Hs.
  - intros [Hin|Hin]%IH; [|by right]. rewrite Hs in Hin.
    apply elem_of_app in Hin as [Hin|Hin]; [by left|]. right.
    apply list_elem_of_In, in_map_iff in Hin as (ev' & [= ->] & Hin). apply Hnil. by apply list_elem_of_In.
  - simpl. rewrite Hs. intros [Hin|Hin]%elem_of_app; [by left|]. right.
    apply list_elem_of_In, in_map_iff in Hin as (ev' & [= ->] & Hin). apply Hnil. by apply list_elem_of_In.
Qed.

Lemma execute_fills_requests iid e ev :
  StreamExecutionCompleted ev ∈ stream_bus (env_db (snd (ExecutionEngine.execute_fills iid e))) →
  StreamExecutionCompleted ev ∉ stream_bus (env_db e) → ev_seller_account_id ev = nil_uuid.
Proof.
  intros Hin Hout. unfold ExecutionEngine.execute_fills in Hin.
  unfold bind at 1 in Hin.
  pose proof (get_fills_keeps (E := RedisError) iid e) as K1.
  destruct (Storage.get_fills iid e) as [[fs|x] e1]; simpl in *; [|by rewrite K1 in Hin].
  destruct fs as [|f fs]; [by rewrite <- K1 in Hout|].
  unfold bind at 1 in Hin. pose proof (get_intent_keeps (E := RedisError) iid e1) as K2.
  destruct (Storage.get_intent iid e1) as [[o|x] e2]; simpl in *; [|congruence].
  destruct o as [i|]; [|simpl in Hin; congruence].
  unfold bind at 1 in Hin. pose proof (resolve_account_keeps (E := RedisError) (i_user_id i) e2) as K3.
  destruct (ExecutionEngine.resolve_account _ e2) as [[buyer|x] e3]; simpl in *; [|congruence].
  unfold bind at 1 in Hin. pose proof (get_intent_keeps (E := RedisError) iid e3) as K4.
  destruct (Storage.get_intent iid e3) as [[o2|x] e4]; simpl in *; [|congruence].
  unfold bind at 1 in Hin. pose proof (set_executing_keeps o2 e4) as K5.
  destruct (set_executing o2 e4) as [[u|x] e5] eqn:E5; unfold set_executing in E5; rewrite E5 in Hin;
    simpl in *; [|congruence].
  apply (mfor_requests i iid buyer (f :: fs)) in Hin as [Hin|Hin]; [|done]. exfalso. apply Hout. congruence.
Qed.

(** Every settlement that the execution engine asks for names the nil
    account as the seller.  No account has that id, and the worker that
    handles such a request, however it is run and whatever fails, settles
    nothing: no balance, ledger entry or fill changes, then or at any later
    delivery. *)
Theorem executions_never_settle iid e lat ev d2 :
  StreamExecutionCompleted ev ∈ stream_bus (env_db (snd (ExecutionEngine.execute_fills iid e))) →
  StreamExecutionCompleted ev ∉ stream_bus (env_db e) →
  no_nil_account (env_db d2) →
  settled_tables (env_db (snd (Worker.process_event (E := unit) lat (Some ev) d2))) =
  settled_tables (env_db d2).
Proof.
  intros Hin Hout Hn. apply process_nil_event; [|done]. by eapply execute_fills_requests.
Qed.
End execution.

(** ** Expiry *)

Section expiry.
Context `{UuidText}.
Import IntentExpiry.

(** What [unlock] does, without failures, to balances in good order. *)
Lemma unlock_run acc a n t d u k t0 :
  balances_inv (balances d) → (0 ≤ n)%Z →
  ∃ bs, unlock acc a n t (mkEnv d [] u k t0) = (Ok tt, mkEnv (set_balances bs d) [] u k t0) ∧
    posts (if (n <=? locked (balances d) (acc, a))%Z
           then row_posting (acc, a) n (- n) (balances d) else []) (balances d) bs.
Proof.
  intros Hinv Hn. unfold unlock, stmt, faulty. simpl. pose proof Hinv as [Hwf Hsol Hsup].
  set (sel := λ r, is_row acc a r && (n <=? b_locked_balance r)%Z).
  assert (∀ r, sel r = true → b_key r = (acc, a) ∧ (n ≤ b_locked_balance r)%Z) as Hsel.
  { intros r [Hr Hle]%andb_true_iff. apply (is_row_true (acc, a)) in Hr. split; [done|lia]. }
  destruct (sql_try_update_total sel (add_to_row n (- n) t) (balances d)) as [bs Hbs].
  { intros r Hr [Hk Hle]%Hsel. pose proof (balance_in_i64 _ (acc, a) Hinv) as Hb.
    pose proof (available_row _ _ Hwf Hr) as Ha. pose proof (locked_row _ _ Hwf Hr) as Hl.
    rewrite Hk in Ha, Hl. pose proof (Hsol r Hr). unfold add_to_row, bigint, in_i64b.
    rewrite (proj2 (andb_true_iff _ _)) by (unfold i64_min, i64_max in *; lia). simpl.
    rewrite (proj2 (andb_true_iff _ _)) by (unfold i64_min, i64_max in *; lia). simpl. eauto. }
  rewrite Hbs. simpl. exists bs. split; [done|].
  destruct (Z.leb_spec n (locked (balances d) (acc, a))) as [Hle|Hgt].
  - unfold row_posting. destruct (find_row _ _ _) as [b|] eqn:E.
    + pose proof E as [Hb Hk]%(find_row_Some (acc, a)).
      eapply posts_add_to_row; [exact Hbs|by intros r [? _]%Hsel|done|done|].
      unfold sel. apply andb_true_iff. split; [by apply (is_row_true (acc, a))|].
      rewrite <- Hk, (locked_row _ _ Hwf Hb) in Hle. lia.
    + apply try_update_none in Hbs as ->; [apply posts_nil|]. intros r Hr.
      unfold sel. pose proof (sql_one_None _ _ _ E Hr) as Hn0. simpl in Hn0. by rewrite Hn0.
  - apply try_update_none in Hbs as ->; [apply posts_nil|]. intros r Hr.
    destruct (sel r) eqn:E; [|done]. apply Hsel in E as [Hk Hl].
    rewrite <- Hk, (locked_row _ _ Hwf Hr) in Hgt. lia.
Qed.

(** The account an intent's funds are released to. *)
Definition owner (i : Intent) (d : CoreDb) : option Uuid :=
  ExecutionEngine.account_where (λ u,
    String.eqb (uuid_text (u_id u)) (i_user_id i) || String.eqb (u_email u) (i_user_id i)) d.

Lemma expired_not_again i d e :
  env_db e = d → (∀ r, sql_one (λ r, (i_id r =? i_id i)%N) (intents d) = Some r →
    is_expirable (i_status r) = false) →
  env_db (snd (expire_intent i e)) = d.
Proof.
  intros <- Hr. unfold expire_intent, expire_tx, transaction, bind, attempt, map_err, query, exec, stmt.
  destruct (faulty e); [done|]. simpl. destruct (faulty _); [done|]. simpl.
  destruct (sql_one _ _) as [r|] eqn:E; simpl; [|done].
  rewrite (Hr r eq_refl). simpl. done.
Qed.

(** Expiring an intent that is still open or bidding, without failures:
    it becomes expired, the amount it was read with goes back from locked to
    available of its owner's account when that much is locked (otherwise no
    balance moves), and its expiry is announced; a second expiry of the same
    intent, at any time and whatever fails, changes nothing. *)
Theorem expiry_releases_once i cur acc a e :
  env_faults e = [] → balances_inv (balances (env_db e)) → (0 ≤ i_amount_in i)%Z →
  sql_one (λ r, (i_id r =? i_id i)%N) (intents (env_db e)) = Some cur →
  is_expirable (i_status cur) = true →
  owner i (env_db e) = Some acc → Worker.parse_asset (i_token_in i) = Some a →
  let d := env_db e in
  let d' := env_db (snd (expire_intent i e)) in
  intents d' = sql_update (λ r, (i_id r =? i_id i)%N) (Engine.with_status IExpired) (intents d) ∧
  posts (if (i_amount_in i <=? locked (balances d) (acc, a))%Z
         then row_posting (acc, a) (i_amount_in i) (- i_amount_in i) (balances d) else [])
    (balances d) (balances d') ∧
  ledger_entries d' = ledger_entries d ∧
  event_bus d' = event_bus d ++ [IntentExpired (Engine.with_status IExpired i)] ∧
  stream_bus d' = stream_bus d ++ [StreamIntentSettled (mkIntentSettledEvent (i_id i) 0 "Expired")] ∧
  ∀ e2, env_db e2 = d' → env_db (snd (expire_intent i e2)) = d'.
Proof.
  intros Hf Hinv Hn Hcur Hst Hown Has. cbv zeta. destruct e as [d fl u k t]. simpl in *. subst fl.
  set (upd := sql_update (λ r, (i_id r =? i_id i)%N) (Engine.with_status IExpired) (intents d)).
  destruct (unlock_run acc a (i_amount_in i) t (set_intents upd d) u k t Hinv Hn) as (bs & Hrun & Hp).
  set (d' := set_stream_bus (stream_bus d ++ [StreamIntentSettled (mkIntentSettledEvent (i_id i) 0 "Expired")])
    (set_event_bus (event_bus d ++ [IntentExpired (Engine.with_status IExpired i)])
      (set_balances bs (set_intents upd d)))).
  pose proof (Hown : owner i (set_intents upd d) = Some acc) as Hown'. unfold owner in Hown'.
  assert (env_db (snd (expire_intent i (mkEnv d [] u k t))) = d') as Hd'.
  { unfold expire_intent, expire_tx, transaction, bind, attempt, map_err, query, exec, stmt. simpl.
    rewrite Hcur. simpl. rewrite Hst. simpl. unfold faulty. simpl.
    fold upd. rewrite Hown'. rewrite Has. unfold with_db, pop_fault. simpl. rewrite Hrun. simpl. done. }
  rewrite Hd'. split_and!; try done. intros e2 He2. apply expired_not_again; [done|].
  intros r. unfold d', upd. simpl. unfold sql_update. rewrite sql_one_map, Hcur.
  - simpl. apply sql_one_Some in Hcur as [_ ->]. by intros [= <-].
  - intros r'. by destruct (i_id r' =? i_id i)%N eqn:E; simpl; rewrite ?E.
Qed.
End expiry.

(** ** Stop orders *)

Section stops.
Import StopOrderMonitor.

Lemma sql_update_none {R} (p : R → bool) f t : rows_affected p t = 0%nat → sql_update p f t = t.
Proof.
  unfold rows_affected, sql_select, sql_update. induction t as [|r t IH]; [done|]. simpl.
  destruct (p r); [done|]. intros H. by rewrite IH.
Qed.

Lemma set_intents_id d : set_intents (intents d) d = d.
Proof. by destruct d. Qed.

Lemma activated_all id ty t its :
  rows_affected (untriggered id) (sql_update (untriggered id) (activated ty t) its) = 0%nat.
Proof.
  unfold rows_affected, sql_select, sql_update. induction its as [|r its IH]; [done|]. simpl.
  destruct (untriggered id r) eqn:E.
  - unfold untriggered at 1. simpl. rewrite andb_false_r. done.
  - by rewrite E.
Qed.

(** Checking an order nothing is left to trigger of changes nothing. *)
Lemma check_stop_idle i e :
  rows_affected (untriggered (i_id i)) (intents (env_db e)) = 0%nat →
  env_db (snd (check_stop_order i e)) = env_db e.
Proof.
  intros H. unfold check_stop_order, bind, query, stmt, now. destruct (faulty e); [done|]. simpl.
  destruct (market_price _ _ _); [|done]. simpl. destruct (negb _); [done|].
  destruct (faulty _); [done|]. simpl. rewrite H. simpl. by rewrite sql_update_none, set_intents_id.
Qed.

(** A stop order is triggered exactly when the market's price has crossed
    its stop price on its side, and at most once: its row becomes an open
    order at the market, or at its limit, stamped with the time, and the two
    events that start its auction are published; checking it again, by the
    same or another instance that still holds the old order, at any time and
    whatever fails, changes and publishes nothing. *)
Theorem stop_triggers_once i e :
  env_faults e = [] →
  let d := env_db e in
  let d' := env_db (snd (check_stop_order i e)) in
  let crossed := match market_price (i_token_in i) (i_token_out i) d with
    | Some p => is_triggered (default "sell"%string (i_stop_side i)) p (default 0%Z (i_stop_price i))
    | None => false
    end in
  let ty := match i_limit_price i with Some _ => Limit | None => Market end in
  let i' := activated ty (env_now e) i in
  if crossed && negb (rows_affected (untriggered (i_id i)) (intents d) =? 0)%nat then
    d' = set_event_bus (event_bus d ++ [StopTriggered i'; IntentCreated i'])
           (set_intents (sql_update (untriggered (i_id i)) (activated ty (env_now e)) (intents d)) d) ∧
    ∀ e2, env_db e2 = d' → env_db (snd (check_stop_order i e2)) = d'
  else d' = d.
Proof.
  intros Hf. cbv zeta.
  destruct (rows_affected (untriggered (i_id i)) (intents (env_db e)) =? 0)%nat eqn:Hn.
  { rewrite andb_false_r. apply check_stop_idle. by apply Nat.eqb_eq. }
  rewrite andb_true_r. destruct e as [d fl u k t]. simpl in *. subst fl.
  set (ty := match i_limit_price i with Some _ => Limit | None => Market end).
  set (target := set_event_bus _ _).
  assert (env_db (snd (check_stop_order i (mkEnv d [] u k t))) =
    if match market_price (i_token_in i) (i_token_out i) d with
       | Some p => is_triggered (default "sell"%string (i_stop_side i)) p (default 0%Z (i_stop_price i))
       | None => false
       end then target else d) as Hrun.
  { unfold check_stop_order, bind, query, stmt, attempt, EventBus.publish, map_err, exec, now, faulty.
    simpl. destruct (market_price _ _ _) as [p|]; [|done]. simpl.
    destruct (is_triggered _ _ _); [|done]. simpl. rewrite Hn. simpl.
    unfold stmt, faulty. simpl. unfold target, set_event_bus, set_intents. simpl.
    by rewrite <- app_assoc. }
  rewrite Hrun. destruct (match market_price _ _ _ with Some _ => _ | None => _ end); [|done].
  split; [done|]. intros e2 He2. rewrite <- He2. apply check_stop_idle. rewrite He2.
  apply activated_all.
Qed.
End stops.

(** ** A concrete day at work *)

Section witnesses.
#[local] Existing Instances DecimalUuid.instance.

Definition matched_intent : Intent :=
  mkIntent 60 "1" "USDC" "ETH" 100 0 40 IMatched 0 Market None None None None "ethereum" "ethereum" false.
Definition open_intent : Intent := Engine.with_status IOpen matched_intent.
Definition stop_intent : Intent :=
  mkIntent 61 "1" "ETH" "USDC" 5 0 40 IOpen 0 Stop (Some 90%Z) (Some 100%Z) None None "ethereum"
    "ethereum" false.
Definition work_db : CoreDb :=
  set_users [mkUser 1 "a@x" "" 0 0; mkUser 2 "b@x" "" 0 0]
    (set_fills [mkFill 50 60 "s" 1 100 100 "" 0 false None]
      (set_market_prices [mkMarketPrice 1 95 "binance" 3]
        (set_markets [mkMarket 1 ETH USDC 1 1 (f64_lit 1 100) "ethereum" None None None 18 6 0]
          (set_intents [open_intent; stop_intent] sample_db)))).
Definition work_env : Env CoreDb := mkEnv work_db [] (λ n, 1000 + N.of_nat n)%N 0 50.

Lemma stop_triggers_once_witness :
  event_bus (env_db (snd (StopOrderMonitor.check_stop_order stop_intent work_env))) =
    [StopTriggered (StopOrderMonitor.activated Limit 50 stop_intent);
     IntentCreated (StopOrderMonitor.activated Limit 50 stop_intent)].
Proof.
  pose proof (stop_triggers_once stop_intent work_env eq_refl) as H. cbv zeta in H.
  match type of H with if ?b then _ else _ =>
    replace b with true in H by (vm_compute; reflexivity) end.
  destruct H as [H _]. rewrite H. reflexivity.
Defined.

Lemma expiry_releases_once_witness :
  let d' := env_db (snd (IntentExpiry.expire_intent open_intent work_env)) in
  locked (balances d') (alice, USDC) = 0%Z.
Proof.
  destruct (expiry_releases_once open_intent open_intent alice USDC work_env) as (_ & Hp & _).
  - reflexivity.
  - apply sample_inv.
  - vm_compute. discriminate.
  - vm_compute. reflexivity.
  - reflexivity.
  - vm_compute. reflexivity.
  - vm_compute. reflexivity.
  - cbv zeta. rewrite (posts_locked _ _ _ Hp); [vm_compute; reflexivity|apply sample_inv].
Defined.

#[local] Instance bigints : NumericDecode := {| numeric_as_i64 := Some |}.
#[local] Instance texts : SqlxDisplay := {| sqlx_text := λ _, "error" |}.
Definition request : ExecutionCompletedEvent :=
  mkExecutionCompletedEvent 1001 50 60 "s" alice nil_uuid "USDC" "ETH" (f64_lit 1 1000).

Lemma executions_never_settle_witness :
  settled_tables (env_db (snd (Worker.process_event (E := unit) 5 (Some request) work_env))) =
  settled_tables work_db.
Proof.
  apply (executions_never_settle 60 work_env).
  - assert (stream_bus (env_db (snd (ExecutionEngine.execute_fills 60 work_env))) =
      [StreamExecutionCompleted request]) as Hs by (vm_compute; reflexivity).
    rewrite Hs. left.
  - intros Hin. by apply not_elem_of_nil in Hin.
  - split; intros x Hx.
    + apply (elem_of_forallb (λ a, negb (a_id a =? nil_uuid)%N)) in Hx; [|reflexivity].
      by apply negb_true_iff, N.eqb_neq in Hx.
    + apply (elem_of_forallb (λ b, negb (b_account_id b =? nil_uuid)%N)) in Hx; [|reflexivity].
      by apply negb_true_iff, N.eqb_neq in Hx.
Defined.
End witnesses.
