(* ===== verification/Solana.v ===== *)
(** * The chain the on-chain programs run on

    What [src/programs] uses of Solana, of the SPL token program and of
    Anchor: an interface.  Its laws are the documented behaviour of token
    transfers, token accounts and program-derived addresses; [Toy] is an
    instance that satisfies them. *)
From stdpp Require Import gmap.
From S2P Require Import Prelude.

(** A public key is its bytes; [Pubkey::default()] is 32 zeros. *)
Abbreviation Pubkey := (list Z) (only parsing).
Definition default_key : Pubkey := replicate 32 0%Z.

(** What a transfer of [n] from [f] to [t] adds to the account [k]. *)
Definition transfer_effect (f t : Pubkey) (n : Z) (k : Pubkey) : Z :=
  ((if bool_decide (k = t) then n else 0) - (if bool_decide (k = f) then n else 0))%Z.

Class Solana := {
  (** Token accounts: owner, mint and amount; [None] is no token account. *)
  Tokens : Type;
  ta_owner : Tokens → Pubkey → option Pubkey;
  ta_mint : Tokens → Pubkey → option Pubkey;
  ta_amount : Tokens → Pubkey → Z;
  (** the account is a mint *)
  is_mint : Tokens → Pubkey → bool;
  (** [token::transfer] with the authority's signature *)
  token_transfer : Pubkey → Pubkey → Pubkey → Z → Tokens → option Tokens;
  (** creating and initialising a token account *)
  token_create : Pubkey → Pubkey → Pubkey → Tokens → option Tokens;
  (** addresses derived from seeds *)
  create_program_address : list (list Z) → Z → option Pubkey;
  find_program_address : list (list Z) → Pubkey * Z;

  transfer_authority f t a n s s' :
    token_transfer f t a n s = Some s' → ta_owner s f = Some a;
  transfer_same_mint f t a n s s' :
    token_transfer f t a n s = Some s' → ta_mint s f = ta_mint s t;
  transfer_funded f t a n s s' : token_transfer f t a n s = Some s' → (n ≤ ta_amount s f)%Z;
  transfer_amount f t a n s s' k : token_transfer f t a n s = Some s' →
    ta_amount s' k = (ta_amount s k + transfer_effect f t n k)%Z;
  transfer_owner f t a n s s' k : token_transfer f t a n s = Some s' → ta_owner s' k = ta_owner s k;
  transfer_mint f t a n s s' k : token_transfer f t a n s = Some s' → ta_mint s' k = ta_mint s k;
  transfer_succeeds f t a n s m : ta_owner s f = Some a → ta_mint s f = Some m →
    ta_mint s t = Some m → (0 ≤ n ≤ ta_amount s f)%Z → (ta_amount s t + n ≤ u64_max)%Z →
    is_Some (token_transfer f t a n s);

  create_new k m o s s' : token_create k m o s = Some s' →
    ta_owner s k = None ∧ ta_owner s' k = Some o ∧ ta_mint s' k = Some m ∧ ta_amount s' k = 0%Z;
  create_other k m o s s' k' : token_create k m o s = Some s' → k' ≠ k →
    ta_owner s' k' = ta_owner s k' ∧ ta_mint s' k' = ta_mint s k' ∧ ta_amount s' k' = ta_amount s k';

  find_create seeds :
    create_program_address seeds (snd (find_program_address seeds)) =
      Some (fst (find_program_address seeds));
}.

(** What Anchor and the runtime report, beside a program's own errors. *)
Inductive ProgramError (E : Type) :=
| Custom (e : E)
| AccountAlreadyInUse
| AccountNotInitialized
| ConstraintSeeds
| ConstraintRaw
| ConstraintHasOne
| TokenError.
Arguments Custom {E} e.
Arguments AccountAlreadyInUse {E}.
Arguments AccountNotInitialized {E}.
Arguments ConstraintSeeds {E}.
Arguments ConstraintRaw {E}.
Arguments ConstraintHasOne {E}.
Arguments TokenError {E}.

(** [require!] and [?] *)
Definition ensure {A E} (b : bool) (x : E) (k : result A E) : result A E :=
  if b then k else Err x.
Definition unwrap {A B E} (o : option A) (x : E) (k : A → result B E) : result B E :=
  match o with Some a => k a | None => Err x end.

Lemma ensure_Ok {A E} b (x : E) (k : result A E) a : ensure b x k = Ok a ↔ b = true ∧ k = Ok a.
Proof. unfold ensure. destruct b; naive_solver. Qed.
Lemma unwrap_Ok {A B E} (o : option A) (x : E) (k : A → result B E) b :
  unwrap o x k = Ok b ↔ ∃ a, o = Some a ∧ k a = Ok b.
Proof. unfold unwrap. destruct o; naive_solver. Qed.

(** Takes an accepted instruction apart, check by check. *)
Ltac instr_inv :=
  repeat match goal with
  | H : ensure _ _ _ = Ok _ |- _ => let H1 := fresh "Hc" in apply ensure_Ok in H as [H1 H]
  | H : unwrap _ _ _ = Ok _ |- _ =>
      let a := fresh "a" in let H1 := fresh "Ha" in apply unwrap_Ok in H as (a & H1 & H)
  | H : Ok _ = Ok _ |- _ => injection H as H
  end.

(** ** A concrete chain *)

Module Toy.

Record Account := mkAccount { owner : Pubkey; mint : Pubkey; amount : Z }.

Definition transfer (f t a : Pubkey) (n : Z) (s : gmap Pubkey Account)
  : option (gmap Pubkey Account) :=
  match s !! f, s !! t with
  | Some x, Some y =>
      if bool_decide (owner x = a) && bool_decide (mint x = mint y) &&
         (0 <=? n)%Z && (n <=? amount x)%Z && (amount y + n <=? u64_max)%Z
      then
        if bool_decide (f = t) then Some s else
        Some (<[t := mkAccount (owner y) (mint y) (amount y + n)]>
               (<[f := mkAccount (owner x) (mint x) (amount x - n)]> s))
      else None
  | _, _ => None
  end.

Definition create (k m o : Pubkey) (s : gmap Pubkey Account) : option (gmap Pubkey Account) :=
  match s !! k with Some _ => None | None => Some (<[k := mkAccount o m 0]> s) end.

Definition address (seeds : list (list Z)) (bump : Z) : Pubkey := concat seeds ++ [bump].
Definition get {A} (g : Account → A) (s : gmap Pubkey Account) (k : Pubkey) : option A := g <$> s !! k.
Definition amounts (s : gmap Pubkey Account) (k : Pubkey) : Z := default 0%Z (get amount s k).

Lemma transfer_Some f t a n s s' :
  transfer f t a n s = Some s' →
  ∃ x y, s !! f = Some x ∧ s !! t = Some y ∧ owner x = a ∧ mint x = mint y ∧ (n ≤ amount x)%Z ∧
    (f = t ∧ s' = s ∨ f ≠ t ∧
     s' = <[t := mkAccount (owner y) (mint y) (amount y + n)]>
            (<[f := mkAccount (owner x) (mint x) (amount x - n)]> s)).
Proof.
  unfold transfer. intros H. destruct (s !! f) as [x|] eqn:Ef; [|done].
  destruct (s !! t) as [y|] eqn:Et; [|done].
  destruct (_ && _) eqn:Hc in H; [|done]. rewrite !andb_true_iff, !bool_decide_eq_true, !Z.leb_le in Hc.
  destruct Hc as [[[[Ho Hm] Hn] Ha] Hu]. exists x, y. split_and!; try done.
  case_bool_decide; injection H as <-; [by left|by right].
Qed.

Lemma transfer_get {A} (g : Account → A) f t a n s s' k :
  (∀ x, g x = g (mkAccount (owner x) (mint x) 0)) →
  transfer f t a n s = Some s' → get g s' k = get g s k.
Proof.
  intros Hg (x & y & Ef & Et & _ & _ & _ & [[_ ->]|[_ ->]])%transfer_Some; [done|]. unfold get.
  destruct (decide (k = t)) as [->|]; [rewrite lookup_insert_eq, Et; simpl; f_equal|].
  { by rewrite (Hg y), (Hg (mkAccount _ _ _)). }
  rewrite lookup_insert_ne by done.
  destruct (decide (k = f)) as [->|]; [rewrite lookup_insert_eq, Ef; simpl; f_equal|].
  - by rewrite (Hg x), (Hg (mkAccount _ _ _)).
  - by rewrite lookup_insert_ne.
Qed.

Lemma transfer_amounts f t a n s s' k :
  transfer f t a n s = Some s' → amounts s' k = (amounts s k + transfer_effect f t n k)%Z.
Proof.
  intros (x & y & Ef & Et & _ & _ & _ & [[-> ->]|[Hne ->]])%transfer_Some; unfold transfer_effect.
  { case_bool_decide; lia. }
  unfold amounts, get. repeat case_bool_decide; subst; try done.
  - rewrite lookup_insert_eq, Et. simpl. lia.
  - rewrite lookup_insert_ne, lookup_insert_eq, Ef by done. simpl. lia.
  - rewrite !lookup_insert_ne by done. lia.
Qed.

Lemma transfer_ok f t a n s m :
  get owner s f = Some a → get mint s f = Some m → get mint s t = Some m →
  (0 ≤ n ≤ amounts s f)%Z → (amounts s t + n ≤ u64_max)%Z → is_Some (transfer f t a n s).
Proof.
  unfold amounts, get, transfer. destruct (s !! f) as [x|]; [|done]. destruct (s !! t) as [y|]; [|done].
  simpl. intros [= <-] [= <-] [= ->] Hn Hu. rewrite !bool_decide_eq_true_2 by done. simpl.
  replace (0 <=? n)%Z with true by lia. replace (n <=? amount x)%Z with true by lia.
  replace (amount y + n <=? u64_max)%Z with true by lia. simpl. case_bool_decide; eauto.
Qed.

Lemma create_get k m o s s' : create k m o s = Some s' →
  s !! k = None ∧ s' = <[k := mkAccount o m 0]> s.
Proof. unfold create. destruct (s !! k); [done|]. by intros [= <-]. Qed.

#[refine] Definition instance : Solana := {|
  Tokens := gmap Pubkey Account; ta_owner := get owner; ta_mint := get mint; ta_amount := amounts;
  is_mint _ _ := true;
  token_transfer := transfer; token_create := create;
  create_program_address seeds bump := Some (address seeds bump);
  find_program_address seeds := (address seeds 255, 255%Z);
|}.
Proof.
  - intros f t a n s s' (x & y & Ef & _ & <- & _)%transfer_Some. unfold get. by rewrite Ef.
  - intros f t a n s s' (x & y & Ef & Et & _ & Hm & _)%transfer_Some. unfold get.
    rewrite Ef, Et. simpl. by rewrite Hm.
  - intros f t a n s s' (x & y & Ef & _ & _ & _ & Hn & _)%transfer_Some. unfold amounts, get.
    by rewrite Ef.
  - intros. by apply (transfer_amounts f t a).
  - intros f t a n s s' k H. by apply (transfer_get owner f t a n s s' k).
  - intros f t a n s s' k H. by apply (transfer_get mint f t a n s s' k).
  - apply transfer_ok.
  - intros k m o s s' [Hk ->]%create_get. unfold get, amounts, get.
    by rewrite Hk, lookup_insert_eq.
  - intros k m o s s' k' [Hk ->]%create_get Hne. unfold get, amounts, get.
    by rewrite lookup_insert_ne.
  - done.
Defined.
End Toy.
