(* ===== verification/HtlcProgram.v ===== *)
(** * The on-chain HTLC: [src/programs/intentx-htlc/src/lib.rs]

    Tokens locked under the SHA-256 hash of a secret: whoever shows the secret
    has them paid to the receiver, and after the timelock the sender can take
    them back. *)
From stdpp Require Import gmap.
From S2P Require Import Prelude Solana.

Module HtlcProgram.

Inductive HtlcError :=
| ZeroAmount
| TimelockInPast
| InvalidSecret
| AlreadyClaimed
| AlreadyRefunded
| TimelockNotExpired
| WrongReceiver.

Record Htlc := mkHtlc {
  sender : Pubkey;
  receiver : Pubkey;
  mint : Pubkey;
  hashlock : list Z;
  timelock : Z;
  amount : Z;
  claimed : bool;
  refunded : bool;
  bump : Z;
  escrow_bump : Z;
}.

Inductive HtlcEvent :=
| FundsLocked (htlc sender receiver mint : Pubkey) (hashlock : list Z) (timelock amount : Z)
| FundsClaimed (htlc receiver : Pubkey) (secret : list Z) (amount : Z)
| FundsRefunded (htlc sender : Pubkey) (amount : Z).

(** The bytes of "htlc" and of "escrow". *)
Definition HTLC_SEED : list Z := [104; 116; 108; 99]%Z.
Definition ESCROW_SEED : list Z := [101; 115; 99; 114; 111; 119]%Z.

Section program.
Context `{Solana} (sha256 : list Z → list Z).

(** The accounts of the program, the token accounts, and the events. *)
Record State := mkState {
  htlcs : gmap Pubkey Htlc;
  tokens : Tokens;
  events : list HtlcEvent;
}.

Definition Result : Type := result State (ProgramError HtlcError).

(** The accounts an instruction names; [Signer]s have signed. *)
Record LockFunds := mkLockFunds {
  lf_sender : Pubkey;
  lf_receiver : Pubkey;
  lf_mint : Pubkey;
  lf_sender_token_account : Pubkey;
}.
Record Claim := mkClaim {
  cl_htlc : Pubkey;
  cl_escrow_token_account : Pubkey;
  cl_receiver_token_account : Pubkey;
}.
Record Refund := mkRefund {
  rf_htlc : Pubkey;
  rf_sender : Pubkey;
  rf_escrow_token_account : Pubkey;
  rf_sender_token_account : Pubkey;
}.

Definition key_eqb (a b : list Z) : bool := bool_decide (a = b).
Definition owned_by (s : Tokens) (k o : Pubkey) : bool := bool_decide (ta_owner s k = Some o).
Definition has_mint (s : Tokens) (k m : Pubkey) : bool := bool_decide (ta_mint s k = Some m).
Definition has_address (seeds : list (list Z)) (bump : Z) (k : Pubkey) : bool :=
  bool_decide (create_program_address seeds bump = Some k).

Definition lock_funds (ctx : LockFunds) (hashlock : list Z) (timelock amount now : Z) (s : State)
  : Result :=
  let '(htlc_key, htlc_bump) := find_program_address [HTLC_SEED; hashlock] in
  let '(escrow_key, escrow_bump) := find_program_address [ESCROW_SEED; hashlock] in
  ensure (negb (bool_decide (is_Some (htlcs s !! htlc_key)))) AccountAlreadyInUse (
  unwrap (token_create escrow_key (lf_mint ctx) escrow_key (tokens s)) AccountAlreadyInUse (λ tk,
  ensure (owned_by tk (lf_sender_token_account ctx) (lf_sender ctx)) ConstraintRaw (
  ensure (has_mint tk (lf_sender_token_account ctx) (lf_mint ctx)) ConstraintRaw (
  ensure (0 <? amount)%Z (Custom ZeroAmount) (
  ensure (now <? timelock)%Z (Custom TimelockInPast) (
  unwrap (token_transfer (lf_sender_token_account ctx) escrow_key (lf_sender ctx) amount tk)
    TokenError (λ tk,
  Ok (mkState
        (<[htlc_key := mkHtlc (lf_sender ctx) (lf_receiver ctx) (lf_mint ctx) hashlock timelock
                         amount false false htlc_bump escrow_bump]> (htlcs s))
        tk
        (events s ++ [FundsLocked htlc_key (lf_sender ctx) (lf_receiver ctx) (lf_mint ctx)
                        hashlock timelock amount]))))))))).

Definition with_claimed (h : Htlc) : Htlc :=
  mkHtlc (sender h) (receiver h) (mint h) (hashlock h) (timelock h) (amount h) true (refunded h)
    (bump h) (escrow_bump h).
Definition with_refunded (h : Htlc) : Htlc :=
  mkHtlc (sender h) (receiver h) (mint h) (hashlock h) (timelock h) (amount h) (claimed h) true
    (bump h) (escrow_bump h).

Definition claim (ctx : Claim) (secret : list Z) (s : State) : Result :=
  unwrap (htlcs s !! cl_htlc ctx) AccountNotInitialized (λ h,
  ensure (has_address [HTLC_SEED; hashlock h] (bump h) (cl_htlc ctx)) ConstraintSeeds (
  ensure (negb (claimed h)) (Custom AlreadyClaimed) (
  ensure (negb (refunded h)) (Custom AlreadyRefunded) (
  ensure (has_address [ESCROW_SEED; hashlock h] (escrow_bump h) (cl_escrow_token_account ctx))
    ConstraintSeeds (
  ensure (owned_by (tokens s) (cl_receiver_token_account ctx) (receiver h)) (Custom WrongReceiver) (
  ensure (has_mint (tokens s) (cl_receiver_token_account ctx) (mint h)) ConstraintRaw (
  ensure (key_eqb (sha256 secret) (hashlock h)) (Custom InvalidSecret) (
  unwrap (token_transfer (cl_escrow_token_account ctx) (cl_receiver_token_account ctx)
            (cl_escrow_token_account ctx) (amount h) (tokens s)) TokenError (λ tk,
  Ok (mkState (<[cl_htlc ctx := with_claimed h]> (htlcs s)) tk
        (events s ++ [FundsClaimed (cl_htlc ctx) (receiver h) secret (amount h)])))))))))))  .

Definition refund (ctx : Refund) (now : Z) (s : State) : Result :=
  unwrap (htlcs s !! rf_htlc ctx) AccountNotInitialized (λ h,
  ensure (has_address [HTLC_SEED; hashlock h] (bump h) (rf_htlc ctx)) ConstraintSeeds (
  ensure (key_eqb (sender h) (rf_sender ctx)) ConstraintHasOne (
  ensure (negb (claimed h)) (Custom AlreadyClaimed) (
  ensure (negb (refunded h)) (Custom AlreadyRefunded) (
  ensure (has_address [ESCROW_SEED; hashlock h] (escrow_bump h) (rf_escrow_token_account ctx))
    ConstraintSeeds (
  ensure (owned_by (tokens s) (rf_sender_token_account ctx) (rf_sender ctx)) ConstraintRaw (
  ensure (has_mint (tokens s) (rf_sender_token_account ctx) (mint h)) ConstraintRaw (
  ensure (timelock h <=? now)%Z (Custom TimelockNotExpired) (
  unwrap (token_transfer (rf_escrow_token_account ctx) (rf_sender_token_account ctx)
            (rf_escrow_token_account ctx) (amount h) (tokens s)) TokenError (λ tk,
  Ok (mkState (<[rf_htlc ctx := with_refunded h]> (htlcs s)) tk
        (events s ++ [FundsRefunded (rf_htlc ctx) (sender h) (amount h)])))))))))))).

End program.
End HtlcProgram.
