(* ===== verification/HtlcProgramCorrect.v ===== *)
(** * What the on-chain HTLC guarantees

    Over every history of locks, claims, refunds and foreign token movements:
    an unsettled HTLC is fully backed, is paid out exactly once and to the
    right party, and can always be paid out. *)
From stdpp Require Import gmap relations.
From S2P Require Import Prelude Solana HtlcProgram.
Import HtlcProgram.

Section safety.
Context `{Solana} (sha256 : list Z → list Z).

Definition htlc_of (hl : list Z) : Pubkey := fst (find_program_address [HTLC_SEED; hl]).
Definition escrow_of (hl : list Z) : Pubkey := fst (find_program_address [ESCROW_SEED; hl]).

(** Derived addresses do not collide. *)
Context (escrow_inj : ∀ h1 h2, escrow_of h1 = escrow_of h2 → h1 = h2).

(** An escrow address has no private key: it signs nothing but what the
    program signs for it, and only the program creates its account. *)
Definition is_escrow (k : Pubkey) : Prop := ∃ hl, k = escrow_of hl.

Inductive step : Z * State → Z * State → Prop :=
| step_lock ctx hl tl n now s s' : ¬ is_escrow (lf_sender ctx) →
    lock_funds ctx hl tl n now s = Ok s' → step (now, s) (now, s')
| step_claim ctx secret now s s' : claim sha256 ctx secret s = Ok s' → step (now, s) (now, s')
| step_refund ctx now s s' : refund ctx now s = Ok s' → step (now, s) (now, s')
| step_transfer f t a n now s tk : ¬ is_escrow a → (0 ≤ n)%Z →
    token_transfer f t a n (tokens s) = Some tk →
    step (now, s) (now, mkState (htlcs s) tk (events s))
| step_create k m o now s tk : ¬ is_escrow k → token_create k m o (tokens s) = Some tk →
    step (now, s) (now, mkState (htlcs s) tk (events s))
| step_tick now now' s : (now ≤ now')%Z → step (now, s) (now', s).

Definition unsettled (h : Htlc) : Prop := claimed h = false ∧ refunded h = false.

(** An HTLC and its escrow. *)
Record backed (tk : Tokens) (k : Pubkey) (h : Htlc) : Prop := {
  bk_key : k = htlc_of (hashlock h);
  bk_bump : bump h = snd (find_program_address [HTLC_SEED; hashlock h]);
  bk_escrow_bump : escrow_bump h = snd (find_program_address [ESCROW_SEED; hashlock h]);
  bk_owner : ta_owner tk (escrow_of (hashlock h)) = Some (escrow_of (hashlock h));
  bk_mint : ta_mint tk (escrow_of (hashlock h)) = Some (mint h);
  bk_amount : (0 < amount h)%Z;
  bk_flags : claimed h && refunded h = false;
  bk_funds : unsettled h → (amount h ≤ ta_amount tk (escrow_of (hashlock h)))%Z;
}.

Definition safe (s : State) : Prop := ∀ k h, htlcs s !! k = Some h → backed (tokens s) k h.

(** Moving tokens out of anything but the escrow of [h] keeps [h] backed. *)
Lemma backed_transfer f t a n tk tk' k h :
  token_transfer f t a n tk = Some tk' → (0 ≤ n)%Z → backed tk k h →
  (unsettled h → f ≠ escrow_of (hashlock h)) → backed tk' k h.
Proof.
  intros Ht Hn [] Hf. split; try done.
  - by rewrite (transfer_owner _ _ _ _ _ _ _ Ht).
  - by rewrite (transfer_mint _ _ _ _ _ _ _ Ht).
  - intros Hu. rewrite (transfer_amount _ _ _ _ _ _ _ Ht). unfold transfer_effect.
    rewrite (bool_decide_eq_false_2 (escrow_of _ = f)) by (intros E; by apply (Hf Hu)).
    specialize (bk_funds0 Hu). case_bool_decide; lia.
Qed.

Lemma backed_create kn m o tk tk' k h :
  token_create kn m o tk = Some tk' → backed tk k h → backed tk' k h.
Proof.
  intros Hc []. assert (escrow_of (hashlock h) ≠ kn) as Hne.
  { intros <-. by apply create_new in Hc as [? _]; simplify_eq. }
  destruct (create_other _ _ _ _ _ _ Hc Hne) as (Ho & Hm & Ha).
  split; rewrite ?Ho, ?Hm, ?Ha; done.
Qed.

(** Paying an HTLC out settles it and leaves the others backed. *)
Lemma safe_payout s k h h' dest tk evs :
  safe s → htlcs s !! k = Some h →
  token_transfer (escrow_of (hashlock h)) dest (escrow_of (hashlock h)) (amount h) (tokens s) = Some tk →
  (backed (tokens s) k h → backed (tokens s) k h') → ¬ unsettled h' → hashlock h' = hashlock h →
  safe (mkState (<[k := h']> (htlcs s)) tk evs).
Proof.
  intros Hs Hk Ht Hb Hu Hhl k2 h2. simpl. pose proof (bk_amount _ _ _ (Hs k h Hk)) as Hpos.
  destruct (decide (k2 = k)) as [->|Hne].
  - rewrite lookup_insert_eq. intros [= <-].
    eapply backed_transfer; [exact Ht|lia|by apply Hb, Hs|done].
  - rewrite lookup_insert_ne by done. intros Hk2.
    eapply backed_transfer; [exact Ht|lia|by apply Hs|].
    intros _ Heq. apply escrow_inj in Heq. apply Hne.
    rewrite (bk_key _ _ _ (Hs k2 h2 Hk2)), (bk_key _ _ _ (Hs k h Hk)). by rewrite Heq.
Qed.

Lemma safe_escrow_address s k h x :
  safe s → htlcs s !! k = Some h → has_address [ESCROW_SEED; hashlock h] (escrow_bump h) x = true →
  x = escrow_of (hashlock h).
Proof.
  intros Hs Hk Hx%bool_decide_eq_true. rewrite (bk_escrow_bump _ _ _ (Hs k h Hk)), find_create in Hx.
  by injection Hx.
Qed.

Lemma lock_safe ctx hl tl n now s s' :
  ¬ is_escrow (lf_sender ctx) → lock_funds ctx hl tl n now s = Ok s' → safe s → safe s'.
Proof.
  intros Hsig Hrun Hs. unfold lock_funds in Hrun.
  destruct (find_program_address [HTLC_SEED; hl]) as [hk hb] eqn:Eh.
  destruct (find_program_address [ESCROW_SEED; hl]) as [ek eb] eqn:Ee. instr_inv. subst s'.
  assert (ek = escrow_of hl) as -> by (unfold escrow_of; by rewrite Ee).
  match goal with H : token_create _ _ _ _ = Some ?x |- _ => rename H into Hcr, x into tk1 end.
  match goal with H : token_transfer _ _ _ _ _ = Some ?x |- _ => rename H into Ht, x into tk2 end.
  match goal with H : (0 <? n)%Z = true |- _ => apply Z.ltb_lt in H end.
  pose proof (transfer_authority _ _ _ _ _ _ Ht) as Hauth.
  assert (∀ e, ta_owner tk1 e = Some e → is_escrow e → lf_sender_token_account ctx ≠ e) as Hne.
  { intros e He Hesc Heq. rewrite Heq, He in Hauth. injection Hauth as Hx. apply Hsig. by rewrite <- Hx. }
  destruct (create_new _ _ _ _ _ Hcr) as (_ & Ho1 & Hm1 & Ha1).
  intros k h. simpl. destruct (decide (k = hk)) as [->|Hk].
  - rewrite lookup_insert_eq. intros [= <-]. split; simpl; try done.
    + unfold htlc_of. by rewrite Eh.
    + by rewrite Eh.
    + by rewrite Ee.
    + by rewrite (transfer_owner _ _ _ _ _ _ _ Ht).
    + by rewrite (transfer_mint _ _ _ _ _ _ _ Ht).
    + intros _. rewrite (transfer_amount _ _ _ _ _ _ _ Ht), Ha1. unfold transfer_effect.
      rewrite (bool_decide_eq_true_2 (escrow_of hl = escrow_of hl)) by done.
      rewrite bool_decide_eq_false_2; [lia|]. intros Heq. symmetry in Heq. revert Heq. apply Hne; [done|by exists hl].
  - rewrite lookup_insert_ne by done. intros Hk2. pose proof (Hs k h Hk2) as Hb.
    apply (backed_create _ _ _ _ _ _ _ Hcr) in Hb.
    eapply backed_transfer; [exact Ht|lia|done|]. intros _. apply Hne; [apply Hb|by eexists].
Qed.

(** What an accepted claim went through. *)
Lemma claim_inv ctx secret s s' :
  claim sha256 ctx secret s = Ok s' → safe s →
  ∃ h tk, htlcs s !! cl_htlc ctx = Some h ∧ unsettled h ∧ sha256 secret = hashlock h ∧
    ta_owner (tokens s) (cl_receiver_token_account ctx) = Some (receiver h) ∧
    ta_mint (tokens s) (cl_receiver_token_account ctx) = Some (mint h) ∧
    token_transfer (escrow_of (hashlock h)) (cl_receiver_token_account ctx)
      (escrow_of (hashlock h)) (amount h) (tokens s) = Some tk ∧
    s' = mkState (<[cl_htlc ctx := with_claimed h]> (htlcs s)) tk
           (events s ++ [FundsClaimed (cl_htlc ctx) (receiver h) secret (amount h)]).
Proof.
  intros Hrun Hs. unfold claim in Hrun. instr_inv. subst s'.
  match goal with H : htlcs s !! _ = Some ?x |- _ => rename H into Hk, x into h end.
  match goal with H : has_address [ESCROW_SEED; _] _ _ = true |- _ =>
    pose proof (safe_escrow_address _ _ _ _ Hs Hk H) as Hesc end.
  unfold owned_by, has_mint, key_eqb, has_address in *. rewrite Hesc in *.
  repeat match goal with
  | H : bool_decide _ = true |- _ => apply bool_decide_eq_true in H
  | H : negb _ = true |- _ => apply negb_true_iff in H end.
  by exists h, a0.
Qed.

Lemma refund_inv ctx now s s' :
  refund ctx now s = Ok s' → safe s →
  ∃ h tk, htlcs s !! rf_htlc ctx = Some h ∧ unsettled h ∧ (timelock h ≤ now)%Z ∧
    sender h = rf_sender ctx ∧
    ta_owner (tokens s) (rf_sender_token_account ctx) = Some (sender h) ∧
    ta_mint (tokens s) (rf_sender_token_account ctx) = Some (mint h) ∧
    token_transfer (escrow_of (hashlock h)) (rf_sender_token_account ctx)
      (escrow_of (hashlock h)) (amount h) (tokens s) = Some tk ∧
    s' = mkState (<[rf_htlc ctx := with_refunded h]> (htlcs s)) tk
           (events s ++ [FundsRefunded (rf_htlc ctx) (sender h) (amount h)]).
Proof.
  intros Hrun Hs. unfold refund in Hrun. instr_inv. subst s'.
  match goal with H : htlcs s !! _ = Some ?x |- _ => rename H into Hk, x into h end.
  match goal with H : has_address [ESCROW_SEED; _] _ _ = true |- _ =>
    pose proof (safe_escrow_address _ _ _ _ Hs Hk H) as Hesc end.
  unfold owned_by, has_mint, key_eqb, has_address in *. rewrite Hesc in *.
  repeat match goal with
  | H : bool_decide _ = true |- _ => apply bool_decide_eq_true in H
  | H : negb _ = true |- _ => apply negb_true_iff in H
  | H : (_ <=? _)%Z = true |- _ => apply Z.leb_le in H end.
  exists h, a0. split_and!; try done. congruence.
Qed.

Lemma step_safe w w' : step w w' → safe (snd w) → safe (snd w').
Proof.
  intros Hst Hs. destruct Hst; simpl in *.
  - by eapply lock_safe.
  - eapply claim_inv in H0 as (h & tk & Hk & [Hc Hr] & _ & _ & _ & Ht & ->); [|done].
    eapply safe_payout; try done; [|by intros [? _]].
    intros []. split; simpl; try done. by intros [? _].
  - eapply refund_inv in H0 as (h & tk & Hk & [Hc Hr] & _ & _ & _ & _ & Ht & ->); [|done].
    eapply safe_payout; try done; [|by intros [_ ?]].
    intros []. split; simpl; try done; [by rewrite Hc|by intros [_ ?]].
  - intros k h Hk. simpl in *. pose proof (Hs k h Hk) as Hb.
    eapply backed_transfer; [done|done|done|]. intros _ ->.
    match goal with H : token_transfer _ _ _ _ _ = Some _ |- _ =>
      apply transfer_authority in H; rewrite (bk_owner _ _ _ Hb) in H; injection H as <- end.
    match goal with H : ¬ is_escrow _ |- _ => apply H end. by eexists.
  - intros k2 h Hk. simpl in *. by eapply backed_create, Hs.
  - done.
Qed.

Lemma reachable_safe now0 tk0 w :
  rtc step (now0, mkState ∅ tk0 []) w → safe (snd w).
Proof.
  assert (∀ w w', rtc step w w' → safe (snd w) → safe (snd w')) as Hind.
  { induction 1; [done|]. intros. eauto using step_safe. }
  intros Hr. eapply Hind; [exact Hr|]. intros k h Hk. simpl in Hk. by rewrite lookup_empty in Hk.
Qed.

(** A settled HTLC stays what it is, and takes no further payout. *)
Definition settled (s : State) (k : Pubkey) (h : Htlc) : Prop := htlcs s !! k = Some h ∧ ¬ unsettled h.

Lemma step_settled w w' k h : step w w' → safe (snd w) → settled (snd w) k h → settled (snd w') k h.
Proof.
  intros Hst Hs [Hk Hu]. split; [|done]. destruct Hst; simpl in *; try done.
  - unfold lock_funds in *. destruct (find_program_address [HTLC_SEED; hl]) as [hk hb].
    destruct (find_program_address [ESCROW_SEED; hl]) as [ek eb]. instr_inv. subst. simpl.
    rewrite lookup_insert_ne; [done|]. intros ->.
    match goal with H : negb _ = true |- _ => apply negb_true_iff, bool_decide_eq_false in H; apply H end.
    by eexists.
  - eapply claim_inv in H0 as (h2 & tk & Hk2 & Hu2 & _ & _ & _ & _ & ->); [|done]. simpl.
    rewrite lookup_insert_ne; [done|]. intros <-. by simplify_eq.
  - eapply refund_inv in H0 as (h2 & tk & Hk2 & Hu2 & _ & _ & _ & _ & _ & ->); [|done]. simpl.
    rewrite lookup_insert_ne; [done|]. intros <-. by simplify_eq.
Qed.

Lemma settled_forever w w' k h :
  rtc step w w' → safe (snd w) → settled (snd w) k h → safe (snd w') ∧ settled (snd w') k h.
Proof. induction 1; [done|]. intros. eauto using step_safe, step_settled. Qed.

(** From the state [s] on, nothing more can be paid out of the HTLC [k]. *)
Definition no_more_payouts (w : Z * State) (k : Pubkey) : Prop :=
  ∀ w', rtc step w w' →
    (∀ ctx secret s', cl_htlc ctx = k → claim sha256 ctx secret (snd w') ≠ Ok s') ∧
    (∀ ctx now s', rf_htlc ctx = k → refund ctx now (snd w') ≠ Ok s').

Lemma settled_no_more w k h : safe (snd w) → settled (snd w) k h → no_more_payouts w k.
Proof.
  intros Hs Hk w' Hr. destruct (settled_forever _ _ _ _ Hr Hs Hk) as [Hs' [Hk' Hu]]. split.
  - intros ctx secret s' <- Hrun. eapply claim_inv in Hrun as (h2 & tk & Hk2 & Hu2 & _); [|done].
    by simplify_eq.
  - intros ctx now s' <- Hrun. eapply refund_inv in Hrun as (h2 & tk & Hk2 & Hu2 & _); [|done].
    by simplify_eq.
Qed.

(** C8: in every state that locks, claims, refunds and the token movements of
    anyone else can lead to, an accepted claim shows the preimage of the lock,
    and an accepted refund is for the sender at or after the timelock; either
    moves exactly the locked amount from that HTLC's escrow to a token account
    that the receiver (the sender) owns in its mint, and from then on, whatever
    happens, no claim and no refund of the same HTLC is accepted. *)
Theorem htlc_settles_once now0 tk0 now s :
  rtc step (now0, mkState ∅ tk0 []) (now, s) →
  (∀ ctx secret s', claim sha256 ctx secret s = Ok s' →
     ∃ h, htlcs s !! cl_htlc ctx = Some h ∧ unsettled h ∧ sha256 secret = hashlock h ∧
       ta_owner (tokens s) (cl_receiver_token_account ctx) = Some (receiver h) ∧
       ta_mint (tokens s) (cl_receiver_token_account ctx) = Some (mint h) ∧
       (∀ k, ta_amount (tokens s') k = ta_amount (tokens s) k +
          transfer_effect (escrow_of (hashlock h)) (cl_receiver_token_account ctx) (amount h) k)%Z ∧
       no_more_payouts (now, s') (cl_htlc ctx)) ∧
  (∀ ctx s', refund ctx now s = Ok s' →
     ∃ h, htlcs s !! rf_htlc ctx = Some h ∧ unsettled h ∧ (timelock h ≤ now)%Z ∧
       sender h = rf_sender ctx ∧
       ta_owner (tokens s) (rf_sender_token_account ctx) = Some (sender h) ∧
       ta_mint (tokens s) (rf_sender_token_account ctx) = Some (mint h) ∧
       (∀ k, ta_amount (tokens s') k = ta_amount (tokens s) k +
          transfer_effect (escrow_of (hashlock h)) (rf_sender_token_account ctx) (amount h) k)%Z ∧
       no_more_payouts (now, s') (rf_htlc ctx)).
Proof.
  intros Hr%reachable_safe. simpl in Hr. split.
  - intros ctx secret s' Hrun.
    pose proof (step_safe _ _ (step_claim _ _ now _ _ Hrun) Hr) as Hs'.
    apply claim_inv in Hrun as (h & tk & Hk & Hu & Hh & Ho & Hm & Ht & Heq); [|done].
    exists h. split_and!; try done.
    + intros k. subst s'. simpl. by rewrite (transfer_amount _ _ _ _ _ _ _ Ht).
    + apply (settled_no_more _ _ (with_claimed h)); [done|]. subst s'. split; simpl.
      * apply lookup_insert_eq.
      * by intros [? _].
  - intros ctx s' Hrun.
    pose proof (step_safe _ _ (step_refund _ now _ _ Hrun) Hr) as Hs'.
    apply refund_inv in Hrun as (h & tk & Hk & Hu & Htl & Hsd & Ho & Hm & Ht & Heq); [|done].
    exists h. split_and!; try done.
    + intros k. subst s'. simpl. by rewrite (transfer_amount _ _ _ _ _ _ _ Ht).
    + apply (settled_no_more _ _ (with_refunded h)); [done|]. subst s'. split; simpl.
      * apply lookup_insert_eq.
      * by intros [_ ?].
Qed.

(** An HTLC that was locked and not paid out can always be: in every such
    state its escrow holds the amount, whoever has the secret can have it paid
    to any token account of the receiver, and once the timelock has passed the
    sender can have it back. *)
Theorem htlc_always_redeemable now0 tk0 now s k h :
  rtc step (now0, mkState ∅ tk0 []) (now, s) → htlcs s !! k = Some h → unsettled h →
  (amount h ≤ ta_amount (tokens s) (escrow_of (hashlock h)))%Z ∧
  (∀ secret dest, sha256 secret = hashlock h →
     ta_owner (tokens s) dest = Some (receiver h) → ta_mint (tokens s) dest = Some (mint h) →
     (ta_amount (tokens s) dest + amount h ≤ u64_max)%Z →
     ∃ s', claim sha256 (mkClaim k (escrow_of (hashlock h)) dest) secret s = Ok s') ∧
  (∀ dest, (timelock h ≤ now)%Z →
     ta_owner (tokens s) dest = Some (sender h) → ta_mint (tokens s) dest = Some (mint h) →
     (ta_amount (tokens s) dest + amount h ≤ u64_max)%Z →
     ∃ s', refund (mkRefund k (sender h) (escrow_of (hashlock h)) dest) now s = Ok s').
Proof.
  intros Hr%reachable_safe Hk Hu. simpl in Hr. pose proof (Hr k h Hk) as Hb.
  pose proof (bk_funds _ _ _ Hb Hu) as Hf. pose proof (bk_amount _ _ _ Hb) as Hpos.
  destruct Hu as [Hc Hrf]. split; [done|].
  assert (has_address [HTLC_SEED; hashlock h] (bump h) k = true) as Ha1.
  { apply bool_decide_eq_true. rewrite (bk_bump _ _ _ Hb), find_create. f_equal.
    symmetry. apply (bk_key _ _ _ Hb). }
  assert (has_address [ESCROW_SEED; hashlock h] (escrow_bump h) (escrow_of (hashlock h)) = true) as Ha2.
  { apply bool_decide_eq_true. by rewrite (bk_escrow_bump _ _ _ Hb), find_create. }
  split.
  - intros secret dest Hh Ho Hm Hmax. unfold claim, ensure, unwrap, owned_by, has_mint, key_eqb. simpl.
    rewrite Hk, Ha1, Hc, Hrf. simpl. rewrite Ha2, !bool_decide_eq_true_2 by done. simpl.
    destruct (transfer_succeeds (escrow_of (hashlock h)) dest (escrow_of (hashlock h)) (amount h)
      (tokens s) (mint h)) as [tk Ht]; [apply Hb|apply Hb|done|lia|done|]. rewrite Ht. eauto.
  - intros dest Htl Ho Hm Hmax. unfold refund, ensure, unwrap, owned_by, has_mint, key_eqb. simpl.
    rewrite Hk, Ha1, Hc, Hrf. simpl. rewrite Ha2, !bool_decide_eq_true_2 by done. simpl.
    replace (timelock h <=? now)%Z with true by lia.
    destruct (transfer_succeeds (escrow_of (hashlock h)) dest (escrow_of (hashlock h)) (amount h)
      (tokens s) (mint h)) as [tk Ht]; [apply Hb|apply Hb|done|lia|done|]. rewrite Ht. eauto.
Qed.
End safety.

(** ** A concrete history: a chain with two wallets and one lock *)
Module HtlcExample.

(** A stand-in for the hash. *)
Definition hash (secret : list Z) : list Z := map (λ b, 255 - b)%Z secret.
Definition tokens0 : gmap Pubkey Toy.Account :=
  <[[1]%Z := Toy.mkAccount [10]%Z [5]%Z 100]> (<[[2]%Z := Toy.mkAccount [20]%Z [5]%Z 3]> ∅).
Definition start : State (H:=Toy.instance) := mkState (H:=Toy.instance) ∅ tokens0 [].
Definition lock : result (State (H:=Toy.instance)) (ProgramError HtlcError) :=
  lock_funds (H:=Toy.instance) (mkLockFunds [10]%Z [20]%Z [5]%Z [1]%Z) [254]%Z 60 7 50 start.
Definition locked : State (H:=Toy.instance) := match lock with Ok s => s | Err _ => start end.
Definition htlc_key : Pubkey := htlc_of (H:=Toy.instance) [254]%Z.
Definition escrow : Pubkey := escrow_of (H:=Toy.instance) [254]%Z.
Definition claimed_state : result (State (H:=Toy.instance)) (ProgramError HtlcError) :=
  claim (H:=Toy.instance) hash (mkClaim htlc_key escrow [2]%Z) [1]%Z locked.

Lemma escrow_inj h1 h2 : escrow_of (H:=Toy.instance) h1 = escrow_of (H:=Toy.instance) h2 → h1 = h2.
Proof.
  unfold escrow_of. simpl. unfold Toy.address. simpl. rewrite !app_nil_r.
  intros [= E]. by apply app_inj_tail in E as [? _].
Qed.

Lemma not_escrow k : head k ≠ Some 101%Z → ¬ is_escrow (H:=Toy.instance) k.
Proof. intros Hk [hl ->]. by apply Hk. Qed.

Lemma lock_ok : lock = Ok locked.
Proof.
  assert (is_ok lock = true) as Hok by (vm_compute; reflexivity).
  unfold locked. by destruct lock.
Qed.

Lemma reaches : rtc (step (H:=Toy.instance) hash) (50%Z, start) (50%Z, locked).
Proof.
  apply rtc_once. eapply step_lock; [|exact lock_ok]. by apply not_escrow.
Qed.

Lemma claimed_ok : ∃ s', claimed_state = Ok s'.
Proof.
  assert (is_ok claimed_state = true) as Hok by (vm_compute; reflexivity).
  destruct claimed_state; [by eexists|done].
Qed.

Lemma locked_htlc :
  htlcs locked !! htlc_key =
    Some (mkHtlc [10]%Z [20]%Z [5]%Z [254]%Z 60 7 false false 255 255).
Proof. vm_compute. reflexivity. Qed.
End HtlcExample.

(** Showing the secret pays the seven locked tokens out, once. *)
Lemma htlc_settles_once_witness :
  ∃ s' h, HtlcExample.claimed_state = Ok s' ∧
    htlcs HtlcExample.locked !! HtlcExample.htlc_key = Some h ∧ unsettled h ∧
    ta_amount (Solana:=Toy.instance) (tokens s') [2]%Z = 10%Z ∧
    no_more_payouts (H:=Toy.instance) HtlcExample.hash (50%Z, s') HtlcExample.htlc_key.
Proof.
  destruct (htlc_settles_once (H:=Toy.instance) HtlcExample.hash HtlcExample.escrow_inj
    50 HtlcExample.tokens0 50 HtlcExample.locked HtlcExample.reaches) as [Hc _].
  destruct HtlcExample.claimed_ok as [s' E].
  destruct (Hc _ _ _ E) as (h & Hk & Hu & _ & _ & _ & Ha & Hn).
  exists s', h. split_and!; try done.
  simpl cl_htlc in Hk. rewrite HtlcExample.locked_htlc in Hk. injection Hk as <-. exact (Ha [2]%Z).
Defined.

(** The lock is backed, and can be claimed, and refunded once its time is up. *)
Lemma htlc_always_redeemable_witness :
  ∃ h s', htlcs HtlcExample.locked !! HtlcExample.htlc_key = Some h ∧
    ta_amount (Solana:=Toy.instance) (tokens HtlcExample.locked) HtlcExample.escrow = 7%Z ∧
    claim (H:=Toy.instance) HtlcExample.hash (mkClaim HtlcExample.htlc_key HtlcExample.escrow [2]%Z)
      [1]%Z HtlcExample.locked = Ok s'.
Proof.
  destruct (htlc_always_redeemable (H:=Toy.instance) HtlcExample.hash HtlcExample.escrow_inj
    50 HtlcExample.tokens0 50 HtlcExample.locked HtlcExample.htlc_key _ HtlcExample.reaches
    HtlcExample.locked_htlc) as (_ & Hc & _); [by split|].
  destruct (Hc [1]%Z [2]%Z) as [s' Hs']; [vm_compute; done..|].
  eexists _, s'. split_and!; [exact HtlcExample.locked_htlc|vm_compute; done|exact Hs'].
Defined.
