(* ===== verification/SettlementProgram.v ===== *)
(** * The on-chain settlement: [src/programs/intentx-settlement/src/lib.rs]

    Users deposit tokens into a vault and have a tracked balance per mint; the
    backend's authority moves tracked balances from buyers to sellers, less a
    fee; users withdraw.  Every account an instruction names is loaded as its
    own copy and written back at the end, in the order of the declaration. *)
From stdpp Require Import gmap.
From S2P Require Import Prelude Solana.

Module SettlementProgram.

Inductive SettlementError :=
| ZeroAmount
| InsufficientBalance
| Overflow
| FeeTooHigh
| InvalidFeeRecipient.

Record Config := mkConfig {
  authority : Pubkey;
  fee_bps : Z;
  fee_recipient : Pubkey;
  total_settlements : Z;
  total_volume : Z;
  config_bump : Z;
}.

Record UserAccount := mkUserAccount {
  owner : Pubkey;
  mint : Pubkey;
  balance : Z;
  bump : Z;
}.

(** What [init] allocates: zeroed. *)
Definition new_user_account : UserAccount := mkUserAccount default_key default_key 0 0.

Inductive SettlementEvent :=
| ConfigInitialized (authority : Pubkey) (fee_bps : Z)
| DepositEvent (user mint : Pubkey) (amount new_balance : Z)
| Settled (fill_id : list Z) (buyer seller mint : Pubkey) (amount fee seller_receives : Z)
| WithdrawEvent (user mint : Pubkey) (amount remaining_balance : Z)
| AuthorityUpdated (old_authority new_authority : Pubkey)
| FeeUpdated (fee_bps : Z).

(** The bytes of "config", "vault" and "user". *)
Definition CONFIG_SEED : list Z := [99; 111; 110; 102; 105; 103]%Z.
Definition VAULT_SEED : list Z := [118; 97; 117; 108; 116]%Z.
Definition USER_SEED : list Z := [117; 115; 101; 114]%Z.

Definition MAX_FEE_BPS : Z := 5000.

Definition with_balance (u : UserAccount) (b : Z) : UserAccount :=
  mkUserAccount (owner u) (mint u) b (bump u).

Section program.
Context `{Solana}.

(** The accounts of the program, the token accounts, and the events. *)
Record State := mkState {
  configs : gmap Pubkey Config;
  users : gmap Pubkey UserAccount;
  tokens : Tokens;
  events : list SettlementEvent;
}.

Definition Result : Type := result State (ProgramError SettlementError).

(** The accounts an instruction names; [authority] and [user] have signed. *)
Record Initialize := mkInitialize {
  in_authority : Pubkey;
  in_fee_recipient : Pubkey;
}.
Record Deposit := mkDeposit {
  dp_config : Pubkey;
  dp_user_account : Pubkey;
  dp_user : Pubkey;
  dp_mint : Pubkey;
  dp_user_token_account : Pubkey;
  dp_vault_token_account : Pubkey;
}.
Record Settle := mkSettle {
  st_config : Pubkey;
  st_authority : Pubkey;
  st_mint : Pubkey;
  st_buyer_account : Pubkey;
  st_seller_account : Pubkey;
  st_fee_account : Pubkey;
}.
Record Withdraw := mkWithdraw {
  wd_config : Pubkey;
  wd_user_account : Pubkey;
  wd_user : Pubkey;
  wd_mint : Pubkey;
  wd_user_token_account : Pubkey;
  wd_vault_token_account : Pubkey;
  wd_vault_authority : Pubkey;
}.
Record UpdateAuthority := mkUpdateAuthority {
  ua_config : Pubkey;
  ua_authority : Pubkey;
}.

Definition same (a b : Pubkey) : bool := bool_decide (a = b).
Definition owned_by (s : Tokens) (k o : Pubkey) : bool := bool_decide (ta_owner s k = Some o).
Definition has_mint (s : Tokens) (k m : Pubkey) : bool := bool_decide (ta_mint s k = Some m).
Definition has_address (seeds : list (list Z)) (bump : Z) (k : Pubkey) : bool :=
  bool_decide (create_program_address seeds bump = Some k).

Definition initialize (ctx : Initialize) (fee_bps : Z) (s : State) : Result :=
  let '(config_key, b) := find_program_address [CONFIG_SEED] in
  ensure (negb (bool_decide (is_Some (configs s !! config_key)))) AccountAlreadyInUse (
  ensure (fee_bps <=? MAX_FEE_BPS)%Z (Custom FeeTooHigh) (
  Ok (mkState
        (<[config_key := mkConfig (in_authority ctx) fee_bps (in_fee_recipient ctx) 0 0 b]> (configs s))
        (users s) (tokens s) (events s ++ [ConfigInitialized (in_authority ctx) fee_bps])))).

(** The [config] account of an instruction, with its seeds checked. *)
Definition load_config (k : Pubkey) (s : State) (cont : Config → Result) : Result :=
  unwrap (configs s !! k) AccountNotInitialized (λ c,
  ensure (has_address [CONFIG_SEED] (config_bump c) k) ConstraintSeeds (cont c)).

(** [init_if_needed]: at the canonical address, created when missing. *)
Definition load_or_init_user (k user mint : Pubkey) (s : State) (cont : UserAccount → Result) : Result :=
  ensure (same k (fst (find_program_address [USER_SEED; user; mint]))) ConstraintSeeds (
  cont (default new_user_account (users s !! k))).

(** A user account of [Settle]: its seeds are its own owner and the mint. *)
Definition load_user (k mint : Pubkey) (s : State) (cont : UserAccount → Result) : Result :=
  unwrap (users s !! k) AccountNotInitialized (λ u,
  ensure (has_address [USER_SEED; owner u; mint] (bump u) k) ConstraintSeeds (cont u)).

Definition deposit (ctx : Deposit) (amount : Z) (s : State) : Result :=
  load_config (dp_config ctx) s (λ _,
  load_or_init_user (dp_user_account ctx) (dp_user ctx) (dp_mint ctx) s (λ u,
  ensure (is_mint (tokens s) (dp_mint ctx)) AccountNotInitialized (
  ensure (owned_by (tokens s) (dp_user_token_account ctx) (dp_user ctx)) ConstraintRaw (
  ensure (has_mint (tokens s) (dp_user_token_account ctx) (dp_mint ctx)) ConstraintRaw (
  ensure (has_mint (tokens s) (dp_vault_token_account ctx) (dp_mint ctx)) ConstraintRaw (
  ensure (0 <? amount)%Z (Custom ZeroAmount) (
  unwrap (token_transfer (dp_user_token_account ctx) (dp_vault_token_account ctx) (dp_user ctx)
            amount (tokens s)) TokenError (λ tk,
  unwrap (u64_checked_add (balance u) amount) (Custom Overflow) (λ b,
  Ok (mkState (configs s) (<[dp_user_account ctx := with_balance u b]> (users s)) tk
        (events s ++ [DepositEvent (dp_user ctx) (dp_mint ctx) amount b]))))))))))).

(** The fee of a settlement: [u128] arithmetic, then [as u64]. *)
Definition fee_of (c : Config) (amount : Z) : Z := u64 (amount * fee_bps c / 10000).

(** The settlement once its accounts are loaded and checked. *)
Definition settle_body (ctx : Settle) (amount : Z) (fill_id : list Z) (c : Config)
    (buyer seller fee_account : UserAccount) (s : State) : Result :=
  ensure (0 <? amount)%Z (Custom ZeroAmount) (
  let fee := fee_of c amount in
  unwrap (u64_checked_sub amount fee) (Custom Overflow) (λ seller_receives,
  ensure (amount <=? balance buyer)%Z (Custom InsufficientBalance) (
  unwrap (u64_checked_sub (balance buyer) amount) (Custom Overflow) (λ buyer_balance,
  unwrap (u64_checked_add (balance seller) seller_receives) (Custom Overflow) (λ seller_balance,
  unwrap (if (0 <? fee)%Z then u64_checked_add (balance fee_account) fee
          else Some (balance fee_account)) (Custom Overflow) (λ fee_balance,
  unwrap (u64_checked_add (total_settlements c) 1) (Custom Overflow) (λ settlements,
  unwrap (u64_checked_add (total_volume c) amount) (Custom Overflow) (λ volume,
  Ok (mkState
        (<[st_config ctx := mkConfig (authority c) (fee_bps c) (fee_recipient c) settlements volume
                              (config_bump c)]> (configs s))
        (<[st_fee_account ctx := with_balance fee_account fee_balance]>
          (<[st_seller_account ctx := with_balance seller seller_balance]>
            (<[st_buyer_account ctx := with_balance buyer buyer_balance]> (users s))))
        (tokens s)
        (events s ++ [Settled fill_id (owner buyer) (owner seller) (st_mint ctx)
                        amount fee seller_receives]))))))))))%Z.

Definition settle (ctx : Settle) (amount : Z) (fill_id : list Z) (s : State) : Result :=
  load_config (st_config ctx) s (λ c,
  ensure (same (authority c) (st_authority ctx)) ConstraintHasOne (
  ensure (is_mint (tokens s) (st_mint ctx)) AccountNotInitialized (
  load_user (st_buyer_account ctx) (st_mint ctx) s (λ buyer,
  load_user (st_seller_account ctx) (st_mint ctx) s (λ seller,
  load_user (st_fee_account ctx) (st_mint ctx) s (λ fee_account,
  ensure (same (owner fee_account) (fee_recipient c)) (Custom InvalidFeeRecipient) (
  settle_body ctx amount fill_id c buyer seller fee_account s))))))).

Definition withdraw (ctx : Withdraw) (amount : Z) (s : State) : Result :=
  load_config (wd_config ctx) s (λ _,
  unwrap (users s !! wd_user_account ctx) AccountNotInitialized (λ u,
  ensure (has_address [USER_SEED; wd_user ctx; wd_mint ctx] (bump u) (wd_user_account ctx))
    ConstraintSeeds (
  ensure (same (owner u) (wd_user ctx)) ConstraintRaw (
  ensure (is_mint (tokens s) (wd_mint ctx)) AccountNotInitialized (
  ensure (owned_by (tokens s) (wd_user_token_account ctx) (wd_user ctx)) ConstraintRaw (
  ensure (has_mint (tokens s) (wd_user_token_account ctx) (wd_mint ctx)) ConstraintRaw (
  ensure (has_mint (tokens s) (wd_vault_token_account ctx) (wd_mint ctx)) ConstraintRaw (
  ensure (same (wd_vault_authority ctx) (fst (find_program_address [VAULT_SEED; wd_config ctx])))
    ConstraintSeeds (
  ensure (0 <? amount)%Z (Custom ZeroAmount) (
  ensure (amount <=? balance u)%Z (Custom InsufficientBalance) (
  unwrap (u64_checked_sub (balance u) amount) (Custom Overflow) (λ b,
  unwrap (token_transfer (wd_vault_token_account ctx) (wd_user_token_account ctx)
            (wd_vault_authority ctx) amount (tokens s)) TokenError (λ tk,
  Ok (mkState (configs s) (<[wd_user_account ctx := with_balance u b]> (users s)) tk
        (events s ++ [WithdrawEvent (wd_user ctx) (wd_mint ctx) amount b]))))))))))))))).

(** The config of an [UpdateAuthority] context: [has_one = authority]. *)
Definition load_admin (ctx : UpdateAuthority) (s : State) (cont : Config → Result) : Result :=
  load_config (ua_config ctx) s (λ c,
  ensure (same (authority c) (ua_authority ctx)) ConstraintHasOne (cont c)).

Definition update_authority (ctx : UpdateAuthority) (new_authority : Pubkey) (s : State) : Result :=
  load_admin ctx s (λ c,
  Ok (mkState
        (<[ua_config ctx := mkConfig new_authority (fee_bps c) (fee_recipient c)
                              (total_settlements c) (total_volume c) (config_bump c)]> (configs s))
        (users s) (tokens s) (events s ++ [AuthorityUpdated (authority c) new_authority]))).

Definition update_fee (ctx : UpdateAuthority) (new_fee_bps : Z) (s : State) : Result :=
  load_admin ctx s (λ c,
  ensure (new_fee_bps <=? MAX_FEE_BPS)%Z (Custom FeeTooHigh) (
  Ok (mkState
        (<[ua_config ctx := mkConfig (authority c) new_fee_bps (fee_recipient c)
                              (total_settlements c) (total_volume c) (config_bump c)]> (configs s))
        (users s) (tokens s) (events s ++ [FeeUpdated new_fee_bps])))).

(** The program's entry points. *)
Inductive Instruction :=
| IInitialize (ctx : Initialize) (fee_bps : Z)
| IDeposit (ctx : Deposit) (amount : Z)
| ISettle (ctx : Settle) (amount : Z) (fill_id : list Z)
| IWithdraw (ctx : Withdraw) (amount : Z)
| IUpdateAuthority (ctx : UpdateAuthority) (new_authority : Pubkey)
| IUpdateFee (ctx : UpdateAuthority) (new_fee_bps : Z).

Definition intentx_settlement (i : Instruction) : State → Result :=
  match i with
  | IInitialize ctx fee_bps => initialize ctx fee_bps
  | IDeposit ctx amount => deposit ctx amount
  | ISettle ctx amount fill_id => settle ctx amount fill_id
  | IWithdraw ctx amount => withdraw ctx amount
  | IUpdateAuthority ctx new_authority => update_authority ctx new_authority
  | IUpdateFee ctx new_fee_bps => update_fee ctx new_fee_bps
  end.

(** Who signed an instruction. *)
Definition signer (i : Instruction) : Pubkey :=
  match i with
  | IInitialize ctx _ => in_authority ctx
  | IDeposit ctx _ => dp_user ctx
  | ISettle ctx _ _ => st_authority ctx
  | IWithdraw ctx _ => wd_user ctx
  | IUpdateAuthority ctx _ => ua_authority ctx
  | IUpdateFee ctx _ => ua_authority ctx
  end.

End program.
End SettlementProgram.
