(* ===== verification/SettlementProgramCorrect.v ===== *)
(** * What the on-chain settlement guarantees, and what it does not

    A settlement moves what it says between distinct accounts; the
    configuration answers to its authority alone.  But no account a deposit
    creates ever gets its owner written, so no deposit can be settled or
    withdrawn. *)
From stdpp Require Import gmap relations.
From S2P Require Import Prelude Solana SettlementProgram.
Import SettlementProgram.

Section program.
Context `{Solana}.

Lemma load_config_Ok k s cont r :
  load_config k s cont = Ok r ↔
  ∃ c, configs s !! k = Some c ∧ create_program_address [CONFIG_SEED] (config_bump c) = Some k ∧ cont c = Ok r.
Proof.
  unfold load_config, has_address, Result. rewrite unwrap_Ok. setoid_rewrite ensure_Ok.
  setoid_rewrite bool_decide_eq_true. naive_solver.
Qed.

Lemma load_user_Ok k m s cont r :
  load_user k m s cont = Ok r ↔
  ∃ u, users s !! k = Some u ∧
    create_program_address [USER_SEED; owner u; m] (bump u) = Some k ∧ cont u = Ok r.
Proof.
  unfold load_user, has_address, Result. rewrite unwrap_Ok. setoid_rewrite ensure_Ok.
  setoid_rewrite bool_decide_eq_true. naive_solver.
Qed.

Lemma load_or_init_Ok k user m s cont r :
  load_or_init_user k user m s cont = Ok r ↔
  k = fst (find_program_address [USER_SEED; user; m]) ∧
  cont (default new_user_account (users s !! k)) = Ok r.
Proof. unfold load_or_init_user, same, Result. by rewrite ensure_Ok, bool_decide_eq_true. Qed.

Lemma load_admin_Ok ctx s cont r :
  load_admin ctx s cont = Ok r ↔
  ∃ c, configs s !! ua_config ctx = Some c ∧
    create_program_address [CONFIG_SEED] (config_bump c) = Some (ua_config ctx) ∧
    authority c = ua_authority ctx ∧ cont c = Ok r.
Proof.
  unfold load_admin, same, Result. rewrite load_config_Ok. unfold Result. setoid_rewrite ensure_Ok.
  setoid_rewrite bool_decide_eq_true. naive_solver.
Qed.

Lemma checked_add_Some a b c : u64_checked_add a b = Some c ↔ (a + b ≤ u64_max)%Z ∧ c = (a + b)%Z.
Proof. unfold u64_checked_add. destruct (Z.leb_spec (a + b) u64_max); naive_solver lia. Qed.
Lemma checked_sub_Some a b c : u64_checked_sub a b = Some c ↔ (b ≤ a)%Z ∧ c = (a - b)%Z.
Proof. unfold u64_checked_sub. destruct (Z.leb_spec b a); naive_solver lia. Qed.

(** Takes an accepted settlement instruction apart. *)
Ltac settle_inv :=
  repeat (match goal with
  | H : load_config _ _ _ = Ok _ |- _ =>
      let c := fresh "c" in apply load_config_Ok in H as (c & ? & ? & H)
  | H : load_admin _ _ _ = Ok _ |- _ =>
      let c := fresh "c" in apply load_admin_Ok in H as (c & ? & ? & ? & H)
  | H : load_user _ _ _ _ = Ok _ |- _ =>
      let u := fresh "u" in apply load_user_Ok in H as (u & ? & ? & H)
  | H : load_or_init_user _ _ _ _ _ = Ok _ |- _ => apply load_or_init_Ok in H as (? & H)
  end || (progress instr_inv));
  repeat match goal with
  | H : same _ _ = true |- _ => apply bool_decide_eq_true in H
  | H : has_address _ _ _ = true |- _ => apply bool_decide_eq_true in H
  | H : u64_checked_add _ _ = Some _ |- _ => apply checked_add_Some in H as [? ->]
  | H : u64_checked_sub _ _ = Some _ |- _ => apply checked_sub_Some in H as [? ->]
  | H : (_ <=? _)%Z = true |- _ => apply Z.leb_le in H
  | H : (_ <? _)%Z = true |- _ => apply Z.ltb_lt in H
  end.

(** The configuration of the program lives at its address, with a sane fee. *)
Definition well_configured (s : State) : Prop :=
  ∀ k c, configs s !! k = Some c → (0 ≤ fee_bps c ≤ MAX_FEE_BPS)%Z.

(** *** The fee *)

Lemma fee_of_exact c amount :
  (0 ≤ fee_bps c ≤ MAX_FEE_BPS)%Z → (0 ≤ amount ≤ u64_max)%Z →
  fee_of c amount = (amount * fee_bps c / 10000)%Z ∧ (0 ≤ 2 * fee_of c amount ≤ amount)%Z.
Proof.
  unfold MAX_FEE_BPS. intros Hf Ha.
  assert (0 ≤ amount * fee_bps c / 10000)%Z by (apply Z.div_pos; nia).
  assert (2 * (amount * fee_bps c / 10000) ≤ amount)%Z.
  { pose proof (Z.mul_div_le (amount * fee_bps c) 10000 ltac:(lia)). nia. }
  assert (fee_of c amount = amount * fee_bps c / 10000)%Z as E.
  { unfold fee_of, u64, wrap_u. apply Z.mod_small. unfold u64_max in *. lia. }
  rewrite E. lia.
Qed.

Definition bal (s : State) (k : Pubkey) : Z := default 0%Z (balance <$> users s !! k).

(** *** Settling *)

Lemma settle_spec ctx amount id s s' :
  settle ctx amount id s = Ok s' → well_configured s → (amount ≤ u64_max)%Z →
  ∃ c b sl f,
    configs s !! st_config ctx = Some c ∧ authority c = st_authority ctx ∧
    users s !! st_buyer_account ctx = Some b ∧ users s !! st_seller_account ctx = Some sl ∧
    users s !! st_fee_account ctx = Some f ∧ owner f = fee_recipient c ∧
    (0 < amount ≤ balance b)%Z ∧
    fee_of c amount = (amount * fee_bps c / 10000)%Z ∧ (0 ≤ 2 * fee_of c amount ≤ amount)%Z ∧
    s' = mkState
      (<[st_config ctx := mkConfig (authority c) (fee_bps c) (fee_recipient c)
          (total_settlements c + 1) (total_volume c + amount) (config_bump c)]> (configs s))
      (<[st_fee_account ctx := with_balance f (balance f + fee_of c amount)]>
        (<[st_seller_account ctx := with_balance sl (balance sl + (amount - fee_of c amount))]>
          (<[st_buyer_account ctx := with_balance b (balance b - amount)]> (users s))))
      (tokens s)
      (events s ++ [Settled id (owner b) (owner sl) (st_mint ctx) amount (fee_of c amount)
                      (amount - fee_of c amount)]).
Proof.
  intros Hrun Hs Hmax. unfold settle, settle_body in Hrun. settle_inv. subst s'.
  match goal with H : configs s !! _ = Some _ |- _ => pose proof (Hs _ _ H) as Hfee end.
  destruct (fee_of_exact c amount Hfee) as [E Hle]; [lia|].
  exists c, u, u0, u1. split_and!; try done; try lia; [].
  match goal with H : (if _ then _ else _) = Some ?x |- _ => assert (x = balance u1 + fee_of c amount)%Z as -> end.
  { destruct (Z.ltb_spec 0 (fee_of c amount)); settle_inv; [done|]. simplify_eq. lia. }
  done.
Qed.

(** C17: an accepted settlement was signed by the configured authority, takes a
    fee of [fee_bps] basis points rounded down, never more than half, counts
    itself in the statistics and moves no tokens.  Between three distinct
    accounts it takes exactly the amount from the buyer, gives the seller the
    rest and the fee account the fee, so that the tracked total is conserved,
    and touches no other account.  With one account as buyer and seller it
    credits without debiting: the amount is created from nothing. *)
Theorem settle_moves ctx amount id s s' :
  settle ctx amount id s = Ok s' → well_configured s → (amount ≤ u64_max)%Z →
  let B := st_buyer_account ctx in let S := st_seller_account ctx in let F := st_fee_account ctx in
  ∃ c c' fee, configs s !! st_config ctx = Some c ∧ configs s' !! st_config ctx = Some c' ∧
    authority c = st_authority ctx ∧
    fee = (amount * fee_bps c / 10000)%Z ∧ (0 ≤ 2 * fee ≤ amount)%Z ∧ (0 < amount ≤ bal s B)%Z ∧
    total_settlements c' = (total_settlements c + 1)%Z ∧
    total_volume c' = (total_volume c + amount)%Z ∧
    tokens s' = tokens s ∧
    (∀ k, k ≠ B → k ≠ S → k ≠ F → users s' !! k = users s !! k) ∧
    (B ≠ S → B ≠ F → S ≠ F →
      bal s' B = (bal s B - amount)%Z ∧ bal s' S = (bal s S + (amount - fee))%Z ∧
      bal s' F = (bal s F + fee)%Z ∧
      (bal s' B + bal s' S + bal s' F = bal s B + bal s S + bal s F)%Z) ∧
    (B = S → B ≠ F →
      bal s' B = (bal s B + (amount - fee))%Z ∧
      (bal s' B + bal s' F = bal s B + bal s F + amount)%Z).
Proof.
  intros Hrun Hs Hmax. simpl.
  destruct (settle_spec _ _ _ _ _ Hrun Hs Hmax)
    as (c & b & sl & f & Hc & Hauth & Hb & Hsl & Hf & _ & Hamt & E & Hle & ->).
  eexists c, _, (fee_of c amount). unfold bal. simpl. rewrite lookup_insert_eq, Hb, Hsl, Hf. simpl.
  split_and!; try done; try lia.
  - intros k HB HS HF. by rewrite !lookup_insert_ne.
  - intros HBS HBF HSF.
    rewrite (lookup_insert_ne _ (st_fee_account ctx)), (lookup_insert_ne _ (st_seller_account ctx)),
      lookup_insert_eq by done.
    rewrite (lookup_insert_ne _ (st_fee_account ctx)), lookup_insert_eq by done.
    rewrite lookup_insert_eq. simpl. lia.
  - intros HBS HBF. rewrite <- HBS in *. rewrite lookup_insert_ne by done. rewrite !lookup_insert_eq. simpl.
    simplify_eq. simpl. lia.
Qed.

(** *** The configuration *)

Lemma run_config i s s' k c :
  intentx_settlement i s = Ok s' → configs s !! k = Some c →
  ∃ c', configs s' !! k = Some c' ∧ (c' = c ∨ signer i = authority c).
Proof.
  intros Hrun Hk. destruct i; simpl in *.
  - unfold initialize in Hrun. destruct (find_program_address [CONFIG_SEED]) as [ck b]. settle_inv.
    subst. simpl. exists c. split; [|by left]. rewrite lookup_insert_ne; [done|]. intros ->.
    match goal with H : negb _ = true |- _ => apply negb_true_iff, bool_decide_eq_false in H; apply H end.
    by eexists.
  - unfold deposit in Hrun. settle_inv. subst. eauto.
  - unfold settle, settle_body in Hrun. settle_inv. subst. simpl.
    destruct (decide (k = st_config ctx)) as [->|]; [|rewrite lookup_insert_ne by done; eauto].
    rewrite lookup_insert_eq. simplify_eq. eexists. split; [done|by right].
  - unfold withdraw in Hrun. settle_inv. subst. eauto.
  - unfold update_authority in Hrun. settle_inv. subst. simpl.
    destruct (decide (k = ua_config ctx)) as [->|]; [|rewrite lookup_insert_ne by done; eauto].
    rewrite lookup_insert_eq. simplify_eq. eexists. split; [done|by right].
  - unfold update_fee in Hrun. settle_inv. subst. simpl.
    destruct (decide (k = ua_config ctx)) as [->|]; [|rewrite lookup_insert_ne by done; eauto].
    rewrite lookup_insert_eq. simplify_eq. eexists. split; [done|by right].
Qed.

(** *** Histories *)

(** Public keys have 32 bytes; the zero key is the system program's, and
    signs nothing. *)
Definition is_key (k : Pubkey) : Prop := length k = 32.
Definition signable (k : Pubkey) : Prop := is_key k ∧ k ≠ default_key.

(** The [u16] arguments of an instruction. *)
Definition well_typed (i : Instruction) : Prop :=
  match i with
  | IInitialize _ fee_bps | IUpdateFee _ fee_bps => (0 ≤ fee_bps)%Z
  | _ => True
  end.

(** An instruction of the program, or anything else that happens to token
    accounts. *)
Inductive step : State → State → Prop :=
| step_run i s s' : signable (signer i) → well_typed i → intentx_settlement i s = Ok s' → step s s'
| step_tokens s tk : step s (mkState (configs s) (users s) tk (events s)).

Definition genesis (tk : Tokens) : State := mkState ∅ ∅ tk [].

Lemma step_well_configured s s' : step s s' → well_configured s → well_configured s'.
Proof.
  intros [i ? ? _ Ht Hrun|] Hs k c Hk; [|by apply (Hs k)].
  destruct i; simpl in *.
  - unfold initialize in Hrun. destruct (find_program_address [CONFIG_SEED]) as [ck b]. settle_inv.
    subst. simpl in Hk. apply lookup_insert_Some in Hk as [[_ <-]|[_ Hk]]; [done|by apply (Hs k)].
  - unfold deposit in Hrun. settle_inv. subst. by apply (Hs k).
  - unfold settle, settle_body in Hrun. settle_inv. subst. simpl in Hk.
    apply lookup_insert_Some in Hk as [[_ <-]|[_ Hk]]; [match goal with H : configs _ !! _ = Some _ |- _ => exact (Hs _ _ H) end|by apply (Hs k)].
  - unfold withdraw in Hrun. settle_inv. subst. by apply (Hs k).
  - unfold update_authority in Hrun. settle_inv. subst. simpl in Hk.
    apply lookup_insert_Some in Hk as [[_ <-]|[_ Hk]]; [match goal with H : configs _ !! _ = Some _ |- _ => exact (Hs _ _ H) end|by apply (Hs k)].
  - unfold update_fee in Hrun. settle_inv. subst. simpl in Hk.
    apply lookup_insert_Some in Hk as [[_ <-]|[_ Hk]]; [done|by apply (Hs k)].
Qed.

(** In every history the fee rate stays between 0 and 50 percent, no
    configuration is ever deleted, and an instruction that changes anything of
    a configuration, its authority, its fee or its statistics, was signed by
    the authority the configuration had before. *)
Theorem authority_governs tk s : rtc step (genesis tk) s →
  (∀ k c, configs s !! k = Some c → (0 ≤ fee_bps c ≤ MAX_FEE_BPS)%Z) ∧
  (∀ i s' k c, intentx_settlement i s = Ok s' → configs s !! k = Some c →
     ∃ c', configs s' !! k = Some c' ∧ (c' = c ∨ signer i = authority c)).
Proof.
  intros Hr. split; [|intros; by eapply run_config].
  assert (∀ s s', rtc step s s' → well_configured s → well_configured s') as Hind
    by (induction 1; [done|intros; eauto using step_well_configured]).
  eapply Hind; [exact Hr|]. intros k c Hk. simpl in Hk. by rewrite lookup_empty in Hk.
Qed.

(** *** Where deposits go *)

(** Derived addresses do not collide. *)
Context (user_inj : ∀ u m b u' m', is_key u → is_key u' →
  create_program_address [USER_SEED; u; m] b = Some (fst (find_program_address [USER_SEED; u'; m'])) →
  u = u').

(** Every user account is as [init_if_needed] left it, but for its balance. *)
Definition orphaned (s : State) : Prop :=
  ∀ k u, users s !! k = Some u →
    owner u = default_key ∧
    ∃ user m, signable user ∧ k = fst (find_program_address [USER_SEED; user; m]).

Lemma orphaned_no_withdrawal s ctx amount s' :
  orphaned s → wd_user ctx ≠ default_key → withdraw ctx amount s ≠ Ok s'.
Proof.
  intros Hs Hu Hrun. unfold withdraw in Hrun. settle_inv.
  match goal with H : users s !! _ = Some _ |- _ => destruct (Hs _ _ H) as [Ho _] end. congruence.
Qed.

Lemma orphaned_no_settlement s ctx amount id s' : orphaned s → settle ctx amount id s ≠ Ok s'.
Proof.
  intros Hs Hrun. unfold settle in Hrun. settle_inv.
  match goal with H : users s !! st_buyer_account ctx = Some ?u |- _ =>
    destruct (Hs _ _ H) as [Ho (user & m & [Hlen Hne] & Hk)] end.
  match goal with H : _ = Some (st_buyer_account ctx) |- _ =>
    rewrite Ho, Hk in H; apply user_inj in H; [|done|done] end.
  by symmetry in H3.
Qed.

Lemma step_orphaned s s' : step s s' → orphaned s → orphaned s'.
Proof.
  intros [i ? ? [Hlen Hne] _ Hrun|] Hs; [|done].
  destruct i; simpl in *.
  - unfold initialize in Hrun. destruct (find_program_address [CONFIG_SEED]) as [ck b]. settle_inv. by subst.
  - unfold deposit in Hrun. settle_inv. subst. intros k u Hk. simpl in Hk.
    apply lookup_insert_Some in Hk as [[<- <-]|[_ Hk]]; [|by apply Hs]. split; [|by eexists _, _].
    simpl. destruct (users _ !! _) eqn:E; simpl; [by apply (Hs _ _ E)|done].
  - by apply orphaned_no_settlement in Hrun.
  - by apply orphaned_no_withdrawal in Hrun.
  - unfold update_authority in Hrun. settle_inv. by subst.
  - unfold update_fee in Hrun. settle_inv. by subst.
Qed.

(** No deposit ever comes back. In every history a deposit takes the
    user's tokens and adds them to the tracked balance, but the account it
    creates keeps the zero owner it was allocated with, so every withdrawal by
    anyone and every settlement is refused: the tokens stay in the vault. *)
Theorem deposits_are_stuck tk s : rtc step (genesis tk) s →
  (∀ ctx amount s', deposit ctx amount s = Ok s' →
     bal s' (dp_user_account ctx) = (bal s (dp_user_account ctx) + amount)%Z ∧
     ∀ k, ta_amount (tokens s') k = (ta_amount (tokens s) k +
       transfer_effect (dp_user_token_account ctx) (dp_vault_token_account ctx) amount k)%Z) ∧
  (∀ ctx amount, wd_user ctx ≠ default_key → is_ok (withdraw ctx amount s) = false) ∧
  (∀ ctx amount id, is_ok (settle ctx amount id s) = false).
Proof.
  intros Hr. assert (orphaned s) as Hs.
  { assert (∀ s s', rtc step s s' → orphaned s → orphaned s') as Hind
      by (induction 1; [done|intros; eauto using step_orphaned]).
    eapply Hind; [exact Hr|]. intros k u Hk. simpl in Hk. by rewrite lookup_empty in Hk. }
  split_and!.
  - intros ctx amount s' Hrun. unfold deposit in Hrun. settle_inv. subst s'.
    match goal with H : token_transfer _ _ _ _ _ = Some _ |- _ => rename H into Ht end. split.
    + unfold bal. simpl. rewrite lookup_insert_eq. simpl. by destruct (users s !! _).
    + intros k. apply (transfer_amount _ _ _ _ _ _ _ Ht).
  - intros ctx amount Hu. destruct (withdraw ctx amount s) eqn:E; [|done].
    by apply orphaned_no_withdrawal in E.
  - intros ctx amount id. destruct (settle ctx amount id s) eqn:E; [|done].
    by apply orphaned_no_settlement in E.
Qed.

End program.

(** ** A concrete chain *)
Module SettlementExample.
#[local] Existing Instance Toy.instance.

Definition admin : Pubkey := replicate 32 1%Z.
Definition alice : Pubkey := replicate 32 2%Z.
Definition usdc : Pubkey := replicate 32 3%Z.
Definition wallet : Pubkey := replicate 32 4%Z.
Definition vault : Pubkey := replicate 32 5%Z.
Definition config_key : Pubkey := Toy.address [CONFIG_SEED] 255.
Definition user_key (u : Pubkey) : Pubkey := Toy.address [USER_SEED; u; usdc] 255.

Definition tokens0 : gmap Pubkey Toy.Account :=
  <[wallet := Toy.mkAccount alice usdc 100]> (<[vault := Toy.mkAccount admin usdc 0]> ∅).
Definition boot : Instruction := IInitialize (mkInitialize admin admin) 100.
Definition pay_in : Instruction :=
  IDeposit (mkDeposit config_key (user_key alice) alice usdc wallet vault) 40.
Definition after (i : Instruction) (s : State) : State :=
  match intentx_settlement i s with Ok s' => s' | Err _ => s end.
Definition started : State := after boot (genesis tokens0).
Definition deposited : State := after pay_in started.

Lemma after_ok i s : is_ok (intentx_settlement i s) = true → intentx_settlement i s = Ok (after i s).
Proof. unfold after. by destruct (intentx_settlement i s). Qed.

Lemma user_inj u m b u' m' : is_key u → is_key u' →
  create_program_address [USER_SEED; u; m] b = Some (fst (find_program_address [USER_SEED; u'; m'])) →
  u = u'.
Proof.
  unfold is_key. simpl. unfold Toy.address. simpl. rewrite !app_nil_r, <- !app_assoc.
  intros Hu Hu' [= E]. apply app_inj_1 in E as [? _]; [done|lia].
Qed.

Lemma started_reached : rtc step (genesis tokens0) started.
Proof.
  apply rtc_once. apply (step_run boot); [by split|done|].
  apply after_ok. vm_compute. reflexivity.
Qed.

Lemma deposit_ok : intentx_settlement pay_in started = Ok deposited.
Proof. apply after_ok. vm_compute. reflexivity. Qed.

Lemma deposited_reached : rtc step (genesis tokens0) deposited.
Proof.
  eapply rtc_r; [exact started_reached|]. apply (step_run pay_in); [by split|done|exact deposit_ok].
Qed.

(** A state with complete user accounts, as the program means them to be. *)
Definition complete : State :=
  mkState (configs started)
    (<[user_key admin := mkUserAccount admin usdc 5 255]>
      (<[user_key usdc := mkUserAccount usdc usdc 7 255]>
        (<[user_key alice := mkUserAccount alice usdc 1000 255]> ∅))) tokens0 [].
Definition sale : Settle :=
  mkSettle config_key admin usdc (user_key alice) (user_key usdc) (user_key admin).
Definition sold : State := after (ISettle sale 500 [7]%Z) complete.

Lemma sale_ok : intentx_settlement (ISettle sale 500 [7]%Z) complete = Ok sold.
Proof. apply after_ok. vm_compute. reflexivity. Qed.

Lemma complete_configured : well_configured complete.
Proof.
  intros k c. assert (configs complete = {[ config_key := mkConfig admin 100 admin 0 0 255 ]}) as ->
    by (vm_compute; reflexivity).
  rewrite lookup_singleton_Some. intros [_ <-]. unfold MAX_FEE_BPS. simpl. lia.
Qed.
End SettlementExample.

(** Selling for 500 at one percent: 495 to the seller, 5 in fees. *)
Lemma settle_moves_witness :
  bal (H:=Toy.instance) SettlementExample.sold (SettlementExample.user_key SettlementExample.alice) = 500%Z ∧
  bal (H:=Toy.instance) SettlementExample.sold (SettlementExample.user_key SettlementExample.usdc) = 502%Z ∧
  bal (H:=Toy.instance) SettlementExample.sold (SettlementExample.user_key SettlementExample.admin) = 10%Z.
Proof.
  destruct (settle_moves (H:=Toy.instance) SettlementExample.sale 500 [7]%Z _ _ SettlementExample.sale_ok
    SettlementExample.complete_configured ltac:(by vm_compute))
    as (c & c' & fee & Hc & _ & _ & Hfee & _ & _ & _ & _ & _ & _ & Hd & _).
  vm_compute in Hc. injection Hc as <-. simpl in Hfee. subst fee.
  destruct Hd as (HB & HS & HF & _); [by vm_compute..|].
  split_and!; (etransitivity; [eassumption|vm_compute; reflexivity]).
Defined.

(** After the program was set up the admin's word is still law. *)
Lemma authority_governs_witness :
  ∃ c, configs SettlementExample.started !! SettlementExample.config_key = Some c ∧
    (0 ≤ fee_bps c ≤ MAX_FEE_BPS)%Z.
Proof.
  destruct (authority_governs (H:=Toy.instance) _ _ SettlementExample.started_reached) as [Hf _].
  destruct (configs SettlementExample.started !! SettlementExample.config_key) as [c|] eqn:E;
    [|by vm_compute in E].
  exists c. split; [done|exact (Hf _ _ E)].
Defined.

(** Alice deposits 40 tokens; the vault has them, and she cannot have them back. *)
Lemma deposits_are_stuck_witness :
  ta_amount (Solana:=Toy.instance) (tokens SettlementExample.deposited) SettlementExample.vault = 40%Z ∧
  is_ok (withdraw (H:=Toy.instance)
    (mkWithdraw SettlementExample.config_key (SettlementExample.user_key SettlementExample.alice)
       SettlementExample.alice SettlementExample.usdc SettlementExample.wallet SettlementExample.vault
       (Toy.address [VAULT_SEED; SettlementExample.config_key] 255)) 40 SettlementExample.deposited) = false.
Proof.
  destruct (deposits_are_stuck (H:=Toy.instance) SettlementExample.user_inj _ _
    SettlementExample.started_reached) as [Hd _].
  destruct (deposits_are_stuck (H:=Toy.instance) SettlementExample.user_inj _ _
    SettlementExample.deposited_reached) as (_ & Hw & _). split.
  - destruct (Hd _ _ _ SettlementExample.deposit_ok) as [_ Hk].
    exact (Hk SettlementExample.vault).
  - apply Hw. by vm_compute.
Defined.
