(* ===== verification/Bytes.v ===== *)
(** * Bytes, big-endian integers and slices

    What the wire formats of the wallet and of the bridges share: a byte is a
    [Z] in [0..256), [to_be]/[of_be] are [to_be_bytes]/[from_be_bytes] and
    slicing out of range is an error ([None]). *)
From S2P Require Import Prelude.
Open Scope Z_scope.

Abbreviation bytes := (list Z) (only parsing).

Definition is_byte (b : Z) : Prop := 0 ≤ b < 256.
Definition all_bytes (l : bytes) : Prop := Forall is_byte l.

(** [v.to_be_bytes()] of an [8n]-bit integer *)
Fixpoint to_be (n : nat) (v : Z) : bytes :=
  match n with O => [] | S n => to_be n (v / 256) ++ [v mod 256] end.
(** [from_be_bytes] *)
Definition of_be (l : bytes) : Z := foldl (λ acc b, acc * 256 + b) 0 l.

(** [&l[l.iter().position(|&b| b != 0).unwrap_or(l.len())..]] *)
Fixpoint strip_zeros (l : bytes) : bytes :=
  match l with
  | [] => []
  | b :: r => if b =? 0 then strip_zeros r else l
  end.

(** The first [n] bytes and the rest. *)
Definition split_at (n : nat) (l : bytes) : option (bytes * bytes) :=
  if bool_decide (n ≤ length l)%nat then Some (take n l, drop n l) else None.

(** [&l[i..i + n]] *)
Definition slice (i n : nat) (l : bytes) : bytes := take n (drop i l).

Lemma u8_small n : 0 ≤ n < 256 → u8 n = n.
Proof. intros. apply Z.mod_small. change (2 ^ 8) with 256. lia. Qed.

Lemma length_to_be n v : length (to_be n v) = n.
Proof. revert v. induction n; intros v; simpl; [done|]. rewrite length_app, IHn. simpl. lia. Qed.

Lemma to_be_bytes n v : all_bytes (to_be n v).
Proof.
  revert v. induction n as [|n IH]; intros v; simpl; [by constructor|].
  apply Forall_app. split; [apply IH|]. constructor; [|by constructor].
  unfold is_byte. pose proof (Z.mod_pos_bound v 256). lia.
Qed.

Lemma of_be_snoc l b : of_be (l ++ [b]) = of_be l * 256 + b.
Proof. unfold of_be. by rewrite foldl_app. Qed.

Lemma of_be_app l1 l2 : of_be (l1 ++ l2) = of_be l1 * 256 ^ Z.of_nat (length l2) + of_be l2.
Proof.
  induction l2 as [|b l2 IH] using rev_ind; simpl.
  - rewrite app_nil_r. unfold of_be. simpl. lia.
  - rewrite app_assoc, !of_be_snoc, IH, length_app, Nat2Z.inj_add. simpl.
    rewrite Z.pow_add_r by lia. lia.
Qed.

Lemma of_be_cons b l : of_be (b :: l) = b * 256 ^ Z.of_nat (length l) + of_be l.
Proof. apply (of_be_app [b] l). Qed.

Lemma of_to_be n v : 0 ≤ v < 256 ^ Z.of_nat n → of_be (to_be n v) = v.
Proof.
  revert v. induction n as [|n IH]; intros v Hv; simpl.
  { rewrite Z.pow_0_r in Hv. unfold of_be. simpl. lia. }
  rewrite Nat2Z.inj_succ, Z.pow_succ_r in Hv by lia.
  rewrite of_be_snoc, IH; [pose proof (Z.div_mod v 256); lia|].
  split; [apply Z.div_pos; lia|apply Z.div_lt_upper_bound; lia].
Qed.

Lemma of_be_range l : all_bytes l → 0 ≤ of_be l < 256 ^ Z.of_nat (length l).
Proof.
  induction l as [|b l IH] using rev_ind; intros H.
  { unfold of_be. simpl. lia. }
  apply Forall_app in H as [Hl Hb]. apply Forall_cons in Hb as [Hb _]. unfold is_byte in Hb.
  rewrite of_be_snoc, length_app, Nat2Z.inj_add, Z.pow_add_r by lia.
  change (256 ^ Z.of_nat (length [b])) with 256.
  specialize (IH Hl). lia.
Qed.

Lemma to_of_be l : all_bytes l → to_be (length l) (of_be l) = l.
Proof.
  induction l as [|b l IH] using rev_ind; intros H; [done|].
  apply Forall_app in H as [Hl Hb]. apply Forall_cons in Hb as [Hb _]. unfold is_byte in Hb.
  rewrite length_app, Nat.add_comm. simpl. rewrite of_be_snoc.
  rewrite Z.div_add_l, Z.div_small, Z.add_0_r, IH by (done || lia).
  by rewrite Z.add_comm, Z.mod_add, Z.mod_small by lia.
Qed.

Lemma strip_zeros_of_be l : of_be (strip_zeros l) = of_be l.
Proof.
  induction l as [|b l IH]; [done|]. simpl. destruct (Z.eqb_spec b 0) as [->|]; [|done].
  rewrite IH, of_be_cons. lia.
Qed.

Lemma strip_zeros_bytes l : all_bytes l → all_bytes (strip_zeros l).
Proof. induction 1; simpl; [constructor|]. case_match; [done|by constructor]. Qed.

Lemma strip_zeros_length l : (length (strip_zeros l) ≤ length l)%nat.
Proof. induction l as [|b l IH]; simpl; [lia|]. case_match; simpl; lia. Qed.

Lemma strip_zeros_head l b r : strip_zeros l = b :: r → b ≠ 0.
Proof.
  induction l as [|c l IH]; simpl; [done|]. destruct (Z.eqb_spec c 0); [done|]. by intros [= -> ->].
Qed.

Lemma split_at_app n l1 l2 : length l1 = n → split_at n (l1 ++ l2) = Some (l1, l2).
Proof.
  intros <-. unfold split_at. rewrite bool_decide_eq_true_2 by (rewrite length_app; lia).
  by rewrite take_app_length, drop_app_length.
Qed.

Lemma slice_app i n a b c : length a = i → length b = n → slice i n (a ++ b ++ c) = b.
Proof. intros <- <-. unfold slice. by rewrite drop_app_length, take_app_length. Qed.

Lemma slice_app_end i n a b : length a = i → length b = n → slice i n (a ++ b) = b.
Proof. intros Ha Hb. rewrite <- (app_nil_r b) at 1. by apply slice_app. Qed.

Create HintDb bytes discriminated.
#[export] Hint Resolve to_be_bytes strip_zeros_bytes : bytes.
