(* ===== verification/Text.v ===== *)
(** * Text: decimal numbers and splitting

    [format!("{n}")], [str::parse] for unsigned integers, [split_once('/')]. *)
From Stdlib Require Import Ascii.
From Stdlib Require DecimalString DecimalN DecimalPos DecimalFacts.
From S2P Require Import Prelude.
Open Scope Z_scope.

(** [format!("{n}")] of an unsigned integer *)
Definition print_uint (n : Z) : string := DecimalString.NilZero.string_of_uint (N.to_uint (Z.to_N n)).

(** [s.parse::<uN>()]: an optional plus sign, digits, and no more than [max] *)
Definition parse_uint (max : Z) (s : string) : option Z :=
  let digits := match s with String "+"%char r => r | _ => s end in
  u ← DecimalString.NilZero.uint_of_string digits;
  let n := Z.of_N (N.of_uint u) in
  if n <=? max then Some n else None.

(** [s.split_once('/')] *)
Fixpoint split_once (s : string) : option (string * string) :=
  match s with
  | "" => None
  | String c r =>
      if Ascii.eqb c "/" then Some (""%string, r)
      else '(a, b) ← split_once r; Some (String c a, b)
  end.

(** Does the text hold a slash? *)
Fixpoint has_slash (s : string) : bool :=
  match s with "" => false | String c r => Ascii.eqb c "/" || has_slash r end.

(** [s.strip_prefix("0x").unwrap_or(s)] *)
Definition strip_0x (s : string) : string :=
  match s with
  | String "0"%char (String "x"%char r) => r
  | _ => s
  end.

(** [format!("{n}")] of a signed integer *)
Definition print_int (n : Z) : string := if n <? 0 then "-" +:+ print_uint (- n) else print_uint n.

(** [s.contains(sub)] *)
Definition contains (sub s : string) : bool := match String.index 0 sub s with Some _ => true | None => false end.

(** [s.to_lowercase()] of ASCII text *)
Definition lower (c : ascii) : ascii :=
  let n := nat_of_ascii c in
  if (65 <=? n)%nat && (n <=? 90)%nat then ascii_of_nat (n + 32) else c.
Fixpoint to_lowercase (s : string) : string :=
  match s with "" => "" | String c r => String (lower c) (to_lowercase r) end.

(** [s.as_bytes()] *)
Definition as_bytes (s : string) : list Z :=
  (λ c, Z.of_nat (nat_of_ascii c)) <$> String.list_ascii_of_string s.

(** [s.trim_end_matches(c)] *)
Fixpoint trim_end_matches (c : ascii) (s : string) : string :=
  match s with
  | "" => ""
  | String d r => match trim_end_matches c r with
                  | "" => if Ascii.eqb d c then "" else String d ""
                  | r => String d r
                  end
  end%string.

Lemma split_once_app a b : has_slash a = false → split_once (a +:+ "/" +:+ b) = Some (a, b).
Proof.
  induction a as [|c a IH]; [done|]. simpl. destruct (Ascii.eqb c "/"); [done|].
  simpl. intros H. by rewrite IH.
Qed.

(** Digits are neither slashes nor signs. *)
Lemma digits_no_slash u : has_slash (DecimalString.NilEmpty.string_of_uint u) = false.
Proof. by induction u. Qed.
Lemma print_no_slash n : has_slash (print_uint n) = false.
Proof.
  unfold print_uint, DecimalString.NilZero.string_of_uint.
  destruct (N.to_uint _) eqn:E; [done|apply (digits_no_slash (Decimal.D0 _))|..];
    match goal with |- context [DecimalString.NilEmpty.string_of_uint ?u] => apply digits_no_slash end.
Qed.

Lemma print_first_digit n :
  match print_uint n with String c _ => c ≠ "+"%char | EmptyString => True end.
Proof.
  unfold print_uint, DecimalString.NilZero.string_of_uint. by destruct (N.to_uint _).
Qed.

Lemma parse_print max n : 0 ≤ n ≤ max → parse_uint max (print_uint n) = Some n.
Proof.
  intros Hn. unfold parse_uint.
  assert (match print_uint n with String "+" r => r | _ => print_uint n end = print_uint n) as ->.
  { pose proof (print_first_digit n) as H. destruct (print_uint n) as [|c r]; [done|].
    destruct c as [[] [] [] [] [] [] [] []]; done. }
  unfold print_uint. rewrite DecimalString.NilZero.usu.
  - simpl. rewrite DecimalN.Unsigned.of_to, Z2N.id by lia. by rewrite (proj2 (Z.leb_le _ _)) by lia.
  - destruct (Z.to_N n); [done|]. simpl. apply DecimalPos.Unsigned.to_uint_nonnil.
Qed.

(** A number never starts with a letter. *)
Lemma parse_letter max c s : DecimalString.uint_of_char c (Some Decimal.Nil) = None → c ≠ "+"%char →
  parse_uint max (String c s) = None.
Proof.
  intros Hc Hp. unfold parse_uint.
  assert (match String c s with String "+" r => r | _ => String c s end = String c s) as ->.
  { destruct c as [[] [] [] [] [] [] [] []]; done. }
  assert (DecimalString.NilZero.uint_of_string (String c s) = None) as ->; [|done].
  unfold DecimalString.NilZero.uint_of_string. simpl.
  destruct (DecimalString.NilEmpty.uint_of_string s); destruct c as [[] [] [] [] [] [] [] []]; done.
Qed.
