(* ===== verification/Breaker.v ===== *)
(** * Circuit breakers: [src/src/circuit_breaker.rs]

    A breaker is shared between tasks: the admission of a call and the
    recording of its outcome are two critical sections, and other calls run in
    between.  The metrics and logs are left out; instants are whole seconds. *)
From stdpp Require Import gmap relations.
From S2P Require Import Prelude Monad Float64 Model Text.
Open Scope Z_scope.

Record CircuitBreakerConfig := mkBreakerConfig {
  failure_threshold : Z;
  reset_timeout : Z;
  cfg_name : string;
}.

Inductive CircuitError (E : Type) :=
| COpen (breaker : string) (remaining_secs : Z)
| CInner (e : E).
Arguments COpen {E} _ _.
Arguments CInner {E} _.

(** [state.as_str()], and [Display] of an error *)
Definition as_str (s : BreakerState) : string :=
  match s with BClosed => "closed" | BOpen => "open" | BHalfOpen => "half_open" end.
Definition circuit_error_text {E} (inner_text : E → string) (e : CircuitError E) : string :=
  match e with
  | COpen breaker remaining_secs =>
      "Circuit breaker '" +:+ breaker +:+ "' is open (resets in " +:+ print_uint remaining_secs +:+ "s)"
  | CInner e => inner_text e
  end.

Module CircuitBreakerConfig.
Definition new (name : string) (failure_threshold reset_timeout_secs : Z) : CircuitBreakerConfig :=
  mkBreakerConfig failure_threshold reset_timeout_secs name.
Definition ethereum_rpc := new "ethereum_rpc" 5 30.
Definition solana_rpc := new "solana_rpc" 5 20.
Definition wormhole_guardian := new "wormhole_guardian" 3 60.
Definition layerzero_api := new "layerzero_api" 3 60.
Definition price_oracle (source : string) := new ("price_" +:+ source) 3 15.
End CircuitBreakerConfig.

Module CircuitBreaker.

Definition new : BreakerInner := mkInner BClosed 0 None None None 0 0 0.

(** [u32] and [u64] counters *)
Definition u32_add (x y : Z) : Z := (x + y) `mod` 2 ^ 32.

(** The first critical section of [call]: the state after it, and how long an
    open breaker still rejects. *)
Definition check_open (config : CircuitBreakerConfig) (now : Z) (b : BreakerInner)
  : BreakerInner * option Z :=
  match cb_state b, cb_opened_at b with
  | BOpen, Some opened =>
      let elapsed := (now - opened) `max` 0 in
      if reset_timeout config <=? elapsed then
        (mkInner BHalfOpen (cb_failure_count b) (cb_last_failure b) (cb_last_success b) (cb_opened_at b)
           (cb_total_rejections b) (cb_total_successes b) (cb_total_failures b), None)
      else
        (mkInner (cb_state b) (cb_failure_count b) (cb_last_failure b) (cb_last_success b) (cb_opened_at b)
           (u64 (cb_total_rejections b + 1)) (cb_total_successes b) (cb_total_failures b),
         Some (reset_timeout config - elapsed))
  | _, _ => (b, None)
  end.

Definition record_success (now : Z) (b : BreakerInner) : BreakerInner :=
  let total := u64 (cb_total_successes b + 1) in
  match cb_state b with
  | BHalfOpen => mkInner BClosed 0 (cb_last_failure b) (Some now) None (cb_total_rejections b) total
                   (cb_total_failures b)
  | BClosed => mkInner BClosed 0 (cb_last_failure b) (Some now) (cb_opened_at b) (cb_total_rejections b)
                 total (cb_total_failures b)
  | BOpen => mkInner BOpen (cb_failure_count b) (cb_last_failure b) (Some now) (cb_opened_at b)
               (cb_total_rejections b) total (cb_total_failures b)
  end.

Definition record_failure (config : CircuitBreakerConfig) (now : Z) (b : BreakerInner) : BreakerInner :=
  let count := u32_add (cb_failure_count b) 1 in
  let total := u64 (cb_total_failures b + 1) in
  let after state opened_at := mkInner state count (Some now) (cb_last_success b) opened_at
                                 (cb_total_rejections b) (cb_total_successes b) total in
  match cb_state b with
  | BClosed => if failure_threshold config <=? count then after BOpen (Some now)
               else after BClosed (cb_opened_at b)
  | BHalfOpen => after BOpen (Some now)
  | BOpen => after BOpen (cb_opened_at b)
  end.

Definition reset (b : BreakerInner) : BreakerInner :=
  mkInner BClosed 0 (cb_last_failure b) (cb_last_success b) None (cb_total_rejections b)
    (cb_total_successes b) (cb_total_failures b).

(** The breakers of the process, by name; a breaker nobody used yet is new. *)
Definition inner_of (name : string) (d : CoreDb) : BreakerInner := default new (breakers d !! name).
Definition set_inner (name : string) (b : BreakerInner) (d : CoreDb) : CoreDb :=
  set_breakers (<[name := b]> (breakers d)) d.

Definition state {E} (config : CircuitBreakerConfig) : M CoreDb BreakerState E :=
  reads (λ d, cb_state (inner_of (cfg_name config) d)).

Definition call {A E} (config : CircuitBreakerConfig) (operation : M CoreDb A E)
  : M CoreDb A (CircuitError E) :=
  let name := cfg_name config in
  let* t := now in
  let* b := reads (inner_of name) in
  let '(b, rejected) := check_open config t b in
  modify (set_inner name b) ;;;
  match rejected with
  | Some remaining_secs => throw (COpen name remaining_secs)
  | None =>
      let* r := attempt operation in
      let* t := now in
      match r with
      | Ok result => modify (λ d, set_inner name (record_success t (inner_of name d)) d) ;;; ret result
      | Err e => modify (λ d, set_inner name (record_failure config t (inner_of name d)) d) ;;;
                 throw (CInner e)
      end
  end.

End CircuitBreaker.

(** A call that succeeds ran its operation. *)
Lemma call_Ok {A E} config (m : M CoreDb A E) e a e' : CircuitBreaker.call config m e = (Ok a, e') →
  ∃ e1 e2, m e1 = (Ok a, e2).
Proof.
  unfold CircuitBreaker.call. intros (t & e1 & _ & H)%bind_Ok. apply bind_Ok in H as (b & e2 & _ & H).
  destruct (CircuitBreaker.check_open _ _ _) as [b' [r|]]; apply bind_Ok in H as (u & e3 & _ & H);
    [by apply throw_Ok in H|].
  apply bind_Ok in H as (r & e4 & Hm & H). apply attempt_Ok in Hm.
  apply bind_Ok in H as (t' & e5 & _ & H).
  destruct r as [a'|x]; apply bind_Ok in H as (u' & e6 & _ & H); [|by apply throw_Ok in H].
  apply ret_Ok in H as [-> _]. eauto.
Qed.

(** * Proofs: What a circuit breaker guarantees

    Under any interleaving of calls, and for a service that keeps failing. *)

Import CircuitBreaker.
Open Scope Z_scope.

(** ** Interleavings *)
Section interleavings.
Context (config : CircuitBreakerConfig).

(** A breaker, the calls that were admitted and have not finished, and the
    time. *)
Record World := mkWorld { w_breaker : BreakerInner; w_running : nat; w_now : Z }.

Inductive step : World → World → Prop :=
| st_time w t : w_now w ≤ t → step w (mkWorld (w_breaker w) (w_running w) t)
| st_admit w b : check_open config (w_now w) (w_breaker w) = (b, None) →
    step w (mkWorld b (S (w_running w)) (w_now w))
| st_reject w b r : check_open config (w_now w) (w_breaker w) = (b, Some r) →
    step w (mkWorld b (w_running w) (w_now w))
| st_success w n : w_running w = S n →
    step w (mkWorld (record_success (w_now w) (w_breaker w)) n (w_now w))
| st_failure w n : w_running w = S n →
    step w (mkWorld (record_failure config (w_now w) (w_breaker w)) n (w_now w))
| st_reset w : step w (mkWorld (reset (w_breaker w)) (w_running w) (w_now w)).

Definition start (t : Z) : World := mkWorld new 0 t.

(** A closed breaker has seen fewer failures in a row than its threshold; one
    that is not closed knows when it opened. *)
Record breaker_inv (w : World) : Prop := {
  bi_closed : cb_state (w_breaker w) = BClosed → 0 ≤ cb_failure_count (w_breaker w) < failure_threshold config;
  bi_opened : cb_state (w_breaker w) ≠ BClosed →
    ∃ o, cb_opened_at (w_breaker w) = Some o ∧ o ≤ w_now w;
}.

Lemma admit_state t b b' r : check_open config t b = (b', r) →
  (b' = b ∧ r = None ∨
   cb_state b = BOpen ∧ cb_failure_count b' = cb_failure_count b ∧ cb_opened_at b' = cb_opened_at b ∧
   ((cb_state b' = BHalfOpen ∧ r = None) ∨ (cb_state b' = BOpen ∧ is_Some r))).
Proof.
  unfold check_open. destruct (cb_state b) eqn:Hs; [intros [= <- <-]; auto| |intros [= <- <-]; auto].
  destruct (cb_opened_at b) as [o|]; [|intros [= <- <-]; auto].
  destruct (_ <=? _); intros [= <- <-]; simpl; naive_solver.
Qed.

Lemma admit_rejects t b b' r o : cb_opened_at b = Some o → o ≤ t →
  check_open config t b = (b', r) →
  (is_Some r ↔ cb_state b = BOpen ∧ t < o + reset_timeout config).
Proof.
  intros Ho Ht. unfold check_open. rewrite Ho. rewrite Z.max_l by lia.
  destruct (cb_state b) eqn:Hs; [| |].
  - intros [= <- <-]. split; [by intros [? ?]|by intros [? _]].
  - destruct (Z.leb_spec (reset_timeout config) (t - o)) as [Hle|Hlt]; intros [= <- <-].
    + split; [by intros [? ?]|intros [_ ?]; lia].
    + split; [intros _; split; [done|lia]|eauto].
  - intros [= <- <-]. split; [by intros [? ?]|by intros [? _]].
Qed.

Hypothesis threshold_u32 : 0 < failure_threshold config < 2 ^ 32.

Lemma step_inv w w' : step w w' → breaker_inv w → breaker_inv w'.
Proof.
  intros Hst [Hc Ho]. destruct Hst as [w t Ht|w b Ha|w b r Ha|w n Hn|w n Hn|w]; split; simpl in *.
  - done.
  - intros Hs. destruct (Ho Hs) as (o & ? & ?). exists o. split; [done|lia].
  - apply admit_state in Ha as [[-> _]|(Hs & Hf & Hoa & [[Hs' _]|[Hs' _]])]; [done|congruence..].
  - apply admit_state in Ha as [[-> _]|(Hs & Hf & Hoa & _)]; [done|]. intros _. rewrite Hoa. apply Ho. congruence.
  - apply admit_state in Ha as [[-> _]|(Hs & Hf & Hoa & [[Hs' _]|[Hs' _]])]; [done|congruence..].
  - apply admit_state in Ha as [[-> _]|(Hs & Hf & Hoa & _)]; [done|]. intros _. rewrite Hoa. apply Ho. congruence.
  - unfold record_success. destruct (cb_state (w_breaker w)); simpl; intros; [lia|done|lia].
  - unfold record_success. destruct (cb_state (w_breaker w)); simpl; intros; [done|by apply Ho|done].
  - unfold record_failure. destruct (cb_state (w_breaker w)); simpl; [|done..].
    specialize (Hc eq_refl). unfold u32_add. rewrite Z.mod_small by lia.
    destruct (Z.leb_spec (failure_threshold config) (cb_failure_count (w_breaker w) + 1)); simpl; [done|lia].
  - unfold record_failure. destruct (cb_state (w_breaker w)); simpl; [|intros _; by apply Ho|intros _; eexists; split; [done|lia]].
    destruct (_ <=? _); simpl; [intros _; eexists; split; [done|lia]|done].
  - lia.
  - done.
Qed.

Lemma reachable_inv t0 w : rtc step (start t0) w → breaker_inv w.
Proof.
  intros Hr. assert (breaker_inv (start t0)) as Hi by (split; [simpl; lia|done]).
  induction Hr; eauto using step_inv.
Qed.

(** However calls interleave, a closed breaker has counted fewer failures
    than its threshold, and a call is rejected exactly when the breaker is open
    and opened less than the reset timeout ago: it never rejects while closed
    or half open, and never for longer than the timeout. *)
Theorem breaker_rejects_only_while_open t0 w b r :
  rtc step (start t0) w → check_open config (w_now w) (w_breaker w) = (b, r) →
  (cb_state (w_breaker w) = BClosed → cb_failure_count (w_breaker w) < failure_threshold config) ∧
  (is_Some r ↔ cb_state (w_breaker w) = BOpen ∧
     ∃ o, cb_opened_at (w_breaker w) = Some o ∧ w_now w < o + reset_timeout config).
Proof.
  intros [Hc Ho]%reachable_inv Ha. split; [intros Hs; by apply Hc|].
  destruct (decide (cb_state (w_breaker w) = BClosed)) as [Hs|Hs].
  - unfold check_open in Ha. rewrite Hs in Ha. injection Ha as <- <-. rewrite Hs.
    split; [by intros [? ?]|by intros [? _]].
  - destruct (Ho Hs) as (o & Hoa & Ht). rewrite (admit_rejects _ _ _ _ _ Hoa Ht Ha), Hoa.
    split; [intros [? ?]; eauto|]. intros [? (o' & [= <-] & ?)]. done.
Qed.

(** A half-open breaker admits every call, not one probe. *)
Lemma half_open_admits_all w n : cb_state (w_breaker w) = BHalfOpen →
  rtc step w (mkWorld (w_breaker w) (n + w_running w) (w_now w)).
Proof.
  intros Hs. induction n as [|n IH]; [by destruct w|].
  eapply rtc_r; [exact IH|]. simpl. apply (st_admit (mkWorld _ (n + w_running w) _)). simpl.
  unfold check_open. by rewrite Hs.
Qed.
End interleavings.

(** ** A service that is down *)
Section outage.
Context (config : CircuitBreakerConfig) {E : Type} (operation : M CoreDb unit E).

Definition with_inner (b : BreakerInner) (e : Env CoreDb) : Env CoreDb :=
  with_db (set_inner (cfg_name config) b (env_db e)) e.

Lemma with_inner_twice b b' e : with_inner b (with_inner b' e) = with_inner b e.
Proof.
  unfold with_inner, with_db, set_inner. simpl. f_equal. unfold set_breakers. simpl. f_equal.
  by rewrite insert_insert, decide_True by done.
Qed.
Lemma inner_of_set_inner name b d : inner_of name (set_inner name b d) = b.
Proof. unfold inner_of. simpl. by rewrite lookup_insert, decide_True by done. Qed.
Lemma inner_of_with_inner b e : inner_of (cfg_name config) (env_db (with_inner b e)) = b.
Proof. apply inner_of_set_inner. Qed.

(** The service always fails, takes no time on the breaker's clock, and knows
    nothing of breakers. *)
Hypothesis always_fails : ∀ e, ∃ x, fst (operation e) = Err x.
Hypothesis instant : steady operation.
Hypothesis oblivious : ∀ b e,
  snd (operation (with_inner b e)) = with_inner b (snd (operation e)).

Definition try (e : Env CoreDb) : Env CoreDb := snd (call config operation e).
Definition operate (e : Env CoreDb) : Env CoreDb := snd (operation e).

Definition closed_with (n : Z) (b : BreakerInner) : Prop := cb_state b = BClosed ∧ cb_failure_count b = n.
Definition open_since (t : Z) (b : BreakerInner) : Prop := cb_state b = BOpen ∧ cb_opened_at b = Some t.

Lemma try_admitted b e : check_open config (env_now e) b = (b, None) →
  try (with_inner b e) =
    with_inner (record_failure config (env_now e) b) (operate e).
Proof.
  intros Ha. unfold try, call, bind, now, reads, modify, attempt.
  rewrite inner_of_with_inner. change (env_now (with_inner b e)) with (env_now e). rewrite Ha.
  change (with_db (set_inner (cfg_name config) b (env_db (with_inner b e))) (with_inner b e))
    with (with_inner b (with_inner b e)). rewrite with_inner_twice.
  destruct (always_fails (with_inner b e)) as [x Hx]. specialize (oblivious b e).
  destruct (operation (with_inner b e)) as [r e'] eqn:Eop. simpl in Hx, oblivious. subst r e'.
  unfold throw. simpl. fold (operate e).
  change (with_db ?d (with_inner b ?e')) with (with_db d e').
  rewrite inner_of_set_inner, (instant e : env_now (operate e) = _).
  exact (with_inner_twice _ b (operate e)).
Qed.

Lemma try_rejected b b' r e : check_open config (env_now e) b = (b', Some r) →
  try (with_inner b e) = with_inner b' e.
Proof.
  intros Ha. unfold try, call, bind, now, reads, modify.
  rewrite inner_of_with_inner. change (env_now (with_inner b e)) with (env_now e). rewrite Ha.
  exact (with_inner_twice _ b e).
Qed.

Hypothesis threshold_u32 : 0 < failure_threshold config < 2 ^ 32.
Hypothesis timeout_positive : 0 < reset_timeout config.

Definition threshold : nat := Z.to_nat (failure_threshold config).

Lemma now_operated n e : env_now (Nat.iter n operate e) = env_now e.
Proof. induction n as [|n IH]; [done|]. simpl. by rewrite (instant _ : env_now (operate _) = _). Qed.

Lemma outage e k : ∃ b,
  Nat.iter k try (with_inner new e) = with_inner b (Nat.iter (k `min` threshold) operate e) ∧
  if decide (k < threshold)%nat then closed_with (Z.of_nat k) b else open_since (env_now e) b.
Proof.
  induction k as [|k (b & Hrun & Hb)].
  { exists new. split; [done|]. rewrite decide_True; [done|]. unfold threshold. lia. }
  change (Nat.iter (S k) try ?x) with (try (Nat.iter k try x)). rewrite Hrun.
  destruct (decide (k < threshold)%nat) as [Hk|Hk].
  - destruct Hb as [Hs Hc]. rewrite (Nat.min_l k) by lia. rewrite (Nat.min_l (S k)) by lia.
    rewrite try_admitted by (unfold check_open; by rewrite Hs). rewrite now_operated.
    exists (record_failure config (env_now e) b). split; [done|].
    unfold record_failure. rewrite Hs, Hc. unfold u32_add, threshold in *. rewrite Z.mod_small by lia.
    destruct (Z.leb_spec (failure_threshold config) (Z.of_nat k + 1)).
    + rewrite decide_False by lia. done.
    + rewrite decide_True by lia. split; [done|]. simpl. lia.
  - destruct Hb as [Hs Ho]. rewrite !Nat.min_r by lia.
    destruct (check_open config (env_now (Nat.iter threshold operate e)) b) as [b' r] eqn:Ha.
    assert (is_Some r) as [r' ->].
    { apply (admit_rejects config _ _ _ _ (env_now e) Ho) in Ha; rewrite now_operated in *; [|lia].
      apply Ha. split; [done|lia]. }
    rewrite (try_rejected _ _ _ _ Ha). exists b'. split; [done|]. rewrite decide_False by lia.
    apply admit_state in Ha as [[_ ?]|(_ & _ & Hoa & [[_ ?]|[Hs' _]])]; [done..|].
    split; [done|]. by rewrite Hoa.
Qed.

End outage.

(** ** Examples *)
Module BreakerExample.
Definition config : CircuitBreakerConfig := CircuitBreakerConfig.wormhole_guardian.
(** A service that counts its attempts and fails. *)
Definition down : M CoreDb unit unit :=
  λ e, (Err tt, mkEnv (env_db e) (env_faults e) (env_uuid e) (S (env_drawn e)) (env_now e)).
Definition origin : Env CoreDb := mkEnv empty_db [] (λ n, N.of_nat n) 0 50.

(** Three failures, and the fourth call. *)
Definition broken : World :=
  mkWorld (record_failure config 5 (record_failure config 5 (record_failure config 5 new))) 0 5.
Lemma breaks : rtc (step config) (start 5) broken.
Proof.
  set (fail := record_failure config 5).
  assert (∀ b, cb_state b = BClosed → rtc (step config) (mkWorld b 0 5) (mkWorld (fail b) 0 5)) as Hfail.
  { intros b Hb. apply (rtc_l _ _ (mkWorld b 1 5)).
    - apply (st_admit _ (mkWorld b 0 5)). unfold check_open. simpl. by rewrite Hb.
    - apply rtc_once. by apply (st_failure _ (mkWorld b 1 5) 0). }
  etrans; [by apply (Hfail new)|]. etrans; by apply Hfail.
Qed.
End BreakerExample.

Lemma breaker_rejects_only_while_open_witness :
  let w := BreakerExample.broken in
  snd (check_open BreakerExample.config (w_now w) (w_breaker w)) = Some 60 ∧ cb_state (w_breaker w) = BOpen.
Proof.
  cbv zeta. split; [done|].
  refine (proj1 (proj1 (proj2 (breaker_rejects_only_while_open BreakerExample.config _ 5
    BreakerExample.broken _ _ BreakerExample.breaks _)) _)); [done|apply surjective_pairing|by eexists].
Defined.

