(* ===== verification/Rlp.v ===== *)
(** * RLP and Ethereum transactions: [src/src/wallet/rlp.rs]

    The encoder of the wallet, a reference decoder after Appendix B of the
    Yellow Paper that the encoder is proved against, and the payloads that are
    signed. *)
From S2P Require Import Prelude Bytes.
Open Scope Z_scope.

Module Rlp.

(** ** Encoding *)

Definition to_be_bytes_trimmed (val : Z) : bytes := strip_zeros (to_be 8 val).

Definition encode_bytes (data : bytes) : bytes :=
  let n := Z.of_nat (length data) in
  let prefixed :=
    if n <=? 55 then u8 (128 + u8 n) :: data
    else
      let len_bytes := to_be_bytes_trimmed (u64 n) in
      u8 (183 + u8 (Z.of_nat (length len_bytes))) :: len_bytes ++ data in
  match data with
  | [b] => if b <=? 127 then [b] else prefixed
  | _ => prefixed
  end.

Definition wrap_list (payload : bytes) : bytes :=
  let n := Z.of_nat (length payload) in
  if n <=? 55 then u8 (192 + u8 n) :: payload
  else
    let len_bytes := to_be_bytes_trimmed (u64 n) in
    u8 (247 + u8 (Z.of_nat (length len_bytes))) :: len_bytes ++ payload.

Definition encode_list (items : list bytes) : bytes := wrap_list (concat items).

Definition encode_u64 (val : Z) : bytes :=
  if val =? 0 then encode_bytes [] else encode_bytes (to_be_bytes_trimmed val).
Definition encode_u128 (val : Z) : bytes :=
  if val =? 0 then encode_bytes [] else encode_bytes (strip_zeros (to_be 16 val)).
Definition encode_u256 (val : bytes) : bytes :=
  match strip_zeros val with
  | [] => encode_bytes []
  | stripped => encode_bytes stripped
  end.
Definition encode_empty : bytes := [128].
Definition encode_address (addr : bytes) : bytes := encode_bytes addr.

(** ** Transactions *)

Record LegacyTxFields := mkLegacyTx {
  lg_nonce : Z;
  lg_gas_price : Z;
  lg_gas_limit : Z;
  lg_to : bytes;
  lg_value : Z;
  lg_data : bytes;
  lg_chain_id : Z;
}.

Definition encode_legacy_unsigned (tx : LegacyTxFields) : bytes :=
  encode_list [
    encode_u64 (lg_nonce tx); encode_u64 (lg_gas_price tx); encode_u64 (lg_gas_limit tx);
    encode_address (lg_to tx); encode_u128 (lg_value tx); encode_bytes (lg_data tx);
    encode_u64 (lg_chain_id tx); encode_empty; encode_empty].

Definition encode_legacy_signed (tx : LegacyTxFields) (v : Z) (r s : bytes) : bytes :=
  encode_list [
    encode_u64 (lg_nonce tx); encode_u64 (lg_gas_price tx); encode_u64 (lg_gas_limit tx);
    encode_address (lg_to tx); encode_u128 (lg_value tx); encode_bytes (lg_data tx);
    encode_u64 v; encode_u256 r; encode_u256 s].

Record Eip1559TxFields := mkEip1559Tx {
  chain_id : Z;
  nonce : Z;
  max_priority_fee_per_gas : Z;
  max_fee_per_gas : Z;
  gas_limit : Z;
  to : bytes;
  value : Z;
  data : bytes;
}.

Definition encode_eip1559_unsigned (tx : Eip1559TxFields) : bytes :=
  let rlp := encode_list [
    encode_u64 (chain_id tx); encode_u64 (nonce tx); encode_u64 (max_priority_fee_per_gas tx);
    encode_u64 (max_fee_per_gas tx); encode_u64 (gas_limit tx); encode_address (to tx);
    encode_u128 (value tx); encode_bytes (data tx); encode_list []] in
  2 :: rlp.

Definition encode_eip1559_signed (tx : Eip1559TxFields) (y_parity : Z) (r s : bytes) : bytes :=
  let rlp := encode_list [
    encode_u64 (chain_id tx); encode_u64 (nonce tx); encode_u64 (max_priority_fee_per_gas tx);
    encode_u64 (max_fee_per_gas tx); encode_u64 (gas_limit tx); encode_address (to tx);
    encode_u128 (value tx); encode_bytes (data tx); encode_list [];
    encode_u64 y_parity; encode_u256 r; encode_u256 s] in
  2 :: rlp.

(** ** The reference decoder *)

Inductive Item :=
| Str (data : bytes)
| Lst (items : list Item).

(** A payload whose length is in the prefix, or in the bytes after it. *)
Definition short (base p : Z) (r : bytes) : option (bytes * bytes) := split_at (Z.to_nat (p - base)) r.
Definition long (base p : Z) (r : bytes) : option (bytes * bytes) :=
  '(len, r) ← split_at (Z.to_nat (p - base)) r; split_at (Z.to_nat (of_be len)) r.

(** One item off the front. The fuel bounds the nesting and the widths. *)
Fixpoint decode (fuel : nat) (bs : bytes) : option (Item * bytes) :=
  match fuel, bs with
  | S fuel, p :: r =>
      if p <=? 127 then Some (Str [p], r)
      else if p <=? 183 then '(d, r) ← short 128 p r; Some (Str d, r)
      else if p <=? 191 then '(d, r) ← long 183 p r; Some (Str d, r)
      else if p <=? 247 then
        '(d, r) ← short 192 p r; xs ← decode_items fuel d; Some (Lst xs, r)
      else '(d, r) ← long 247 p r; xs ← decode_items fuel d; Some (Lst xs, r)
  | _, _ => None
  end
with decode_items (fuel : nat) (bs : bytes) : option (list Item) :=
  match fuel with
  | O => None
  | S fuel =>
      match bs with
      | [] => Some []
      | _ => '(x, r) ← decode fuel bs; xs ← decode_items fuel r; Some (x :: xs)
      end
  end.

(** The encoder on whole items. *)
Fixpoint encode (x : Item) : bytes :=
  match x with
  | Str d => encode_bytes d
  | Lst xs => encode_list (map encode xs)
  end.

(** Items of bytes; the length of an encoding is a [usize]. *)
Fixpoint item_bytes (x : Item) : Prop :=
  match x with
  | Str d => all_bytes d
  | Lst xs => foldr (λ y P, item_bytes y ∧ P) True xs
  end.

End Rlp.
