(* ===== verification/RlpCorrect.v ===== *)
(** * What the RLP encoder guarantees

    The reference decoder reads every encoding back, whatever follows it, so
    the payload of a transaction determines the transaction that is signed. *)
From S2P Require Import Prelude Bytes Rlp.
Import Rlp.
Open Scope Z_scope.

(** ** Lengths and prefixes *)

Lemma trimmed_spec n : 0 < n < 2 ^ 64 →
  of_be (to_be_bytes_trimmed n) = n ∧ (1 ≤ length (to_be_bytes_trimmed n) ≤ 8)%nat.
Proof.
  intros Hn. unfold to_be_bytes_trimmed.
  assert (of_be (strip_zeros (to_be 8 n)) = n) as E
    by (rewrite strip_zeros_of_be; apply of_to_be; change (256 ^ Z.of_nat 8) with (2 ^ 64); lia).
  split; [done|]. split.
  - destruct (strip_zeros (to_be 8 n)); [|simpl; lia]. unfold of_be in E. simpl in E. lia.
  - etransitivity; [apply strip_zeros_length|]. by rewrite length_to_be.
Qed.

Lemma u64_small n : 0 ≤ n < 2 ^ 64 → u64 n = n.
Proof. intros. apply Z.mod_small. lia. Qed.

(** What a prefix [base] puts in front of a payload. *)
Definition prefixed (base : Z) (payload enc : bytes) : Prop :=
  (∃ p, enc = p :: payload ∧ p = base + Z.of_nat (length payload) ∧ (length payload ≤ 55)%nat) ∨
  (∃ p len, enc = p :: len ++ payload ∧ p = base + 55 + Z.of_nat (length len) ∧
    (1 ≤ length len ≤ 8)%nat ∧ of_be len = Z.of_nat (length payload)).

Lemma wrap_list_prefixed d : Z.of_nat (length d) < 2 ^ 64 → prefixed 192 d (wrap_list d).
Proof.
  intros Hn. unfold wrap_list. destruct (Z.leb_spec (Z.of_nat (length d)) 55) as [H|H].
  - left. eexists. split; [done|]. split; [|lia]. by rewrite !u8_small by (rewrite ?u8_small; lia).
  - right. rewrite u64_small by lia. destruct (trimmed_spec (Z.of_nat (length d))) as [E L]; [lia|].
    eexists _, _. split; [done|]. split; [|done]. rewrite !u8_small by (rewrite ?u8_small; lia). lia.
Qed.

Lemma encode_bytes_prefixed d : Z.of_nat (length d) < 2 ^ 64 →
  (∃ b, d = [b] ∧ b ≤ 127 ∧ encode_bytes d = [b]) ∨
  prefixed 128 d (encode_bytes d).
Proof.
  intros Hn. unfold encode_bytes.
  assert (prefixed 128 d (if Z.of_nat (length d) <=? 55 then u8 (128 + u8 (Z.of_nat (length d))) :: d
    else u8 (183 + u8 (Z.of_nat (length (to_be_bytes_trimmed (u64 (Z.of_nat (length d))))))) ::
         to_be_bytes_trimmed (u64 (Z.of_nat (length d))) ++ d)) as Hp.
  { destruct (Z.leb_spec (Z.of_nat (length d)) 55) as [H|H].
    - left. eexists. split; [done|]. split; [|lia]. by rewrite !u8_small by (rewrite ?u8_small; lia).
    - right. rewrite u64_small by lia. destruct (trimmed_spec (Z.of_nat (length d))) as [E L]; [lia|].
      eexists _, _. split; [done|]. split; [|done]. rewrite !u8_small by (rewrite ?u8_small; lia). lia. }
  destruct d as [|b [|]]; [by right| |by right].
  destruct (Z.leb_spec b 127); [left; by eexists|by right].
Qed.

Lemma prefixed_length base d enc : prefixed base d enc → (length d < length enc)%nat.
Proof. intros [(p & -> & _)|(p & len & -> & _)]; simpl; rewrite ?length_app; lia. Qed.

Lemma encode_bytes_length d : Z.of_nat (length d) < 2 ^ 64 →
  (1 ≤ length (encode_bytes d))%nat.
Proof.
  intros [(b & _ & _ & ->)|H%prefixed_length]%encode_bytes_prefixed; simpl in *; lia.
Qed.

Lemma prefixed_short base p d rest :
  p = base + Z.of_nat (length d) → short base p (d ++ rest) = Some (d, rest).
Proof. intros ->. apply split_at_app. lia. Qed.

Lemma prefixed_long base p len d rest :
  p = base + Z.of_nat (length len) → of_be len = Z.of_nat (length d) →
  long base p ((len ++ d) ++ rest) = Some (d, rest).
Proof.
  intros -> E. unfold long. rewrite <- app_assoc, (split_at_app _ len) by lia. simpl.
  apply split_at_app. lia.
Qed.

(** ** Reading items back *)

Lemma decode_Str fuel d rest : all_bytes d → Z.of_nat (length d) < 2 ^ 64 →
  decode (S fuel) (encode_bytes d ++ rest) = Some (Str d, rest).
Proof.
  intros Hd [(b & -> & Hb & ->)|[(p & -> & Ep & Hl)|(p & len & -> & Ep & Hl & E)]]%encode_bytes_prefixed.
  - simpl. by rewrite (proj2 (Z.leb_le b 127)).
  - simpl. rewrite (proj2 (Z.leb_gt p 127)), (proj2 (Z.leb_le p 183)) by lia.
    by rewrite (prefixed_short _ _ d).
  - simpl. rewrite (proj2 (Z.leb_gt p 127)), (proj2 (Z.leb_gt p 183)), (proj2 (Z.leb_le p 191)) by lia.
    by rewrite (prefixed_long _ _ len d) by (done || lia).
Qed.

Lemma decode_Lst fuel d xs rest : Z.of_nat (length d) < 2 ^ 64 →
  decode_items fuel d = Some xs → decode (S fuel) (wrap_list d ++ rest) = Some (Lst xs, rest).
Proof.
  intros [(p & -> & Ep & Hl)|(p & len & -> & Ep & Hl & E)]%wrap_list_prefixed Hd; simpl.
  - rewrite (proj2 (Z.leb_gt p 127)), (proj2 (Z.leb_gt p 183)), (proj2 (Z.leb_gt p 191)),
      (proj2 (Z.leb_le p 247)) by lia.
    rewrite (prefixed_short _ _ d) by done. simpl. by rewrite Hd.
  - rewrite (proj2 (Z.leb_gt p 127)), (proj2 (Z.leb_gt p 183)), (proj2 (Z.leb_gt p 191)),
      (proj2 (Z.leb_gt p 247)) by lia.
    rewrite (prefixed_long _ _ len d) by (done || lia). simpl. by rewrite Hd.
Qed.

(** The payloads of an item and its pieces are shorter than its encoding. *)
Lemma encode_Lst_payload xs : Z.of_nat (length (concat (map encode xs))) < 2 ^ 64 →
  (length (concat (map encode xs)) < length (encode (Lst xs)))%nat.
Proof. intros H. simpl. by eapply prefixed_length, wrap_list_prefixed. Qed.

Lemma wrap_list_longer d : (length d < length (wrap_list d))%nat.
Proof. unfold wrap_list. case_match; simpl; rewrite ?length_app; lia. Qed.

Lemma encode_bytes_longer d : (length d ≤ length (encode_bytes d))%nat.
Proof. unfold encode_bytes. repeat case_match; simpl; rewrite ?length_app; simpl; lia. Qed.

Lemma encode_nonempty x : (1 ≤ length (encode x))%nat.
Proof.
  destruct x; simpl; [|pose proof (wrap_list_longer (concat (map encode items))); unfold encode_list; lia].
  unfold encode_bytes. repeat case_match; simpl; lia.
Qed.

Lemma decode_encode_aux fuel :
  (∀ x rest, (2 * length (encode x) ≤ fuel)%nat → item_bytes x →
    Z.of_nat (length (encode x)) < 2 ^ 64 → decode fuel (encode x ++ rest) = Some (x, rest)) ∧
  (∀ xs, (2 * length (concat (map encode xs)) + 1 ≤ fuel)%nat → Forall item_bytes xs →
    Z.of_nat (length (concat (map encode xs))) < 2 ^ 64 →
    decode_items fuel (concat (map encode xs)) = Some xs).
Proof.
  induction fuel as [|fuel [IHx IHs]].
  { split; [|intros; lia]. intros x rest H. pose proof (encode_nonempty x). lia. }
  split.
  - intros [d|xs] rest Hf Hb Hl; simpl in *.
    + pose proof (encode_bytes_longer d). apply decode_Str; [done|lia].
    + unfold encode_list in *. pose proof (wrap_list_longer (concat (map encode xs))).
      apply decode_Lst; [lia|]. apply IHs; [lia| |lia].
      clear -Hb. induction xs as [|y xs IH]; [constructor|]. constructor; naive_solver.
  - intros [|x xs] Hf Hb Hl; [done|]. cbn [map concat] in *. rewrite length_app in *.
    apply Forall_cons in Hb as [Hx Hxs]. pose proof (encode_nonempty x).
    simpl decode_items. destruct (encode x ++ concat (map encode xs)) as [|p l] eqn:E.
    { apply (f_equal length) in E. rewrite length_app in E. simpl in E. lia. }
    rewrite <- E, IHx by (done || lia). simpl. by rewrite IHs by (done || lia).
Qed.

(** C10: the encoder and the reference decoder of the Yellow Paper agree: every
    item, however nested, is read back from its encoding, and nothing of what
    follows it is touched, so encodings can be concatenated without
    separators. *)
Theorem rlp_roundtrip x rest fuel : item_bytes x → Z.of_nat (length (encode x)) < 2 ^ 64 →
  (2 * length (encode x) ≤ fuel)%nat → decode fuel (encode x ++ rest) = Some (x, rest).
Proof. intros. by apply decode_encode_aux. Qed.

(** A nested list with a 56 byte string, followed by other bytes. *)
Lemma rlp_roundtrip_witness :
  let x := Lst [Str [0; 200]; Lst []; Lst [Str (replicate 56 7); Str [5]]] in
  decode 200 (encode x ++ [1; 2]) = Some (x, [1; 2]).
Proof.
  apply rlp_roundtrip.
  - cbn. unfold all_bytes, is_byte. repeat constructor; lia.
  - vm_compute. reflexivity.
  - vm_compute. lia.
Defined.

(** ** Transactions *)

(** An integer field as RLP has it: big-endian, no leading zeros. *)
Definition num (n : nat) (v : Z) : bytes := strip_zeros (to_be n v).

Lemma of_be_num n v : 0 ≤ v < 256 ^ Z.of_nat n → of_be (num n v) = v.
Proof. intros. unfold num. rewrite strip_zeros_of_be. by apply of_to_be. Qed.
Lemma num_bytes n v : all_bytes (num n v).
Proof. apply strip_zeros_bytes, to_be_bytes. Qed.

Lemma encode_u64_num v : encode_u64 v = encode (Str (num 8 v)).
Proof. unfold encode_u64. by destruct (Z.eqb_spec v 0) as [->|]. Qed.
Lemma encode_u128_num v : encode_u128 v = encode (Str (num 16 v)).
Proof. unfold encode_u128. by destruct (Z.eqb_spec v 0) as [->|]. Qed.
Lemma encode_u256_num l : encode_u256 l = encode (Str (strip_zeros l)).
Proof. unfold encode_u256. by destruct (strip_zeros l). Qed.

Definition legacy_fields (tx : LegacyTxFields) : list Item :=
  [Str (num 8 (lg_nonce tx)); Str (num 8 (lg_gas_price tx)); Str (num 8 (lg_gas_limit tx));
   Str (lg_to tx); Str (num 16 (lg_value tx)); Str (lg_data tx)].
Definition eip1559_fields (tx : Eip1559TxFields) : list Item :=
  [Str (num 8 (chain_id tx)); Str (num 8 (nonce tx)); Str (num 8 (max_priority_fee_per_gas tx));
   Str (num 8 (max_fee_per_gas tx)); Str (num 8 (gas_limit tx)); Str (to tx);
   Str (num 16 (value tx)); Str (data tx); Lst []].

Lemma legacy_unsigned_item tx :
  encode_legacy_unsigned tx =
    encode (Lst (legacy_fields tx ++ [Str (num 8 (lg_chain_id tx)); Str []; Str []])).
Proof. unfold encode_legacy_unsigned. by rewrite !encode_u64_num, encode_u128_num. Qed.
Lemma legacy_signed_item tx v r s :
  encode_legacy_signed tx v r s =
    encode (Lst (legacy_fields tx ++ [Str (num 8 v); Str (strip_zeros r); Str (strip_zeros s)])).
Proof. unfold encode_legacy_signed. by rewrite !encode_u64_num, encode_u128_num, !encode_u256_num. Qed.
Lemma eip1559_unsigned_item tx : encode_eip1559_unsigned tx = 2 :: encode (Lst (eip1559_fields tx)).
Proof. unfold encode_eip1559_unsigned. by rewrite !encode_u64_num, encode_u128_num. Qed.
Lemma eip1559_signed_item tx y r s :
  encode_eip1559_signed tx y r s =
    2 :: encode (Lst (eip1559_fields tx ++ [Str (num 8 y); Str (strip_zeros r); Str (strip_zeros s)])).
Proof. unfold encode_eip1559_signed. by rewrite !encode_u64_num, encode_u128_num, !encode_u256_num. Qed.

(** The types of the fields; calldata of a transaction is far below 4 GiB. *)
Definition in_u128 (v : Z) : Prop := 0 ≤ v < 2 ^ 128.
Definition calldata (d : bytes) : Prop := all_bytes d ∧ Z.of_nat (length d) < 2 ^ 32.
Record legacy_typed (tx : LegacyTxFields) : Prop := {
  lt_nonce : in_u64 (lg_nonce tx); lt_gas_price : in_u64 (lg_gas_price tx);
  lt_gas_limit : in_u64 (lg_gas_limit tx); lt_to : all_bytes (lg_to tx) ∧ length (lg_to tx) = 20%nat;
  lt_value : in_u128 (lg_value tx); lt_data : calldata (lg_data tx);
  lt_chain_id : in_u64 (lg_chain_id tx);
}.
Record eip1559_typed (tx : Eip1559TxFields) : Prop := {
  et_chain_id : in_u64 (chain_id tx); et_nonce : in_u64 (nonce tx);
  et_priority : in_u64 (max_priority_fee_per_gas tx); et_max_fee : in_u64 (max_fee_per_gas tx);
  et_gas_limit : in_u64 (gas_limit tx); et_to : all_bytes (to tx) ∧ length (to tx) = 20%nat;
  et_value : in_u128 (value tx); et_data : calldata (data tx);
}.

Lemma num_inj n v w : 0 ≤ v < 256 ^ Z.of_nat n → 0 ≤ w < 256 ^ Z.of_nat n →
  num n v = num n w → v = w.
Proof. intros Hv Hw E. by rewrite <- (of_be_num n v), <- (of_be_num n w), E. Qed.
Lemma num8_inj v w : in_u64 v → in_u64 w → num 8 v = num 8 w → v = w.
Proof. unfold in_u64, u64_max. intros. apply (num_inj 8); [lia|lia|done]. Qed.
Lemma num16_inj v w : in_u128 v → in_u128 w → num 16 v = num 16 w → v = w.
Proof. unfold in_u128. intros. apply (num_inj 16); [lia|lia|done]. Qed.

Lemma num_length n v : (length (num n v) ≤ n)%nat.
Proof. unfold num. etransitivity; [apply strip_zeros_length|]. by rewrite length_to_be. Qed.

(** How much an encoding can add to its payload. *)
Lemma encode_bytes_bound d : Z.of_nat (length d) < 2 ^ 64 →
  (length (encode_bytes d) ≤ length d + 9)%nat.
Proof.
  intros [(b & -> & _ & ->)|[(p & -> & _)|(p & len & -> & _ & Hl & _)]]%encode_bytes_prefixed;
    simpl; rewrite ?length_app; lia.
Qed.
Lemma wrap_list_bound d : Z.of_nat (length d) < 2 ^ 64 →
  (length (wrap_list d) ≤ length d + 9)%nat.
Proof.
  intros [(p & -> & _)|(p & len & -> & _ & Hl & _)]%wrap_list_prefixed;
    simpl; rewrite ?length_app; lia.
Qed.

Lemma encode_injective x y : item_bytes x → item_bytes y →
  Z.of_nat (length (encode x)) < 2 ^ 64 → encode x = encode y → x = y.
Proof.
  intros Hx Hy Hl E. pose proof (proj1 (decode_encode_aux (2 * length (encode x))) x [] ltac:(lia) Hx Hl) as D.
  rewrite E in D at 2.
  rewrite (proj1 (decode_encode_aux (2 * length (encode x))) y []) in D by (rewrite <- ?E; done || lia).
  by injection D.
Qed.

(** Lists of a few strings: what a transaction is. *)
Definition flat (x : Item) : Prop :=
  match x with
  | Str d => all_bytes d ∧ Z.of_nat (length d) < 2 ^ 32
  | Lst xs => xs = []
  end.

Lemma flat_item xs : Forall flat xs → item_bytes (Lst xs).
Proof. simpl. induction 1 as [|[d|ys] xs Hx _ IH]; simpl in *; [done|naive_solver|by subst]. Qed.

Lemma flat_length xs : Forall flat xs → (length xs ≤ 16)%nat →
  Z.of_nat (length (encode (Lst xs))) < 2 ^ 64.
Proof.
  intros Hx Hn.
  assert (Z.of_nat (length (concat (map encode xs))) ≤ Z.of_nat (length xs) * 2 ^ 33) as Hc.
  { clear Hn. induction Hx as [|[d|ys] xs Hd _ IH]; cbn [map concat]; [simpl; lia| |].
    - simpl encode. destruct Hd as [_ Hd]. rewrite length_app. pose proof (encode_bytes_bound d ltac:(lia)).
      simpl length. lia.
    - simpl in Hd. subst ys. change (encode (Lst [])) with [192]. rewrite length_app. simpl length. lia. }
  simpl. unfold encode_list. pose proof (wrap_list_bound (concat (map encode xs))). lia.
Qed.

Lemma num_flat n v : (n ≤ 32)%nat → flat (Str (num n v)).
Proof. intros H. split; [apply num_bytes|]. pose proof (num_length n v). lia. Qed.

Lemma legacy_flat tx : legacy_typed tx → Forall flat (legacy_fields tx).
Proof.
  intros []. unfold legacy_fields, calldata in *.
  repeat constructor; try (apply num_flat; lia); simpl in *; try tauto; try lia.
Qed.
Lemma eip1559_flat tx : eip1559_typed tx → Forall flat (eip1559_fields tx).
Proof.
  intros []. unfold eip1559_fields, calldata in *.
  repeat constructor; try (apply num_flat; lia); simpl in *; try tauto; try lia.
Qed.

Lemma flat_list_inj xs ys : Forall flat xs → Forall flat ys → (length xs ≤ 16)%nat →
  encode (Lst xs) = encode (Lst ys) → xs = ys.
Proof.
  intros Hx Hy Hn E. apply encode_injective in E;
    [by injection E|by apply flat_item|by apply flat_item|by apply flat_length].
Qed.

Lemma eip1559_fields_inj tx tx' : eip1559_typed tx → eip1559_typed tx' →
  eip1559_fields tx = eip1559_fields tx' → tx = tx'.
Proof.
  intros [] []. unfold eip1559_fields. intros [= E1 E2 E3 E4 E5 E6 E7 E8].
  apply num8_inj in E1; [|done..]. apply num8_inj in E2; [|done..]. apply num8_inj in E3; [|done..].
  apply num8_inj in E4; [|done..]. apply num8_inj in E5; [|done..]. apply num16_inj in E7; [|done..].
  destruct tx, tx'. simpl in *. by subst.
Qed.

Definition legacy_tail (tx : LegacyTxFields) : list Item :=
  legacy_fields tx ++ [Str (num 8 (lg_chain_id tx)); Str []; Str []].

Lemma legacy_fields_inj tx tx' : legacy_typed tx → legacy_typed tx' →
  legacy_tail tx = legacy_tail tx' → tx = tx'.
Proof.
  intros [] []. unfold legacy_tail, legacy_fields. simpl. intros [= E1 E2 E3 E4 E5 E6 E7].
  apply num8_inj in E1; [|done..]. apply num8_inj in E2; [|done..]. apply num8_inj in E3; [|done..].
  apply num16_inj in E5; [|done..]. apply num8_inj in E7; [|done..].
  destruct tx, tx'. simpl in *. by subst.
Qed.

Lemma tail_inj (x : Z) l l' : x :: l = x :: l' → l = l'.
Proof. congruence. Qed.

Lemma legacy_tail_flat tx : legacy_typed tx → Forall flat (legacy_tail tx).
Proof.
  intros Ht. apply Forall_app. split; [by apply legacy_flat|].
  repeat constructor; try (apply num_flat; lia); simpl; lia.
Qed.

Lemma signed_flat tx y r s : eip1559_typed tx → all_bytes r → all_bytes s →
  length r = 32%nat → length s = 32%nat →
  Forall flat (eip1559_fields tx ++ [Str (num 8 y); Str (strip_zeros r); Str (strip_zeros s)]).
Proof.
  intros Ht Hr Hs Hlr Hls. apply Forall_app. split; [by apply eip1559_flat|].
  pose proof (strip_zeros_length r). pose proof (strip_zeros_length s).
  repeat constructor; try (apply num_flat; lia); simpl; try (by apply strip_zeros_bytes); lia.
Qed.

Lemma wrap_list_head d : ∃ p l, wrap_list d = p :: l ∧ p ≠ 2.
Proof.
  unfold wrap_list. destruct (Z.leb_spec (Z.of_nat (length d)) 55) as [H|H]; eexists _, _; (split; [done|]).
  - rewrite !u8_small by (rewrite ?u8_small; lia). lia.
  - assert (length (to_be_bytes_trimmed (u64 (Z.of_nat (length d)))) ≤ 8)%nat.
    { etransitivity; [apply strip_zeros_length|]. by rewrite length_to_be. }
    rewrite !u8_small by (rewrite ?u8_small; lia). lia.
Qed.

Lemma strip_zeros_inj l l' : all_bytes l → all_bytes l' → length l = length l' →
  strip_zeros l = strip_zeros l' → l = l'.
Proof.
  intros Hl Hl' Hlen E. rewrite <- (to_of_be l), <- (to_of_be l') by done.
  by rewrite <- (strip_zeros_of_be l), <- (strip_zeros_of_be l'), E, Hlen.
Qed.

(** What is signed determines the transaction. Two typed EIP-1559
    transactions with the same signing payload are equal, and so are two
    legacy ones; a payload of one kind is never one of the other; and the
    signed EIP-1559 encoding carries exactly the signed fields, so equal
    signed transactions have equal fields and equal parity and signature
    values. *)
Theorem payload_determines_transaction :
  (∀ tx tx', eip1559_typed tx → eip1559_typed tx' →
     encode_eip1559_unsigned tx = encode_eip1559_unsigned tx' → tx = tx') ∧
  (∀ tx tx', legacy_typed tx → legacy_typed tx' →
     encode_legacy_unsigned tx = encode_legacy_unsigned tx' → tx = tx') ∧
  (∀ tx ltx, legacy_typed ltx → encode_eip1559_unsigned tx ≠ encode_legacy_unsigned ltx) ∧
  (∀ tx tx' y y' r r' s s', eip1559_typed tx → eip1559_typed tx' → in_u64 y → in_u64 y' →
     Forall all_bytes [r; r'; s; s'] → Forall (λ l, length l = 32%nat) [r; r'; s; s'] →
     encode_eip1559_signed tx y r s = encode_eip1559_signed tx' y' r' s' →
     tx = tx' ∧ y = y' ∧ r = r' ∧ s = s').
Proof.
  split_and!.
  - intros tx tx' Ht Ht'. rewrite !eip1559_unsigned_item. intros E%tail_inj.
    apply flat_list_inj in E; [|by apply eip1559_flat|by apply eip1559_flat|simpl; lia].
    by apply eip1559_fields_inj in E.
  - intros tx tx' Ht Ht'. rewrite !legacy_unsigned_item. intros E.
    pose proof (lt_chain_id _ Ht) as Hc. pose proof (lt_chain_id _ Ht') as Hc'.
    apply flat_list_inj in E; [|by apply legacy_tail_flat|by apply legacy_tail_flat|simpl; lia].
    by apply legacy_fields_inj.
  - intros tx ltx Ht. rewrite eip1559_unsigned_item, legacy_unsigned_item. simpl. intros E.
    unfold encode_list in E. match type of E with _ = wrap_list ?d =>
      destruct (wrap_list_head d) as (p & l & Hd & Hp) end.
    rewrite Hd in E. congruence.
  - intros tx tx' y y' r r' s s' Ht Ht' Hy Hy' Hb Hlen. rewrite !eip1559_signed_item. intros E%tail_inj.
    repeat match goal with H : Forall _ (_ :: _) |- _ => apply Forall_cons in H as [? H] end.
    apply flat_list_inj in E; [|by apply signed_flat..|simpl; lia].
    apply app_inj_1 in E as [E1 E2]; [|done]. injection E2 as Ey Er Es.
    split_and!; [by apply eip1559_fields_inj|by apply num8_inj|apply strip_zeros_inj; congruence..].
Qed.

(** Two transfers that differ in the nonce alone. *)
Lemma payload_determines_transaction_witness :
  let tx n := mkEip1559Tx 1 n 2000000000 50000000000 21000 (replicate 20 204) 1000 [] in
  encode_eip1559_unsigned (tx 7) ≠ encode_eip1559_unsigned (tx 8).
Proof.
  intros tx E.
  assert (∀ n, in_u64 n → eip1559_typed (tx n)) as Ht.
  { intros n Hn. split; [unfold in_u64, u64_max; simpl; lia|done|unfold in_u64, u64_max; simpl; lia..| | |].
    - split; [|done]. repeat constructor; lia.
    - unfold in_u128. simpl. lia.
    - split; [constructor|simpl; lia]. }
  apply (proj1 payload_determines_transaction) in E.
  - done.
  - apply Ht. unfold in_u64, u64_max. lia.
  - apply Ht. unfold in_u64, u64_max. lia.
Defined.
