(* ===== verification/Abi.v ===== *)
(** * Calldata of contract calls: [src/src/wallet/erc20_abi.rs]

    A call is a selector and 32-byte words.  [word_at] and [abi_bytes] are the
    reference: what a contract reads from the arguments. *)
From S2P Require Import Prelude Bytes Text.
Open Scope Z_scope.

(** A word with [v] at its end, zeros before. *)
Definition word (v : bytes) : bytes := replicate (32 - length v) 0 ++ v.

(** ** What the contract reads *)

Definition word_at (args : bytes) (k : nat) : option Z :=
  if bool_decide (32 * k + 32 ≤ length args)%nat then Some (of_be (slice (32 * k) 32 args)) else None.

(** A dynamic [bytes] argument at a byte offset: its length and its content. *)
Definition abi_bytes (args : bytes) (offset : Z) : option bytes :=
  let tail := drop (Z.to_nat offset) args in
  n ← word_at tail 0;
  if bool_decide (32 + Z.to_nat n ≤ length tail)%nat then Some (slice 32 (Z.to_nat n) tail) else None.

Lemma length_word v : (length v ≤ 32)%nat → length (word v) = 32%nat.
Proof. intros. unfold word. rewrite length_app, length_replicate. lia. Qed.

Lemma of_be_zeros n l : of_be (replicate n 0 ++ l) = of_be l.
Proof. induction n as [|n IH]; [done|]. simpl. rewrite of_be_cons, IH. lia. Qed.

Lemma of_be_word v : of_be (word v) = of_be v.
Proof. apply of_be_zeros. Qed.

Lemma of_be_word_int n v : (n ≤ 32)%nat → 0 ≤ v < 256 ^ Z.of_nat n → of_be (word (to_be n v)) = v.
Proof. intros. rewrite of_be_word. by apply of_to_be. Qed.

(** Words are read back one by one. *)
Lemma word_at_cons_0 w args : length w = 32%nat → word_at (w ++ args) 0 = Some (of_be w).
Proof.
  intros H. unfold word_at. rewrite bool_decide_eq_true_2 by (rewrite length_app; lia).
  change (32 * 0)%nat with 0%nat. unfold slice. by rewrite drop_0, take_app_length'.
Qed.
Lemma word_at_cons_S w args k : length w = 32%nat → word_at (w ++ args) (S k) = word_at args k.
Proof.
  intros H. unfold word_at, slice. rewrite length_app, H.
  rewrite (bool_decide_ext (32 * S k + 32 ≤ 32 + length args)%nat (32 * k + 32 ≤ length args)%nat) by lia.
  replace (32 * S k)%nat with (length w + 32 * k)%nat by lia. by rewrite <- drop_drop, drop_app_length.
Qed.

(** Arguments that are all words. *)
Definition all_words (ws : list bytes) : Prop := Forall (λ w : bytes, length w = 32%nat) ws.

Lemma word_at_concat ws k : all_words ws →
  word_at (concat ws) k = of_be <$> ws !! k.
Proof.
  intros Hw. revert k. induction Hw as [|w ws H _ IH]; intros k; cbn [concat].
  - unfold word_at. by rewrite bool_decide_eq_false_2 by (simpl; lia).
  - destruct k as [|k]; [by rewrite word_at_cons_0|by rewrite word_at_cons_S].
Qed.

Lemma length_concat_words ws : all_words ws → length (concat ws) = (32 * length ws)%nat.
Proof. induction 1 as [|w ws H _ IH]; [done|]. cbn [concat]. rewrite length_app, H, IH. simpl. lia. Qed.

Lemma drop_concat_words ws k : all_words ws →
  drop (32 * k) (concat ws) = concat (drop k ws).
Proof.
  intros Hw. revert k. induction Hw as [|w ws H _ IH]; intros k; cbn [concat].
  - by rewrite !drop_nil.
  - destruct k as [|k]; [done|]. rewrite (Nat.mul_succ_r 32 k), (Nat.add_comm (32 * k)), <- H, <- drop_drop.
    rewrite drop_app_length, H. apply IH.
Qed.

(** An empty [bytes] in arguments that are all words. *)
Lemma abi_bytes_empty ws k : all_words ws →
  of_be <$> ws !! k = Some 0 → abi_bytes (concat ws) (32 * Z.of_nat k) = Some [].
Proof.
  intros Hw Hk. unfold abi_bytes. replace (Z.to_nat (32 * Z.of_nat k)) with (32 * k)%nat by lia.
  rewrite drop_concat_words by done.
  assert (all_words (drop k ws)) as Hd by by apply Forall_drop.
  rewrite word_at_concat, lookup_drop, Nat.add_0_r, Hk by done. simpl.
  rewrite bool_decide_eq_true_2; [done|]. rewrite length_concat_words, length_drop by done.
  assert (is_Some (ws !! k)) as Hs%lookup_lt_is_Some_1 by (destruct (ws !! k); [by eexists|done]). lia.
Qed.

Lemma abi_bytes_outside ws k : all_words ws → (length ws ≤ k)%nat →
  abi_bytes (concat ws) (32 * Z.of_nat k) = None.
Proof.
  intros Hw Hk. unfold abi_bytes. replace (Z.to_nat (32 * Z.of_nat k)) with (32 * k)%nat by lia.
  rewrite drop_concat_words, drop_ge by done. done.
Qed.

Module Erc20Abi.

Definition TRANSFER_SELECTOR : bytes := [169; 5; 156; 187].
Definition APPROVE_SELECTOR : bytes := [9; 94; 167; 179].
Definition TRANSFER_FROM_SELECTOR : bytes := [35; 184; 114; 221].
Definition BALANCE_OF_SELECTOR : bytes := [112; 160; 130; 49].

(** Fixed-size arrays: 20 bytes into the end of 32 zeros, 16 into the end. *)
Definition encode_address (addr : bytes) : bytes := replicate 12 0 ++ addr.
Definition encode_uint256 (value : Z) : bytes := replicate 16 0 ++ to_be 16 value.

Definition encode_transfer (to : bytes) (amount : Z) : bytes :=
  TRANSFER_SELECTOR ++ encode_address to ++ encode_uint256 amount.
Definition encode_approve (spender : bytes) (amount : Z) : bytes :=
  APPROVE_SELECTOR ++ encode_address spender ++ encode_uint256 amount.
Definition encode_transfer_from (from to : bytes) (amount : Z) : bytes :=
  TRANSFER_FROM_SELECTOR ++ encode_address from ++ encode_address to ++ encode_uint256 amount.
Definition encode_balance_of (account : bytes) : bytes :=
  BALANCE_OF_SELECTOR ++ encode_address account.

(** With or without 0x; the 40 digits are 20 bytes, as the crate hex decodes
    them. *)
Definition parse_address (hex_decode : string → result bytes string) (addr : string)
  : result bytes string :=
  let clean := strip_0x addr in
  let n := Z.of_nat (String.length clean) in
  if negb (n =? 40) then Err ("Address must be 40 hex chars, got " +:+ print_uint n)%string else
  match hex_decode clean with
  | Ok bytes => Ok bytes
  | Err e => Err ("Invalid hex: " +:+ e)%string
  end.

End Erc20Abi.
