(* ===== verification/Wormhole.v ===== *)
(** * The Wormhole bridge: [src/src/cross_chain/wormhole.rs] and the encoders
      of [src/src/cross_chain/mock_guardian.rs]

    Routes, message identifiers, the calldata of the token bridge, base64, and
    the parsing and checking of VAAs.  Text is its bytes. *)
From Stdlib Require Import Ascii.
From S2P Require Import Prelude Bytes Abi Text.
Open Scope Z_scope.

Inductive BridgeError :=
| UnsupportedRoute (route : string)
| LockFailed (e : string)
| VerificationFailed (e : string)
| ReleaseFailed (e : string)
| NetworkError (e : string)
| Other (e : string).

Record BridgeFeeEstimate := mkBridgeFeeEstimate {
  source_fee : Z;
  dest_fee : Z;
  protocol_fee : Z;
  total_description : string;
}.

Record BridgeTime := mkBridgeTime { min_secs : Z; typical_secs : Z; max_secs : Z }.

Module Base64.

(** "ABC...Zabc...z0123456789+/" *)
Definition TABLE : bytes :=
  (Z.of_nat <$> seq 65 26) ++ (Z.of_nat <$> seq 97 26) ++ (Z.of_nat <$> seq 48 10) ++ [43; 47].

(** [input.trim_end_matches('=')] *)
Fixpoint trim_end (c : Z) (l : bytes) : bytes :=
  match l with
  | [] => []
  | b :: r => match trim_end c r with
              | [] => if b =? c then [] else [b]
              | r => b :: r
              end
  end.

(** [table.iter().position(|&c| c == b)] *)
Definition position (b : Z) : option Z := Z.of_nat ∘ fst <$> list_find (λ c, c = b) TABLE.

Record Decoder := mkDecoder { out : bytes; buf : Z; bits : Z }.

Definition decode_step (st : Decoder) (b : Z) : option Decoder :=
  val ← position b;
  let buf := Z.lor (u32 (Z.shiftl (buf st) 6)) val in
  let bits := bits st + 6 in
  if 8 <=? bits then
    let bits := bits - 8 in
    Some (mkDecoder (out st ++ [u8 (Z.shiftr buf bits)]) (Z.land buf (Z.shiftl 1 bits - 1)) bits)
  else Some (mkDecoder (out st) buf bits).

Fixpoint decode_loop (st : Decoder) (input : bytes) : option Decoder :=
  match input with
  | [] => Some st
  | b :: r => st ← decode_step st b; decode_loop st r
  end.

Definition base64_decode (input : bytes) : result bytes BridgeError :=
  match decode_loop (mkDecoder [] 0 0) (trim_end 61 input) with
  | Some st => Ok (out st)
  | None => Err (VerificationFailed "Invalid base64")
  end.

Definition symbol (i : Z) : Z := nth (Z.to_nat i) TABLE 0.
Definition triple (b0 b1 b2 : Z) : Z := Z.lor (Z.lor (Z.shiftl b0 16) (Z.shiftl b1 8)) b2.
Definition sextet (t k : Z) : Z := Z.land (Z.shiftr t k) 63.

(** The chunks of three, as [data.chunks(3)] has them. *)
Fixpoint base64_encode (data : bytes) : bytes :=
  match data with
  | [] => []
  | [b0] =>
      let t := triple b0 0 0 in [symbol (sextet t 18); symbol (sextet t 12); 61; 61]
  | [b0; b1] =>
      let t := triple b0 b1 0 in
      [symbol (sextet t 18); symbol (sextet t 12); symbol (sextet t 6); 61]
  | b0 :: b1 :: b2 :: rest =>
      let t := triple b0 b1 b2 in
      symbol (sextet t 18) :: symbol (sextet t 12) :: symbol (sextet t 6) :: symbol (Z.land t 63) ::
        base64_encode rest
  end.

End Base64.

Module MockGuardian.

Definition signature (i : Z) : bytes := i :: replicate 65 0.

Definition build_vaa (num_signatures emitter_chain : Z) (emitter_address : bytes) (sequence : Z)
    (payload : bytes) : bytes :=
  [1] ++ [0; 0; 0; 0] ++ [num_signatures] ++
  concat (signature <$> (Z.of_nat <$> seq 0 (Z.to_nat num_signatures))) ++
  to_be 4 0 ++ to_be 4 0 ++ to_be 2 emitter_chain ++ emitter_address ++ to_be 8 sequence ++ [1] ++
  payload.

Definition build_vaa_simple (num_signatures emitter_chain sequence : Z) (payload : bytes) : bytes :=
  build_vaa num_signatures emitter_chain (replicate 32 0) sequence payload.

End MockGuardian.

Module Wormhole.

Definition TRANSFER_TOKENS_SELECTOR : bytes := [1; 147; 9; 85].
Definition COMPLETE_TRANSFER_SELECTOR : bytes := [198; 135; 133; 25].
Definition GUARDIAN_QUORUM : nat := 13.

Definition chain_id (chain : string) : option Z :=
  if String.eqb chain "ethereum" then Some 2
  else if String.eqb chain "solana" then Some 1
  else if String.eqb chain "polygon" then Some 5
  else if String.eqb chain "arbitrum" then Some 23
  else if String.eqb chain "base" then Some 30
  else None.

Definition supports_route (source dest : string) : bool :=
  bool_decide (is_Some (chain_id source)) && bool_decide (is_Some (chain_id dest)) &&
  negb (String.eqb source dest).

Definition get_bridge_time (source : string) : BridgeTime :=
  let source_finality :=
    if String.eqb source "solana" then 15
    else if String.eqb source "ethereum" then 960
    else if String.eqb source "polygon" then 256
    else if String.eqb source "arbitrum" then 10
    else if String.eqb source "base" then 10
    else 120 in
  mkBridgeTime (source_finality + 10) (source_finality + 60) (source_finality + 600).

(** "chain_id/emitter/sequence" *)
Definition message_id (chain_id : Z) (emitter : string) (sequence : Z) : string :=
  (print_uint chain_id +:+ "/" +:+ emitter +:+ "/" +:+ print_uint sequence)%string.

(** The parts of [splitn(3, '/')], when there are three. *)
Definition parse_message_id (id : string) : option (Z * string * Z) :=
  '(p0, r) ← split_once id;
  '(p1, p2) ← split_once r;
  chain ← parse_uint (2 ^ 16 - 1) p0;
  seq ← parse_uint u64_max p2;
  Some (chain, p1, seq).

(** The delay before the next attempt; [random] is [rand::random::<u64>()]. *)
Definition backoff_delay (random attempt initial_ms max_ms : Z) : Z :=
  let base := u64 (initial_ms * u64 (Z.shiftl 1 (attempt `min` 6))) in
  let jitter := random `mod` u64 (base / 4 + 1) in
  u64 (base + jitter) `min` max_ms.

Section hex.
Context (hex_encode : bytes → string) (hex_decode : string → option bytes).

Definition hex_bytes (s : string) : bytes := default [] (hex_decode (strip_0x s)).

Definition encode_transfer_tokens (token : string) (amount dest_chain_id : Z) (recipient : string)
    (nonce : Z) : bytes :=
  let token_bytes := hex_bytes token in
  let recip_bytes := hex_bytes recipient in
  let pad := (32 - length recip_bytes `min` 32)%nat in
  TRANSFER_TOKENS_SELECTOR ++
  replicate 12 0 ++ token_bytes ++
  word (to_be 8 amount) ++
  word (to_be 2 dest_chain_id) ++
  replicate pad 0 ++ take (length recip_bytes `min` 32) recip_bytes ++
  replicate 32 0 ++
  word (to_be 4 nonce).

Definition encode_complete_transfer (vaa_bytes : bytes) : bytes :=
  let padding := ((32 - length vaa_bytes mod 32) mod 32)%nat in
  COMPLETE_TRANSFER_SELECTOR ++ word [32] ++ word (to_be 8 (u64 (Z.of_nat (length vaa_bytes)))) ++
  vaa_bytes ++ replicate padding 0.

(** ** VAAs *)

Record Vaa := mkVaa {
  vaa_bytes : bytes;
  version : Z;
  num_signatures : nat;
  emitter_chain : Z;
  emitter_address : string;
  sequence : Z;
  payload : bytes;
}.

Definition parse_vaa (bytes : bytes) : result Vaa BridgeError :=
  if (length bytes <? 57)%nat then Err (VerificationFailed "VAA too short")
  else
    let version := nth 0 bytes 0 in
    if negb (version =? 1) then Err (VerificationFailed "Unsupported VAA version")
    else
      let num_signatures := Z.to_nat (nth 5 bytes 0) in
      let body_offset := (6 + num_signatures * 66)%nat in
      if (length bytes <? body_offset + 51)%nat then Err (VerificationFailed "VAA body too short")
      else
        let body := drop body_offset bytes in
        Ok (mkVaa bytes version num_signatures (of_be (slice 8 2 body))
              (hex_encode (slice 10 32 body)) (of_be (slice 42 8 body)) (drop 51 body)).

(** One signature after the other; [None] is a panic: an index out of bounds. *)
Fixpoint check_signatures (bytes : bytes) (seen : list bool) (i n : nat)
  : option (result unit BridgeError) :=
  match n with
  | O => Some (Ok tt)
  | S n =>
      b ← bytes !! (6 + i * 66)%nat;
      let idx := Z.to_nat b in
      if (19 <=? idx)%nat then Some (Err (VerificationFailed "Guardian index out of range"))
      else
        s ← seen !! idx;
        if (s : bool) then Some (Err (VerificationFailed "Duplicate guardian index"))
        else check_signatures bytes (<[idx := true]> seen) (S i) n
  end.

Definition verify_vaa (vaa : Vaa) : option (result unit BridgeError) :=
  if (num_signatures vaa <? GUARDIAN_QUORUM)%nat then
    Some (Err (VerificationFailed "Insufficient signatures"))
  else check_signatures (vaa_bytes vaa) (replicate 19 false) 0 (num_signatures vaa).

End hex.
End Wormhole.
