(* ===== verification/WormholeCorrect.v ===== *)
(** * What the Wormhole adapter guarantees

    Base64 and VAAs survive the round trip through the guardian's encoders, the
    check of a parsed VAA never panics, and what it accepts carries a quorum of
    distinct guardians. *)
From S2P Require Import Prelude Bytes Wormhole.
Open Scope Z_scope.

(** ** Base64 *)

Section base64.
Import Base64.

Lemma symbols : Forall (λ i, position (symbol i) = Some i ∧ symbol i ≠ 61) (Z.of_nat <$> seq 0 64).
Proof. apply (bool_decide_unpack _). vm_compute. done. Qed.

Lemma symbol_spec i : 0 ≤ i < 64 → position (symbol i) = Some i ∧ symbol i ≠ 61.
Proof.
  intros Hi. apply (proj1 (Forall_forall _ _) symbols), list_elem_of_fmap. exists (Z.to_nat i).
  rewrite elem_of_seq. lia.
Qed.

Lemma lor_shiftl b v n : 0 ≤ n → 0 ≤ v < 2 ^ n → Z.lor (Z.shiftl b n) v = b * 2 ^ n + v.
Proof.
  intros Hn Hv. rewrite Z.shiftl_mul_pow2 by done. rewrite <- Z.lxor_lor; [symmetry; apply Z.add_nocarry_lxor|];
    apply Z.bits_inj'; intros k Hk; rewrite Z.land_spec, Z.bits_0.
  all: destruct (Z.lt_ge_cases k n);
    [by rewrite Z.mul_pow2_bits_low|].
  all: replace (Z.testbit v k) with false; [by rewrite andb_false_r|symmetry].
  all: destruct (Z.eq_dec v 0) as [->|]; [apply Z.bits_0|apply Z.bits_above_log2; [lia|]].
  all: apply Z.log2_lt_pow2; [lia|]; pose proof (Z.pow_le_mono_r 2 n k); lia.
Qed.

Lemma triple_sum b0 b1 b2 : is_byte b0 → is_byte b1 → is_byte b2 →
  triple b0 b1 b2 = b0 * 65536 + b1 * 256 + b2.
Proof.
  unfold is_byte, triple. intros. rewrite (Z.shiftl_mul_pow2 b1) by lia.
  rewrite (lor_shiftl b0) by lia.
  replace (b0 * 2 ^ 16 + b1 * 2 ^ 8) with (Z.shiftl (b0 * 256 + b1) 8) by (rewrite Z.shiftl_mul_pow2; lia).
  rewrite lor_shiftl; lia.
Qed.

Lemma sextet_div t k : 0 ≤ k → sextet t k = (t / 2 ^ k) `mod` 64.
Proof. intros. unfold sextet. rewrite Z.shiftr_div_pow2 by done. apply (Z.land_ones _ 6). lia. Qed.

(** One symbol: six bits more, a byte out when there are eight. *)
Lemma decode_symbol o b k s : 0 ≤ s < 64 → 0 ≤ k < 8 → 0 ≤ b < 2 ^ k →
  decode_step (mkDecoder o b k) (symbol s) = Some
    (let v := b * 64 + s in
     if 8 <=? k + 6 then mkDecoder (o ++ [(v / 2 ^ (k - 2)) `mod` 256]) (v `mod` 2 ^ (k - 2)) (k - 2)
     else mkDecoder o v (k + 6)).
Proof.
  intros Hs Hk Hb. unfold decode_step. rewrite (proj1 (symbol_spec s Hs)). cbn -[Z.leb Z.lor Z.land].
  assert (b < 2 ^ 8) by (pose proof (Z.pow_lt_mono_r 2 k 8); lia).
  assert (Z.lor (u32 (Z.shiftl b 6)) s = b * 64 + s) as ->.
  { unfold u32, wrap_u. rewrite Z.mod_small; [apply lor_shiftl; lia|].
    rewrite Z.shiftl_mul_pow2 by lia. lia. }
  destruct (Z.leb_spec 8 (k + 6)); [|done]. replace (k + 6 - 8) with (k - 2) by lia.
  replace (Z.shiftl 1 (k - 2) - 1) with (Z.ones (k - 2))
    by (rewrite Z.ones_equiv, Z.shiftl_1_l; lia).
  by rewrite Z.shiftr_div_pow2, Z.land_ones by lia.
Qed.

Lemma decode_loop_app st l1 l2 :
  decode_loop st (l1 ++ l2) = decode_loop st l1 ≫= λ st, decode_loop st l2.
Proof.
  revert st. induction l1 as [|b l1 IH]; intros st; [done|]. simpl.
  destruct (decode_step st b); simpl; [apply IH|done].
Qed.

Ltac divmod := Z.to_euclidean_division_equations; lia.

(** The four sextets of three bytes. *)
Lemma sextets b0 b1 b2 : is_byte b0 → is_byte b1 → is_byte b2 →
  let t := triple b0 b1 b2 in
  sextet t 18 = b0 / 4 ∧ sextet t 12 = (b0 `mod` 4) * 16 + b1 / 16 ∧
  sextet t 6 = (b1 `mod` 16) * 4 + b2 / 64 ∧ Z.land t 63 = b2 `mod` 64.
Proof.
  intros H0 H1 H2. simpl. rewrite triple_sum, !sextet_div, (Z.land_ones _ 6) by (done || lia).
  unfold is_byte in *. change (2 ^ 18) with 262144. change (2 ^ 12) with 4096. change (2 ^ 6) with 64.
  split_and!; divmod.
Qed.

Lemma decode_2 o b0 b1 : is_byte b0 → 0 ≤ b1 < 256 →
  decode_loop (mkDecoder o 0 0) [symbol (b0 / 4); symbol ((b0 `mod` 4) * 16 + b1 / 16)] =
  Some (mkDecoder (o ++ [b0]) (b1 / 16) 4).
Proof.
  unfold is_byte. intros H0 H1. simpl.
  rewrite decode_symbol by (simpl; divmod). simpl.
  rewrite decode_symbol by (simpl; divmod). simpl.
  change (2 ^ 4) with 16. do 3 f_equal; [f_equal; divmod|divmod].
Qed.

Lemma decode_3rd o b1 b2 : is_byte b1 → 0 ≤ b2 < 256 →
  decode_step (mkDecoder o (b1 / 16) 4) (symbol ((b1 `mod` 16) * 4 + b2 / 64)) =
  Some (mkDecoder (o ++ [b1]) (b2 / 64) 2).
Proof.
  unfold is_byte. intros H1 H2. rewrite decode_symbol by (simpl; divmod). simpl.
  change (2 ^ 2) with 4. do 2 f_equal; [do 2 f_equal; divmod|divmod].
Qed.

Lemma decode_4th o b2 : is_byte b2 →
  decode_step (mkDecoder o (b2 / 64) 2) (symbol (b2 `mod` 64)) = Some (mkDecoder (o ++ [b2]) 0 0).
Proof.
  unfold is_byte. intros H2. rewrite decode_symbol by (simpl; divmod). simpl.
  do 2 f_equal; [do 2 f_equal; divmod|divmod].
Qed.

(** The encoding without its padding. *)
Definition unpadded (data : bytes) : bytes := trim_end 61 (base64_encode data).

Lemma trim_end_cons c b l : b ≠ c → trim_end c (b :: l) = b :: trim_end c l.
Proof. intros H. simpl. destruct (trim_end c l); [by rewrite (proj2 (Z.eqb_neq b c))|done]. Qed.

Lemma sextet_range t k : 0 ≤ k → 0 ≤ sextet t k < 64.
Proof. intros. rewrite sextet_div by done. apply Z.mod_pos_bound. lia. Qed.

Lemma trim_symbol t k l : 0 ≤ k →
  trim_end 61 (symbol (sextet t k) :: l) = symbol (sextet t k) :: trim_end 61 l.
Proof. intros. by apply trim_end_cons, symbol_spec, sextet_range. Qed.

Ltac split_loop :=
  match goal with |- context [decode_loop ?st (?a :: ?b :: ?l)] =>
    change (decode_loop st (a :: b :: l)) with (decode_loop st ([a; b] ++ l)) end;
  rewrite decode_loop_app.

Lemma base64_loop data o : all_bytes data →
  ∃ b k, decode_loop (mkDecoder o 0 0) (trim_end 61 (base64_encode data)) =
    Some (mkDecoder (o ++ data) b k).
Proof.
  revert o. remember (length data) as n eqn:Hn. assert (length data ≤ n)%nat as Hle by lia. clear Hn.
  revert data Hle. induction n as [|n IH]; intros [|b0 [|b1 [|b2 rest]]] Hle o Hd; simpl in Hle; try lia.
  1, 2: by (eexists _, _; simpl; rewrite app_nil_r).
  all: repeat (apply Forall_cons in Hd as [? Hd]); assert (is_byte 0) as H00 by (unfold is_byte; lia).
  - destruct (sextets b0 0 0) as (E0 & E1 & _ & _); [done..|]. simpl base64_encode.
    rewrite !trim_symbol, E0, E1 by lia.
    change (trim_end 61 [61; 61]) with (@nil Z). rewrite decode_2 by done. by eexists _, _.
  - destruct (sextets b0 b1 0) as (E0 & E1 & E2 & _); [done..|]. simpl base64_encode.
    rewrite !trim_symbol, E0, E1, E2 by lia. change (trim_end 61 [61]) with (@nil Z).
    split_loop. rewrite decode_2 by done. cbn [mbind option_bind decode_loop].
    rewrite decode_3rd by done. rewrite <- app_assoc. by eexists _, _.
  - destruct (sextets b0 b1 b2) as (E0 & E1 & E2 & E3); [done..|]. cbn [base64_encode].
    rewrite !trim_symbol by lia.
    rewrite trim_end_cons by (rewrite E3; apply symbol_spec, Z.mod_pos_bound; lia).
    rewrite E0, E1, E2, E3.
    split_loop. rewrite decode_2 by done. cbn [mbind option_bind decode_loop].
    rewrite decode_3rd by done. cbn [mbind option_bind]. rewrite decode_4th by done.
    cbn [mbind option_bind]. rewrite <- !app_assoc.
    destruct (IH rest ltac:(lia) (o ++ [b0] ++ [b1] ++ [b2]) Hd) as (b & k & ->).
    rewrite <- !app_assoc. by eexists _, _.
Qed.

Lemma base64_roundtrip data : all_bytes data → base64_decode (base64_encode data) = Ok data.
Proof. intros Hd. unfold base64_decode. by destruct (base64_loop data [] Hd) as (b & k & ->). Qed.
End base64.

(** ** VAAs *)

Section vaas.
Import Wormhole MockGuardian.
Context (hex_encode : bytes → string).

(** The guardian indices a VAA names. *)
Definition guardian (bytes : bytes) (i : nat) : nat := Z.to_nat (nth (6 + i * 66) bytes 0).
Definition guardians (vaa : Vaa) : list nat := guardian (vaa_bytes vaa) <$> seq 0 (num_signatures vaa).

Lemma check_total bytes n : ∀ seen i, length seen = 19%nat →
  (n = 0 ∨ 6 + (i + n - 1) * 66 < length bytes)%nat →
  ∃ r, check_signatures bytes seen i n = Some r.
Proof.
  induction n as [|n IH]; intros seen i Hseen Hlen; cbn [check_signatures]; [by eexists|].
  destruct (lookup_lt_is_Some_2 bytes (6 + i * 66)) as [b Hb]; [lia|]. rewrite Hb. cbn -[Nat.leb lookup].
  destruct (Nat.leb_spec 19 (Z.to_nat b)); [by eexists|].
  destruct (lookup_lt_is_Some_2 seen (Z.to_nat b)) as [s Hs]; [lia|]. rewrite Hs. cbn -[insert].
  destruct s; [by eexists|]. apply IH; [by rewrite length_insert|lia].
Qed.

Lemma check_sound bytes n : ∀ seen i, length seen = 19%nat →
  check_signatures bytes seen i n = Some (Ok tt) →
  NoDup (guardian bytes <$> seq i n) ∧
  ∀ g, g ∈ guardian bytes <$> seq i n → (g < 19)%nat ∧ seen !! g = Some false.
Proof.
  induction n as [|n IH]; intros seen i Hseen Hc; cbn [check_signatures] in Hc; cbn [seq fmap list_fmap].
  { split; [constructor|]. intros g Hg. by apply not_elem_of_nil in Hg. }
  destruct (bytes !! _) as [b|] eqn:Hb in Hc; [|done]. cbn -[Nat.leb lookup insert] in Hc.
  assert (guardian bytes i = Z.to_nat b) as Hg by (unfold guardian; by erewrite nth_lookup_Some).
  destruct (Nat.leb_spec 19 (Z.to_nat b)); [done|].
  destruct (seen !! Z.to_nat b) as [[]|] eqn:Hs; cbn -[insert] in Hc; [done| |done].
  apply IH in Hc as [Hnd Hin]; [|by rewrite length_insert]. rewrite Hg. split.
  - constructor; [|done]. intros Hx%Hin. rewrite list_lookup_insert_eq in Hx by lia. naive_solver.
  - intros g [->|Hx]%elem_of_cons; [done|]. apply Hin in Hx as [? Hx]. split; [done|].
    destruct (decide (g = Z.to_nat b)) as [->|]; [|by rewrite list_lookup_insert_ne in Hx].
    by rewrite list_lookup_insert_eq in Hx by lia.
Qed.

Lemma parse_vaa_length bytes v : parse_vaa hex_encode bytes = Ok v →
  vaa_bytes v = bytes ∧ (6 + num_signatures v * 66 + 51 ≤ length bytes)%nat.
Proof.
  unfold parse_vaa. destruct (Nat.ltb_spec (length bytes) 57); [done|]. case_match; [done|].
  destruct (Nat.ltb_spec (length bytes) (6 + Z.to_nat (nth 5 bytes 0) * 66 + 51)); [done|].
  intros [= <-]. cbn [vaa_bytes num_signatures]. split; [done|lia].
Qed.

(** Distinct numbers below a bound are not more than the bound. *)
Lemma pigeonhole l n : NoDup l → (∀ g, g ∈ l → (g < n)%nat) → (length l ≤ n)%nat.
Proof.
  intros Hnd Hl. rewrite <- (length_seq n 0). apply submseteq_length, NoDup_submseteq; [done|].
  intros g Hg. apply elem_of_seq. specialize (Hl g Hg). lia.
Qed.

(** A VAA that was accepted: a quorum of distinct guardians. *)
Lemma verified_guardians bytes vaa : parse_vaa hex_encode bytes = Ok vaa →
  verify_vaa vaa = Some (Ok tt) →
  (13 ≤ length (guardians vaa) ≤ 19)%nat ∧ NoDup (guardians vaa) ∧
  Forall (λ g, g < 19)%nat (guardians vaa).
Proof.
  intros [Hb Hlen]%parse_vaa_length. unfold verify_vaa, guardians. rewrite Hb.
  destruct (Nat.ltb_spec (num_signatures vaa) GUARDIAN_QUORUM) as [Hq|Hq]; [done|].
  unfold GUARDIAN_QUORUM in Hq. intros [Hnd Hin]%check_sound; [|done].
  assert (∀ g, g ∈ guardian bytes <$> seq 0 (num_signatures vaa) → (g < 19)%nat) as Hlt by naive_solver.
  split; [|split; [done|by apply Forall_forall]].
  pose proof (pigeonhole _ _ Hnd Hlt). rewrite length_fmap, length_seq in *. lia.
Qed.

(** Checking a VAA that was parsed never panics, whatever the bytes were;
    and when it accepts, the VAA names at least 13 guardians of the 19, all
    distinct: a quorum cannot be faked by repeating a signature or by claiming
    more of them than are there. *)
Theorem vaa_quorum bytes vaa : parse_vaa hex_encode bytes = Ok vaa →
  (∃ r, verify_vaa vaa = Some r) ∧
  (verify_vaa vaa = Some (Ok tt) →
     (13 ≤ length (guardians vaa) ≤ 19)%nat ∧ NoDup (guardians vaa) ∧
     Forall (λ g, g < 19)%nat (guardians vaa)).
Proof.
  intros Hparse. split; [|by apply (verified_guardians bytes)].
  apply parse_vaa_length in Hparse as [Hb Hlen]. unfold verify_vaa. rewrite Hb.
  destruct (Nat.ltb_spec (num_signatures vaa) GUARDIAN_QUORUM) as [Hq|Hq]; [by eexists|].
  apply check_total; [done|]. lia.
Qed.

(** *** What the guardian builds *)

Lemma length_signatures l : length (concat (signature <$> l)) = (length l * 66)%nat.
Proof. induction l as [|x l IH]; [done|]. cbn [fmap list_fmap concat]. rewrite length_app, IH. simpl. lia. Qed.

Lemma signatures_lookup l rest i x : l !! i = Some x →
  (concat (signature <$> l) ++ rest) !! (i * 66)%nat = Some x.
Proof.
  revert i. induction l as [|y l IH]; intros [|i] H; try done; cbn [fmap list_fmap concat].
  rewrite <- app_assoc, lookup_app_r by (simpl; lia).
  replace (S i * 66 - length (signature y))%nat with (i * 66)%nat by (simpl; lia). by apply IH.
Qed.

Definition vaa_header (n : Z) : bytes := [1; 0; 0; 0; 0; n].
Definition vaa_signatures (n : Z) : bytes := concat (signature <$> (Z.of_nat <$> seq 0 (Z.to_nat n))).
Definition vaa_body (c : Z) (a : bytes) (s : Z) (p : bytes) : bytes :=
  to_be 4 0 ++ to_be 4 0 ++ to_be 2 c ++ a ++ to_be 8 s ++ [1] ++ p.

Lemma build_vaa_parts n c a s p :
  build_vaa n c a s p = vaa_header n ++ vaa_signatures n ++ vaa_body c a s p.
Proof. done. Qed.

Lemma length_vaa_signatures n : length (vaa_signatures n) = (Z.to_nat n * 66)%nat.
Proof. unfold vaa_signatures. by rewrite length_signatures, length_fmap, length_seq. Qed.

Lemma build_vaa_parses n c a s p : is_byte n → 0 ≤ c < 2 ^ 16 → length a = 32%nat → in_u64 s →
  parse_vaa hex_encode (build_vaa n c a s p) =
    Ok (mkVaa (build_vaa n c a s p) 1 (Z.to_nat n) c (hex_encode a) s p).
Proof.
  intros Hn Hc Ha Hs. unfold in_u64, u64_max, is_byte in *.
  assert (length (build_vaa n c a s p) = 6 + Z.to_nat n * 66 + 51 + length p)%nat as Hlen.
  { rewrite build_vaa_parts, !length_app, length_vaa_signatures. unfold vaa_body.
    rewrite !length_app, !length_to_be. simpl. lia. }
  unfold parse_vaa. rewrite (proj2 (Nat.ltb_ge _ _)) by lia.
  replace (nth 0 (build_vaa n c a s p) 0) with 1 by done.
  replace (nth 5 (build_vaa n c a s p) 0) with n by done. simpl negb. cbv iota.
  rewrite (proj2 (Nat.ltb_ge _ _)) by lia.
  replace (drop (6 + Z.to_nat n * 66) (build_vaa n c a s p)) with (vaa_body c a s p).
  2: { rewrite build_vaa_parts, app_assoc. rewrite drop_app_length'; [done|].
       rewrite length_app, length_vaa_signatures. done. }
  unfold vaa_body. cbv zeta. do 2 f_equal.
  - rewrite app_assoc. rewrite (slice_app 8 2) by (rewrite ?length_app, ?length_to_be; done).
    apply of_to_be. done.
  - rewrite (app_assoc (to_be 4 0)), (app_assoc _ (to_be 2 c)).
    by rewrite (slice_app 10 32) by (rewrite ?length_app, ?length_to_be; done).
  - rewrite (app_assoc (to_be 4 0)), (app_assoc _ (to_be 2 c)), (app_assoc _ a).
    rewrite (slice_app 42 8) by (rewrite ?length_app, ?length_to_be; simpl; lia). apply of_to_be. simpl. lia.
  - rewrite !app_assoc. rewrite drop_app_length'; [done|].
    rewrite !length_app, !length_to_be. simpl. lia.
Qed.

Lemma build_vaa_guardian n c a s p i : (i < Z.to_nat n)%nat →
  build_vaa n c a s p !! (6 + i * 66)%nat = Some (Z.of_nat i).
Proof.
  intros Hi. rewrite build_vaa_parts, lookup_app_r by (simpl; lia).
  replace (6 + i * 66 - length (vaa_header n))%nat with (i * 66)%nat by (simpl; lia).
  apply signatures_lookup. rewrite list_lookup_fmap, lookup_seq_lt by done. done.
Qed.

Lemma check_complete bytes n : ∀ seen i, length seen = 19%nat →
  (∀ j, (i ≤ j < i + n)%nat → bytes !! (6 + j * 66)%nat = Some (Z.of_nat j) ∧ seen !! j = Some false) →
  (i + n ≤ 19)%nat → check_signatures bytes seen i n = Some (Ok tt).
Proof.
  induction n as [|n IH]; intros seen i Hseen Hj Hle; [done|]. cbn [check_signatures].
  destruct (Hj i) as [Hb Hs]; [lia|]. rewrite Hb. cbn -[Nat.leb lookup insert]. rewrite Nat2Z.id.
  rewrite (proj2 (Nat.leb_gt 19 i)) by lia. rewrite Hs. cbn -[insert].
  apply IH; [by rewrite length_insert| |lia]. intros j Hlt. rewrite list_lookup_insert_ne by lia.
  apply Hj. lia.
Qed.

Lemma build_vaa_bytes n c a s p : is_byte n → all_bytes a → all_bytes p →
  all_bytes (build_vaa n c a s p).
Proof.
  intros Hn Ha Hp. rewrite build_vaa_parts. unfold vaa_header, vaa_signatures, vaa_body, is_byte in *.
  unfold all_bytes. rewrite !Forall_app. split_and!; try apply to_be_bytes; try done.
  - repeat constructor; unfold is_byte; lia.
  - apply Forall_concat, Forall_fmap, Forall_fmap, Forall_forall. intros i Hi%elem_of_seq. cbn.
    constructor; [unfold is_byte; lia|]. repeat constructor; unfold is_byte; lia.
  - constructor; [unfold is_byte; lia|constructor].
Qed.

(** The guardian's VAA arrives: base64 decoding gives back the very bytes,
    parsing them gives back the chain, the emitter, the sequence number and the
    payload that were signed, and the check accepts exactly the VAAs with 13 to
    19 signatures. *)
Theorem guardian_vaa_roundtrip n c a s p :
  is_byte n → 0 ≤ c < 2 ^ 16 → all_bytes a → length a = 32%nat → in_u64 s → all_bytes p →
  let b := build_vaa n c a s p in let vaa := mkVaa b 1 (Z.to_nat n) c (hex_encode a) s p in
  Base64.base64_decode (Base64.base64_encode b) = Ok b ∧
  parse_vaa hex_encode b = Ok vaa ∧
  (verify_vaa vaa = Some (Ok tt) ↔ 13 ≤ n ≤ 19).
Proof.
  intros Hn Hc Ha Hla Hs Hp. cbv zeta. split; [by apply base64_roundtrip, build_vaa_bytes|].
  split; [by apply build_vaa_parses|]. unfold verify_vaa, is_byte in *. cbn [num_signatures vaa_bytes].
  unfold GUARDIAN_QUORUM. destruct (Nat.ltb_spec (Z.to_nat n) 13); [split; [done|lia]|].
  split.
  - intros [Hnd Hin]%check_sound; [|done].
    pose proof (pigeonhole _ 19 Hnd ltac:(naive_solver)) as Hl.
    rewrite length_fmap, length_seq in Hl. lia.
  - intros Hle. apply check_complete; [done| |lia]. intros j Hj. split; [apply build_vaa_guardian; lia|].
    apply lookup_replicate. lia.
Qed.
End vaas.

(** A stand-in for the hex encoder. *)
Definition toy_hex (b : bytes) : string := String.string_of_list_ascii ((λ z, Ascii.ascii_of_nat (Z.to_nat z)) <$> b).

(** Thirteen guardians sign. *)
Lemma vaa_quorum_witness :
  ∃ vaa, Wormhole.parse_vaa toy_hex (MockGuardian.build_vaa_simple 13 2 42 [7; 8]) = Ok vaa ∧
    (13 ≤ length (guardians vaa) ≤ 19)%nat.
Proof.
  destruct (Wormhole.parse_vaa toy_hex (MockGuardian.build_vaa_simple 13 2 42 [7; 8])) as [vaa|] eqn:E;
    [|by vm_compute in E].
  exists vaa. split; [done|]. destruct (vaa_quorum toy_hex _ _ E) as [_ Hq].
  vm_compute in E. injection E as <-. apply Hq. by vm_compute.
Defined.

Lemma guardian_vaa_roundtrip_witness :
  let b := MockGuardian.build_vaa 13 2 (replicate 32 170) 42 [7; 8] in
  Base64.base64_decode (Base64.base64_encode b) = Ok b ∧
  Wormhole.verify_vaa (Wormhole.mkVaa b 1 13 2 (toy_hex (replicate 32 170)) 42 [7; 8]) = Some (Ok tt).
Proof.
  destruct (guardian_vaa_roundtrip toy_hex 13 2 (replicate 32 170) 42 [7; 8]) as (H1 & _ & H2).
  - unfold is_byte. lia.
  - lia.
  - apply Forall_replicate. unfold is_byte. lia.
  - done.
  - unfold in_u64, u64_max. lia.
  - repeat constructor; unfold is_byte; lia.
  - split; [exact H1|]. apply H2. lia.
Defined.
