(* ===== verification/LayerZero.v ===== *)
(** * The LayerZero bridge: [src/src/cross_chain/layerzero.rs]

    Routes, message identifiers, the calldata of [OFT.send], the packet header
    read from a log, and the meaning of the scan API's statuses. *)
From Stdlib Require Import Ascii.
From S2P Require Import Prelude Bytes Abi Text Wormhole.
Open Scope Z_scope.

Inductive BridgeStatus :=
| Pending
| InTransit (message_id : string)
| Completed (dest_tx_hash : string)
| Failed (reason : string).

Module LayerZero.

Definition OFT_SEND_SELECTOR : bytes := [199; 199; 245; 179].

Inductive ScanMessageStatus := Inflight | Delivered | SFailed | Blocked | Confirming.

Record ScanMessage := mkScan {
  sm_status : option ScanMessageStatus;
  sm_src_tx_hash : option string;
  sm_dst_tx_hash : option string;
  sm_src_eid : option Z;
  sm_dst_eid : option Z;
  sm_guid : option string;
}.

Definition endpoint_id (chain : string) : option Z :=
  if String.eqb chain "ethereum" then Some 30101
  else if String.eqb chain "polygon" then Some 30109
  else if String.eqb chain "arbitrum" then Some 30110
  else if String.eqb chain "base" then Some 30184
  else None.

Definition supports_route (source dest : string) : bool :=
  bool_decide (is_Some (endpoint_id source)) && bool_decide (is_Some (endpoint_id dest)) &&
  negb (String.eqb source dest).

Definition get_bridge_time (source : string) : BridgeTime :=
  let source_finality :=
    if String.eqb source "ethereum" then 780
    else if String.eqb source "polygon" then 128
    else if String.eqb source "arbitrum" then 10
    else if String.eqb source "base" then 10
    else 60 in
  mkBridgeTime (source_finality + 5) (source_finality + 30) (source_finality + 300).

Definition message_id (src_eid dst_eid : Z) (guid : string) : string :=
  ("lz/" +:+ print_uint src_eid +:+ "/" +:+ print_uint dst_eid +:+ "/" +:+ guid)%string.

(** The parts of [splitn(4, '/')], when there are four. *)
Definition parse_message_id (id : string) : option (Z * Z * string) :=
  '(p0, r) ← split_once id;
  '(p1, r) ← split_once r;
  '(p2, p3) ← split_once r;
  if negb (String.eqb p0 "lz") then None
  else
    src ← parse_uint (2 ^ 32 - 1) p1;
    dst ← parse_uint (2 ^ 32 - 1) p2;
    Some (src, dst, p3).

(** [verify_lock] once the scan API has answered. *)
Definition lock_status (tx_hash : string) (r : result (option ScanMessage) BridgeError) : BridgeStatus :=
  match r with
  | Ok (Some msg) =>
      match sm_status msg with
      | Some Delivered => Completed (default "" (sm_dst_tx_hash msg))
      | Some Inflight | Some Confirming =>
          InTransit (message_id (default 0 (sm_src_eid msg)) (default 0 (sm_dst_eid msg))
                       (default "" (sm_guid msg)))
      | Some SFailed => Failed "LayerZero message failed (lzReceive reverted)"
      | Some Blocked => InTransit ("blocked_" +:+ tx_hash)
      | None => Pending
      end
  | Ok None => Pending
  | Err _ => Pending
  end.

Section hex.
Context (hex_encode : bytes → string) (hex_decode : string → option bytes).

Definition encode_oft_send (dst_eid : Z) (recipient : string) (amount : Z) : bytes :=
  let recip_bytes := default [] (hex_decode (strip_0x recipient)) in
  let min_amount := u64 (amount * 99) / 100 in
  let options_offset := 7 * 32 in
  let compose_offset := options_offset + 64 in
  let oft_offset := compose_offset + 32 in
  OFT_SEND_SELECTOR ++
  word [32] ++
  word (to_be 4 dst_eid) ++
  word (take (length recip_bytes `min` 32) recip_bytes) ++
  word (to_be 8 amount) ++
  word (to_be 8 min_amount) ++
  word (to_be 8 options_offset) ++
  word (to_be 8 compose_offset) ++
  word (to_be 8 oft_offset) ++
  replicate 32 0 ++
  replicate 32 0 ++
  replicate 32 0.

Record LzMessage := mkLzMessage {
  guid : string;
  src_eid : Z;
  dst_eid : Z;
  nonce : Z;
}.

(** The data of a [PacketSent] log; [hex_pad n v] is [format!("{:0nx}", v)]. *)
Definition parse_packet (hex_pad : nat → Z → string) (data : bytes) : option LzMessage :=
  if (length data <? 96)%nat then None
  else
    let packet := drop 64 data in
    if (length packet <? 81)%nat then None
    else
      let nonce := of_be (slice 1 8 packet) in
      let src_eid := of_be (slice 9 4 packet) in
      let dst_eid := of_be (slice 45 4 packet) in
      Some (mkLzMessage
        (hex_pad 16%nat nonce +:+ hex_pad 8%nat src_eid +:+ hex_pad 8%nat dst_eid +:+
           hex_encode (slice 13 32 packet))%string src_eid dst_eid nonce).

End hex.
End LayerZero.
