(* ===== verification/CalldataCorrect.v ===== *)
(** * What the calldata and the message identifiers mean

    Arguments are read back by a contract as they were given, identifiers are
    parsed back, and where the layout is wrong the contract sees it. *)
From S2P Require Import Prelude Bytes Abi Text Wormhole LayerZero.
Open Scope Z_scope.

(** ** Message identifiers *)

(** A bridge's message identifier names one message: it is parsed back to
    the chain, the emitter and the sequence number (to the two endpoints and
    the guid) it was made of, so that different messages have different
    identifiers.  Only the emitter must not contain a slash. *)
Theorem message_ids_parse_back :
  (∀ chain emitter seq, 0 ≤ chain < 2 ^ 16 → in_u64 seq → has_slash emitter = false →
     Wormhole.parse_message_id (Wormhole.message_id chain emitter seq) = Some (chain, emitter, seq)) ∧
  (∀ src dst guid, 0 ≤ src < 2 ^ 32 → 0 ≤ dst < 2 ^ 32 →
     LayerZero.parse_message_id (LayerZero.message_id src dst guid) = Some (src, dst, guid)).
Proof.
  split.
  - intros chain emitter seq Hc [Hs Hs'] He. unfold Wormhole.parse_message_id, Wormhole.message_id.
    rewrite split_once_app by apply print_no_slash. simpl. rewrite split_once_app by done. simpl.
    by rewrite !parse_print by lia.
  - intros src dst guid Hs Hd. unfold LayerZero.parse_message_id, LayerZero.message_id.
    change ("lz/" +:+ print_uint src +:+ "/" +:+ print_uint dst +:+ "/" +:+ guid)%string
      with ("lz" +:+ "/" +:+ (print_uint src +:+ "/" +:+ print_uint dst +:+ "/" +:+ guid))%string.
    rewrite split_once_app by done. simpl. rewrite split_once_app by apply print_no_slash. simpl.
    rewrite split_once_app by apply print_no_slash. simpl. by rewrite !parse_print by lia.
Qed.

Lemma message_ids_parse_back_witness :
  Wormhole.parse_message_id (Wormhole.message_id 2 "c0ffee" 42) = Some (2, "c0ffee"%string, 42) ∧
  LayerZero.parse_message_id (LayerZero.message_id 30101 30110 "a/b") = Some (30101, 30110, "a/b"%string).
Proof.
  split; [apply (proj1 message_ids_parse_back)|apply (proj2 message_ids_parse_back)];
    unfold in_u64, u64_max; (lia || done).
Defined.

(** ** Contract calls *)

(** An address as the contract reads it: a number below 2^160. *)
Definition address (a : bytes) : Prop := length a = 20%nat ∧ all_bytes a.

Ltac read_words :=
  repeat (first [rewrite word_at_cons_0 by (rewrite ?length_app, ?length_replicate, ?length_to_be; simpl; lia)
                |rewrite word_at_cons_S by (rewrite ?length_app, ?length_replicate, ?length_to_be; simpl; lia)]).

Section erc20.
Import Erc20Abi.

Lemma length_encode_address a : length a = 20%nat → length (encode_address a) = 32%nat.
Proof. intros H. unfold encode_address. by rewrite length_app, length_replicate, H. Qed.
Lemma of_be_encode_address a : of_be (encode_address a) = of_be a.
Proof. apply of_be_zeros. Qed.
Lemma length_encode_uint256 v : length (encode_uint256 v) = 32%nat.
Proof. unfold encode_uint256. by rewrite length_app, length_replicate, length_to_be. Qed.
Lemma of_be_encode_uint256 v : 0 ≤ v < 2 ^ 128 → of_be (encode_uint256 v) = v.
Proof. intros H. unfold encode_uint256. rewrite of_be_zeros. by apply of_to_be. Qed.

(** The words of a call: selector, then arguments. *)
Definition args (data : bytes) : bytes := drop 4 data.

(** Every ERC-20 call means what was asked for: the contract finds the
    selector of the function, and reads the addresses and the amount that were
    given, in the order of the signature, and nothing more. *)
Theorem erc20_calls_read_back a b amount : address a → address b → 0 ≤ amount < 2 ^ 128 →
  (let t := args (encode_transfer a amount) in
   take 4 (encode_transfer a amount) = TRANSFER_SELECTOR ∧ length t = 64%nat ∧
   word_at t 0 = Some (of_be a) ∧ word_at t 1 = Some amount) ∧
  (let t := args (encode_approve a amount) in
   take 4 (encode_approve a amount) = APPROVE_SELECTOR ∧ length t = 64%nat ∧
   word_at t 0 = Some (of_be a) ∧ word_at t 1 = Some amount) ∧
  (let t := args (encode_transfer_from a b amount) in
   take 4 (encode_transfer_from a b amount) = TRANSFER_FROM_SELECTOR ∧ length t = 96%nat ∧
   word_at t 0 = Some (of_be a) ∧ word_at t 1 = Some (of_be b) ∧ word_at t 2 = Some amount) ∧
  (let t := args (encode_balance_of a) in
   take 4 (encode_balance_of a) = BALANCE_OF_SELECTOR ∧ length t = 32%nat ∧
   word_at t 0 = Some (of_be a)).
Proof.
  intros [Ha _] [Hb _] Hamt.
  pose proof (length_encode_address a Ha) as La. pose proof (length_encode_address b Hb) as Lb.
  pose proof (length_encode_uint256 amount) as Lv.
  assert (∀ w, length w = 32%nat → word_at w 0 = Some (of_be w)) as Hlast.
  { intros w Hw. rewrite <- (app_nil_r w) at 1. by apply word_at_cons_0. }
  assert (word_at (encode_uint256 amount) 0 = Some amount) as Hv
    by (rewrite Hlast by done; by rewrite of_be_encode_uint256).
  split; [|split; [|split]]; intros t.
  - change t with (encode_address a ++ encode_uint256 amount). split; [done|].
    rewrite length_app, La, Lv, word_at_cons_0, of_be_encode_address, word_at_cons_S by done. done.
  - change t with (encode_address a ++ encode_uint256 amount). split; [done|].
    rewrite length_app, La, Lv, word_at_cons_0, of_be_encode_address, word_at_cons_S by done. done.
  - change t with (encode_address a ++ encode_address b ++ encode_uint256 amount). split; [done|].
    rewrite !length_app, La, Lb, Lv, word_at_cons_0, of_be_encode_address, !word_at_cons_S by done.
    rewrite word_at_cons_0, of_be_encode_address by done. done.
  - change t with (encode_address a). split; [done|]. split; [done|].
    by rewrite Hlast, of_be_encode_address.
Qed.

Lemma erc20_calls_read_back_witness :
  let t := args (encode_transfer_from (replicate 20 170) (replicate 20 187) 1000) in
  word_at t 1 = Some (of_be (replicate 20 187)) ∧ word_at t 2 = Some 1000.
Proof.
  assert (∀ b, is_byte b → address (replicate 20 b)) as Haddr
    by (intros b Hb; split; [done|by apply Forall_replicate]).
  destruct (erc20_calls_read_back (replicate 20 170) (replicate 20 187) 1000) as (_ & _ & Ht & _);
    [apply Haddr; unfold is_byte; lia..|lia|].
  destruct Ht as (_ & _ & _ & H1 & H2). split; [exact H1|exact H2].
Defined.
End erc20.

(** *** The bridges' calls *)

Section bridges.
Context (hex_decode : string → option bytes).

Lemma all_words_nil : all_words [].
Proof. constructor. Qed.
Lemma all_words_cons w ws : length w = 32%nat → all_words ws → all_words (w :: ws).
Proof. by constructor. Qed.

(** What [OFT.send] reads: the tuple starts at the offset in the first word,
    its fields follow, the last three are offsets of [bytes] in the tuple. *)
Definition oft_tuple (data : bytes) : bytes := drop 32 (drop 4 data).

Lemma take_min {A} n (l : list A) : take (length l `min` n) l = take n l.
Proof. by rewrite Nat.min_comm, <- take_take, firstn_all. Qed.

Definition oft_words (dst : Z) (recipient : string) (amount : Z) : list bytes :=
  [word (to_be 4 dst); word (take 32 (default [] (hex_decode (strip_0x recipient))));
   word (to_be 8 amount); word (to_be 8 (u64 (amount * 99) / 100)); word (to_be 8 224);
   word (to_be 8 288); word (to_be 8 320); replicate 32 0; replicate 32 0; replicate 32 0].

Lemma oft_words_all dst recipient amount : all_words (oft_words dst recipient amount).
Proof.
  repeat (apply all_words_cons;
    [first [done|apply length_word; rewrite ?length_to_be, ?length_take; lia]|]). apply all_words_nil.
Qed.

(** Of an [OFT.send] call the contract reads the destination, the amount
    and the recipient that were asked for, and finds empty options and an
    empty message; but the offset of the last argument, [oftCmd], lies beyond
    the end of the calldata, so that decoding it fails. The minimum is 99
    percent of the amount as long as 99 times the amount fits in 64 bits, and
    less than it otherwise. *)
Theorem oft_send_layout dst recipient amount :
  0 ≤ dst < 2 ^ 32 → in_u64 amount →
  let data := LayerZero.encode_oft_send hex_decode dst recipient amount in let t := oft_tuple data in
  word_at (drop 4 data) 0 = Some 32 ∧
  word_at t 0 = Some dst ∧
  word_at t 1 = Some (of_be (take 32 (default [] (hex_decode (strip_0x recipient))))) ∧
  word_at t 2 = Some amount ∧
  (∃ m, word_at t 3 = Some m ∧
     (99 * amount ≤ u64_max → m = 99 * amount / 100) ∧ (u64_max < 99 * amount → m < 99 * amount / 100)) ∧
  (∃ o, word_at t 4 = Some o ∧ abi_bytes t o = Some []) ∧
  (∃ o, word_at t 5 = Some o ∧ abi_bytes t o = Some []) ∧
  (∃ o, word_at t 6 = Some o ∧ abi_bytes t o = None).
Proof.
  intros Hd Ha data t. unfold in_u64 in Ha.
  assert (t = concat (oft_words dst recipient amount)) as ->.
  { unfold t, data, oft_tuple, LayerZero.encode_oft_send. rewrite drop_app_length'; [|done].
    rewrite drop_app_length'; [|done]. unfold oft_words. cbn [concat]. rewrite app_nil_r.
    by rewrite take_min. }
  pose proof (oft_words_all dst recipient amount) as Hw.
  rewrite !word_at_concat by done. unfold oft_words. cbn [lookup list_lookup fmap option_fmap option_map].
  rewrite !of_be_word. split_and!.
  - unfold data, LayerZero.encode_oft_send. rewrite drop_app_length' by done.
    by rewrite word_at_cons_0.
  - by rewrite of_to_be.
  - done.
  - rewrite of_to_be; [done|]. change (256 ^ Z.of_nat 8) with (2 ^ 64). unfold u64_max in Ha. lia.
  - eexists. split; [done|]. unfold u64, wrap_u. unfold u64_max in *.
    assert (0 ≤ (amount * 99) `mod` 2 ^ 64 < 2 ^ 64) as Hm by (apply Z.mod_pos_bound; lia).
    rewrite of_to_be by (change (256 ^ Z.of_nat 8) with (2 ^ 64); Z.to_euclidean_division_equations; lia).
    rewrite (Z.mul_comm 99). split; intros Hb.
    + by rewrite Z.mod_small by lia.
    + Z.to_euclidean_division_equations; lia.
  - eexists. split; [done|]. apply (abi_bytes_empty _ 7); done.
  - eexists. split; [done|]. apply (abi_bytes_empty _ 9); done.
  - eexists. split; [done|]. apply (abi_bytes_outside _ 10); done.
Qed.

Lemma word_at_all w : length w = 32%nat → word_at w 0 = Some (of_be w).
Proof. intros Hw. rewrite <- (app_nil_r w) at 1. by apply word_at_cons_0. Qed.

Definition recipient_word (r : bytes) : bytes :=
  replicate (32 - length r `min` 32) 0 ++ take (length r `min` 32) r.

Lemma recipient_word_length r : length (recipient_word r) = 32%nat.
Proof. unfold recipient_word. rewrite length_app, length_replicate, length_take. lia. Qed.

(** Of a [transferTokens] call the token bridge reads the token, the
    amount, the chain, the recipient, no fee and the nonce that were given,
    provided the token is the hex text of an address; a token that is no hex
    text makes calldata too short to hold the last argument. Of a
    [completeTransfer] call it reads back exactly the VAA. *)
Theorem wormhole_calls_read_back token recipient amount chain nonce vaa :
  in_u64 amount → 0 ≤ chain < 2 ^ 16 → 0 ≤ nonce < 2 ^ 32 → Z.of_nat (length vaa) < 2 ^ 64 →
  let t := drop 4 (Wormhole.encode_transfer_tokens hex_decode token amount chain recipient nonce) in
  let c := drop 4 (Wormhole.encode_complete_transfer vaa) in
  (∀ a, hex_decode (strip_0x token) = Some a → length a = 20%nat →
     length t = 192%nat ∧ word_at t 0 = Some (of_be a) ∧ word_at t 1 = Some amount ∧
     word_at t 2 = Some chain ∧
     word_at t 3 = Some (of_be (take 32 (default [] (hex_decode (strip_0x recipient))))) ∧
     word_at t 4 = Some 0 ∧ word_at t 5 = Some nonce) ∧
  (hex_decode (strip_0x token) = None → length t = 172%nat ∧ word_at t 5 = None) ∧
  word_at c 0 = Some 32 ∧ abi_bytes c 32 = Some vaa.
Proof.
  intros Ha Hc Hn Hv t c. unfold in_u64, u64_max in Ha.
  set (r := default [] (hex_decode (strip_0x recipient))).
  set (tok := Wormhole.hex_bytes hex_decode token).
  assert (t = (replicate 12 0 ++ tok) ++ word (to_be 8 amount) ++ word (to_be 2 chain) ++
    recipient_word r ++ replicate 32 0 ++ word (to_be 4 nonce)) as Et.
  { unfold t, Wormhole.encode_transfer_tokens, recipient_word. fold tok.
    rewrite drop_app_length' by done. by rewrite <- !app_assoc. }
  assert (∀ n v, (n ≤ 32)%nat → length (word (to_be n v)) = 32%nat) as Lw
    by (intros n v Hle; apply length_word; by rewrite length_to_be).
  pose proof (recipient_word_length r) as Lr. split_and!.
  - intros a Ea La. assert (tok = a) as Etok by (unfold tok, Wormhole.hex_bytes; by rewrite Ea).
    assert (length (replicate 12 0 ++ tok) = 32%nat) as L0 by (rewrite length_app, Etok, La; done).
    rewrite Et, length_app, L0, !length_app, !Lw, Lr, length_replicate by lia.
    rewrite !word_at_cons_S, !word_at_cons_0, word_at_all by (rewrite ?Lw; done || lia).
    rewrite of_be_zeros, !of_be_word, !of_to_be by (simpl; lia). unfold recipient_word.
    rewrite of_be_zeros, take_min, Etok. by split_and!.
  - intros Ea. assert (tok = []) as Etok by (unfold tok, Wormhole.hex_bytes; by rewrite Ea).
    assert (length t = 172%nat) as L.
    { rewrite Et, Etok, !length_app, !Lw, Lr by lia. done. }
    split; [done|]. unfold word_at. rewrite L. done.
  - unfold c, Wormhole.encode_complete_transfer. rewrite drop_app_length' by done.
    by rewrite word_at_cons_0.
  - unfold c, Wormhole.encode_complete_transfer. rewrite drop_app_length' by done.
    unfold abi_bytes. change (Z.to_nat 32) with 32%nat. rewrite drop_app_length' by done.
    rewrite word_at_cons_0, of_be_word by (apply Lw; lia). unfold u64, wrap_u. rewrite Z.mod_small by lia.
    rewrite of_to_be by (change (256 ^ Z.of_nat 8) with (2 ^ 64); lia). cbn [mbind option_bind].
    rewrite Nat2Z.id, bool_decide_eq_true_2 by (rewrite !length_app, Lw by lia; lia).
    f_equal. apply slice_app; [apply Lw; lia|done].
Qed.
End bridges.

(** A stand-in for the hex decoder: a text of 40 characters is 20 bytes. *)
Definition toy_unhex (s : string) : option bytes :=
  if (String.length s =? 40)%nat then Some (replicate 20 171) else None.
Definition some_address : string := "0xabababababababababababababababababababab".

Lemma wormhole_calls_read_back_witness :
  let t := drop 4 (Wormhole.encode_transfer_tokens toy_unhex some_address 1000 30 some_address 7) in
  word_at t 1 = Some 1000 ∧ word_at t 5 = Some 7 ∧
  abi_bytes (drop 4 (Wormhole.encode_complete_transfer [1; 2; 3])) 32 = Some [1; 2; 3].
Proof.
  destruct (wormhole_calls_read_back toy_unhex some_address some_address 1000 30 7 [1; 2; 3])
    as (Ht & _ & _ & Hc); [unfold in_u64, u64_max; lia|lia|lia|simpl; lia|].
  destruct (Ht (replicate 20 171)) as (_ & _ & H1 & _ & _ & _ & H5); [done|done|].
  split; [exact H1|]. split; [exact H5|exact Hc].
Defined.

Lemma oft_send_layout_witness :
  let t := oft_tuple (LayerZero.encode_oft_send toy_unhex 30110 some_address 1000) in
  word_at t 2 = Some 1000 ∧ ∃ o, word_at t 6 = Some o ∧ abi_bytes t o = None.
Proof.
  destruct (oft_send_layout toy_unhex 30110 some_address 1000)
    as (_ & _ & _ & H & _ & _ & _ & Ho); [lia|unfold in_u64, u64_max; lia|].
  split; [exact H|exact Ho].
Defined.
