(* ===== verification/Rpc.v ===== *)
(** * Talking to chains and to HTTP services: the EVM helpers of
      [src/src/cross_chain/wormhole.rs] and [layerzero.rs]

    The network ([reqwest]), the timer ([tokio]), the random numbers and the
    JSON parser ([serde_json]) are parameters; what the bridges do with the
    answers is modelled, through the circuit breakers. *)
From stdpp Require Import gmap.
From S2P Require Import Prelude Monad Float64 Model Text Bytes Breaker Wormhole.
Open Scope Z_scope.

(** [serde_json::Value] *)
Inductive Value :=
| JNull
| JBool (b : bool)
| JNumber (text : string)
| JString (s : string)
| JArray (l : list Value)
| JObject (fields : list (string * Value)).

Fixpoint field (key : string) (fields : list (string * Value)) : option Value :=
  match fields with
  | [] => None
  | (k, v) :: r => if String.eqb k key then Some v else field key r
  end.
Definition get (key : string) (v : Value) : option Value :=
  match v with JObject fields => field key fields | _ => None end.
Definition as_array (v : Value) : option (list Value) :=
  match v with JArray l => Some l | _ => None end.
Definition as_str (v : Value) : option string := match v with JString s => Some s | _ => None end.
Definition is_null (v : Value) : bool := match v with JNull => true | _ => false end.

Record JsonRpcError := mkRpcError { code : Z; message : string }.
Record JsonRpcResponse := mkRpcResponse { rpc_result : option Value; rpc_error : option JsonRpcError }.

(** Why a request failed: it was not answered, or the answer was not read. *)
Inductive HttpError := SendFailed (e : string) | BodyFailed (e : string).

Record Network := mkNetwork {
  post : string → string → Value → M CoreDb JsonRpcResponse HttpError;
  get_url : string → M CoreDb (Z * string) HttpError;
  sleep : Z → Env CoreDb → Env CoreDb;
  random : Env CoreDb → Z * Env CoreDb;
  print_json : Value → string;
}.

(** A network that leaves our tables alone; it can let time pass. *)
Class Separate {X} (φ : CoreDb → X) (net : Network) : Prop := {
  post_separate url method params : keeps φ (post net url method params);
  get_separate url : keeps φ (get_url net url);
  sleep_separate ms e : φ (env_db (sleep net ms e)) = φ (env_db e);
  random_separate e : φ (env_db (snd (random net e))) = φ (env_db e);
}.

(** [tokio::time::sleep(Duration::from_millis(ms)).await], [rand::random::<u64>()] *)
Definition sleep_ms {E} (net : Network) (ms : Z) : M CoreDb unit E := λ e, (Ok tt, sleep net ms e).
Definition random_u64 {E} (net : Network) : M CoreDb Z E :=
  λ e, let '(n, e') := random net e in (Ok n, e').

(** The JSON reader of the source: [Option<Value>] reads a null as absent. *)
Definition null_is_absent (net : Network) : Prop :=
  ∀ url method params e resp e', post net url method params e = (Ok resp, e') → rpc_result resp ≠ Some JNull.

(** The state of an adapter, the counters of its breakers apart. *)
Record Bridge := mkBridge {
  api : string;
  api_breaker : CircuitBreakerConfig;
  chain_rpcs : gmap string string;
  chain_breakers : gmap string CircuitBreakerConfig;
}.

(** [with_chain_rpc], for breakers named "<prefix>_<chain>_rpc" *)
Definition with_chain_rpc (prefix chain rpc_url : string) (b : Bridge) : Bridge :=
  mkBridge (api b) (api_breaker b) (<[chain := rpc_url]> (chain_rpcs b))
    (<[chain := CircuitBreakerConfig.new (prefix +:+ "_" +:+ chain +:+ "_rpc") 5 30]> (chain_breakers b)).

Section rpc.
Context (net : Network) (self : Bridge).

Definition evm_rpc_call (chain method : string) (params : Value) : M CoreDb Value BridgeError :=
  let* rpc_url := of_option (NetworkError ("No RPC for chain: " +:+ chain)) (chain_rpcs self !! chain) in
  let do_call :=
    let* rpc_resp := map_err (λ x, match x with
                                   | SendFailed e => NetworkError e
                                   | BodyFailed e => NetworkError ("parse: " +:+ e)
                                   end) (post net rpc_url method params) in
    match rpc_error rpc_resp with
    | Some err => throw (NetworkError ("RPC error " +:+ print_int (code err) +:+ ": " +:+ message err))
    | None => of_option (NetworkError "null result") (rpc_result rpc_resp)
    end in
  match chain_breakers self !! chain with
  | Some b =>
      map_err (λ x, match x with
                    | COpen breaker _ => NetworkError ("circuit open: " +:+ breaker)
                    | CInner e => e
                    end) (CircuitBreaker.call b do_call)
  | None => do_call
  end.

Definition evm_send_raw_tx (chain signed_tx_hex : string) : M CoreDb string BridgeError :=
  let* result := evm_rpc_call chain "eth_sendRawTransaction" (JArray [JString signed_tx_hex]) in
  of_option (NetworkError "tx hash not a string") (as_str result).

Definition evm_get_receipt (chain tx_hash : string) : M CoreDb (option Value) BridgeError :=
  let* result := evm_rpc_call chain "eth_getTransactionReceipt" (JArray [JString tx_hash]) in
  ret (if is_null result then None else Some result).

Definition backoff {E} (attempt initial_ms max_ms : Z) : M CoreDb unit E :=
  let* n := random_u64 net in
  sleep_ms net (Wormhole.backoff_delay n attempt initial_ms max_ms).

(** The attempts of [for attempt in 0..20u32] from [attempt] on. *)
Fixpoint receipt_loop (n : nat) (attempt : Z) (chain tx_hash : string) : M CoreDb Value BridgeError :=
  match n with
  | O => throw (LockFailed ("Receipt not found after 20 attempts for " +:+ tx_hash))
  | S n =>
      let* r := evm_get_receipt chain tx_hash in
      match r with
      | Some receipt =>
          let status := default "0x0" (get "status" receipt ≫= as_str) in
          if String.eqb status "0x0" then throw (LockFailed "Source tx reverted") else ret receipt
      | None => backoff attempt 2000 15000 ;;; receipt_loop n (attempt + 1) chain tx_hash
      end
  end.
Definition wait_for_receipt (chain tx_hash : string) : M CoreDb Value BridgeError :=
  receipt_loop 20 0 chain tx_hash.

(** A GET through the breaker of the service; [body] names the reading of the body. *)
Definition fetch (body url : string) : M CoreDb (Z * string) (CircuitError BridgeError) :=
  CircuitBreaker.call (api_breaker self)
    (map_err (λ x, match x with
                   | SendFailed e => NetworkError e
                   | BodyFailed e => NetworkError (body +:+ e)
                   end) (get_url net url)).

Definition success (status : Z) : bool := (200 <=? status) && (status <? 300).

(** ** Frames *)
Section separate.
Context {X} (φ : CoreDb → X) `{!Separate φ net}.
Hypothesis φ_breakers : ∀ x d, φ (set_breakers x d) = φ d.

Lemma keeps_sleep {E} ms : keeps φ (sleep_ms (E := E) net ms).
Proof. intros e. apply sleep_separate. Qed.
Lemma keeps_random {E} : keeps φ (random_u64 (E := E) net).
Proof. intros e. unfold random_u64. pose proof (random_separate e) as H. by destruct (random net e). Qed.
(** The counters of a breaker are no part of [φ]. *)
Ltac net_keeps := keeps; try (apply keeps_modify; intros ?; apply φ_breakers).

Lemma keeps_call {A E} config (m : M CoreDb A E) : keeps φ m → keeps φ (CircuitBreaker.call config m).
Proof. intros Hm. unfold CircuitBreaker.call. net_keeps. Qed.
Lemma keeps_post url method params : keeps φ (post net url method params).
Proof. apply post_separate. Qed.
Lemma keeps_get_url url : keeps φ (get_url net url).
Proof. apply get_separate. Qed.
#[local] Hint Resolve keeps_sleep keeps_random keeps_call keeps_post keeps_get_url : keeps.

Lemma keeps_rpc_call chain method params : keeps φ (evm_rpc_call chain method params).
Proof. unfold evm_rpc_call. net_keeps. Qed.
#[local] Hint Resolve keeps_rpc_call : keeps.
Lemma keeps_backoff {E} attempt a b : keeps φ (backoff (E := E) attempt a b).
Proof. unfold backoff. keeps. Qed.
Lemma keeps_get_receipt chain tx : keeps φ (evm_get_receipt chain tx).
Proof. unfold evm_get_receipt. keeps. Qed.
Lemma keeps_receipt_loop n attempt chain tx : keeps φ (receipt_loop n attempt chain tx).
Proof.
  revert attempt. induction n as [|n IH]; intros attempt; simpl; [keeps|].
  apply keeps_bind; [apply keeps_get_receipt|]. intros [receipt|]; [keeps|].
  apply keeps_bind; [apply keeps_backoff|]. intros _. apply IH.
Qed.
Lemma keeps_wait chain tx : keeps φ (wait_for_receipt chain tx).
Proof. apply keeps_receipt_loop. Qed.
Lemma keeps_fetch body url : keeps φ (fetch body url).
Proof. unfold fetch. net_keeps. Qed.
End separate.
End rpc.

#[export] Hint Resolve keeps_sleep keeps_random keeps_rpc_call keeps_backoff keeps_get_receipt keeps_wait
  keeps_fetch : keeps.
