(* ===== verification/HtlcSwaps.v ===== *)
(** * Atomic swaps: [src/src/cross_chain/htlc/{crypto,model,service}.rs]

    The life of a swap in the table [htlc_swaps]: every operation is one
    conditional update, guarded by the status the swap must be in. *)
From S2P Require Import Prelude Monad Float64 Model Text.

Inductive HtlcError :=
| NotFound
| InvalidState (s : string)
| SecretMismatch
| Expired
| DbError (e : SqlxError).

Record CreateHtlcParams := mkHtlcParams {
  p_fill_id : Uuid;
  p_intent_id : Uuid;
  p_solver_id : string;
  p_source_chain : string;
  p_source_sender : string;
  p_source_receiver : string;
  p_source_token : option string;
  p_source_amount : Z;
  p_dest_chain : string;
  p_dest_sender : string;
  p_dest_receiver : string;
  p_dest_token : option string;
  p_dest_amount : Z;
  p_timelock_secs : Z;
}.

Definition is_terminal (s : HtlcStatus) : bool :=
  match s with HSourceUnlocked | HRefunded | HExpired | HFailed => true | _ => false end.

(** [crypto.rs]; [sha256] is SHA-256. *)
Section crypto.
Context (sha256 : list Z → list Z).
Definition hash_secret (secret : list Z) : list Z := sha256 secret.
Definition verify_secret (secret expected_hash : list Z) : bool :=
  bool_decide (hash_secret secret = expected_hash).
End crypto.

Module HtlcService.
Section service.
Context (sha256 : list Z → list Z) (hex_decode : string → option (list Z)).

Definition DEFAULT_TIMELOCK_SECS : Z := 1800.

(** The columns an operation changes; the terms of a swap never change. *)
Definition touch (r : HtlcSwap) (status : HtlcStatus) (secret : option (list Z))
    (source_lock_tx source_unlock_tx dest_lock_tx dest_claim_tx error : option string)
    (locked_at claimed_at completed_at : option Z) : HtlcSwap :=
  mkSwap (sw_id r) (sw_fill_id r) (sw_intent_id r) (sw_secret_hash r) secret (sw_source_chain r)
    (sw_source_sender r) (sw_source_receiver r) (sw_source_token r) (sw_source_amount r)
    source_lock_tx source_unlock_tx (sw_source_timelock r) (sw_dest_chain r) (sw_dest_sender r)
    (sw_dest_receiver r) (sw_dest_token r) (sw_dest_amount r) dest_lock_tx dest_claim_tx status
    (sw_solver_id r) error (sw_created_at r) locked_at claimed_at completed_at.

Definition is_swap (id : Uuid) (r : HtlcSwap) : bool := (sw_id r =? id)%N.
Definition in_status (l : list HtlcStatus) (r : HtlcSwap) : bool := bool_decide (sw_status r ∈ l).

(** UPDATE htlc_swaps SET .. WHERE id = .. AND ..: the rows changed *)
Definition update_swap (id : Uuid) (q : HtlcSwap → bool) (f : HtlcSwap → HtlcSwap)
  : M CoreDb nat HtlcError :=
  let p := λ r, is_swap id r && q r in
  map_err DbError (stmt (λ d,
    Some (rows_affected p (htlc_swaps d), set_htlc_swaps (sql_update p f (htlc_swaps d)) d))).

(** The SETs of the updates. *)
Definition set_secret (secret : list Z) (r : HtlcSwap) : HtlcSwap :=
  touch r (sw_status r) (Some secret) (sw_source_lock_tx r) (sw_source_unlock_tx r) (sw_dest_lock_tx r)
    (sw_dest_claim_tx r) (sw_error r) (sw_locked_at r) (sw_claimed_at r) (sw_completed_at r).
Definition set_source_locked (lock_tx : string) (t : Z) (r : HtlcSwap) : HtlcSwap :=
  touch r HSourceLocked (sw_secret r) (Some lock_tx) (sw_source_unlock_tx r) (sw_dest_lock_tx r)
    (sw_dest_claim_tx r) (sw_error r) (Some t) (sw_claimed_at r) (sw_completed_at r).
Definition set_dest_lock (dest_lock_tx : string) (r : HtlcSwap) : HtlcSwap :=
  touch r (sw_status r) (sw_secret r) (sw_source_lock_tx r) (sw_source_unlock_tx r) (Some dest_lock_tx)
    (sw_dest_claim_tx r) (sw_error r) (sw_locked_at r) (sw_claimed_at r) (sw_completed_at r).
Definition set_dest_claimed (secret : option (list Z)) (claim_tx : string) (t : Z) (r : HtlcSwap)
  : HtlcSwap :=
  touch r HDestClaimed secret (sw_source_lock_tx r) (sw_source_unlock_tx r) (sw_dest_lock_tx r)
    (Some claim_tx) (sw_error r) (sw_locked_at r) (Some t) (sw_completed_at r).
Definition set_unlocked (unlock_tx : string) (t : Z) (r : HtlcSwap) : HtlcSwap :=
  touch r HSourceUnlocked (sw_secret r) (sw_source_lock_tx r) (Some unlock_tx) (sw_dest_lock_tx r)
    (sw_dest_claim_tx r) (sw_error r) (sw_locked_at r) (sw_claimed_at r) (Some t).
Definition set_refunded (t : Z) (r : HtlcSwap) : HtlcSwap :=
  touch r HRefunded (sw_secret r) (sw_source_lock_tx r) (sw_source_unlock_tx r) (sw_dest_lock_tx r)
    (sw_dest_claim_tx r) (sw_error r) (sw_locked_at r) (sw_claimed_at r) (Some t).
Definition set_failed (error : string) (t : Z) (r : HtlcSwap) : HtlcSwap :=
  touch r HFailed (sw_secret r) (sw_source_lock_tx r) (sw_source_unlock_tx r) (sw_dest_lock_tx r)
    (sw_dest_claim_tx r) (Some error) (sw_locked_at r) (sw_claimed_at r) (Some t).

Definition get_swap (swap_id : Uuid) : M CoreDb HtlcSwap HtlcError :=
  let* o := map_err DbError (query (λ d, sql_one (is_swap swap_id) (htlc_swaps d))) in
  of_option NotFound o.

Definition get_swap_by_fill (fill_id : Uuid) : M CoreDb (option HtlcSwap) HtlcError :=
  map_err DbError (query (λ d, sql_one (λ r, (sw_fill_id r =? fill_id)%N) (htlc_swaps d))).

(** PRIMARY KEY (id), UNIQUE (fill_id), intent_id REFERENCES intents(id) *)
Definition insert_swap (s : HtlcSwap) : M CoreDb unit SqlxError :=
  stmt (λ d,
    if existsb (λ r, (sw_id r =? sw_id s)%N || (sw_fill_id r =? sw_fill_id s)%N) (htlc_swaps d)
       || negb (existsb (λ i, (i_id i =? sw_intent_id s)%N) (intents d))
    then None
    else Some (tt, set_htlc_swaps (htlc_swaps d ++ [s]) d)).

(** [secret] is what [generate_secret] draws. *)
Definition create_swap (secret : list Z) (params : CreateHtlcParams)
  : M CoreDb (HtlcSwap * list Z) HtlcError :=
  let secret_hash := hash_secret sha256 secret in
  let timelock_secs :=
    if (0 <? p_timelock_secs params)%Z then p_timelock_secs params else DEFAULT_TIMELOCK_SECS in
  let* t := now in
  let timelock := (t + timelock_secs)%Z in
  let* id := new_v4 in
  let swap := mkSwap id (p_fill_id params) (p_intent_id params) secret_hash None
    (p_source_chain params) (p_source_sender params) (p_source_receiver params)
    (p_source_token params) (p_source_amount params) None None timelock (p_dest_chain params)
    (p_dest_sender params) (p_dest_receiver params) (p_dest_token params) (p_dest_amount params)
    None None HCreated (p_solver_id params) None t None None None in
  map_err DbError (insert_swap swap) ;;;
  ret (swap, secret).

(** [hash.try_into()]: to an array of 32 bytes *)
Definition as_array (what : string) (l : list Z) : M CoreDb (list Z) HtlcError :=
  if (length l =? 32)%nat then ret l else throw (InvalidState what).

Definition store_secret (swap_id : Uuid) (secret : list Z) : M CoreDb unit HtlcError :=
  let* swap := get_swap swap_id in
  let* expected := as_array "Stored hash has wrong length" (sw_secret_hash swap) in
  if negb (verify_secret sha256 secret expected) then throw SecretMismatch else
  update_swap swap_id (in_status [HCreated]) (set_secret secret) ;;;
  ret tt.

(** An update that must change the row. *)
Definition transition (id : Uuid) (l : list HtlcStatus) (f : HtlcSwap → HtlcSwap) (message : string)
  : M CoreDb unit HtlcError :=
  let* n := update_swap id (in_status l) f in
  if (n =? 0)%nat then throw (InvalidState message) else ret tt.

Definition record_source_lock (swap_id : Uuid) (lock_tx : string) : M CoreDb unit HtlcError :=
  let* t := now in
  transition swap_id [HCreated] (set_source_locked lock_tx t) "Expected status: created".

Definition record_dest_lock (swap_id : Uuid) (dest_lock_tx : string) : M CoreDb unit HtlcError :=
  transition swap_id [HSourceLocked] (set_dest_lock dest_lock_tx) "Expected status: source_locked".

Definition record_dest_claim (swap_id : Uuid) (secret : list Z) (claim_tx : string)
  : M CoreDb unit HtlcError :=
  let* swap := get_swap swap_id in
  let* expected := as_array "Stored hash has wrong length" (sw_secret_hash swap) in
  if negb (verify_secret sha256 secret expected) then throw SecretMismatch else
  let* t := now in
  transition swap_id [HSourceLocked] (set_dest_claimed (Some secret) claim_tx t)
    "Expected status: source_locked".

Definition record_dest_claim_with_stored_secret (swap_id : Uuid) (claim_tx : string)
  : M CoreDb unit HtlcError :=
  let* swap := get_swap swap_id in
  let* secret_bytes := of_option (InvalidState "Secret not stored")
                         (sw_secret swap) in
  let* secret := as_array "Stored secret has wrong length" secret_bytes in
  let* expected := as_array "Stored hash has wrong length" (sw_secret_hash swap) in
  if negb (verify_secret sha256 secret expected) then throw SecretMismatch else
  let* t := now in
  transition swap_id [HSourceLocked] (λ r, set_dest_claimed (sw_secret r) claim_tx t r)
    "Expected status: source_locked".

(** Deprecated in the source: no secret is checked. *)
Definition record_dest_claim_unchecked (swap_id : Uuid) (claim_tx : string)
  : M CoreDb unit HtlcError :=
  let* t := now in
  transition swap_id [HSourceLocked] (λ r, set_dest_claimed (sw_secret r) claim_tx t r)
    "Expected status: source_locked".

Definition extract_secret_from_logs (log_data : string) : result (list Z) HtlcError :=
  match hex_decode (strip_0x log_data) with
  | None => Err (InvalidState "Invalid hex in claim log")
  | Some data =>
      if (length data <? 32)%nat then Err (InvalidState "Claim log data too short")
      else Ok (take 32 data)
  end.

Definition complete_swap (swap_id : Uuid) (unlock_tx : string) : M CoreDb unit HtlcError :=
  let* t := now in
  transition swap_id [HDestClaimed] (set_unlocked unlock_tx t) "Expected status: dest_claimed".

Definition refund_swap (swap_id : Uuid) : M CoreDb unit HtlcError :=
  let* swap := get_swap swap_id in
  let* t := now in
  if (t <? sw_source_timelock swap)%Z then throw (InvalidState "Timelock has not expired yet") else
  if bool_decide (sw_status swap = HDestClaimed) || bool_decide (sw_status swap = HSourceUnlocked)
  then throw (InvalidState "Cannot refund: secret already revealed") else
  let* t := now in
  transition swap_id [HCreated; HSourceLocked] (set_refunded t) "Not in refundable state".

Definition fail_swap (swap_id : Uuid) (error : string) : M CoreDb unit HtlcError :=
  let* t := now in
  update_swap swap_id (λ r, negb (in_status [HSourceUnlocked; HRefunded] r)) (set_failed error t) ;;;
  ret tt.

(** ** The worker's queries: the oldest fifty *)

Definition first_50 (key : HtlcSwap → Z) (p : HtlcSwap → bool) (d : CoreDb) : list HtlcSwap :=
  take 50 (sort_by (λ x y, (key x <=? key y)%Z) (sql_select p (htlc_swaps d))).

(** The key of an ORDER BY column that can be NULL; NULLs come last. *)
Definition nulls_last (o : option Z) : Z := default (2 ^ 62)%Z o.

Definition find_pending_locks : M CoreDb (list HtlcSwap) HtlcError :=
  let* t := now in
  map_err DbError (query (first_50 sw_created_at (λ r,
    in_status [HCreated] r && (t <? sw_source_timelock r)%Z))).

Definition find_awaiting_dest_lock : M CoreDb (list HtlcSwap) HtlcError :=
  map_err DbError (query (first_50 (λ r, nulls_last (sw_locked_at r)) (λ r,
    in_status [HSourceLocked] r && bool_decide (sw_dest_lock_tx r = None)))).

Definition find_claimable : M CoreDb (list HtlcSwap) HtlcError :=
  map_err DbError (query (first_50 (λ r, nulls_last (sw_locked_at r)) (λ r,
    in_status [HSourceLocked] r && bool_decide (sw_dest_lock_tx r ≠ None)))).

Definition find_pending_unlocks : M CoreDb (list HtlcSwap) HtlcError :=
  map_err DbError (query (first_50 (λ r, nulls_last (sw_claimed_at r)) (λ r,
    in_status [HDestClaimed] r && bool_decide (sw_secret r ≠ None)))).

Definition find_expired : M CoreDb (list HtlcSwap) HtlcError :=
  let* t := now in
  map_err DbError (query (first_50 sw_source_timelock (λ r,
    (sw_source_timelock r <? t)%Z && in_status [HCreated; HSourceLocked] r))).

End service.
End HtlcService.
