(* ===== verification/HtlcSwapsCorrect.v ===== *)
(** * What the swaps guarantee

    Whatever calls are made, a swap only moves along the edges of its state
    machine, and the secrets it holds are the ones its lock was made of. *)
From stdpp Require Import relations.
From S2P Require Import Prelude Monad Float64 Model Text HtlcSwaps.
Import HtlcService.

Section machine.
Context (sha256 : list Z → list Z).

(** The calls of the service, the deprecated one last. *)
Inductive SwapOp :=
| OCreate (secret : list Z) (params : CreateHtlcParams)
| OStoreSecret (id : Uuid) (secret : list Z)
| OSourceLock (id : Uuid) (tx : string)
| ODestLock (id : Uuid) (tx : string)
| ODestClaim (id : Uuid) (secret : list Z) (tx : string)
| ODestClaimStored (id : Uuid) (tx : string)
| OComplete (id : Uuid) (tx : string)
| ORefund (id : Uuid)
| OFail (id : Uuid) (error : string)
| ODestClaimUnchecked (id : Uuid) (tx : string).

Definition run_op (op : SwapOp) : M CoreDb unit HtlcError :=
  match op with
  | OCreate secret params => create_swap sha256 secret params ;;; ret tt
  | OStoreSecret id secret => store_secret sha256 id secret
  | OSourceLock id tx => record_source_lock id tx
  | ODestLock id tx => record_dest_lock id tx
  | ODestClaim id secret tx => record_dest_claim sha256 id secret tx
  | ODestClaimStored id tx => record_dest_claim_with_stored_secret sha256 id tx
  | OComplete id tx => complete_swap id tx
  | ORefund id => refund_swap id
  | OFail id error => fail_swap id error
  | ODestClaimUnchecked id tx => record_dest_claim_unchecked id tx
  end.

Definition checked (op : SwapOp) : Prop :=
  match op with ODestClaimUnchecked _ _ => False | _ => True end.

(** What a call can do to one swap at the time [t]; [c]: only checked calls. *)
Inductive swap_step (c : Prop) (t : Z) (r : HtlcSwap) : HtlcSwap → Prop :=
| ss_same : swap_step c t r r
| ss_secret s : sw_status r = HCreated → sha256 s = sw_secret_hash r →
    swap_step c t r (set_secret s r)
| ss_lock tx : sw_status r = HCreated → swap_step c t r (set_source_locked tx t r)
| ss_dest_lock tx : sw_status r = HSourceLocked → swap_step c t r (set_dest_lock tx r)
| ss_claim s tx : sw_status r = HSourceLocked → (c → sha256 s = sw_secret_hash r) →
    (c ∨ sw_secret r = Some s) → swap_step c t r (set_dest_claimed (Some s) tx t r)
| ss_claim_blind tx : sw_status r = HSourceLocked → ¬ c → sw_secret r = None →
    swap_step c t r (set_dest_claimed None tx t r)
| ss_complete tx : sw_status r = HDestClaimed → swap_step c t r (set_unlocked tx t r)
| ss_refund : sw_status r = HCreated ∨ sw_status r = HSourceLocked → (sw_source_timelock r ≤ t)%Z →
    swap_step c t r (set_refunded t r)
| ss_fail e : sw_status r ≠ HSourceUnlocked → sw_status r ≠ HRefunded →
    swap_step c t r (set_failed e t r).

(** A swap as [create_swap] makes it. *)
Definition new_swap (r : HtlcSwap) : Prop :=
  sw_status r = HCreated ∧ sw_secret r = None ∧ sw_dest_claim_tx r = None.

Definition table_step (c : Prop) (t : Z) (l l' : list HtlcSwap) : Prop :=
  ∃ old new, l' = old ++ new ∧ Forall2 (swap_step c t) l old ∧ Forall new_swap new ∧
    (NoDup (map sw_id l) → NoDup (map sw_id l')).

Lemma swap_step_id c t r r' : swap_step c t r r' → sw_id r' = sw_id r.
Proof. by destruct 1. Qed.

Lemma table_step_refl c t l : table_step c t l l.
Proof.
  exists l, []. rewrite app_nil_r. split_and!; [done| |constructor|done].
  induction l; constructor; [constructor|done].
Qed.

Lemma table_step_update c t p f l :
  (∀ r, r ∈ l → p r = true → swap_step c t r (f r)) → table_step c t l (sql_update p f l).
Proof.
  intros H. exists (sql_update p f l), []. rewrite app_nil_r.
  assert (Forall2 (swap_step c t) l (sql_update p f l)) as HF.
  { induction l as [|r l IH]; constructor.
    - destruct (p r) eqn:E; [apply H; [by left|done]|constructor].
    - apply IH. intros r' Hr'. apply H. by right. }
  split_and!; [done|done|constructor|].
  assert (map sw_id (sql_update p f l) = map sw_id l) as ->; [|done].
  clear H. induction HF as [|r r' l l' Hr _ IH]; [done|]. simpl. f_equal; [by eapply swap_step_id|done].
Qed.

Lemma update_swap_cases id q f e r e' : update_swap id q f e = (r, e') →
  htlc_swaps (env_db e') = htlc_swaps (env_db e) ∨
  htlc_swaps (env_db e') = sql_update (λ r, is_swap id r && q r) f (htlc_swaps (env_db e)).
Proof.
  unfold update_swap, map_err, stmt. destruct (faulty e); intros [= <- <-]; [by left|by right].
Qed.

Lemma transition_cases id l f msg e r e' : transition id l f msg e = (r, e') →
  htlc_swaps (env_db e') = htlc_swaps (env_db e) ∨
  htlc_swaps (env_db e') = sql_update (λ r, is_swap id r && in_status l r) f (htlc_swaps (env_db e)).
Proof.
  unfold transition. intros [[x H]|(n & e1 & H & Hk)]%bind_cases; apply update_swap_cases in H; [done|].
  destruct (n =? 0)%nat; by injection Hk as _ <-.
Qed.

Lemma in_status_spec l r : in_status l r = true ↔ sw_status r ∈ l.
Proof. apply bool_decide_eq_true. Qed.

Lemma get_swap_cases id e r e' : get_swap id e = (r, e') →
  env_db e' = env_db e ∧ env_now e' = env_now e ∧
  ∀ s, r = Ok s → sql_one (is_swap id) (htlc_swaps (env_db e)) = Some s.
Proof.
  unfold get_swap, map_err, query, stmt, bind. destruct (faulty e); [by intros [= <- <-]|].
  simpl. destruct (sql_one _ _) as [s|] eqn:E; intros [= <- <-]; split_and!; try done; naive_solver.
Qed.

(** The row an update finds is the one that was read. *)
Lemma read_row id l s r : NoDup (map sw_id l) → sql_one (is_swap id) l = Some s → r ∈ l →
  is_swap id r = true → r = s.
Proof.
  intros Hnd [Hs Hid]%sql_one_Some Hr Hid'. apply N.eqb_eq in Hid, Hid'.
  apply (NoDup_map_inj sw_id l); congruence.
Qed.

Lemma verify_spec s h : verify_secret sha256 s h = true ↔ sha256 s = h.
Proof. apply bool_decide_eq_true. Qed.

(** A transition, and an update behind a check of the row that was read. *)
Lemma transition_step c t id l f msg e r e' : transition id l f msg e = (r, e') →
  (∀ s, s ∈ htlc_swaps (env_db e) → is_swap id s = true → sw_status s ∈ l → swap_step c t s (f s)) →
  table_step c t (htlc_swaps (env_db e)) (htlc_swaps (env_db e')).
Proof.
  intros [->| ->]%transition_cases H; [apply table_step_refl|].
  apply table_step_update. intros s Hs [Hid Hst]%andb_true_iff. apply H; [done|done|by apply in_status_spec].
Qed.

(** Calls that start by reading the swap, and by checking a length. *)
Lemma after_get {A} c id (k : HtlcSwap → M CoreDb A HtlcError) e r e' :
  bind (get_swap id) k e = (r, e') → NoDup (map sw_id (htlc_swaps (env_db e))) →
  (∀ s e1, sql_one (is_swap id) (htlc_swaps (env_db e1)) = Some s →
     NoDup (map sw_id (htlc_swaps (env_db e1))) → k s e1 = (r, e') →
     table_step c (env_now e1) (htlc_swaps (env_db e1)) (htlc_swaps (env_db e'))) →
  table_step c (env_now e) (htlc_swaps (env_db e)) (htlc_swaps (env_db e')).
Proof.
  intros [[x H]|(s & e1 & H & Hk)]%bind_cases Hnd Hrest; apply get_swap_cases in H as (Hdb & Hnow & Hs).
  - rewrite Hdb. apply table_step_refl.
  - specialize (Hs _ eq_refl). rewrite <- Hdb, <- Hnow. apply (Hrest s); [by rewrite Hdb|by rewrite Hdb|done].
Qed.

Lemma after_array {A} c what l (k : list Z → M CoreDb A HtlcError) e r e' :
  bind (as_array what l) k e = (r, e') →
  (k l e = (r, e') → table_step c (env_now e) (htlc_swaps (env_db e)) (htlc_swaps (env_db e'))) →
  table_step c (env_now e) (htlc_swaps (env_db e)) (htlc_swaps (env_db e')).
Proof.
  unfold as_array, bind. destruct (_ =? _)%nat; simpl; [auto|]. intros [= <- <-] _. apply table_step_refl.
Qed.

Lemma after_now {A} (k : Z → M CoreDb A HtlcError) e r e' : bind now k e = (r, e') → k (env_now e) e = (r, e').
Proof. done. Qed.

Definition op_moves (op : SwapOp) : Prop := ∀ e r e',
  run_op op e = (r, e') → NoDup (map sw_id (htlc_swaps (env_db e))) →
  table_step (checked op) (env_now e) (htlc_swaps (env_db e)) (htlc_swaps (env_db e')).

Lemma source_lock_moves id tx : op_moves (OSourceLock id tx).
Proof.
  intros e r e' Hrun _. simpl in Hrun. eapply transition_step; [exact Hrun|].
  intros s _ _ Hst%list_elem_of_singleton. by apply ss_lock.
Qed.
Lemma dest_lock_moves id tx : op_moves (ODestLock id tx).
Proof.
  intros e r e' Hrun _. eapply transition_step; [exact Hrun|].
  intros s _ _ Hst%list_elem_of_singleton. by apply ss_dest_lock.
Qed.
Lemma complete_moves id tx : op_moves (OComplete id tx).
Proof.
  intros e r e' Hrun _. simpl in Hrun. eapply transition_step; [exact Hrun|].
  intros s _ _ Hst%list_elem_of_singleton. by apply ss_complete.
Qed.
Lemma unchecked_moves id tx : op_moves (ODestClaimUnchecked id tx).
Proof.
  intros e r e' Hrun _. simpl in Hrun. eapply transition_step; [exact Hrun|].
  intros s _ _ Hst%list_elem_of_singleton.
  cbv beta. destruct (sw_secret s) as [sec|] eqn:E; [apply ss_claim; [done|done|by right]|apply ss_claim_blind; [done|intros []|done]].
Qed.
Lemma fail_moves id error : op_moves (OFail id error).
Proof.
  intros e r e' Hrun _. simpl in Hrun. unfold fail_swap in Hrun.
  apply bind_cases in Hrun as [[x Hrun]|(t & e1 & [-> ->]%now_Ok & Hrun)]; [done|].
  assert (∃ r', update_swap id (λ r, negb (in_status [HSourceUnlocked; HRefunded] r))
    (set_failed error (env_now e)) e = (r', e')) as [r' Hup].
  { apply bind_cases in Hrun as [[x H]|(n & e1 & H & Hk)]; [by eexists|]. injection Hk as _ <-. by eexists. }
  apply update_swap_cases in Hup as [->| ->]; [apply table_step_refl|].
  apply table_step_update. intros s _ [_ Hst%negb_true_iff%not_true_iff_false]%andb_true_iff.
  rewrite in_status_spec in Hst. apply ss_fail; set_solver.
Qed.

Lemma store_moves id secret : op_moves (OStoreSecret id secret).
Proof.
  intros e r e' Hrun Hnd. eapply after_get; [exact Hrun|done|]. clear. intros s e1 Hs Hnd Hk.
  eapply after_array; [exact Hk|]. clear Hk. intros Hk.
  cbv beta in Hk. destruct (verify_secret sha256 _ _) eqn:Hv in Hk; [|injection Hk as <- <-; apply table_step_refl].
  apply verify_spec in Hv. simpl in Hk.
  assert (∃ r', update_swap id (in_status [HCreated]) (set_secret secret) e1 = (r', e')) as [r' Hup].
  { apply bind_cases in Hk as [[x H]|(n & e2 & H & Hk)]; [by eexists|]. injection Hk as _ <-. by eexists. }
  apply update_swap_cases in Hup as [->| ->]; [apply table_step_refl|].
  apply table_step_update. intros s' Hin [Hid Hst]%andb_true_iff.
  apply in_status_spec, list_elem_of_singleton in Hst. rewrite (read_row _ _ _ _ Hnd Hs Hin Hid) in *.
  by apply ss_secret.
Qed.

Lemma claim_moves id secret tx : op_moves (ODestClaim id secret tx).
Proof.
  intros e r e' Hrun Hnd. eapply after_get; [exact Hrun|done|]. clear. intros s e1 Hs Hnd Hk.
  eapply after_array; [exact Hk|]. clear Hk. intros Hk.
  cbv beta in Hk. destruct (verify_secret sha256 _ _) eqn:Hv in Hk; [|injection Hk as <- <-; apply table_step_refl].
  apply verify_spec in Hv. simpl in Hk. eapply transition_step; [exact Hk|].
  intros s' Hin Hid Hst%list_elem_of_singleton. rewrite (read_row _ _ _ _ Hnd Hs Hin Hid) in *.
  apply ss_claim; [done|done|by left].
Qed.

Lemma claim_stored_moves id tx : op_moves (ODestClaimStored id tx).
Proof.
  intros e r e' Hrun Hnd. eapply after_get; [exact Hrun|done|]. clear. intros s e1 Hs Hnd Hk.
  cbv beta in Hk. apply bind_cases in Hk as [[x Hk]|(secret & e2 & [Hsec ->]%of_option_Ok & Hk)].
  { destruct (sw_secret s); [done|]. injection Hk as _ <-. apply table_step_refl. }
  eapply after_array; [exact Hk|]. clear Hk. intros Hk.
  eapply after_array; [exact Hk|]. clear Hk. intros Hk.
  cbv beta in Hk. destruct (verify_secret sha256 _ _) eqn:Hv in Hk; [|injection Hk as <- <-; apply table_step_refl].
  apply verify_spec in Hv. simpl in Hk. eapply transition_step; [exact Hk|].
  intros s' Hin Hid Hst%list_elem_of_singleton. rewrite (read_row _ _ _ _ Hnd Hs Hin Hid) in *.
  rewrite Hsec. apply ss_claim; [done|done|by left].
Qed.

Lemma refund_moves id : op_moves (ORefund id).
Proof.
  intros e r e' Hrun Hnd. eapply after_get; [exact Hrun|done|]. clear. intros s e1 Hs Hnd Hk.
  apply after_now in Hk. destruct (Z.ltb_spec (env_now e1) (sw_source_timelock s)) as [|Ht].
  { injection Hk as <- <-. apply table_step_refl. }
  destruct (_ || _) in Hk; [injection Hk as <- <-; apply table_step_refl|].
  apply after_now in Hk. eapply transition_step; [exact Hk|].
  intros s' Hin Hid Hst. rewrite (read_row _ _ _ _ Hnd Hs Hin Hid) in *.
  apply ss_refund; [set_solver|done].
Qed.

Lemma create_moves secret params : op_moves (OCreate secret params).
Proof.
  intros e r e' Hrun Hnd. simpl in Hrun. unfold create_swap, new_v4, now, insert_swap, map_err, stmt, bind, ret in Hrun.
  cbn in Hrun. destruct (faulty _) in Hrun; [injection Hrun as <- <-; apply table_step_refl|].
  destruct (_ || _) eqn:Hor in Hrun; injection Hrun as <- <-; [apply table_step_refl|].
  apply orb_false_iff in Hor as [Hfresh _]. simpl.
  eexists _, [_]. split; [done|]. split_and!.
  - generalize (htlc_swaps (env_db e)) as l. induction l; constructor; [constructor|done].
  - repeat constructor.
  - intros _. apply NoDup_map_snoc; [done|]. intros r Hr. simpl.
    pose proof (existsb_false_elem _ _ _ Hfresh Hr) as Hne. apply orb_false_iff in Hne as [Hne _].
    by apply N.eqb_neq in Hne.
Qed.

(** Every call moves the table along the edges of the state machine. *)
Lemma run_op_moves op : op_moves op.
Proof.
  destruct op; [apply create_moves|apply store_moves|apply source_lock_moves|apply dest_lock_moves|
    apply claim_moves|apply claim_stored_moves|apply complete_moves|apply refund_moves|apply fail_moves|
    apply unchecked_moves].
Qed.

(** ** Histories *)

(** A call of the service ([only]: which ones), or anything else that happens
    meanwhile and leaves the table alone. *)
Inductive world_step (only : SwapOp → Prop) : Env CoreDb → Env CoreDb → Prop :=
| ws_call op e r e' : only op → run_op op e = (r, e') → world_step only e e'
| ws_other e e' : htlc_swaps (env_db e') = htlc_swaps (env_db e) → world_step only e e'.

Definition any_call (op : SwapOp) : Prop := True.

Lemma world_table_step only e e' : world_step only e e' → NoDup (map sw_id (htlc_swaps (env_db e))) →
  ∃ c t, ((∀ op, only op → checked op) → c) ∧
    table_step c t (htlc_swaps (env_db e)) (htlc_swaps (env_db e')).
Proof.
  intros [op ? r ? Ho Hrun|? ? ->] Hnd.
  - exists (checked op), (env_now e0). split; [auto|]. by eapply run_op_moves.
  - exists True, 0%Z. split; [done|apply table_step_refl].
Qed.

Lemma reachable_ids only e0 e : htlc_swaps (env_db e0) = [] → rtc (world_step only) e0 e →
  NoDup (map sw_id (htlc_swaps (env_db e))).
Proof.
  intros H0 Hr. assert (NoDup (map sw_id (htlc_swaps (env_db e0)))) as Hnd by (rewrite H0; constructor).
  clear H0. induction Hr as [|e e1 e2 Hs _ IH]; [done|]. apply IH.
  destruct (world_table_step _ _ _ Hs Hnd) as (c & t & _ & old & new & _ & _ & _ & Hids). auto.
Qed.

(** What holds of a swap whose claims were all checked. *)
Record swap_ok (r : HtlcSwap) : Prop := {
  so_secret : ∀ s, sw_secret r = Some s → sha256 s = sw_secret_hash r;
  so_revealed : sw_status r = HDestClaimed ∨ sw_status r = HSourceUnlocked →
    is_Some (sw_secret r) ∧ is_Some (sw_dest_claim_tx r);
}.

Lemma swap_step_ok c t r r' : c → swap_step c t r r' → swap_ok r → swap_ok r'.
Proof.
  intros Hc Hst [Hs Hr]. destruct Hst; try (by split); split; simpl; try done; try naive_solver.
Qed.

Lemma table_step_ok c t l l' : c → table_step c t l l' → Forall swap_ok l → Forall swap_ok l'.
Proof.
  intros Hc (old & new & -> & HF & Hn & _) Hok. apply Forall_app. split.
  - induction HF as [|r r' l l' Hst _ IH]; [constructor|]. apply Forall_cons in Hok as [Hr Hl].
    constructor; [exact (swap_step_ok _ _ _ _ Hc Hst Hr)|auto].
  - eapply Forall_impl; [exact Hn|]. intros r (Hst & Hs & _). split; [by rewrite Hs|]. rewrite Hst. naive_solver.
Qed.

(** As long as every claim is checked, in every history of calls and
    failures a secret that is stored for a swap is a preimage of its lock, and
    a swap that is claimed or unlocked has its secret and its claim
    transaction: the counterparty can always be paid. *)
Theorem stored_secrets_open_the_lock e0 e r :
  htlc_swaps (env_db e0) = [] → rtc (world_step checked) e0 e → r ∈ htlc_swaps (env_db e) →
  (∀ s, sw_secret r = Some s → sha256 s = sw_secret_hash r) ∧
  (sw_status r = HDestClaimed ∨ sw_status r = HSourceUnlocked →
     is_Some (sw_secret r) ∧ is_Some (sw_dest_claim_tx r)).
Proof.
  intros H0 Hr Hin.
  assert (Forall swap_ok (htlc_swaps (env_db e))) as Hok.
  { assert (NoDup (map sw_id (htlc_swaps (env_db e0)))) as Hnd by (rewrite H0; constructor).
    assert (Forall swap_ok (htlc_swaps (env_db e0))) as Hf by (rewrite H0; constructor).
    clear H0 Hin. induction Hr as [|e e1 e2 Hs _ IH]; [done|].
    destruct (world_table_step _ _ _ Hs Hnd) as (c & t & Hc & Hts).
    apply IH; [by destruct Hts as (? & ? & _ & _ & _ & Hids); auto|].
    eapply table_step_ok; [by apply Hc|exact Hts|done]. }
  destruct (proj1 (Forall_forall _ _) Hok r Hin). by split.
Qed.

(** The edges of the state machine. *)
Inductive edge : HtlcStatus → HtlcStatus → Prop :=
| e_stay s : edge s s
| e_lock : edge HCreated HSourceLocked
| e_claim : edge HSourceLocked HDestClaimed
| e_unlock : edge HDestClaimed HSourceUnlocked
| e_refund_created : edge HCreated HRefunded
| e_refund_locked : edge HSourceLocked HRefunded
| e_fail s : s ≠ HSourceUnlocked → s ≠ HRefunded → edge s HFailed.

(** The terms of a swap. *)
Definition terms (r : HtlcSwap) :=
  (sw_id r, sw_fill_id r, sw_intent_id r, sw_secret_hash r, sw_source_amount r, sw_dest_amount r,
   sw_source_timelock r, sw_source_receiver r, sw_dest_receiver r).

Lemma swap_step_edge c t r r' : swap_step c t r r' →
  terms r' = terms r ∧ edge (sw_status r) (sw_status r') ∧
  (sw_status r' = HRefunded → sw_status r ≠ HRefunded → (sw_source_timelock r ≤ t)%Z) ∧
  (sw_status r = HSourceUnlocked ∨ sw_status r = HRefunded → r' = r).
Proof.
  destruct 1 as [|s Hst|tx Hst|tx Hst|s tx Hst|tx Hst|tx Hst|[Hst|Hst]|err]; simpl;
    try rewrite !Hst; split_and!; try done; try (by constructor);
    try (intros [?|?]; congruence); try (intros; congruence).
Qed.

Lemma table_step_elem c t l l' r : table_step c t l l' → r ∈ l → ∃ r', r' ∈ l' ∧ swap_step c t r r'.
Proof.
  intros (old & new & -> & HF & _) [i Hi]%list_elem_of_lookup.
  destruct (Forall2_lookup_l _ _ _ _ _ HF Hi) as (r' & Hr' & Hst).
  exists r'. split; [|done]. apply elem_of_app. left. by eapply list_elem_of_lookup_2.
Qed.

Lemma final_stays only e e' r : rtc (world_step only) e e' →
  NoDup (map sw_id (htlc_swaps (env_db e))) → r ∈ htlc_swaps (env_db e) →
  sw_status r = HSourceUnlocked ∨ sw_status r = HRefunded → r ∈ htlc_swaps (env_db e').
Proof.
  induction 1 as [|e e1 e2 Hs _ IH]; [done|]. intros Hnd Hin Hfin.
  destruct (world_table_step _ _ _ Hs Hnd) as (c & t & _ & Hts).
  destruct (table_step_elem _ _ _ _ _ Hts Hin) as (r' & Hin' & Hst).
  apply swap_step_edge in Hst as (_ & _ & _ & Hf). specialize (Hf Hfin). subst r'.
  destruct Hts as (? & ? & _ & _ & _ & Hids). auto.
Qed.

(** C9: in every history, with the unchecked claim too, a call never removes a
    swap or changes its terms, moves its status along an edge of the state
    machine only, refunds only a created or source-locked swap whose timelock
    has passed; and a swap that is unlocked or refunded stays as it is for
    good. *)
Theorem swap_lifecycle e0 e : htlc_swaps (env_db e0) = [] → rtc (world_step any_call) e0 e →
  (∀ op res e' r, run_op op e = (res, e') → r ∈ htlc_swaps (env_db e) →
     ∃ r', r' ∈ htlc_swaps (env_db e') ∧ terms r' = terms r ∧ edge (sw_status r) (sw_status r') ∧
       (sw_status r' = HRefunded → sw_status r ≠ HRefunded → (sw_source_timelock r ≤ env_now e)%Z)) ∧
  (∀ e' r, rtc (world_step any_call) e e' → r ∈ htlc_swaps (env_db e) →
     sw_status r = HSourceUnlocked ∨ sw_status r = HRefunded → r ∈ htlc_swaps (env_db e')).
Proof.
  intros H0 Hr. pose proof (reachable_ids _ _ _ H0 Hr) as Hnd. split.
  - intros op res e' r Hrun Hin. pose proof (run_op_moves op _ _ _ Hrun Hnd) as Hts.
    destruct (table_step_elem _ _ _ _ _ Hts Hin) as (r' & Hin' & Hst).
    exists r'. apply swap_step_edge in Hst as (Ht & He & Hrf & _). by split_and!.
  - intros e' r Hr' Hin Hfin. by eapply final_stays.
Qed.
End machine.

(** ** A swap that goes through *)
Module SwapExample.

(** A stand-in for SHA-256: 32 bytes. *)
Definition hash (s : list Z) : list Z := map (λ b, 255 - b)%Z s.
Definition secret : list Z := replicate 32 7%Z.
Definition some_intent : Intent :=
  mkIntent 5 "alice" "USDC" "ETH" 100 1 1000 IMatched 0 Market None None None None "ethereum" "base" true.
Definition start : Env CoreDb :=
  mkEnv (set_intents [some_intent] empty_db) [] (λ n, N.of_nat (100 + n)) 0 50.
Definition params : CreateHtlcParams :=
  mkHtlcParams 8 5 "solver" "ethereum" "alice" "solver" None 100 "base" "solver" "alice" None 99 600.

Definition calls : list SwapOp :=
  [OCreate secret params; OStoreSecret 100 secret; OSourceLock 100 "0xaa"; ODestLock 100 "0xbb";
   ODestClaimStored 100 "0xcc"; OComplete 100 "0xdd"].
Definition after (e : Env CoreDb) (op : SwapOp) : Env CoreDb := snd (run_op hash op e).
Definition finished : Env CoreDb := foldl after start calls.

Lemma runs ops e : Forall checked ops → rtc (world_step hash checked) e (foldl after e ops).
Proof.
  intros H. revert e. induction H as [|op ops Hop _ IH]; intros e; [constructor|].
  eapply rtc_l; [|apply IH]. apply (ws_call hash checked op e (fst (run_op hash op e))); [done|].
  unfold after. by destruct (run_op hash op e).
Qed.
Lemma runs_any ops e : rtc (world_step hash any_call) e (foldl after e ops).
Proof.
  revert e. induction ops as [|op ops IH]; intros e; [constructor|].
  eapply rtc_l; [|apply IH]. apply (ws_call hash any_call op e (fst (run_op hash op e))); [done|].
  unfold after. by destruct (run_op hash op e).
Qed.
End SwapExample.

Lemma stored_secrets_open_the_lock_witness :
  ∃ r, htlc_swaps (env_db SwapExample.finished) = [r] ∧ sw_status r = HSourceUnlocked ∧
    SwapExample.hash SwapExample.secret = sw_secret_hash r ∧ is_Some (sw_dest_claim_tx r).
Proof.
  destruct (htlc_swaps (env_db SwapExample.finished)) as [|r [|]] eqn:E; [by vm_compute in E| |by vm_compute in E].
  exists r. split; [done|].
  destruct (stored_secrets_open_the_lock SwapExample.hash SwapExample.start SwapExample.finished r)
    as [Hs Hr]; [done|apply SwapExample.runs; repeat constructor|rewrite E; by left|].
  vm_compute in E. injection E as <-. split; [done|]. split; [by apply Hs|]. apply Hr. by right.
Defined.

Lemma swap_lifecycle_witness :
  ∃ r r', htlc_swaps (env_db SwapExample.finished) = [r] ∧
    r' ∈ htlc_swaps (env_db (SwapExample.after SwapExample.finished (OFail 100 "too late"))) ∧
    edge (sw_status r) (sw_status r') ∧ sw_status r' = HSourceUnlocked.
Proof.
  destruct (htlc_swaps (env_db SwapExample.finished)) as [|r [|]] eqn:E; [by vm_compute in E| |by vm_compute in E].
  destruct (swap_lifecycle SwapExample.hash SwapExample.start SwapExample.finished) as [Hop Hfin];
    [done|apply SwapExample.runs_any|].
  destruct (Hop (OFail 100 "too late") (fst (run_op SwapExample.hash (OFail 100 "too late") SwapExample.finished))
    (SwapExample.after SwapExample.finished (OFail 100 "too late")) r) as (r' & Hin & _ & Hedge & _).
  - unfold SwapExample.after. by destruct (run_op _ _ _).
  - rewrite E. by left.
  - exists r, r'. split_and!; [done|done|done|]. vm_compute in E. injection E as <-.
    assert (Forall (λ s, sw_status s = HSourceUnlocked)
      (htlc_swaps (env_db (SwapExample.after SwapExample.finished (OFail 100 "too late"))))) as Hall
      by (vm_compute; repeat constructor).
    by apply (proj1 (Forall_forall _ _) Hall).
Defined.
