(* ===== verification/Bridges.v ===== *)
(** * Bridge adapters: [src/src/cross_chain/{bridge,bridge_registry}.rs] and
      the [BridgeAdapter] impls of [wormhole.rs] and [layerzero.rs]

    What the cross-chain workers ask of a bridge, the registry that picks one,
    and the two adapters over the network of [Rpc]. *)
From Stdlib Require Import Ascii.
From stdpp Require Import gmap.
From S2P Require Import Prelude Monad Triples Float64 Model Bytes Text Breaker Abi Wormhole LayerZero Rpc WormholeCorrect.
Open Scope Z_scope.

Record LockReceipt := mkReceipt {
  lr_tx_hash : string;
  lr_message_id : string;
  lr_estimated_finality_secs : Z;
}.

Record BridgeTransferParams := mkTransferParams {
  bp_source_chain : string;
  bp_dest_chain : string;
  bp_token : string;
  bp_amount : Z;
  bp_sender : string;
  bp_recipient : string;
}.

(** [impl Display for BridgeError] *)
Definition bridge_error_text (e : BridgeError) : string :=
  match e with
  | UnsupportedRoute r => "Unsupported route: " +:+ r
  | LockFailed e => "Lock failed: " +:+ e
  | VerificationFailed e => "Verification failed: " +:+ e
  | ReleaseFailed e => "Release failed: " +:+ e
  | NetworkError e => "Network error: " +:+ e
  | Other e => "Bridge error: " +:+ e
  end.

Record BridgeAdapter := mkAdapter {
  name : string;
  supports_route : string → string → bool;
  lock_funds : BridgeTransferParams → M CoreDb LockReceipt BridgeError;
  verify_lock : string → M CoreDb BridgeStatus BridgeError;
  release_funds : BridgeTransferParams → string → M CoreDb string BridgeError;
}.

(** Everything but the counters of the circuit breakers. *)
Definition rest (d : CoreDb) : CoreDb := set_breakers ∅ d.

(** A bridge talks to its network and leaves our tables alone. *)
Class Isolated (b : BridgeAdapter) : Prop := {
  lock_isolated p : keeps rest (lock_funds b p);
  verify_isolated tx : keeps rest (verify_lock b tx);
  release_isolated p msg : keeps rest (release_funds b p msg);
}.

(** A bridge that redeems nothing but messages it can identify. *)
Class Strict (parses : string → bool) (b : BridgeAdapter) : Prop :=
  release_strict : ∀ p msg, parses msg = false → ∀ e x e', release_funds b p msg e ≠ (Ok x, e').

Module BridgeRegistry.
Definition find (bridges : list BridgeAdapter) (source_chain dest_chain : string)
  : result BridgeAdapter BridgeError :=
  match head (filter (λ b, supports_route b source_chain dest_chain = true) bridges) with
  | Some b => Ok b
  | None => Err (UnsupportedRoute (source_chain +:+ " -> " +:+ dest_chain))
  end.
End BridgeRegistry.

(** A transaction hash as the adapters accept it: "0x" and at least 64 more. *)
Definition valid_tx_hash (tx_hash : string) : bool :=
  String.prefix "0x" tx_hash && (66 <=? String.length tx_hash)%nat.

Definition of_result {A E} (r : result A E) : M CoreDb A E :=
  match r with Ok a => ret a | Err x => throw x end.

(** [eth_sendTransaction] and friends: one object of strings. *)
Definition tx_object (fields : list (string * string)) : Value :=
  JObject ((λ f, (f.1, JString f.2)) <$> fields).
Definition hex_0x (hex_encode : bytes → string) (b : bytes) : string := "0x" +:+ hex_encode b.

(** The logs of a receipt, the first that [f] accepts: [f] may skip a log
    ([Some None]) or give up ([None]). *)
Fixpoint first_log {A} (f : Value → option (option A)) (logs : list Value) : option A :=
  match logs with
  | [] => None
  | log :: logs => match f log with
                   | None => None
                   | Some (Some a) => Some a
                   | Some None => first_log f logs
                   end
  end.

(** The topics of a log of the event [topic]; [Some None]: another event. *)
Definition topics_of (topic : string) (log : Value) : option (option (list Value)) :=
  topics ← get "topics" log ≫= as_array;
  Some (match topics with
        | [] => None
        | t :: _ => if String.eqb (default "" (as_str t)) topic then Some topics else None
        end).

(** The data of a log; no data if it is not hexadecimal. *)
Definition log_data (hex_decode : string → option bytes) (log : Value) : option bytes :=
  data ← get "data" log;
  Some (default [] (hex_decode (strip_0x (default "" (as_str data))))).

(** ** Wormhole *)

Module WormholeAdapter.

Definition LOG_MESSAGE_PUBLISHED_TOPIC : string :=
  "0x6eb224fb001ed210e379b335e35efe88672a8ce935d981a6896b27ffdf52a3b2".
Definition VAA_PATH : string := "/v1/signed_vaa".
Definition VAA_BY_TX_PATH : string := "/v1/signed_vaa_by_tx".
Definition VAA_POLL_MAX_RETRIES : nat := 30.
Definition VAA_POLL_INITIAL_DELAY_MS : Z := 2000.
Definition VAA_POLL_MAX_DELAY_MS : Z := 30000.
Definition DEST_SUBMIT_MAX_RETRIES : nat := 5.
Definition DEST_SUBMIT_INITIAL_DELAY_MS : Z := 1000.

Definition new (guardian_rpc : string) : Bridge :=
  mkBridge guardian_rpc CircuitBreakerConfig.wormhole_guardian ∅ ∅.

Definition token_bridge (chain : string) : option string :=
  if String.eqb chain "ethereum" then Some "0x3ee18B2214AFF97000D974cf647E7C347E8fa585"
  else if String.eqb chain "solana" then Some "wormDTUJ6AWPNvk59vGQbDvGJmqbDTdgWgAqcLBCgUb"
  else if String.eqb chain "polygon" then Some "0x5a58505a96D1dbf8dF91cB21B54419FC36e93fdE"
  else if String.eqb chain "arbitrum" then Some "0x0b2402144Bb366A632D14B83F244D2e0e21bD39c"
  else if String.eqb chain "base" then Some "0x8d2de8d2f73F1F4cAB472AC9A881C9b123C79627"
  else None.

(** [GuardianResponse], whose message and code are not used *)
Record GuardianResponse := mkGuardianResponse { vaa_b64 : option (option string) }.

Record WormholeMessage := mkWormholeMessage {
  m_emitter_chain : Z;
  m_emitter_address : string;
  m_sequence : Z;
}.

Section adapter.
Context (hex_encode : bytes → string) (hex_decode : string → option bytes)
        (parse_guardian : string → result GuardianResponse string).
Context (net : Network) (self : Bridge).

Definition parse_lock_logs (receipt : Value) (source_chain_id : Z) : option WormholeMessage :=
  logs ← get "logs" receipt ≫= as_array;
  first_log (λ log,
    o ← topics_of LOG_MESSAGE_PUBLISHED_TOPIC log;
    match o with
    | None => Some None
    | Some topics =>
        t1 ← topics !! 1%nat;
        let emitter_clean := strip_0x (default "" (as_str t1)) in
        data_bytes ← log_data hex_decode log;
        if (length data_bytes <? 32)%nat then Some None
        else Some (Some (mkWormholeMessage source_chain_id emitter_clean (of_be (slice 24 8 data_bytes))))
    end) logs.

(** A panic of the check, which parsed VAAs do not have, is an error here. *)
Definition verify (vaa : Wormhole.Vaa) : M CoreDb unit BridgeError :=
  match Wormhole.verify_vaa vaa with
  | Some r => of_result r
  | None => throw (Other "panic")
  end.

Definition decode_vaa (vaa_b64 : string) : M CoreDb Wormhole.Vaa BridgeError :=
  let* vaa_bytes := of_result (Base64.base64_decode (as_bytes vaa_b64)) in
  of_result (Wormhole.parse_vaa hex_encode vaa_bytes).

(** One attempt after the other, [n] of them left. *)
Fixpoint fetch_loop (n : nat) (attempt : Z) (url last_error : string) : M CoreDb Wormhole.Vaa BridgeError :=
  match n with
  | O => throw (VerificationFailed ("VAA not available after 30 attempts: " +:+ last_error))
  | S n =>
      let next last_error :=
        backoff net attempt VAA_POLL_INITIAL_DELAY_MS VAA_POLL_MAX_DELAY_MS ;;;
        fetch_loop n (attempt + 1) url last_error in
      let* r := Monad.attempt (fetch net self "read body: " url) in
      match r with
      | Err (COpen breaker remaining_secs) =>
          sleep_ms net (u64 (remaining_secs * 1000) `min` VAA_POLL_MAX_DELAY_MS) ;;;
          fetch_loop n (attempt + 1) url ("guardian circuit open (" +:+ breaker +:+ ")")
      | Err (CInner e) => next (bridge_error_text e)
      | Ok (status, body) =>
          if success status then
            match parse_guardian body with
            | Err e => fetch_loop n (attempt + 1) url ("parse: " +:+ e)
            | Ok (mkGuardianResponse (Some (Some b64))) => decode_vaa b64
            | Ok _ => next last_error
            end
          else if status =? 404 then next last_error
          else next ("HTTP " +:+ print_int status)
      end
  end.

Definition fetch_vaa (chain_id : Z) (emitter : string) (sequence : Z) : M CoreDb Wormhole.Vaa BridgeError :=
  let url := (api self +:+ VAA_PATH +:+ "/" +:+ print_uint chain_id +:+ "/" +:+ emitter +:+ "/" +:+
                print_uint sequence)%string in
  fetch_loop VAA_POLL_MAX_RETRIES 0 url "VAA not available".

Definition fetch_vaa_by_tx (tx_hash : string) : M CoreDb (option Wormhole.Vaa) BridgeError :=
  let url := (api self +:+ VAA_BY_TX_PATH +:+ "/" +:+ tx_hash)%string in
  let* r := attempt (fetch net self "read body: " url) in
  match r with
  | Err (COpen _ _) => ret None
  | Err (CInner e) => throw (NetworkError (bridge_error_text e))
  | Ok (status, body) =>
      if negb (success status) then ret None
      else
        let* guardian_resp := of_result (match parse_guardian body with
                                         | Ok b => Ok b
                                         | Err e => Err (VerificationFailed ("parse: " +:+ e))
                                         end) in
        match vaa_b64 guardian_resp with
        | Some (Some b64) => let* vaa := decode_vaa b64 in ret (Some vaa)
        | _ => ret None
        end
  end.

Definition retriable (error : string) : bool :=
  let lower := to_lowercase error in
  contains "nonce" lower || contains "underpriced" lower || contains "pool" lower ||
  contains "timeout" lower || contains "connection" lower.

(** [DEST_SUBMIT_INITIAL_DELAY_MS * (1 << attempt.min(4))] *)
Definition submit_delay (attempt : Z) : Z := DEST_SUBMIT_INITIAL_DELAY_MS * Z.shiftl 1 (attempt `min` 4).

Fixpoint submit_loop (n : nat) (attempt : Z) (dest_chain dest_bridge calldata_hex last_error : string)
  : M CoreDb string BridgeError :=
  match n with
  | O => throw (ReleaseFailed ("Destination submission failed after 5 attempts: " +:+ last_error))
  | S n =>
      let retry last_error :=
        sleep_ms net (submit_delay attempt) ;;;
        submit_loop n (attempt + 1) dest_chain dest_bridge calldata_hex last_error in
      let tx := tx_object [("to", dest_bridge); ("data", calldata_hex)] in
      let* call_result :=
        Monad.attempt (evm_rpc_call net self dest_chain "eth_call" (JArray [tx; JString "latest"])) in
      match call_result with
      | Err e =>
          let err_str := bridge_error_text e in
          if contains "already completed" err_str || contains "transfer already completed" err_str
          then throw (ReleaseFailed "VAA already redeemed")
          else retry err_str
      | Ok _ =>
          let* sent := Monad.attempt (evm_rpc_call net self dest_chain "eth_sendTransaction" (JArray [tx])) in
          match sent with
          | Ok tx_val =>
              let tx_hash := default "" (as_str tx_val) in
              if valid_tx_hash tx_hash then ret tx_hash
              else retry ("unexpected tx result: " +:+ print_json net tx_val)
          | Err e =>
              let last_error := bridge_error_text e in
              if retriable last_error then retry last_error else throw (ReleaseFailed last_error)
          end
      end
  end.

Definition submit_vaa_to_destination (dest_chain : string) (vaa : Wormhole.Vaa) : M CoreDb string BridgeError :=
  let* dest_bridge := of_option (UnsupportedRoute dest_chain) (token_bridge dest_chain) in
  let calldata := Wormhole.encode_complete_transfer (Wormhole.vaa_bytes vaa) in
  submit_loop DEST_SUBMIT_MAX_RETRIES 0 dest_chain dest_bridge (hex_0x hex_encode calldata) "".

(** [rand::random::<u32>()] *)
Definition random_nonce : M CoreDb Z BridgeError := let* n := random_u64 net in ret (u32 n).

Definition lock_funds (params : BridgeTransferParams) : M CoreDb LockReceipt BridgeError :=
  let* source_id := of_option (UnsupportedRoute (bp_source_chain params))
                      (Wormhole.chain_id (bp_source_chain params)) in
  let* dest_id := of_option (UnsupportedRoute (bp_dest_chain params))
                    (Wormhole.chain_id (bp_dest_chain params)) in
  let* token_bridge := of_option (UnsupportedRoute (bp_source_chain params))
                         (token_bridge (bp_source_chain params)) in
  let* nonce := random_nonce in
  let calldata := Wormhole.encode_transfer_tokens hex_decode (bp_token params) (bp_amount params)
                    dest_id (bp_recipient params) nonce in
  let* val := map_err (λ e, LockFailed (bridge_error_text e))
    (evm_rpc_call net self (bp_source_chain params) "eth_sendTransaction"
       (JArray [tx_object [("from", bp_sender params); ("to", token_bridge);
                           ("data", hex_0x hex_encode calldata)]])) in
  let tx_hash := default "" (as_str val) in
  if negb (valid_tx_hash tx_hash)
  then throw (LockFailed ("Invalid tx hash from source chain: " +:+ tx_hash)) else
  let* receipt := wait_for_receipt net self (bp_source_chain params) tx_hash in
  let* msg := of_option (LockFailed "No Wormhole LogMessagePublished in tx logs")
                (parse_lock_logs receipt source_id) in
  ret (mkReceipt tx_hash
         (Wormhole.message_id (m_emitter_chain msg) (m_emitter_address msg) (m_sequence msg))
         (typical_secs (Wormhole.get_bridge_time (bp_source_chain params)))).

Definition verify_lock (tx_hash : string) : M CoreDb BridgeStatus BridgeError :=
  let* r := attempt (fetch_vaa_by_tx tx_hash) in
  match r with
  | Ok (Some vaa) =>
      verify vaa ;;;
      ret (InTransit (Wormhole.message_id (Wormhole.emitter_chain vaa) (Wormhole.emitter_address vaa)
                        (Wormhole.sequence vaa)))
  | Ok None => ret Pending
  | Err _ => ret Pending
  end.

Definition release_funds (params : BridgeTransferParams) (message_id : string)
  : M CoreDb string BridgeError :=
  let* (chain_id, emitter, sequence) :=
    of_option (ReleaseFailed "Invalid message ID") (Wormhole.parse_message_id message_id) in
  let* vaa := fetch_vaa chain_id emitter sequence in
  verify vaa ;;;
  submit_vaa_to_destination (bp_dest_chain params) vaa.

Definition estimate_bridge_fee (params : BridgeTransferParams) : BridgeFeeEstimate :=
  let chain := bp_source_chain params in
  let '(source_fee, desc) :=
    if String.eqb chain "solana" then (5000, "~$0.01 (Solana gas)")
    else if String.eqb chain "ethereum" then (200000000000000, "~$0.50 (Ethereum gas)")
    else if String.eqb chain "polygon" then (50000000000000, "~$0.02 (Polygon gas)")
    else if String.eqb chain "arbitrum" then (100000000000000, "~$0.05 (Arbitrum gas)")
    else if String.eqb chain "base" then (50000000000000, "~$0.02 (Base gas)")
    else (0, "Unknown chain") in
  mkBridgeFeeEstimate source_fee 0 0 (desc +:+ " + relayer").

Definition adapter : BridgeAdapter :=
  mkAdapter "wormhole" Wormhole.supports_route lock_funds verify_lock release_funds.

End adapter.
End WormholeAdapter.

(** ** LayerZero *)

Module LayerZeroAdapter.

Definition OFT_ETHEREUM : string := "0x1a44076050125825900e736c501f859c50fE728c".
Definition OFT_POLYGON : string := "0x1a44076050125825900e736c501f859c50fE728c".
Definition OFT_ARBITRUM : string := "0x1a44076050125825900e736c501f859c50fE728c".
Definition OFT_BASE : string := "0x1a44076050125825900e736c501f859c50fE728c".
Definition LZ_ENDPOINT_V2 : string := "0x1a44076050125825900e736c501f859c50fE728c".
Definition ENDPOINT_RETRY_SELECTOR : bytes := [82; 174; 40; 89].
Definition PACKET_SENT_TOPIC : string :=
  "0xac8e4bc3e8da15fbfbb110aa771c47ec31ea2bdc3c9b6217e5ae42440db52e8c".
Definition SCAN_MESSAGES_BY_TX : string := "/v1/messages/tx".
Definition SCAN_MESSAGES_BY_GUID : string := "/v1/messages".
Definition MSG_POLL_MAX_RETRIES : nat := 30.
Definition MSG_POLL_INITIAL_DELAY_MS : Z := 2000.
Definition MSG_POLL_MAX_DELAY_MS : Z := 30000.
Definition DEST_RETRY_MAX_ATTEMPTS : nat := 5.
Definition DEST_RETRY_INITIAL_DELAY_MS : Z := 1000.

Definition new (scan_api : string) : Bridge :=
  mkBridge (trim_end_matches "/" scan_api) CircuitBreakerConfig.layerzero_api ∅ ∅.

Definition oft_address (chain : string) : option string :=
  if String.eqb chain "ethereum" then Some OFT_ETHEREUM
  else if String.eqb chain "polygon" then Some OFT_POLYGON
  else if String.eqb chain "arbitrum" then Some OFT_ARBITRUM
  else if String.eqb chain "base" then Some OFT_BASE
  else None.

(** [ScanResponse] *)
Record ScanResponse := mkScanResponse { scan_data : option (list LayerZero.ScanMessage) }.

Section adapter.
Context (hex_encode : bytes → string) (hex_decode : string → option bytes)
        (hex_pad : nat → Z → string) (parse_scan : string → result ScanResponse string).
Context (net : Network) (self : Bridge).

(** The source repeats the EVM helpers of the Wormhole adapter word for word. *)
Definition evm_rpc_call := Rpc.evm_rpc_call net self.
Definition evm_get_receipt := Rpc.evm_get_receipt net self.
Definition wait_for_receipt := Rpc.wait_for_receipt net self.
Definition backoff {E} := Rpc.backoff net (E := E).

Definition parse_packet_sent (receipt : Value) : option LayerZero.LzMessage :=
  logs ← get "logs" receipt ≫= as_array;
  first_log (λ log,
    o ← topics_of PACKET_SENT_TOPIC log;
    match o with
    | None => Some None
    | Some _ => data ← log_data hex_decode log; Some (LayerZero.parse_packet hex_encode hex_pad data)
    end) logs.

Definition query_scan_by_tx (tx_hash : string) : M CoreDb (option LayerZero.ScanMessage) BridgeError :=
  let url := (api self +:+ SCAN_MESSAGES_BY_TX +:+ "/" +:+ tx_hash)%string in
  let* r := attempt (fetch net self "read body: " url) in
  match r with
  | Err (COpen breaker _) => throw (NetworkError ("scan circuit open: " +:+ breaker))
  | Err (CInner e) => throw e
  | Ok (status, body) =>
      if status =? 404 then ret None
      else if negb (success status) then throw (NetworkError ("Scan API HTTP " +:+ print_uint status))
      else match parse_scan body with
           | Err e => throw (NetworkError ("scan parse: " +:+ e))
           | Ok scan_resp => ret (scan_data scan_resp ≫= head)
           end
  end.

(** [poll_message_delivery], which nothing calls *)
Fixpoint delivery_loop (n : nat) (attempt : Z) (tx_hash last_status : string)
  : M CoreDb LayerZero.ScanMessage BridgeError :=
  match n with
  | O => throw (VerificationFailed ("Message not delivered after 30 attempts (last: " +:+ last_status +:+ ")"))
  | S n =>
      let next last_status :=
        backoff attempt MSG_POLL_INITIAL_DELAY_MS MSG_POLL_MAX_DELAY_MS ;;;
        delivery_loop n (attempt + 1) tx_hash last_status in
      let* r := Monad.attempt (query_scan_by_tx tx_hash) in
      match r with
      | Ok (Some msg) =>
          match LayerZero.sm_status msg with
          | Some LayerZero.Delivered | Some LayerZero.SFailed => ret msg
          | Some LayerZero.Blocked => next "BLOCKED"
          | Some LayerZero.Inflight | Some LayerZero.Confirming => next "INFLIGHT"
          | None => next "unknown"
          end
      | Ok None => next "not_indexed"
      | Err e => next (bridge_error_text e)
      end
  end.
Definition poll_message_delivery (tx_hash : string) : M CoreDb LayerZero.ScanMessage BridgeError :=
  delivery_loop MSG_POLL_MAX_RETRIES 0 tx_hash "unknown".

Definition encode_retry (oft_addr : string) (src_eid nonce : Z) : bytes :=
  let oft_bytes := default [] (hex_decode (strip_0x oft_addr)) in
  ENDPOINT_RETRY_SELECTOR ++
  word (take (length oft_bytes `min` 32) oft_bytes) ++
  word [64] ++
  word (to_be 4 src_eid) ++
  replicate 32 0 ++
  word (to_be 8 nonce) ++
  replicate 32 0.

Definition retriable (error : string) : bool :=
  let lower := to_lowercase error in
  contains "nonce" lower || contains "underpriced" lower || contains "timeout" lower ||
  contains "connection" lower.

Fixpoint retry_loop (n : nat) (attempt : Z) (dest_chain calldata_hex last_error : string)
  : M CoreDb string BridgeError :=
  match n with
  | O => throw (ReleaseFailed ("Retry failed after 5 attempts: " +:+ last_error))
  | S n =>
      let retry last_error :=
        sleep_ms net (DEST_RETRY_INITIAL_DELAY_MS * Z.shiftl 1 (attempt `min` 4)) ;;;
        retry_loop n (attempt + 1) dest_chain calldata_hex last_error in
      let* sent := Monad.attempt (evm_rpc_call dest_chain "eth_sendTransaction"
                     (JArray [tx_object [("to", LZ_ENDPOINT_V2); ("data", calldata_hex)]])) in
      match sent with
      | Ok val =>
          let tx_hash := default "" (as_str val) in
          if valid_tx_hash tx_hash then ret tx_hash
          else retry ("unexpected result: " +:+ print_json net val)
      | Err e =>
          let last_error := bridge_error_text e in
          if retriable last_error then retry last_error else throw (ReleaseFailed last_error)
      end
  end.

Definition retry_failed_message (dest_chain oft_addr : string) (src_eid nonce : Z) : M CoreDb string BridgeError :=
  retry_loop DEST_RETRY_MAX_ATTEMPTS 0 dest_chain (hex_0x hex_encode (encode_retry oft_addr src_eid nonce)) "".

Definition lock_funds (params : BridgeTransferParams) : M CoreDb LockReceipt BridgeError :=
  let* src_eid := of_option (UnsupportedRoute (bp_source_chain params))
                    (LayerZero.endpoint_id (bp_source_chain params)) in
  let* dst_eid := of_option (UnsupportedRoute (bp_dest_chain params))
                    (LayerZero.endpoint_id (bp_dest_chain params)) in
  let* oft_addr := of_option (UnsupportedRoute (bp_source_chain params))
                     (oft_address (bp_source_chain params)) in
  let calldata := LayerZero.encode_oft_send hex_decode dst_eid (bp_recipient params) (bp_amount params) in
  let* val := map_err (λ e, LockFailed (bridge_error_text e))
    (evm_rpc_call (bp_source_chain params) "eth_sendTransaction"
       (JArray [tx_object [("from", bp_sender params); ("to", oft_addr);
                           ("data", hex_0x hex_encode calldata)]])) in
  let tx_hash := default "" (as_str val) in
  if negb (valid_tx_hash tx_hash) then throw (LockFailed ("Invalid tx hash: " +:+ tx_hash)) else
  let* receipt := wait_for_receipt (bp_source_chain params) tx_hash in
  let* m := match parse_packet_sent receipt with
            | Some m => ret m
            | None => let* n := random_u64 net in ret (LayerZero.mkLzMessage (hex_pad 16%nat n) src_eid dst_eid 0)
            end in
  ret (mkReceipt tx_hash
         (LayerZero.message_id (LayerZero.src_eid m) (LayerZero.dst_eid m) (LayerZero.guid m))
         (typical_secs (LayerZero.get_bridge_time (bp_source_chain params)))).

Definition verify_lock (tx_hash : string) : M CoreDb BridgeStatus BridgeError :=
  let* r := attempt (query_scan_by_tx tx_hash) in
  ret (LayerZero.lock_status tx_hash r).

(** The polling of [release_funds]. *)
Fixpoint release_loop (n : nat) (attempt : Z) (params : BridgeTransferParams) (src_eid : Z)
    (scan_url last_error : string) : M CoreDb string BridgeError :=
  match n with
  | O => throw (ReleaseFailed ("Delivery not confirmed after 30 poll attempts: " +:+ last_error))
  | S n =>
      let next last_error :=
        backoff attempt MSG_POLL_INITIAL_DELAY_MS MSG_POLL_MAX_DELAY_MS ;;;
        release_loop n (attempt + 1) params src_eid scan_url last_error in
      let* r := Monad.attempt (fetch net self "read: " scan_url) in
      match r with
      | Err (COpen _ remaining_secs) =>
          sleep_ms net (u64 (remaining_secs * 1000) `min` MSG_POLL_MAX_DELAY_MS) ;;;
          release_loop n (attempt + 1) params src_eid scan_url last_error
      | Err (CInner e) => next (bridge_error_text e)
      | Ok (status, body) =>
          if success status then
            match parse_scan body with
            | Ok (mkScanResponse (Some (msg :: _))) =>
                match LayerZero.sm_status msg with
                | Some LayerZero.Delivered => ret (default "" (LayerZero.sm_dst_tx_hash msg))
                | Some LayerZero.SFailed =>
                    retry_failed_message (bp_dest_chain params)
                      (default OFT_ETHEREUM (oft_address (bp_dest_chain params))) src_eid 0
                | _ => next last_error
                end
            | _ => next last_error
            end
          else next last_error
      end
  end.

Definition release_funds (params : BridgeTransferParams) (message_id : string)
  : M CoreDb string BridgeError :=
  let* (src_eid, _, guid) :=
    of_option (ReleaseFailed "Invalid message ID") (LayerZero.parse_message_id message_id) in
  release_loop MSG_POLL_MAX_RETRIES 0 params src_eid
    (api self +:+ SCAN_MESSAGES_BY_GUID +:+ "/" +:+ guid)%string "".

Definition estimate_bridge_fee (params : BridgeTransferParams) : BridgeFeeEstimate :=
  let chain := bp_source_chain params in
  let '(source_fee, desc) :=
    if String.eqb chain "ethereum" then (300000000000000, "~$0.80 (DVN + executor, ETH)")
    else if String.eqb chain "polygon" then (50000000000000, "~$0.02 (DVN + executor, Polygon)")
    else if String.eqb chain "arbitrum" then (80000000000000, "~$0.05 (DVN + executor, Arbitrum)")
    else if String.eqb chain "base" then (50000000000000, "~$0.02 (DVN + executor, Base)")
    else (100000000000000, "~$0.10 (DVN + executor)") in
  mkBridgeFeeEstimate source_fee 0 0 (desc +:+ " + relayer").

Definition adapter : BridgeAdapter :=
  mkAdapter "layerzero" LayerZero.supports_route lock_funds verify_lock release_funds.

End adapter.
End LayerZeroAdapter.

(** An identifier one of the two can parse. *)
Definition parses_id (msg : string) : bool :=
  bool_decide (is_Some (Wormhole.parse_message_id msg)) ||
  bool_decide (is_Some (LayerZero.parse_message_id msg)).

#[export] Instance wormhole_strict he hd pg net self :
  Strict parses_id (WormholeAdapter.adapter he hd pg net self).
Proof.
  intros p msg H e x e' Hrun. apply orb_false_iff in H as [H _]. apply bool_decide_eq_false in H.
  simpl in Hrun. unfold WormholeAdapter.release_funds in Hrun. apply bind_Ok in Hrun as (a & e1 & Hp & _).
  apply of_option_Ok in Hp as [Hp _]. apply H. by rewrite Hp.
Qed.

#[export] Instance layerzero_strict he hd hp ps net self :
  Strict parses_id (LayerZeroAdapter.adapter he hd hp ps net self).
Proof.
  intros p msg H e x e' Hrun. apply orb_false_iff in H as [_ H]. apply bool_decide_eq_false in H.
  simpl in Hrun. unfold LayerZeroAdapter.release_funds in Hrun. apply bind_Ok in Hrun as (a & e1 & Hp & _).
  apply of_option_Ok in Hp as [Hp _]. apply H. by rewrite Hp.
Qed.

(** ** The adapters only talk to their networks *)

Lemma keeps_of_result {X A E} (φ : CoreDb → X) (r : result A E) : keeps φ (of_result r).
Proof. by destruct r. Qed.
#[export] Hint Resolve keeps_of_result : keeps.

Section isolated.
Context (net : Network) (self : Bridge) `{!Separate rest net}.
Lemma rest_breakers x d : rest (set_breakers x d) = rest d.
Proof. done. Qed.
#[local] Hint Resolve rest_breakers : keeps.

#[export] Instance wormhole_isolated he hd pg : Isolated (WormholeAdapter.adapter he hd pg net self).
Proof.
  assert (∀ v, keeps rest (WormholeAdapter.verify v)) as Hv by (intros; unfold WormholeAdapter.verify; keeps).
  assert (∀ b, keeps rest (WormholeAdapter.decode_vaa he b)) as Hd by (intros; unfold WormholeAdapter.decode_vaa; keeps).
  assert (∀ n k u l, keeps rest (WormholeAdapter.fetch_loop he pg net self n k u l)) as Hf.
  { induction n as [|n IH]; intros k u l; cbn [WormholeAdapter.fetch_loop]; keeps. }
  assert (∀ n k c b x l, keeps rest (WormholeAdapter.submit_loop net self n k c b x l)) as Hs.
  { induction n as [|n IH]; intros k c b x l; cbn [WormholeAdapter.submit_loop]; keeps. }
  split; intros; cbn [WormholeAdapter.adapter lock_funds verify_lock release_funds];
    unfold WormholeAdapter.lock_funds, WormholeAdapter.verify_lock,
    WormholeAdapter.release_funds, WormholeAdapter.fetch_vaa_by_tx, WormholeAdapter.fetch_vaa,
    WormholeAdapter.submit_vaa_to_destination, WormholeAdapter.random_nonce; keeps.
Qed.

Lemma keeps_lz_rpc c m p : keeps rest (LayerZeroAdapter.evm_rpc_call net self c m p).
Proof. apply keeps_rpc_call; auto with keeps. Qed.
Lemma keeps_lz_wait c t : keeps rest (LayerZeroAdapter.wait_for_receipt net self c t).
Proof. apply keeps_wait; auto with keeps. Qed.
Lemma keeps_lz_backoff {E} k a b : keeps rest (LayerZeroAdapter.backoff net (E := E) k a b).
Proof. apply keeps_backoff; auto with keeps. Qed.
#[local] Hint Resolve keeps_lz_rpc keeps_lz_wait keeps_lz_backoff : keeps.

#[export] Instance layerzero_isolated he hd hp ps : Isolated (LayerZeroAdapter.adapter he hd hp ps net self).
Proof.
  assert (∀ t, keeps rest (LayerZeroAdapter.query_scan_by_tx ps net self t)) as Hq
    by (intros; unfold LayerZeroAdapter.query_scan_by_tx; keeps).
  assert (∀ n k c x l, keeps rest (LayerZeroAdapter.retry_loop net self n k c x l)) as Hr.
  { induction n as [|n IH]; intros k c x l; cbn [LayerZeroAdapter.retry_loop]; keeps. }
  assert (∀ c o s n, keeps rest (LayerZeroAdapter.retry_failed_message he hd net self c o s n)) as Hf
    by (intros; apply Hr).
  assert (∀ n k p s u l, keeps rest (LayerZeroAdapter.release_loop he hd ps net self n k p s u l)) as Hl.
  { induction n as [|n IH]; intros k p s u l; cbn [LayerZeroAdapter.release_loop]; keeps. }
  split; intros; cbn [LayerZeroAdapter.adapter lock_funds verify_lock release_funds];
    unfold LayerZeroAdapter.lock_funds, LayerZeroAdapter.verify_lock, LayerZeroAdapter.release_funds; keeps.
Qed.
End isolated.

(** * Proofs: What the Wormhole adapter guarantees

    Proved over any network: what a release rests on, and what becomes of a
    lock whose transaction is not mined yet. *)

Import WormholeAdapter.
Open Scope Z_scope.

Section wormhole.
Context (hex_encode : bytes → string) (hex_decode : string → option bytes)
        (parse_guardian : string → result GuardianResponse string).
Context (net : Network) (self : Bridge).

(** A VAA the guardians' service answered with. *)
Definition answered (vaa : Wormhole.Vaa) : Prop :=
  ∃ url e status body e' b64 b,
    fetch net self "read body: " url e = (Ok (status, body), e') ∧ success status = true ∧
    parse_guardian body = Ok (mkGuardianResponse (Some (Some b64))) ∧
    Base64.base64_decode (as_bytes b64) = Ok b ∧ Wormhole.parse_vaa hex_encode b = Ok vaa.

(** A transaction the node of [chain] accepted, and the hash it answered with. *)
Definition accepted (chain : string) (fields : list (string * string)) (tx_hash : string) : Prop :=
  ∃ e val e',
    evm_rpc_call net self chain "eth_sendTransaction" (JArray [tx_object fields]) e = (Ok val, e') ∧
    as_str val = Some tx_hash.

Lemma of_result_Ok {A E} (r : result A E) (e : Env CoreDb) a e' :
  of_result r e = (Ok a, e') ↔ r = Ok a ∧ e' = e.
Proof. unfold of_result, ret, throw. destruct r; naive_solver. Qed.

Lemma fetch_loop_answered n : ∀ k url l e vaa e',
  fetch_loop hex_encode parse_guardian net self n k url l e = (Ok vaa, e') → answered vaa.
Proof.
  induction n as [|n IH]; intros k url l e vaa e' Hrun; cbn [fetch_loop] in Hrun; [by apply throw_Ok in Hrun|].
  cbv zeta in Hrun. apply bind_Ok in Hrun as (r & e1 & Hf & Hrun). apply attempt_Ok in Hf.
  assert (∀ l' e2, (backoff net k VAA_POLL_INITIAL_DELAY_MS VAA_POLL_MAX_DELAY_MS ;;;
    fetch_loop hex_encode parse_guardian net self n (k + 1) url l') e2 = (Ok vaa, e') → answered vaa) as Hnext.
  { intros l' e2 (u & e3 & _ & H)%bind_Ok. by eapply IH. }
  destruct r as [[status body]|[breaker secs|x]]; [|apply bind_Ok in Hrun as (u & e2 & _ & Hrun); by eapply IH|eauto].
  destruct (success status) eqn:Hs; [|destruct (status =? 404); eauto].
  destruct (parse_guardian body) as [[[[b64|]|]]|x] eqn:Hp; [|eauto|eauto|by eapply IH].
  unfold decode_vaa in Hrun. apply bind_Ok in Hrun as (b & e2 & [Hb ->]%of_result_Ok & [Hv ->]%of_result_Ok).
  exists url, e, status, body, e1, b64, b. by split_and!.
Qed.

Lemma submit_loop_accepted n : ∀ k chain bridge data l e tx_hash e',
  submit_loop net self n k chain bridge data l e = (Ok tx_hash, e') →
  valid_tx_hash tx_hash = true ∧ accepted chain [("to", bridge); ("data", data)] tx_hash.
Proof.
  induction n as [|n IH]; intros k chain bridge data l e tx_hash e' Hrun; cbn [submit_loop] in Hrun;
    [by apply throw_Ok in Hrun|].
  cbv zeta in Hrun. apply bind_Ok in Hrun as (r & e1 & _ & Hrun).
  assert (∀ l' e2, (sleep_ms net (submit_delay k) ;;;
    submit_loop net self n (k + 1) chain bridge data l') e2 = (Ok tx_hash, e') →
    valid_tx_hash tx_hash = true ∧ accepted chain [("to", bridge); ("data", data)] tx_hash) as Hretry.
  { intros l' e2 (u & e3 & _ & H)%bind_Ok. by eapply IH. }
  destruct r as [call|x]; [|destruct (_ || _); [by apply throw_Ok in Hrun|eauto]].
  apply bind_Ok in Hrun as (r & e2 & Hsent & Hrun). apply attempt_Ok in Hsent.
  destruct r as [val|x]; [|destruct (retriable _); [eauto|by apply throw_Ok in Hrun]].
  destruct (valid_tx_hash _) eqn:Hv; [|eauto]. apply ret_Ok in Hrun as [-> ->].
  split; [done|]. exists e1, val, e2. split; [done|].
  destruct (as_str val) as [s|]; [done|by vm_compute in Hv].
Qed.

Lemma fetch_vaa_answered c m s e vaa e' :
  fetch_vaa hex_encode parse_guardian net self c m s e = (Ok vaa, e') → answered vaa.
Proof. unfold fetch_vaa. generalize VAA_POLL_MAX_RETRIES as n. intros n. apply fetch_loop_answered. Qed.

Lemma submit_vaa_accepted chain vaa e tx_hash e' :
  submit_vaa_to_destination hex_encode net self chain vaa e = (Ok tx_hash, e') →
  ∃ bridge, token_bridge chain = Some bridge ∧ valid_tx_hash tx_hash = true ∧
    accepted chain [("to", bridge);
      ("data", hex_0x hex_encode (Wormhole.encode_complete_transfer (Wormhole.vaa_bytes vaa)))] tx_hash.
Proof.
  unfold submit_vaa_to_destination. generalize DEST_SUBMIT_MAX_RETRIES as n. intros n.
  intros (bridge & e4 & [Hb ->]%of_option_Ok & Hs)%bind_Ok.
  apply submit_loop_accepted in Hs as [Hvalid Hacc]. by exists bridge.
Qed.

Lemma verify_quorum vaa e u e' : answered vaa → verify vaa e = (Ok u, e') →
  (13 ≤ length (guardians vaa) ≤ 19)%nat ∧ NoDup (guardians vaa).
Proof.
  intros (_ & _ & _ & _ & _ & _ & b & _ & _ & _ & _ & Hparse) Hv.
  unfold verify in Hv. destruct (Wormhole.verify_vaa vaa) as [r|] eqn:Hver; [|by apply throw_Ok in Hv].
  apply of_result_Ok in Hv as [-> _]. destruct u.
  by destruct (verified_guardians hex_encode _ _ Hparse Hver) as (? & ? & _).
Qed.

(** C11: the adapter releases funds only on a VAA that the guardians' service
    answered with and that names a quorum of distinct guardians, and the
    transaction hash it returns is the node's answer to the submission of
    exactly that VAA to the token bridge of the destination chain. *)
Theorem releases_rest_on_a_quorum params msg e tx_hash e' :
  WormholeAdapter.release_funds hex_encode parse_guardian net self params msg e = (Ok tx_hash, e') →
  ∃ vaa bridge,
    answered vaa ∧ (13 ≤ length (guardians vaa) ≤ 19)%nat ∧ NoDup (guardians vaa) ∧
    token_bridge (bp_dest_chain params) = Some bridge ∧ valid_tx_hash tx_hash = true ∧
    accepted (bp_dest_chain params)
      [("to", bridge);
       ("data", hex_0x hex_encode (Wormhole.encode_complete_transfer (Wormhole.vaa_bytes vaa)))] tx_hash.
Proof.
  unfold release_funds. intros ([[c m] s] & e1 & _ & Hrun)%bind_Ok.
  apply bind_Ok in Hrun as (vaa & e2 & Hf & Hrun). apply fetch_vaa_answered in Hf.
  apply bind_Ok in Hrun as (u & e3 & Hv & Hs). apply (verify_quorum _ _ _ _ Hf) in Hv as [Hq Hnd].
  apply submit_vaa_accepted in Hs as (bridge & Hb & Hvalid & Hacc).
  exists vaa, bridge. by repeat (split; [assumption|]).
Qed.

Definition with_timer (sleep : Z → Env CoreDb → Env CoreDb) (random : Env CoreDb → Z * Env CoreDb) : Network :=
  mkNetwork (post net) (get_url net) sleep random (print_json net).

Lemma rpc_call_not_null chain method params e val e' : null_is_absent net →
  evm_rpc_call net self chain method params e = (Ok val, e') → val ≠ JNull.
Proof.
  intros Hnull. unfold evm_rpc_call. intros (url & e1 & _ & H)%bind_Ok.
  match type of H with context [map_err ?f (post net url method params)] =>
    set (do_call := let* rpc_resp := map_err f (post net url method params) in
      match rpc_error rpc_resp with
      | Some err => throw (NetworkError ("RPC error " +:+ print_int (code err) +:+ ": " +:+ message err))
      | None => of_option (NetworkError "null result") (rpc_result rpc_resp)
      end) in H end.
  assert (∀ e2 e3, do_call e2 = (Ok val, e3) → val ≠ JNull) as Hdo.
  { intros e2 e3 (resp & e4 & Hp & Hr)%bind_Ok. apply map_err_Ok in Hp.
    destruct (rpc_error resp); [by apply throw_Ok in Hr|]. apply of_option_Ok in Hr as [Hr _].
    intros ->. by eapply Hnull. }
  destruct (chain_breakers self !! chain); [|by eapply Hdo].
  apply map_err_Ok, call_Ok in H as (e2 & e3 & H). by eapply Hdo.
Qed.

(** The adapter never waits for a receipt: over any two timers waiting for
    a receipt does the same, because a transaction that is not mined yet is
    reported as an error (the JSON reader makes the node's null an absent
    result) and the first error ends the wait (a flaw of the code). *)
Theorem receipts_are_not_awaited sleep random chain tx_hash e :
  null_is_absent net →
  wait_for_receipt net self chain tx_hash e = wait_for_receipt (with_timer sleep random) self chain tx_hash e.
Proof.
  intros Hnull. unfold wait_for_receipt. cbn [receipt_loop].
  assert (evm_get_receipt (with_timer sleep random) self chain tx_hash = evm_get_receipt net self chain tx_hash)
    as -> by done.
  unfold bind.
  destruct (evm_get_receipt net self chain tx_hash e) as [[[receipt|]|x] e1] eqn:E; [done| |done].
  exfalso. unfold evm_get_receipt in E. apply bind_Ok in E as (val & e2 & Hval & Hr).
  apply rpc_call_not_null in Hval; [|done]. apply ret_Ok in Hr as [Hr _]. by destruct val.
Qed.
End wormhole.

(** ** A network that answers *)
Module NetworkExample.

Definition tx_hash : string := "0x0000000000000000000000000000000000000000000000000000000000000000".
Definition receipt : Value :=
  JObject [("status", JString "0x1");
           ("logs", JArray [JObject [("topics", JArray [JString LOG_MESSAGE_PUBLISHED_TOPIC; JString "0xee"]);
                                     ("data", JString "0x00")]])].
Definition toy_hex (b : bytes) : string := "".
Definition hex_decode (s : string) : option bytes := Some (replicate 31 0 ++ [7]).
Definition guardian (body : string) : result GuardianResponse string :=
  Ok (mkGuardianResponse (Some (Some body))).
Definition vaa_text : string :=
  String.string_of_list_ascii ((λ b, ascii_of_nat (Z.to_nat b)) <$>
    Base64.base64_encode (MockGuardian.build_vaa_simple 13 2 42 [7; 8])).

(** Every transaction is accepted and signed; [mined]: its receipt is there. *)
Definition net (mined : bool) : Network :=
  mkNetwork
    (λ _ method _, ret (mkRpcResponse
       (if String.eqb method "eth_getTransactionReceipt"
        then if mined then Some receipt else None else Some (JString tx_hash)) None))
    (λ _, ret (200, vaa_text)) (λ ms e, mkEnv (env_db e) (env_faults e) (env_uuid e) (env_drawn e) (env_now e + ms / 1000))
    (λ e, (1, e)) (λ _, "").
Definition self : Bridge :=
  with_chain_rpc "wormhole" "base" "http://b" (with_chain_rpc "wormhole" "ethereum" "http://e" (new "http://g")).
Definition wormhole : BridgeAdapter := WormholeAdapter.adapter toy_hex hex_decode guardian (net true) self.

#[export] Instance net_separate mined : Separate rest (net mined).
Proof. by split. Qed.
Lemma net_null mined : null_is_absent (net mined).
Proof. intros url method params e resp e' [= <- _]. simpl. destruct (String.eqb _ _); [by destruct mined|done]. Qed.

Definition params : BridgeTransferParams :=
  mkTransferParams "ethereum" "base" "0xaa" 100 "alice" "bob".
Definition origin : Env CoreDb := mkEnv empty_db [] (λ n, N.of_nat n) 0 50.
Abbreviation release := (WormholeAdapter.release_funds toy_hex guardian (net true) self params "2/00/42").
End NetworkExample.

Lemma releases_rest_on_a_quorum_witness :
  ∃ vaa, is_ok (fst (NetworkExample.release NetworkExample.origin)) = true ∧
    answered NetworkExample.toy_hex NetworkExample.guardian (NetworkExample.net true) NetworkExample.self vaa ∧
    (13 ≤ length (guardians vaa))%nat.
Proof.
  assert (is_ok (fst (NetworkExample.release NetworkExample.origin)) = true) as Hok by (by vm_compute).
  destruct (NetworkExample.release NetworkExample.origin) as [[tx|x] e'] eqn:E; [|discriminate Hok].
  destruct (releases_rest_on_a_quorum _ _ _ _ _ _ _ _ _ E) as (vaa & bridge & Hans & [Hq _] & _).
  exists vaa. exact (conj eq_refl (conj Hans Hq)).
Defined.

(** Twenty attempts are provided for, none is made. *)
Lemma receipts_are_not_awaited_witness :
  let waiting net := wait_for_receipt net NetworkExample.self "ethereum" NetworkExample.tx_hash NetworkExample.origin in
  let still := with_timer (NetworkExample.net false) (λ _ e, e) (λ e, (0, e)) in
  waiting (NetworkExample.net false) = waiting still ∧
  fst (waiting still) = Err (NetworkError "null result").
Proof.
  cbv zeta. split; [|by vm_compute].
  apply (receipts_are_not_awaited (NetworkExample.net false)), NetworkExample.net_null.
Defined.
