(* ===== verification/CrossChain.v ===== *)
(** * Cross-chain settlement: [src/src/cross_chain/{model,service,worker}.rs]

    The two legs of a settlement, their states, and the worker that drives them
    through a bridge.  The counts the phases return are only logged and are
    left out. *)
From S2P Require Import Prelude Monad Float64 Model Wormhole LayerZero Bridges.

Inductive CrossChainError :=
| LegNotFound
| InvalidState (s : string)
| ChainError (e : string)
| Timeout
| DbError (e : SqlxError).

Record CrossChainSettlement := mkSettlement {
  cs_intent_id : Uuid;
  cs_fill_id : Uuid;
  source_leg : CrossChainLeg;
  destination_leg : CrossChainLeg;
  fully_confirmed : bool;
  timed_out : bool;
}.

Definition leg_with_index (i : Z) (l : CrossChainLeg) : bool := (lg_leg_index l =? i)%Z.

(** [CrossChainSettlement::from_legs] at the time [now]. *)
Definition from_legs (now : Z) (legs : list CrossChainLeg) : option CrossChainSettlement :=
  source ← sql_one (leg_with_index 0) legs;
  dest ← sql_one (leg_with_index 1) legs;
  let fully_confirmed :=
    bool_decide (lg_status source = LConfirmed) && bool_decide (lg_status dest = LConfirmed) in
  let timed_out :=
    negb fully_confirmed && ((lg_timeout_at source <? now)%Z || (lg_timeout_at dest <? now)%Z) in
  Some (mkSettlement (lg_intent_id source) (lg_fill_id source) source dest fully_confirmed timed_out).

Module CrossChainService.

Definition DEFAULT_TIMEOUT_SECS : Z := 600.

Definition is_leg (id : Uuid) (l : CrossChainLeg) : bool := (lg_id l =? id)%N.
Definition in_status (s : list LegStatus) (l : CrossChainLeg) : bool := bool_decide (lg_status l ∈ s).

(** PRIMARY KEY (id), UNIQUE (fill_id, leg_index), intent_id REFERENCES intents(id) *)
Definition insert_leg (leg : CrossChainLeg) : M CoreDb unit CrossChainError :=
  map_err DbError (stmt (λ d,
    if existsb (λ r, (lg_id r =? lg_id leg)%N ||
                     ((lg_fill_id r =? lg_fill_id leg)%N && (lg_leg_index r =? lg_leg_index leg)%Z))
         (cross_chain_legs d)
       || negb (existsb (λ i, (i_id i =? lg_intent_id leg)%N) (intents d))
    then None
    else Some (tt, set_cross_chain_legs (cross_chain_legs d ++ [leg]) d))).

Definition create_settlement (intent_id fill_id : Uuid)
    (source_chain dest_chain source_from source_to dest_from dest_to : string)
    (source_mint dest_mint : option string) (amount : Z)
  : M CoreDb (CrossChainLeg * CrossChainLeg) CrossChainError :=
  let* t := now in
  let timeout := (t + DEFAULT_TIMEOUT_SECS)%Z in
  let* id0 := new_v4 in
  let source_leg := mkLeg id0 intent_id fill_id 0 source_chain source_from source_to source_mint
                      amount None LPending None timeout t None in
  let* id1 := new_v4 in
  let dest_leg := mkLeg id1 intent_id fill_id 1 dest_chain dest_from dest_to dest_mint
                    amount None LPending None timeout t None in
  insert_leg source_leg ;;;
  insert_leg dest_leg ;;;
  ret (source_leg, dest_leg).

(** COALESCE *)
Definition coalesce {A} (a b : option A) : option A := match a with Some _ => a | None => b end.

Definition with_leg (status : LegStatus) (tx_hash error : option string) (l : CrossChainLeg)
  : CrossChainLeg :=
  mkLeg (lg_id l) (lg_intent_id l) (lg_fill_id l) (lg_leg_index l) (lg_chain l) (lg_from_address l)
    (lg_to_address l) (lg_token_mint l) (lg_amount l) (coalesce tx_hash (lg_tx_hash l)) status
    (coalesce error (lg_error l)) (lg_timeout_at l) (lg_created_at l) (lg_confirmed_at l).

Definition with_confirmed_at (t : Z) (l : CrossChainLeg) : CrossChainLeg :=
  mkLeg (lg_id l) (lg_intent_id l) (lg_fill_id l) (lg_leg_index l) (lg_chain l) (lg_from_address l)
    (lg_to_address l) (lg_token_mint l) (lg_amount l) (lg_tx_hash l) (lg_status l) (lg_error l)
    (lg_timeout_at l) (lg_created_at l) (Some t).

Definition update_leg_status (leg_id : Uuid) (status : LegStatus) (tx_hash error : option string)
  : M CoreDb unit CrossChainError :=
  let* n := map_err DbError (stmt (λ d,
    Some (rows_affected (is_leg leg_id) (cross_chain_legs d),
          set_cross_chain_legs
            (sql_update (is_leg leg_id) (with_leg status tx_hash error) (cross_chain_legs d)) d))) in
  if (n =? 0)%nat then throw LegNotFound else ret tt.

Definition execute_source_leg (leg_id : Uuid) (tx_hash : string) : M CoreDb unit CrossChainError :=
  update_leg_status leg_id LEscrowed (Some tx_hash) None.
Definition mark_executing (leg_id : Uuid) (tx_hash : string) : M CoreDb unit CrossChainError :=
  update_leg_status leg_id LExecuting (Some tx_hash) None.
Definition confirm_leg (leg_id : Uuid) : M CoreDb unit CrossChainError :=
  update_leg_status leg_id LConfirmed None None ;;;
  let* t := now in
  map_err DbError (exec (λ d, set_cross_chain_legs
    (sql_update (is_leg leg_id) (with_confirmed_at t) (cross_chain_legs d)) d)).
Definition fail_leg (leg_id : Uuid) (error : string) : M CoreDb unit CrossChainError :=
  update_leg_status leg_id LFailed None (Some error).
Definition refund_leg (leg_id : Uuid) : M CoreDb unit CrossChainError :=
  update_leg_status leg_id LRefunded None (Some "Timeout refund").

Definition get_settlement (fill_id : Uuid) : M CoreDb (option CrossChainSettlement) CrossChainError :=
  let* legs := map_err DbError (query (λ d,
    sort_by (λ x y, (lg_leg_index x <=? lg_leg_index y)%Z)
      (sql_select (λ l, (lg_fill_id l =? fill_id)%N) (cross_chain_legs d)))) in
  let* t := now in
  ret (from_legs t legs).

(** .. ORDER BY key LIMIT 50 *)
Definition first_50 (key : CrossChainLeg → Z) (p : CoreDb → CrossChainLeg → bool) (d : CoreDb)
  : list CrossChainLeg :=
  take 50 (sort_by (λ x y, (key x <=? key y)%Z) (sql_select (p d) (cross_chain_legs d))).

Definition find_pending_source_legs : M CoreDb (list CrossChainLeg) CrossChainError :=
  map_err DbError (query (first_50 lg_created_at (λ _ l, leg_with_index 0 l && in_status [LPending] l))).
Definition find_escrowed_source_legs : M CoreDb (list CrossChainLeg) CrossChainError :=
  map_err DbError (query (first_50 lg_created_at (λ _ l, leg_with_index 0 l && in_status [LEscrowed] l))).
Definition find_timed_out_legs : M CoreDb (list CrossChainLeg) CrossChainError :=
  let* t := now in
  map_err DbError (query (first_50 lg_timeout_at (λ _ l,
    (lg_timeout_at l <? t)%Z && negb (in_status [LConfirmed; LRefunded] l)))).

(** JOIN cross_chain_legs src ON src.fill_id = dest.fill_id AND src.leg_index = 0 *)
Definition is_ready (d : CoreDb) (dest : CrossChainLeg) : bool :=
  leg_with_index 1 dest && in_status [LPending] dest &&
  existsb (λ src, (lg_fill_id src =? lg_fill_id dest)%N && leg_with_index 0 src &&
                  in_status [LEscrowed; LConfirmed] src) (cross_chain_legs d).
Definition find_ready_destination_legs : M CoreDb (list CrossChainLeg) CrossChainError :=
  map_err DbError (query (first_50 lg_created_at is_ready)).

(** [(amount as f64 * 1.5) as i64] *)
Definition CROSS_CHAIN_COLLATERAL_MULTIPLIER : f64 := f64_lit 3 2.
Definition required_collateral (amount : Z) : Z :=
  mul_rate amount CROSS_CHAIN_COLLATERAL_MULTIPLIER.

(** [known]: the chains of the registry. *)
Definition validate_solver_for_cross_chain (known : string → bool)
    (solver_id source_chain dest_chain : string) : M CoreDb unit CrossChainError :=
  guard (known source_chain) (ChainError "Source chain unsupported") ;;;
  guard (known dest_chain) (ChainError "Destination chain unsupported") ;;;
  let* pending_count := map_err DbError (query (λ d,
    length (sql_select (λ p : CrossChainLeg * Fill,
        (f_id p.2 =? lg_fill_id p.1)%N && String.eqb (f_solver_id p.2) solver_id &&
        in_status [LPending; LEscrowed; LExecuting] p.1 && leg_with_index 0 p.1)
      (list_prod (cross_chain_legs d) (fills d))))) in
  guard (pending_count <? 10)%nat
    (InvalidState "Solver has too many pending cross-chain settlements").

End CrossChainService.

Module CrossChainWorker.
Import CrossChainService.
Section worker.
Context (bridges : list BridgeAdapter).

(** [match svc.find_..().await { Ok(l) => l, Err(e) => return }] and the loop. *)
Definition for_legs {E} (find : M CoreDb (list CrossChainLeg) CrossChainError)
    (body : CrossChainLeg → M CoreDb unit E) : M CoreDb unit E :=
  let* r := attempt find in
  match r with
  | Ok legs => mfor legs body
  | Err _ => ret tt
  end.

(** [match svc.get_settlement(..).await { Ok(Some(s)) => s, _ => continue }] *)
Definition with_settlement {E} (leg : CrossChainLeg) (body : CrossChainSettlement → M CoreDb unit E)
  : M CoreDb unit E :=
  let* r := attempt (get_settlement (lg_fill_id leg)) in
  match r with
  | Ok (Some s) => body s
  | _ => ret tt
  end.

Definition lock_source {E} (leg : CrossChainLeg) : M CoreDb unit E :=
  with_settlement leg (λ s,
    let dest := destination_leg s in
    match BridgeRegistry.find bridges (lg_chain leg) (lg_chain dest) with
    | Err _ => ret tt
    | Ok bridge =>
        let params := mkTransferParams (lg_chain leg) (lg_chain dest) (default "" (lg_token_mint leg))
                        (u64 (lg_amount leg)) (lg_from_address leg) (lg_to_address dest) in
        let* r := attempt (lock_funds bridge params) in
        match r with
        | Ok receipt => attempt (execute_source_leg (lg_id leg) (lr_tx_hash receipt)) ;;; ret tt
        | Err e => attempt (fail_leg (lg_id leg) (bridge_error_text e)) ;;; ret tt
        end
    end).
Definition lock_pending_sources {E} : M CoreDb unit E := for_legs find_pending_source_legs lock_source.

Definition verify_source {E} (leg : CrossChainLeg) : M CoreDb unit E :=
  match lg_tx_hash leg with
  | None => ret tt
  | Some tx_hash =>
      with_settlement leg (λ s,
        match BridgeRegistry.find bridges (lg_chain leg) (lg_chain (destination_leg s)) with
        | Err _ => ret tt
        | Ok bridge =>
            let* r := attempt (verify_lock bridge tx_hash) in
            match r with
            | Ok (Completed _) | Ok (InTransit _) => attempt (confirm_leg (lg_id leg)) ;;; ret tt
            | Ok (Failed reason) => attempt (fail_leg (lg_id leg) reason) ;;; ret tt
            | _ => ret tt
            end
        end)
  end.
Definition verify_escrowed {E} : M CoreDb unit E := for_legs find_escrowed_source_legs verify_source.

Definition release_destination {E} (leg : CrossChainLeg) : M CoreDb unit E :=
  with_settlement leg (λ s,
    let source := source_leg s in
    match BridgeRegistry.find bridges (lg_chain source) (lg_chain leg) with
    | Err _ => ret tt
    | Ok bridge =>
        let params := mkTransferParams (lg_chain source) (lg_chain leg) (default "" (lg_token_mint leg))
                        (u64 (lg_amount leg)) (lg_from_address source) (lg_to_address leg) in
        let msg_id := ("msg_" +:+ default "" (lg_tx_hash source))%string in
        let* r := attempt (release_funds bridge params msg_id) in
        match r with
        | Ok dest_tx => attempt (mark_executing (lg_id leg) dest_tx) ;;; ret tt
        | Err e => attempt (fail_leg (lg_id leg) (bridge_error_text e)) ;;; ret tt
        end
    end).
Definition release_destinations {E} : M CoreDb unit E :=
  for_legs find_ready_destination_legs release_destination.

Definition time_out {E} (leg : CrossChainLeg) : M CoreDb unit E :=
  let* r := attempt (refund_leg (lg_id leg)) in
  match r with
  | Err _ => ret tt
  | Ok _ =>
      if leg_with_index 0 leg && bool_decide (lg_status leg = LEscrowed) then
        with_settlement leg (λ s,
          if in_status [LPending; LExecuting] (destination_leg s) then
            attempt (refund_leg (lg_id (destination_leg s))) ;;; ret tt
          else ret tt)
      else ret tt
  end.
Definition process_timeouts {E} : M CoreDb unit E := for_legs find_timed_out_legs time_out.

(** SELECT DISTINCT l.fill_id, l.intent_id .. LIMIT 50 *)
Definition completed_rows (d : CoreDb) : list (Uuid * Uuid) :=
  let legs := sql_select (λ l,
    leg_with_index 0 l && in_status [LConfirmed] l &&
    existsb (λ l2, (lg_fill_id l2 =? lg_fill_id l)%N && leg_with_index 1 l2 && in_status [LConfirmed] l2)
      (cross_chain_legs d) &&
    existsb (λ i, (i_id i =? lg_intent_id l)%N && negb (bool_decide (i_status i = ICompleted)))
      (intents d)) (cross_chain_legs d) in
  take 50 (remove_dups ((λ l, (lg_fill_id l, lg_intent_id l)) <$> legs)).

Definition complete_intent (i : Intent) : Intent :=
  mkIntent (i_id i) (i_user_id i) (i_token_in i) (i_token_out i) (i_amount_in i) (i_min_amount_out i)
    (i_deadline i) ICompleted (i_created_at i) (i_order_type i) (i_limit_price i) (i_stop_price i)
    (i_stop_side i) (i_triggered_at i) (i_source_chain i) (i_destination_chain i) (i_cross_chain i).

Definition finalize_completed {E} : M CoreDb unit E :=
  let* r := attempt (query completed_rows) in
  match r with
  | Err _ => ret tt
  | Ok rows => mfor rows (λ row,
      attempt (exec (λ d, set_intents
        (sql_update (λ i, (i_id i =? snd row)%N && negb (bool_decide (i_status i = ICompleted)))
           complete_intent (intents d)) d)) ;;; ret tt)
  end.

(** One poll of the worker. *)
Definition cycle {E} : M CoreDb unit E :=
  lock_pending_sources ;;;
  verify_escrowed ;;;
  release_destinations ;;;
  process_timeouts ;;;
  finalize_completed.

End worker.
End CrossChainWorker.
