(* ===== verification/CrossChainCorrect.v ===== *)
(** * What the cross-chain worker can and cannot do

    Proved for any set of bridges that leave our tables alone ([Isolated]) and
    redeem only messages they can identify ([Strict]), as Wormhole and LayerZero
    are.  The worker makes its own message identifiers, which neither parses. *)
From Stdlib Require Import Ascii.
From stdpp Require Import relations.
From S2P Require Import Prelude Monad Triples Float64 Model Bytes Text Abi Wormhole LayerZero Breaker Rpc Bridges CrossChain.
Import CrossChainService CrossChainWorker.

(** ** Message identifiers the worker makes *)

Lemma split_once_head c s a b : c ≠ "/"%char → split_once (String c s) = Some (a, b) →
  ∃ a', a = String c a'.
Proof.
  intros Hc. simpl. destruct (Ascii.eqb_spec c "/"); [done|].
  destruct (split_once s) as [[a' b']|]; [|done]. simpl. intros [= <- <-]. eauto.
Qed.

(** Text that starts with a letter other than "l" is no identifier. *)
Lemma letter_parses_no_id c s : c = "m"%char ∨ c = "h"%char → parses_id (String c s) = false.
Proof.
  intros Hc. apply orb_false_iff. split; apply bool_decide_eq_false_2; intros [x Hx].
  - unfold Wormhole.parse_message_id in Hx.
    destruct (split_once (String c s)) as [[p0 r]|] eqn:E; [|done].
    apply split_once_head in E as [a' ->]; [|by destruct Hc as [-> | ->]]. simpl in Hx.
    destruct (split_once r) as [[p1 p2]|]; [|done]. simpl in Hx.
    rewrite parse_letter in Hx; [done|by destruct Hc as [-> | ->]..].
  - unfold LayerZero.parse_message_id in Hx.
    destruct (split_once (String c s)) as [[p0 r]|] eqn:E; [|done].
    apply split_once_head in E as [a' ->]; [|by destruct Hc as [-> | ->]]. simpl in Hx.
    destruct (split_once r) as [[p1 r']|]; [|done]. simpl in Hx.
    destruct (split_once r') as [[p2 p3]|]; [|done]. by destruct Hc as [-> | ->].
Qed.

Lemma find_elem bridges s d b : BridgeRegistry.find bridges s d = Ok b → b ∈ bridges.
Proof.
  unfold BridgeRegistry.find. destruct (head _) as [b'|] eqn:E; [|done]. intros [= ->].
  apply head_Some_elem_of in E. apply list_elem_of_filter in E. tauto.
Qed.

(** ** Settlements read from the table *)

Lemma from_legs_Some t legs s : from_legs t legs = Some s →
  source_leg s ∈ legs ∧ lg_leg_index (source_leg s) = 0%Z ∧
  destination_leg s ∈ legs ∧ lg_leg_index (destination_leg s) = 1%Z.
Proof.
  unfold from_legs. destruct (sql_one (leg_with_index 0) legs) as [l0|] eqn:E0; [|done].
  destruct (sql_one (leg_with_index 1) legs) as [l1|] eqn:E1; [|done]. intros [= <-].
  apply sql_one_Some in E0 as [? ?%Z.eqb_eq], E1 as [? ?%Z.eqb_eq]. done.
Qed.

Lemma elem_of_first_50 key p d l : l ∈ first_50 key p d → l ∈ cross_chain_legs d ∧ p d l = true.
Proof.
  unfold first_50. intros H. apply elem_of_take in H as (i & H & _).
  apply list_elem_of_lookup_2 in H. apply elem_of_sort_by, list_elem_of_In, filter_In in H.
  by rewrite list_elem_of_In.
Qed.

Lemma leg_in_status s l : in_status s l = true ↔ lg_status l ∈ s.
Proof. apply bool_decide_eq_true. Qed.

Section invariant.

(** The identity of a leg; no update changes it. *)
Definition ident (l : CrossChainLeg) : Uuid * Z := (lg_id l, lg_leg_index l).

(** A destination leg that was never released. *)
Definition unreleased (l : CrossChainLeg) : Prop :=
  lg_leg_index l = 1%Z → lg_status l ≠ LExecuting ∧ lg_status l ≠ LConfirmed.

(** [stuck]: confirmed source legs; [ids]: the legs of the table;
    [its]: the intents. *)
Context (ids : list (Uuid * Z)) (stuck : list CrossChainLeg) (its : list Intent).

Record idle (d : CoreDb) : Prop := {
  idle_ids : map ident (cross_chain_legs d) = ids;
  idle_dest : Forall unreleased (cross_chain_legs d);
  idle_stuck : stuck ⊆ cross_chain_legs d;
  idle_intents : intents d = its;
}.

Hypothesis ids_unique : NoDup ids.*1.
Hypothesis stuck_confirmed : ∀ l, l ∈ stuck → lg_status l = LConfirmed ∧ lg_leg_index l = 0%Z.

(** A leg as one of the phases got it: in the table, and not one of the
    confirmed ones. *)
Definition movable (l : CrossChainLeg) : Prop :=
  ident l ∈ ids ∧ lg_id l ∉ map lg_id stuck.

Lemma idle_rest d d' : rest d' = rest d → idle d → idle d'.
Proof.
  intros Hr [Hi Hd Hs Ht]. pose proof (f_equal cross_chain_legs Hr) as Hl. pose proof (f_equal intents Hr) as Hn.
  simpl in Hl, Hn. split; by rewrite ?Hl, ?Hn.
Qed.

Lemma leg_ident d l : idle d → l ∈ cross_chain_legs d → ident l ∈ ids.
Proof. intros Hd Hl. rewrite <- (idle_ids d Hd). by apply list_elem_of_fmap_2. Qed.

Lemma same_leg d l l' : idle d → l ∈ cross_chain_legs d → l' ∈ cross_chain_legs d →
  lg_id l = lg_id l' → l = l'.
Proof.
  intros Hd Hl Hl' Heq. apply (NoDup_map_inj lg_id (cross_chain_legs d)); [|done..].
  rewrite <- (idle_ids d Hd) in ids_unique. by rewrite <- list_fmap_compose in ids_unique.
Qed.

Lemma ident_index d l i : idle d → l ∈ cross_chain_legs d → (lg_id l, i) ∈ ids → lg_leg_index l = i.
Proof.
  intros Hd Hl Hi. rewrite <- (idle_ids d Hd) in Hi.
  apply list_elem_of_fmap in Hi as (l' & [= Hid ->] & Hl'). by rewrite (same_leg d l l').
Qed.

(** A leg of the table that is not confirmed, or not a source leg. *)
Lemma movable_leg d l : idle d → l ∈ cross_chain_legs d →
  lg_status l ≠ LConfirmed ∨ lg_leg_index l ≠ 0%Z → movable l.
Proof.
  intros Hd Hl Hne. split; [by eapply leg_ident|].
  intros (l' & Heq & Hl')%list_elem_of_fmap. pose proof (idle_stuck d Hd l' Hl') as Hin.
  rewrite (same_leg d l l' Hd Hl Hin Heq) in Hne.
  destruct (stuck_confirmed l' Hl'). naive_solver.
Qed.

(** Updates of one leg: of the status, and of anything of it but the status. *)
Lemma idle_update d l f : idle d → movable l →
  (∀ r, ident (f r) = ident r) → (∀ r, lg_leg_index l = lg_leg_index r → unreleased r → unreleased (f r)) →
  idle (set_cross_chain_legs (sql_update (is_leg (lg_id l)) f (cross_chain_legs d)) d).
Proof.
  intros Hd [Hl Hfree] Hid Hun. split; simpl.
  - rewrite map_sql_update by done. apply Hd.
  - apply Forall_forall. intros r' (r & Hr & ->)%elem_of_sql_update.
    pose proof (proj1 (Forall_forall _ _) (idle_dest d Hd) r Hr) as Hur.
    destruct (is_leg (lg_id l) r) eqn:Hq; [|done]. apply Hun; [|done].
    apply N.eqb_eq in Hq. symmetry. apply (ident_index d); [done..|]. by rewrite Hq.
  - intros s Hs. apply elem_of_sql_update. exists s. split; [by apply (idle_stuck d Hd)|].
    destruct (is_leg (lg_id l) s) eqn:Hq; [|done]. apply N.eqb_eq in Hq. destruct Hfree.
    rewrite <- Hq. by apply list_elem_of_fmap_2.
  - apply Hd.
Qed.

Lemma update_status_idle l status tx err : movable l →
  (lg_leg_index l = 1%Z → status ≠ LExecuting ∧ status ≠ LConfirmed) →
  maintains idle (update_leg_status (lg_id l) status tx err).
Proof.
  intros Hl Hst. eapply triple_bind with (Q := λ _, True).
  - apply triple_map_err, triple_stmt. intros d n d' Hd [= <- <-]. split; [|done].
    apply idle_update; [done..|]. intros r Hi _ Hr. simpl in *. apply Hst. congruence.
  - intros n _. destruct (n =? 0)%nat; [apply triple_throw|by apply triple_ret].
Qed.

Lemma fail_leg_idle l e : movable l → maintains idle (fail_leg (lg_id l) e).
Proof. intros Hl. by apply update_status_idle. Qed.
Lemma refund_leg_idle l : movable l → maintains idle (refund_leg (lg_id l)).
Proof. intros Hl. by apply update_status_idle. Qed.
Lemma execute_source_idle l tx : movable l → maintains idle (execute_source_leg (lg_id l) tx).
Proof. intros Hl. by apply update_status_idle. Qed.
Lemma confirm_leg_idle l : movable l → lg_leg_index l = 0%Z → maintains idle (confirm_leg (lg_id l)).
Proof.
  intros Hl Hi. eapply triple_bind; [apply update_status_idle; [done|congruence]|]. intros _ _.
  eapply triple_bind; [apply triple_now|]. intros t _. apply triple_map_err, triple_exec.
  intros d Hd. by apply idle_update.
Qed.

(** ** The phases *)

Lemma find_idle p key d l : idle d → l ∈ first_50 key p d →
  l ∈ cross_chain_legs d ∧ p d l = true ∧ ident l ∈ ids.
Proof. intros Hd [Hl Hp]%elem_of_first_50. split_and!; [done..|]. by eapply leg_ident. Qed.

Lemma for_legs_idle {E} find (body : CrossChainLeg → M CoreDb unit E) (R : CrossChainLeg → Prop) :
  triple idle (λ legs, ∀ l, l ∈ legs → R l) find → (∀ l, R l → maintains idle (body l)) →
  maintains idle (for_legs find body).
Proof.
  intros Hf Hb. eapply triple_bind; [by apply triple_attempt|]. intros [legs|x] Hr; [|by apply triple_ret].
  apply triple_mfor. intros l Hl. apply Hb. by apply (Hr legs).
Qed.

(** The settlement of a leg: its destination leg has index 1. *)
Lemma with_settlement_idle {E} leg (body : CrossChainSettlement → M CoreDb unit E) :
  (∀ s, movable (destination_leg s) → lg_leg_index (destination_leg s) = 1%Z →
     maintains idle (body s)) →
  maintains idle (with_settlement leg body).
Proof.
  intros Hb. eapply triple_bind.
  - apply triple_attempt. unfold get_settlement.
    apply (triple_bind idle (λ legs, ∀ l, l ∈ legs → lg_leg_index l = 1%Z → movable l)).
    + apply triple_map_err, triple_query. intros d Hd l Hl Hi.
      apply elem_of_sort_by, list_elem_of_In, filter_In in Hl as [Hl _].
      apply (movable_leg d); [done|by apply list_elem_of_In|right; congruence].
    + intros legs Hlegs. eapply triple_bind; [apply triple_now|]. intros t _.
      apply triple_ret with (Q := λ o, ∀ s, o = Some s →
        movable (destination_leg s) ∧ lg_leg_index (destination_leg s) = 1%Z).
      intros s (_ & _ & Hin & Hi)%from_legs_Some. auto.
  - intros [[s|]|x] Hr; try by apply triple_ret. destruct (Hr _ eq_refl s eq_refl). by apply Hb.
Qed.

Context (bridges : list BridgeAdapter).
Hypothesis bridges_isolated : ∀ b, b ∈ bridges → Isolated b.
Hypothesis bridges_strict : ∀ b, b ∈ bridges → Strict parses_id b.

Lemma lock_pending_sources_idle {E} : maintains idle (lock_pending_sources (E := E) bridges).
Proof.
  apply (for_legs_idle _ _ movable).
  - apply triple_map_err, triple_query. intros d Hd l (Hl & Hp & _)%find_idle; [|done].
    apply andb_true_iff in Hp as [_ Hst%leg_in_status%list_elem_of_singleton].
    apply (movable_leg d); [done..|]. left. congruence.
  - intros leg Hleg. apply with_settlement_idle. intros s _ _.
    cbv beta zeta. destruct (BridgeRegistry.find bridges _ _) as [b|] eqn:Hb; [|by apply triple_ret]. apply find_elem in Hb.
    eapply triple_bind; [apply triple_attempt, (triple_keeps _ _ idle_rest), bridges_isolated, Hb|].
    intros [receipt|e] _; apply triple_ignore; [by apply execute_source_idle|by apply fail_leg_idle].
Qed.

Lemma verify_escrowed_idle {E} : maintains idle (verify_escrowed (E := E) bridges).
Proof.
  apply (for_legs_idle _ _ (λ l, movable l ∧ lg_leg_index l = 0%Z)).
  - apply triple_map_err, triple_query. intros d Hd l (Hl & Hp & _)%find_idle; [|done].
    apply andb_true_iff in Hp as [Hi%Z.eqb_eq Hst%leg_in_status%list_elem_of_singleton].
    split; [|done]. apply (movable_leg d); [done..|]. left. congruence.
  - intros leg [Hleg Hi]. unfold verify_source. destruct (lg_tx_hash leg) as [tx|]; [|by apply triple_ret].
    apply with_settlement_idle. intros s _ _.
    cbv beta zeta. destruct (BridgeRegistry.find bridges _ _) as [b|] eqn:Hb; [|by apply triple_ret]. apply find_elem in Hb.
    eapply triple_bind; [apply triple_attempt, (triple_keeps _ _ idle_rest), bridges_isolated, Hb|].
    intros [[]|e] _; try (by apply triple_ret); apply triple_ignore;
      by (apply confirm_leg_idle || apply fail_leg_idle).
Qed.

(** The identifier starts with "msg_": no bridge releases anything. *)
Lemma release_destinations_idle {E} : maintains idle (release_destinations (E := E) bridges).
Proof.
  apply (for_legs_idle _ _ movable).
  - apply triple_map_err, triple_query. intros d Hd l (Hl & Hp & _)%find_idle; [|done].
    apply andb_true_iff in Hp as [[Hi%Z.eqb_eq _]%andb_true_iff _].
    apply (movable_leg d); [done..|]. right. congruence.
  - intros leg Hleg. apply with_settlement_idle. intros s _ _.
    cbv beta zeta. destruct (BridgeRegistry.find bridges _ _) as [b|] eqn:Hb; [|by apply triple_ret]. apply find_elem in Hb.
    eapply triple_bind.
    + apply triple_attempt, (triple_never _ _ idle_rest); [apply bridges_isolated, Hb|].
      apply (bridges_strict b Hb), letter_parses_no_id. by left.
    + intros [tx|e] Hr; [by destruct (Hr tx)|]. by apply triple_ignore, fail_leg_idle.
Qed.

Lemma process_timeouts_idle {E} : maintains idle (process_timeouts (E := E)).
Proof.
  apply (for_legs_idle _ _ movable).
  - eapply triple_bind; [apply triple_now|]. intros t _.
    apply triple_map_err, triple_query. intros d Hd l (Hl & Hp & _)%find_idle; [|done].
    apply andb_true_iff in Hp as [_ Hst%negb_true_iff%not_true_iff_false].
    rewrite leg_in_status in Hst. apply (movable_leg d); [done..|]. left. set_solver.
  - intros leg Hleg. eapply triple_bind; [by apply triple_attempt, refund_leg_idle|].
    intros [[]|e] _; [|by apply triple_ret].
    destruct (_ && _); [|by apply triple_ret]. apply with_settlement_idle. intros s Hs _.
    destruct (in_status _ _); [|by apply triple_ret]. by apply triple_ignore, refund_leg_idle.
Qed.

(** No pair of legs is confirmed, so nothing is found. *)
Lemma completed_rows_none d : idle d → completed_rows d = [].
Proof.
  intros Hd. unfold completed_rows.
  match goal with |- context [sql_select ?p ?l] => assert (sql_select p l = []) as ->; [|done] end.
  apply list_nil_subseteq. intros l Hl. exfalso.
  apply list_elem_of_In, filter_In in Hl as [_ Hp].
  apply andb_true_iff in Hp as [[_ Hex]%andb_true_iff _].
  apply existsb_exists in Hex as (l2 & Hl2%list_elem_of_In & Hp).
  apply andb_true_iff in Hp as [[_ Hi%Z.eqb_eq]%andb_true_iff Hst%leg_in_status%list_elem_of_singleton].
  by destruct (proj1 (Forall_forall _ _) (idle_dest d Hd) l2 Hl2 Hi).
Qed.

Lemma finalize_completed_idle {E} : maintains idle (finalize_completed (E := E)).
Proof.
  eapply (triple_bind _ (λ r, ∀ rows, r = Ok rows → rows = [])).
  - apply triple_attempt with (Q := λ rows, rows = []), triple_query. intros d Hd.
    by apply completed_rows_none.
  - intros [rows|e] Hr; [|by apply triple_ret]. rewrite (Hr rows eq_refl). by apply triple_ret.
Qed.

Lemma cycle_idle {E} : maintains idle (cycle (E := E) bridges).
Proof.
  eapply triple_bind; [apply lock_pending_sources_idle|]. intros _ _.
  eapply triple_bind; [apply verify_escrowed_idle|]. intros _ _.
  eapply triple_bind; [apply release_destinations_idle|]. intros _ _.
  eapply triple_bind; [apply process_timeouts_idle|]. intros _ _.
  apply finalize_completed_idle.
Qed.
End invariant.

(** ** Histories *)

(** What a table of legs keeps from one step to the next. *)
Record sound (stuck : list CrossChainLeg) (d : CoreDb) : Prop := {
  sound_ids : NoDup (map lg_id (cross_chain_legs d));
  sound_dest : Forall unreleased (cross_chain_legs d);
  sound_stuck : stuck ⊆ cross_chain_legs d;
}.

Definition confirmed_source (l : CrossChainLeg) : Prop :=
  lg_status l = LConfirmed ∧ lg_leg_index l = 0%Z.

Lemma ident_ids l : (map ident l).*1 = map lg_id l.
Proof. by rewrite <- list_fmap_compose. Qed.

Lemma sound_idle stuck d : sound stuck d ↔
  idle (map ident (cross_chain_legs d)) stuck (intents d) d ∧
  NoDup (map ident (cross_chain_legs d)).*1.
Proof.
  rewrite ident_ids. split.
  - intros [Hi Hd Hs]. by repeat split.
  - intros [[_ Hd Hs _] Hi]. by split.
Qed.

Lemma idle_sound ids stuck its d : NoDup ids.*1 → idle ids stuck its d → sound stuck d.
Proof.
  intros Hnd [Hi Hd Hs _]. split; [|done..]. by rewrite <- ident_ids, Hi.
Qed.

Lemma insert_leg_sound stuck leg : unreleased leg → maintains (sound stuck) (insert_leg leg).
Proof.
  intros Hleg. apply triple_map_err, triple_stmt. intros d [] d' [Hi Hd Hs].
  destruct (_ || _) eqn:Hor; [done|]. intros [= <-]. apply orb_false_iff in Hor as [Hfresh _].
  split; [|done]. split; simpl.
  - apply NoDup_map_snoc; [done|]. intros r Hr. pose proof (existsb_false_elem _ _ _ Hfresh Hr) as Hne.
    apply orb_false_iff in Hne as [Hne _]. by apply N.eqb_neq in Hne.
  - apply Forall_app. split; [done|]. constructor; [done|constructor].
  - set_solver.
Qed.

Section histories.
Context (bridges : list BridgeAdapter).

(** A poll of the worker, a settlement created for a fill, or anything else
    that leaves the legs alone. *)
Inductive step : Env CoreDb → Env CoreDb → Prop :=
| s_poll e : step e (snd (cycle (E := CrossChainError) bridges e))
| s_create intent_id fill_id sc dc sf st df dt sm dm amount e :
    step e (snd (create_settlement intent_id fill_id sc dc sf st df dt sm dm amount e))
| s_other e e' : cross_chain_legs (env_db e') = cross_chain_legs (env_db e) → step e e'.

Hypothesis bridges_isolated : ∀ b, b ∈ bridges → Isolated b.
Hypothesis bridges_strict : ∀ b, b ∈ bridges → Strict parses_id b.

Lemma poll_idle stuck e : Forall confirmed_source stuck → sound stuck (env_db e) →
  let e' := snd (cycle (E := CrossChainError) bridges e) in
  sound stuck (env_db e') ∧ intents (env_db e') = intents (env_db e).
Proof.
  intros Hc [Hidle Hnd]%sound_idle e'.
  destruct (cycle_idle _ stuck (intents (env_db e)) Hnd (proj1 (Forall_forall _ _) Hc) bridges
    bridges_isolated bridges_strict (E := CrossChainError) e Hidle) as [Hafter _].
  split; [by eapply idle_sound|apply Hafter].
Qed.

Lemma step_sound stuck e e' : Forall confirmed_source stuck → step e e' →
  sound stuck (env_db e) → sound stuck (env_db e').
Proof.
  intros Hc Hst Hs. destruct Hst as [e|? ? ? ? ? ? ? ? ? ? ? e|e e' Heq].
  - by apply poll_idle.
  - assert (∀ A (m : M CoreDb A CrossChainError), maintains (sound stuck) m →
      sound stuck (env_db (snd (m e)))) as Hrun by (intros A m Hm; by apply Hm).
    apply Hrun. clear.
    eapply triple_bind; [apply triple_now|]. intros t _.
    eapply triple_bind; [apply triple_new_v4|]. intros id0 _. cbv zeta.
    eapply triple_bind; [apply triple_new_v4|]. intros id1 _.
    eapply triple_bind; [by apply insert_leg_sound|]. intros _ _.
    eapply triple_bind; [by apply insert_leg_sound|]. intros _ _. by apply triple_ret.
  - destruct Hs as [? ? ?]. split; by rewrite Heq.
Qed.

Lemma steps_sound stuck e e' : Forall confirmed_source stuck → rtc step e e' →
  sound stuck (env_db e) → sound stuck (env_db e').
Proof. intros Hc. induction 1; [done|]. eauto using step_sound. Qed.

(** C18: over bridges that redeem only identifiers they can parse, in every
    history that starts without legs, no destination leg is ever executing or
    confirmed; a poll of the worker leaves the intents as they are, so it never
    completes one; and a source leg that is confirmed stays as it is for good:
    its escrow is neither released nor refunded. *)
Theorem settlements_strand_their_funds e0 e :
  cross_chain_legs (env_db e0) = [] → rtc step e0 e →
  (∀ l, l ∈ cross_chain_legs (env_db e) → lg_leg_index l = 1%Z →
     lg_status l ≠ LExecuting ∧ lg_status l ≠ LConfirmed) ∧
  intents (env_db (snd (cycle (E := CrossChainError) bridges e))) = intents (env_db e) ∧
  (∀ e' l, rtc step e e' → l ∈ cross_chain_legs (env_db e) →
     lg_status l = LConfirmed → lg_leg_index l = 0%Z → l ∈ cross_chain_legs (env_db e')).
Proof.
  intros H0 Hr. assert (sound [] (env_db e)) as Hs.
  { apply (steps_sound _ e0); [constructor|done|]. split; rewrite H0; [apply NoDup_nil_2|apply Forall_nil_2|done]. }
  split_and!.
  - intros l Hl Hi. by apply (proj1 (Forall_forall _ _) (sound_dest _ _ Hs)).
  - by apply (poll_idle []); [constructor|].
  - intros e' l Hr' Hl Hst Hi. destruct Hs as [Hids Hd _].
    destruct (steps_sound [l] e e') as [_ _ Hin]; [by repeat constructor|done| |set_solver].
    split; [done|done|]. set_solver.
Qed.
End histories.

(** ** A transfer over Wormhole *)
Module StrandedExample.

Import NetworkExample.

Definition some_intent : Intent :=
  mkIntent 5 "alice" "USDC" "ETH" 100 1 1000 IMatched 0 Market None None None None "ethereum" "base" true.
Definition start : Env CoreDb :=
  mkEnv (set_intents [some_intent] empty_db) [] (λ n, N.of_nat (100 + n)) 0 50.
Definition created : Env CoreDb :=
  snd (create_settlement 5 8 "ethereum" "base" "alice" "escrow" "solver" "alice" None None 100 start).
Definition poll (e : Env CoreDb) : Env CoreDb := snd (cycle (E := CrossChainError) [wormhole] e).
Definition later (e : Env CoreDb) : Env CoreDb :=
  mkEnv (env_db e) (env_faults e) (env_uuid e) (env_drawn e) (env_now e + 1000).

Lemma isolated b : b ∈ [wormhole] → Isolated b.
Proof. intros ->%list_elem_of_singleton. apply wormhole_isolated, NetworkExample.net_separate. Qed.
Lemma strict b : b ∈ [wormhole] → Strict parses_id b.
Proof. intros ->%list_elem_of_singleton. apply wormhole_strict. Qed.

Lemma polled : rtc (step [wormhole]) start (poll created).
Proof. apply (rtc_l _ _ created); [apply s_create|]. apply rtc_once, s_poll. Qed.
Lemma waits e : step [wormhole] e (later e).
Proof. by apply s_other. Qed.
Lemma timed_out e : rtc (step [wormhole]) e (poll (later e)).
Proof. apply (rtc_l _ _ (later e)); [apply waits|]. apply rtc_once, s_poll. Qed.
End StrandedExample.

(** The source leg is locked and confirmed, the release fails, and after the
    timeout the destination leg is refunded while the source leg stays. *)
Lemma settlements_strand_their_funds_witness :
  let e := StrandedExample.poll StrandedExample.created in
  ∃ src, head (cross_chain_legs (env_db e)) = Some src ∧ lg_status src = LConfirmed ∧
    src ∈ cross_chain_legs (env_db (StrandedExample.poll (StrandedExample.later e))) ∧
    lg_status <$> cross_chain_legs (env_db (StrandedExample.poll (StrandedExample.later e))) =
      [LConfirmed; LRefunded].
Proof.
  cbv zeta.
  destruct (settlements_strand_their_funds [NetworkExample.wormhole] StrandedExample.isolated
    StrandedExample.strict StrandedExample.start (StrandedExample.poll StrandedExample.created) eq_refl
    StrandedExample.polled) as (_ & _ & Hstays).
  destruct (cross_chain_legs (env_db (StrandedExample.poll StrandedExample.created))) as [|src legs] eqn:E;
    [by vm_compute in E|].
  assert (lg_status src = LConfirmed ∧ lg_leg_index src = 0%Z) as [Hst Hi]
    by (vm_compute in E; by injection E as <- _).
  exists src. split_and!; [done|done| |by vm_compute].
  apply Hstays; [apply StrandedExample.timed_out|by left|done|done].
Defined.
