(* ===== verification/HtlcWorker.v ===== *)
(** * The atomic-swap worker: [src/src/cross_chain/htlc/worker.rs]

    Five phases, each a loop over the swaps a query of the service finds.  The
    counts and durations the phases report are only logged and are left out. *)
From Stdlib Require Import Ascii.
From stdpp Require Import relations.
From S2P Require Import Prelude Monad Float64 Model Text Wormhole LayerZero Bridges HtlcSwaps Triples Bytes Abi Breaker Rpc CrossChainCorrect.


Module HtlcWorker.
Import HtlcService.
Section worker.
Context (sha256 : list Z → list Z) (to_hex : list Z → string).
Context (bridges : list BridgeAdapter).

(** [match htlc.find_..().await { Ok(s) => s, Err(e) => return 0 }] and the loop. *)
Definition for_swaps {E} (find : M CoreDb (list HtlcSwap) HtlcError)
    (body : HtlcSwap → M CoreDb unit E) : M CoreDb unit E :=
  let* r := attempt find in
  match r with
  | Ok swaps => mfor swaps body
  | Err _ => ret tt
  end.

(** [let _ = htlc.fail_swap(..).await;] *)
Definition fail {E} (swap : HtlcSwap) (error : string) : M CoreDb unit E :=
  attempt (fail_swap (sw_id swap) error) ;;; ret tt.

Definition source_params (swap : HtlcSwap) : BridgeTransferParams :=
  mkTransferParams (sw_source_chain swap) (sw_dest_chain swap) (default "" (sw_source_token swap))
    (u64 (sw_source_amount swap)) (sw_source_sender swap) (sw_source_receiver swap).
Definition dest_params (swap : HtlcSwap) : BridgeTransferParams :=
  mkTransferParams (sw_source_chain swap) (sw_dest_chain swap) (default "" (sw_dest_token swap))
    (u64 (sw_dest_amount swap)) (sw_dest_sender swap) (sw_dest_receiver swap).

Definition lock_source {E} (swap : HtlcSwap) : M CoreDb unit E :=
  match BridgeRegistry.find bridges (sw_source_chain swap) (sw_dest_chain swap) with
  | Err e => fail swap (bridge_error_text e)
  | Ok bridge =>
      let* r := attempt (lock_funds bridge (source_params swap)) in
      match r with
      | Ok receipt => attempt (record_source_lock (sw_id swap) (lr_tx_hash receipt)) ;;; ret tt
      | Err e => fail swap ("Source lock failed: " +:+ bridge_error_text e)
      end
  end.
Definition phase_lock_source {E} : M CoreDb unit E := for_swaps find_pending_locks lock_source.

Definition monitor_dest_lock {E} (swap : HtlcSwap) : M CoreDb unit E :=
  match sw_source_lock_tx swap with
  | None => ret tt
  | Some source_tx =>
      match BridgeRegistry.find bridges (sw_source_chain swap) (sw_dest_chain swap) with
      | Err _ => ret tt
      | Ok bridge =>
          let* r := attempt (verify_lock bridge source_tx) in
          match r with
          | Ok (Completed dest_tx_hash) =>
              attempt (record_dest_lock (sw_id swap) dest_tx_hash) ;;; ret tt
          | Ok (Failed reason) => fail swap ("Bridge failed: " +:+ reason)
          | _ => ret tt
          end
      end
  end.
Definition phase_monitor_dest_lock {E} : M CoreDb unit E :=
  for_swaps find_awaiting_dest_lock monitor_dest_lock.

Definition claim_destination {E} (swap : HtlcSwap) : M CoreDb unit E :=
  match sw_secret swap with
  | None => ret tt
  | Some secret =>
      if negb (length secret =? 32)%nat then fail swap "Stored secret has wrong length" else
      if negb (length (sw_secret_hash swap) =? 32)%nat then fail swap "Secret hash wrong length" else
      if negb (verify_secret sha256 secret (sw_secret_hash swap))
      then fail swap "Stored secret does not match hash" else
      match BridgeRegistry.find bridges (sw_source_chain swap) (sw_dest_chain swap) with
      | Err _ => ret tt
      | Ok bridge =>
          let msg_id := ("htlc_secret_" +:+ to_hex secret)%string in
          let* r := attempt (release_funds bridge (dest_params swap) msg_id) in
          match r with
          | Ok claim_tx => attempt (record_dest_claim sha256 (sw_id swap) secret claim_tx) ;;; ret tt
          | Err _ => ret tt
          end
      end
  end.
Definition phase_claim_destination {E} : M CoreDb unit E := for_swaps find_claimable claim_destination.

Definition unlock_source {E} (swap : HtlcSwap) : M CoreDb unit E :=
  match sw_secret swap with
  | None => ret tt
  | Some secret =>
      if negb (length secret =? 32)%nat then ret tt else
      if negb (length (sw_secret_hash swap) =? 32)%nat then ret tt else
      if negb (verify_secret sha256 secret (sw_secret_hash swap))
      then fail swap "Secret/hash mismatch at unlock" else
      match BridgeRegistry.find bridges (sw_source_chain swap) (sw_dest_chain swap) with
      | Err _ => ret tt
      | Ok bridge =>
          let msg := ("htlc_unlock_" +:+ to_hex secret)%string in
          let* r := attempt (release_funds bridge (source_params swap) msg) in
          match r with
          | Ok unlock_tx => attempt (complete_swap (sw_id swap) unlock_tx) ;;; ret tt
          | Err _ => ret tt
          end
      end
  end.
Definition phase_unlock_source {E} : M CoreDb unit E := for_swaps find_pending_unlocks unlock_source.

Definition refund_expired {E} (swap : HtlcSwap) : M CoreDb unit E :=
  attempt (refund_swap (sw_id swap)) ;;; ret tt.
Definition phase_refund_expired {E} : M CoreDb unit E := for_swaps find_expired refund_expired.

(** One poll of the worker. *)
Definition cycle {E} : M CoreDb unit E :=
  phase_lock_source ;;;
  phase_monitor_dest_lock ;;;
  phase_claim_destination ;;;
  phase_unlock_source ;;;
  phase_refund_expired.

End worker.
End HtlcWorker.

(** ** What the atomic-swap worker does

    It refunds every expired swap; over bridges that redeem only messages they
    can identify it claims and unlocks none, because it makes its own message
    identifiers. *)

Import HtlcService HtlcWorker.
Open Scope Z_scope.

(** ** No claims *)

(** A swap whose secret the worker has not used. *)
Definition unclaimed (r : HtlcSwap) : Prop :=
  sw_status r ≠ HDestClaimed ∧ sw_status r ≠ HSourceUnlocked.
Definition all_unclaimed (d : CoreDb) : Prop := Forall unclaimed (htlc_swaps d).

Section no_claims.
Context (sha256 : list Z → list Z) (to_hex : list Z → string) (bridges : list BridgeAdapter).
Hypothesis bridges_isolated : ∀ b, b ∈ bridges → Isolated b.
Hypothesis bridges_strict : ∀ b, b ∈ bridges → Strict parses_id b.

Lemma unclaimed_rest d d' : rest d' = rest d → all_unclaimed d → all_unclaimed d'.
Proof. intros Hr. pose proof (f_equal htlc_swaps Hr) as H. simpl in H. unfold all_unclaimed. by rewrite H. Qed.
Lemma unclaimed_same d d' : id d' = id d → all_unclaimed d → all_unclaimed d'.
Proof. unfold id. by intros ->. Qed.

Lemma update_swap_unclaimed id q f : (∀ r, unclaimed r → unclaimed (f r)) →
  maintains all_unclaimed (update_swap id q f).
Proof.
  intros Hf. apply triple_map_err, triple_stmt. intros d n d' Hd [= <- <-]. split; [|done].
  apply Forall_forall. intros r (r0 & Hr0 & ->)%elem_of_sql_update.
  pose proof (proj1 (Forall_forall _ _) Hd r0 Hr0). destruct (_ && _); auto.
Qed.

Lemma transition_unclaimed id l f msg : (∀ r, unclaimed r → unclaimed (f r)) →
  maintains all_unclaimed (transition id l f msg).
Proof.
  intros Hf. eapply triple_bind; [by apply update_swap_unclaimed|]. intros n _.
  destruct (n =? 0)%nat; [apply triple_throw|by apply triple_ret].
Qed.

Lemma get_swap_unclaimed i : maintains all_unclaimed (get_swap i).
Proof. apply (triple_keeps _ id unclaimed_same). unfold get_swap. keeps. Qed.

Lemma record_source_lock_unclaimed id tx : maintains all_unclaimed (record_source_lock id tx).
Proof. eapply triple_bind; [apply triple_now|]. intros t _. by apply transition_unclaimed. Qed.
Lemma record_dest_lock_unclaimed id tx : maintains all_unclaimed (record_dest_lock id tx).
Proof. by apply transition_unclaimed. Qed.
Lemma refund_swap_unclaimed id : maintains all_unclaimed (refund_swap id).
Proof.
  eapply triple_bind; [apply get_swap_unclaimed|]. intros s _.
  eapply triple_bind; [apply triple_now|]. intros t _.
  destruct (_ <? _); [apply triple_throw|]. destruct (_ || _); [apply triple_throw|].
  eapply triple_bind; [apply triple_now|]. intros t' _. by apply transition_unclaimed.
Qed.
Lemma fail_unclaimed {E} swap error : maintains all_unclaimed (fail (E := E) swap error).
Proof.
  apply triple_ignore. eapply triple_bind; [apply triple_now|]. intros t _.
  eapply triple_bind; [by apply update_swap_unclaimed|]. intros n _. by apply triple_ret.
Qed.
#[local] Hint Resolve fail_unclaimed : triples.

Lemma for_swaps_unclaimed {E} find (body : HtlcSwap → M CoreDb unit E) :
  keeps id find → (∀ r, maintains all_unclaimed (body r)) →
  maintains all_unclaimed (for_swaps find body).
Proof.
  intros Hf Hb. eapply triple_bind; [by apply triple_attempt, (triple_keeps _ id unclaimed_same)|].
  intros [swaps|x] _; [|by apply triple_ret]. apply triple_mfor. auto.
Qed.

(** A release under an identifier of the worker's own always fails. *)
Lemma release_fails {E} bridge params c s (k : string → M CoreDb unit E) :
  bridge ∈ bridges → c = "m"%char ∨ c = "h"%char →
  maintains all_unclaimed
    (let* r := attempt (release_funds bridge params (String c s)) in
     match r with Ok tx => k tx | Err _ => ret tt end).
Proof.
  intros Hb Hc. eapply triple_bind.
  - apply triple_attempt, (triple_never _ _ unclaimed_rest); [apply bridges_isolated, Hb|].
    by apply (bridges_strict bridge Hb), letter_parses_no_id.
  - intros [tx|x] Hr; [by destruct (Hr tx)|by apply triple_ret].
Qed.

Lemma lock_source_unclaimed {E} swap : maintains all_unclaimed (lock_source (E := E) bridges swap).
Proof.
  unfold lock_source. destruct (BridgeRegistry.find bridges _ _) as [b|] eqn:Hb; [|auto with triples].
  apply find_elem in Hb. eapply triple_bind; [apply triple_attempt, (triple_keeps _ _ unclaimed_rest), bridges_isolated, Hb|].
  intros [receipt|e] _; [|auto with triples]. apply triple_ignore, record_source_lock_unclaimed.
Qed.

Lemma monitor_unclaimed {E} swap : maintains all_unclaimed (monitor_dest_lock (E := E) bridges swap).
Proof.
  unfold monitor_dest_lock. destruct (sw_source_lock_tx swap); [|by apply triple_ret].
  destruct (BridgeRegistry.find bridges _ _) as [b|] eqn:Hb; [|by apply triple_ret].
  apply find_elem in Hb. eapply triple_bind; [apply triple_attempt, (triple_keeps _ _ unclaimed_rest), bridges_isolated, Hb|].
  intros [[]|e] _; auto with triples. apply triple_ignore, record_dest_lock_unclaimed.
Qed.

Lemma claim_unclaimed {E} swap :
  maintains all_unclaimed (claim_destination (E := E) sha256 to_hex bridges swap).
Proof.
  unfold claim_destination. destruct (sw_secret swap) as [secret|]; [|by apply triple_ret].
  destruct (negb _); [auto with triples|]. destruct (negb _); [auto with triples|].
  destruct (negb _); [auto with triples|].
  destruct (BridgeRegistry.find bridges _ _) as [b|] eqn:Hb; [|by apply triple_ret].
  apply find_elem in Hb. apply release_fails; auto.
Qed.

Lemma unlock_unclaimed {E} swap :
  maintains all_unclaimed (unlock_source (E := E) sha256 to_hex bridges swap).
Proof.
  unfold unlock_source. destruct (sw_secret swap) as [secret|]; [|by apply triple_ret].
  destruct (negb _); [by apply triple_ret|]. destruct (negb _); [by apply triple_ret|].
  destruct (negb _); [auto with triples|].
  destruct (BridgeRegistry.find bridges _ _) as [b|] eqn:Hb; [|by apply triple_ret].
  apply find_elem in Hb. apply release_fails; auto.
Qed.

Lemma cycle_unclaimed {E} : maintains all_unclaimed (cycle (E := E) sha256 to_hex bridges).
Proof.
  repeat (eapply triple_bind with (Q := λ _, True); [|intros _ _]); apply for_swaps_unclaimed;
    try (unfold find_pending_locks, find_awaiting_dest_lock, find_claimable, find_pending_unlocks, find_expired; keeps);
    intros r; auto using lock_source_unclaimed, monitor_unclaimed, claim_unclaimed, unlock_unclaimed.
  apply triple_ignore, refund_swap_unclaimed.
Qed.

(** Polls of the worker, and the calls with which swaps are made: a new swap, a
    secret stored for it. *)
Inductive worker_step : Env CoreDb → Env CoreDb → Prop :=
| w_poll e : worker_step e (snd (cycle (E := HtlcError) sha256 to_hex bridges e))
| w_create secret params e : worker_step e (snd (create_swap sha256 secret params e))
| w_store id secret e : worker_step e (snd (store_secret sha256 id secret e))
| w_other e e' : htlc_swaps (env_db e') = htlc_swaps (env_db e) → worker_step e e'.

Lemma worker_step_unclaimed e e' : worker_step e e' → all_unclaimed (env_db e) → all_unclaimed (env_db e').
Proof.
  intros Hst He. destruct Hst as [e|secret params e|id secret e|e e' Heq].
  - by apply cycle_unclaimed.
  - revert e He. assert (maintains all_unclaimed (create_swap sha256 secret params)) as H; [|intros; by apply H].
    eapply triple_bind; [apply triple_now|]. intros t _.
    eapply triple_bind; [apply triple_new_v4|]. intros id _. cbv zeta.
    eapply triple_bind with (Q := λ _, True);
      [apply triple_map_err, triple_stmt|intros _ _; by apply triple_ret].
    intros d [] d' Hd. destruct (_ || _); [done|]. intros [= <-]. split; [|exact I].
    apply Forall_app. split; [done|]. by repeat constructor.
  - revert e He. assert (maintains all_unclaimed (store_secret sha256 id secret)) as H; [|intros; by apply H].
    eapply triple_bind; [apply get_swap_unclaimed|]. intros s _.
    eapply triple_bind with (Q := λ _, True).
    { unfold as_array. destruct (_ =? _)%nat; [by apply triple_ret|apply triple_throw]. }
    intros h _. destruct (negb _); [apply triple_throw|].
    eapply triple_bind; [by apply update_swap_unclaimed|]. intros n _. by apply triple_ret.
  - unfold all_unclaimed. by rewrite Heq.
Qed.

(** Over bridges that redeem only identifiers they can parse, whatever
    swaps are created and whatever secrets are stored for them, no number of
    polls of the worker ever claims a destination lock or unlocks a source
    lock. *)
Theorem worker_never_claims e0 e r :
  htlc_swaps (env_db e0) = [] → rtc worker_step e0 e → r ∈ htlc_swaps (env_db e) →
  sw_status r ≠ HDestClaimed ∧ sw_status r ≠ HSourceUnlocked.
Proof.
  intros H0 Hr Hin. assert (all_unclaimed (env_db e0)) as Hu.
  { unfold all_unclaimed. rewrite H0. apply Forall_nil_2. }
  assert (all_unclaimed (env_db e)) as He.
  { clear H0 Hin. induction Hr; eauto using worker_step_unclaimed. }
  by apply (proj1 (Forall_forall _ _) He).
Qed.
End no_claims.

(** ** Refunds *)

Definition expired (t : Z) (r : HtlcSwap) : bool :=
  (sw_source_timelock r <? t) && in_status [HCreated; HSourceLocked] r.

Lemma expired_spec t r : expired t r = true ↔
  sw_source_timelock r < t ∧ (sw_status r = HCreated ∨ sw_status r = HSourceLocked).
Proof.
  unfold expired. rewrite andb_true_iff, Z.ltb_lt. unfold in_status. rewrite bool_decide_eq_true.
  set_solver.
Qed.

Lemma sql_update_ext {R} (p q : R → bool) f l :
  (∀ r, r ∈ l → p r = q r) → sql_update p f l = sql_update q f l.
Proof.
  intros H. unfold sql_update. apply map_ext_in. intros r Hr. by rewrite H by by apply list_elem_of_In.
Qed.

Lemma NoDup_map_sql_select {R K} (k : R → K) p l : NoDup (map k l) → NoDup (map k (sql_select p l)).
Proof.
  unfold sql_select. induction l as [|r l IH]; simpl; [done|]. intros [Hr Hnd]%NoDup_cons.
  destruct (p r); [|auto]. simpl. apply NoDup_cons. split; [|auto]. contradict Hr.
  apply list_elem_of_fmap in Hr as (r' & -> & Hr'). apply list_elem_of_fmap_2.
  apply list_elem_of_In, filter_In in Hr' as [Hr' _]. by apply list_elem_of_In.
Qed.

(** One refund of an expired swap, nothing failing. *)
Lemma refund_swap_run e r :
  env_faults e = [] → NoDup (map sw_id (htlc_swaps (env_db e))) → r ∈ htlc_swaps (env_db e) →
  expired (env_now e) r = true →
  refund_swap (sw_id r) e =
    (Ok tt, with_db (set_htlc_swaps
       (sql_update (is_swap (sw_id r)) (set_refunded (env_now e)) (htlc_swaps (env_db e))) (env_db e)) e).
Proof.
  intros Hf Hnd Hr Hex. destruct e as [d faults u n t]. simpl in *. subst faults.
  assert (∀ r', r' ∈ htlc_swaps d → is_swap (sw_id r) r' = true → r' = r) as Huniq.
  { intros r' Hr' Hid%N.eqb_eq. by apply (NoDup_map_inj sw_id (htlc_swaps d)). }
  assert (sql_one (is_swap (sw_id r)) (htlc_swaps d) = Some r) as Hone.
  { destruct (sql_one _ _) as [r'|] eqn:E.
    - apply sql_one_Some in E as [Hr' Hid]. by rewrite (Huniq r').
    - eapply sql_one_None in E; [|done]. unfold is_swap in E. by rewrite N.eqb_refl in E. }
  assert (∀ r', r' ∈ htlc_swaps d →
    is_swap (sw_id r) r' && in_status [HCreated; HSourceLocked] r' = is_swap (sw_id r) r') as Hsame.
  { intros r' Hr'. destruct (is_swap (sw_id r) r') eqn:Hid; [|done]. rewrite (Huniq r') by done.
    unfold expired in Hex. apply andb_true_iff in Hex as [_ ->]. done. }
  pose proof Hex as [Ht Hst]%expired_spec.
  unfold refund_swap, get_swap, transition, update_swap, bind, map_err, query, stmt, faulty, now. simpl.
  rewrite Hone. simpl. destruct (Z.ltb_spec t (sw_source_timelock r)); [lia|].
  assert (bool_decide (sw_status r = HDestClaimed) || bool_decide (sw_status r = HSourceUnlocked) = false) as ->.
  { by destruct Hst as [-> | ->]. }
  match goal with |- context [rows_affected ?p ?l] => destruct (rows_affected p l) eqn:E end.
  { exfalso. eapply rows_affected_Some; [exact Hr| |exact E]. cbv beta. rewrite Hsame by done. apply N.eqb_refl. }
  unfold ret, with_db. simpl. do 3 f_equal. by apply sql_update_ext.
Qed.

Definition refunded_all (ids : list Uuid) (t : Z) (r : HtlcSwap) : HtlcSwap :=
  if bool_decide (sw_id r ∈ ids) then set_refunded t r else r.

Lemma refunds_run {E} xs e :
  env_faults e = [] → NoDup (map sw_id (htlc_swaps (env_db e))) → NoDup (map sw_id xs) →
  xs ⊆ htlc_swaps (env_db e) → Forall (λ r, expired (env_now e) r = true) xs →
  ∃ e', mfor xs refund_expired e = (Ok tt : result unit E, e') ∧
    htlc_swaps (env_db e') = map (refunded_all (map sw_id xs) (env_now e)) (htlc_swaps (env_db e)).
Proof.
  revert e. induction xs as [|x xs IH]; intros e Hf Hnd Hndx Hsub Hex.
  { exists e. split; [done|]. symmetry. apply map_id. }
  apply NoDup_cons in Hndx as [Hx Hndx]. apply Forall_cons in Hex as [Hxe Hex].
  simpl. unfold bind, refund_expired at 1, bind, attempt.
  rewrite (refund_swap_run e x) by (done || set_solver). simpl.
  match goal with |- context [mfor xs _ ?e1] =>
    destruct (IH e1) as (e' & Hrun & Htab); [done| |done| |done|exists e'; split; [exact Hrun|]] end; simpl in *.
  - by rewrite map_sql_update by done.
  - intros y Hy. apply elem_of_sql_update. exists y. split; [set_solver|].
    destruct (is_swap (sw_id x) y) eqn:Hid; [|done]. apply N.eqb_eq in Hid. destruct Hx.
    rewrite <- Hid. by apply list_elem_of_fmap_2.
  - rewrite Htab. unfold sql_update. rewrite map_map. apply map_ext. intros r. unfold refunded_all.
    unfold is_swap. destruct (N.eqb_spec (sw_id r) (sw_id x)) as [Hid|Hid]; simpl.
    + rewrite Hid. rewrite bool_decide_eq_false_2 by done. rewrite bool_decide_eq_true_2 by by left. done.
    + apply (f_equal (λ b : bool, if b then _ else _)). apply bool_decide_ext. set_solver.
Qed.

(** When nothing fails and at most fifty swaps have expired, one pass of the
    refund phase refunds exactly the swaps that are created or source-locked
    and past their timelock, and changes no other. *)
Theorem expired_swaps_are_refunded e :
  env_faults e = [] → NoDup (map sw_id (htlc_swaps (env_db e))) →
  (rows_affected (expired (env_now e)) (htlc_swaps (env_db e)) ≤ 50)%nat →
  ∃ e', phase_refund_expired e = (Ok tt : result unit HtlcError, e') ∧
    htlc_swaps (env_db e') =
      map (λ r, if expired (env_now e) r then set_refunded (env_now e) r else r) (htlc_swaps (env_db e)).
Proof.
  intros Hf Hnd Hlen. set (t := env_now e) in *. set (l := htlc_swaps (env_db e)) in *.
  set (xs := sort_by (λ x y, sw_source_timelock x <=? sw_source_timelock y) (sql_select (expired t) l)).
  assert (∀ r, r ∈ xs ↔ r ∈ l ∧ expired t r = true) as Hxs.
  { intros r. unfold xs. rewrite elem_of_sort_by, list_elem_of_In. unfold sql_select.
    by rewrite filter_In, list_elem_of_In. }
  assert (find_expired e = (Ok xs, pop_fault e)) as Hfind.
  { assert (first_50 sw_source_timelock (expired t) (env_db e) = xs) as <-
      by (apply take_ge; unfold xs; by rewrite length_sort_by).
    destruct e as [d faults u n t']. cbn in Hf. by subst faults. }
  destruct (refunds_run (E := HtlcError) xs (pop_fault e)) as (e' & Hrun & Htab).
  - unfold pop_fault. simpl. by rewrite Hf.
  - done.
  - unfold xs. rewrite sort_by_perm. by apply NoDup_map_sql_select.
  - intros r Hr. by apply Hxs.
  - apply Forall_forall. intros r Hr. by apply Hxs.
  - exists e'. split.
    + unfold phase_refund_expired, for_swaps, bind at 1, attempt. rewrite Hfind. exact Hrun.
    + rewrite Htab. fold l. apply map_ext_in. intros r Hr%list_elem_of_In. unfold refunded_all.
      change (env_now (pop_fault e)) with t. destruct (expired t r) eqn:Hex.
      * rewrite bool_decide_eq_true_2; [done|]. apply list_elem_of_fmap_2, Hxs. done.
      * rewrite bool_decide_eq_false_2; [done|]. intros (x & Hid & [Hx Hxe]%Hxs)%list_elem_of_fmap.
        rewrite (NoDup_map_inj sw_id l r x) in Hex by done. congruence.
Qed.

(** ** A swap the worker locks and gives back *)
Module WorkerExample.
Import NetworkExample CrossChainCorrect.StrandedExample.

Definition hash (s : list Z) : list Z := map (λ b, 255 - b)%Z s.
Definition secret : list Z := replicate 32 7%Z.
Definition to_hex (s : list Z) : string := "07".
Definition params : CreateHtlcParams :=
  mkHtlcParams 8 5 "solver" "ethereum" "alice" "solver" None 100 "base" "solver" "alice" None 99 600.
Definition made : Env CoreDb := snd (create_swap hash secret params start).
Definition stored : Env CoreDb := snd (store_secret hash 100 secret made).
Definition polled : Env CoreDb := snd (cycle (E := HtlcError) hash to_hex [wormhole] stored).

Lemma worker_runs : rtc (worker_step hash to_hex [wormhole]) start polled.
Proof.
  apply (rtc_l _ _ made); [apply w_create|]. apply (rtc_l _ _ stored); [apply w_store|].
  apply rtc_once, w_poll.
Qed.
End WorkerExample.

Lemma worker_never_claims_witness :
  ∃ r, htlc_swaps (env_db WorkerExample.polled) = [r] ∧ sw_status r = HSourceLocked ∧
    sw_secret r = Some WorkerExample.secret ∧ sw_status r ≠ HDestClaimed.
Proof.
  destruct (htlc_swaps (env_db WorkerExample.polled)) as [|r [|]] eqn:E; [by vm_compute in E| |by vm_compute in E].
  exists r. split; [done|].
  destruct (worker_never_claims WorkerExample.hash WorkerExample.to_hex [NetworkExample.wormhole]
    StrandedExample.isolated StrandedExample.strict StrandedExample.start WorkerExample.polled r eq_refl
    WorkerExample.worker_runs) as [H1 H2]; [rewrite E; by left|].
  vm_compute in E. injection E as <-. split_and!; [done|done|exact H1].
Defined.

Lemma expired_swaps_are_refunded_witness :
  ∃ e', phase_refund_expired (StrandedExample.later WorkerExample.polled) = (Ok tt : result unit HtlcError, e') ∧
    sw_status <$> htlc_swaps (env_db e') = [HRefunded].
Proof.
  destruct (expired_swaps_are_refunded (StrandedExample.later WorkerExample.polled)) as (e' & Hrun & Htab).
  - by vm_compute.
  - vm_compute. repeat constructor. apply not_elem_of_nil.
  - vm_compute. lia.
  - exists e'. split; [exact Hrun|]. rewrite Htab. by vm_compute.
Defined.
