(* ===== verification/Twap.v ===== *)
(** * TWAP orders: [src/src/twap/{model,service,scheduler,listener,mod}.rs]

    An order that is cut into slices of time: the service writes the schedule,
    the scheduler submits the slices that are due as intents, the listener
    counts those that were settled. *)
From Stdlib Require Import SpecFloat.
From stdpp Require Import gmap list_numbers.
From S2P Require Import Prelude Monad Float64 Model Balances Settlement Storage Markets Risk Intents.

Record CreateTwapRequest := mkTwapRequest {
  rq_user_id : string;
  rq_account_id : Uuid;
  rq_token_in : string;
  rq_token_out : string;
  rq_total_qty : Z;
  rq_min_price : Z;
  rq_duration_secs : Z;
  rq_interval_secs : Z;
}.

Record TwapProgress := mkProgress {
  tp_twap_id : Uuid;
  tp_status : TwapStatus;
  tp_total_qty : Z;
  tp_filled_qty : Z;
  tp_slices_total : Z;
  tp_slices_completed : Z;
  tp_remaining_qty : Z;
  tp_pct_complete : f64;
}.

(** [f64::round]: half away from zero.  A float with a non-negative exponent is
    whole. *)
Definition round_half_away (x : f64) : f64 :=
  match x with
  | S754_finite s m e =>
      if (0 <=? e)%Z then x else
      binary_normalize 53 1024
        (cond_Zopp s ((2 * Zpos m + 2 ^ (- e)) / 2 ^ (- e + 1))) 0 s
  | _ => x
  end.

Module TwapService.

Inductive TwapError :=
| InvalidParams (e : string)
| NotFound
| AlreadyCancelled
| DbError (e : SqlxError)
| IntentError (e : string).

(** A function that can panic: it ends there, and what it wrote stays. *)
Inductive unwinding (E : Type) :=
| Panics
| Raises (e : E).
Arguments Panics {E}.
Arguments Raises {E} e.

Section service.
Context `{SqlxDisplay}.
(** [now + Duration::seconds(s)] of the crate chrono; [None]: it panics. *)
Context (add_seconds : Z → Z → option Z).

Definition is_twap (id : Uuid) (r : TwapIntent) : bool := (tw_id r =? id)%N.
Definition is_child (id : Uuid) (r : TwapChildIntent) : bool := (tc_id r =? id)%N.
Definition has_status (s : string) (r : TwapChildIntent) : bool := String.eqb (tc_status r) s.

(** The columns that change; the terms of a TWAP and of a slice do not. *)
Definition tw_touch (filled completed : Z) (s : TwapStatus) (finished : option Z) (r : TwapIntent)
  : TwapIntent :=
  mkTwap (tw_id r) (tw_user_id r) (tw_account_id r) (tw_token_in r) (tw_token_out r)
    (tw_total_qty r) filled (tw_min_price r) (tw_duration_secs r) (tw_interval_secs r)
    (tw_slices_total r) completed s (tw_created_at r) finished.
Definition tc_touch (intent_id : Uuid) (s : string) (r : TwapChildIntent) : TwapChildIntent :=
  mkChild (tc_id r) (tc_twap_id r) intent_id (tc_slice_index r) (tc_qty r) s (tc_scheduled_at r)
    (tc_created_at r).

Definition set_tw_status (s : TwapStatus) (t : Z) (r : TwapIntent) : TwapIntent :=
  tw_touch (tw_filled_qty r) (tw_slices_completed r) s (Some t) r.
Definition set_tc_status (s : string) (r : TwapChildIntent) : TwapChildIntent :=
  tc_touch (tc_intent_id r) s r.

Definition update_twap (p : TwapIntent → bool) (f : TwapIntent → TwapIntent)
  : M CoreDb unit SqlxError :=
  exec (λ d, set_twap_intents (sql_update p f (twap_intents d)) d).
(** The rows an UPDATE of the slices affected. *)
Definition update_children (p : TwapChildIntent → bool) (f : TwapChildIntent → TwapChildIntent)
  : M CoreDb nat SqlxError :=
  stmt (λ d, Some (rows_affected p (twap_child_intents d),
    set_twap_child_intents (sql_update p f (twap_child_intents d)) d)).

(** id is the primary key *)
Definition insert_twap (r : TwapIntent) : M CoreDb unit SqlxError :=
  stmt (λ d,
    if existsb (is_twap (tw_id r)) (twap_intents d) then None
    else Some (tt, set_twap_intents (twap_intents d ++ [r]) d)).
(** id is the primary key, twap_id REFERENCES twap_intents(id) *)
Definition insert_child (r : TwapChildIntent) : M CoreDb unit SqlxError :=
  stmt (λ d,
    if existsb (is_child (tc_id r)) (twap_child_intents d)
       || negb (existsb (is_twap (tc_twap_id r)) (twap_intents d)) then None
    else Some (tt, set_twap_child_intents (twap_child_intents d ++ [r]) d)).

Definition insert_slice (req : CreateTwapRequest) (id : Uuid) (t slices_total qty_per_slice remainder i : Z)
  : M CoreDb unit (unwinding TwapError) :=
  let* scheduled_at := of_option Panics (add_seconds t (i64 (rq_interval_secs req * i))) in
  let slice_qty :=
    if (i =? slices_total - 1)%Z then i64 (qty_per_slice + remainder) else qty_per_slice in
  let* child_id := new_v4 in
  let* created_at := now in
  map_err (λ e, Raises (DbError e)) (insert_child
    (mkChild child_id id nil_uuid i slice_qty "pending" scheduled_at created_at)).

Definition create_twap (req : CreateTwapRequest) : M CoreDb TwapIntent (unwinding TwapError) :=
  if (rq_interval_secs req <=? 0)%Z || (rq_duration_secs req <=? 0)%Z
  then throw (Raises (InvalidParams "duration and interval must be positive")) else
  if (rq_total_qty req <=? 0)%Z
  then throw (Raises (InvalidParams "total_qty must be positive")) else
  if (rq_duration_secs req <? rq_interval_secs req)%Z
  then throw (Raises (InvalidParams "interval cannot exceed duration")) else
  let slices_total := i32 (rq_duration_secs req `quot` rq_interval_secs req)%Z in
  (if (slices_total =? 0)%Z then throw Panics else ret tt) ;;;
  let qty_per_slice := (rq_total_qty req `quot` slices_total)%Z in
  let remainder := i64 (rq_total_qty req - i64 (qty_per_slice * slices_total)) in
  let* t := now in
  let* id := new_v4 in
  let twap := mkTwap id (rq_user_id req) (rq_account_id req) (rq_token_in req) (rq_token_out req)
    (rq_total_qty req) 0 (rq_min_price req) (rq_duration_secs req) (rq_interval_secs req)
    slices_total 0 TwActive t None in
  map_err (λ e, Raises (DbError e)) (insert_twap twap) ;;;
  mfor (seqZ 0 slices_total) (insert_slice req id t slices_total qty_per_slice remainder) ;;;
  ret twap.

Definition get_twap (id : Uuid) : M CoreDb (option TwapIntent) TwapError :=
  map_err DbError (query (λ d, sql_one (is_twap id) (twap_intents d))).

Definition unfinished (twap_id : Uuid) (r : TwapChildIntent) : bool :=
  (tc_twap_id r =? twap_id)%N && (has_status "pending" r || has_status "submitted" r).

Definition cancel_twap (twap_id account_id : Uuid) : M CoreDb TwapIntent TwapError :=
  let* o := get_twap twap_id in
  let* twap := of_option NotFound o in
  if bool_decide (tw_status twap ≠ TwActive) then throw AlreadyCancelled else
  let* pending := map_err DbError (query (λ d, sql_select (unfinished twap_id) (twap_child_intents d))) in
  mfor pending (λ child,
    if (tc_intent_id child =? nil_uuid)%N then ret tt
    else attempt (IntentService.cancel_intent (tc_intent_id child) account_id) ;;; ret tt) ;;;
  map_err DbError (update_children (unfinished twap_id) (set_tc_status "cancelled")) ;;;
  let* t := now in
  map_err DbError (update_twap (is_twap twap_id) (set_tw_status TwCancelled t)) ;;;
  ret (set_tw_status TwCancelled t twap).

Definition get_progress (twap_id : Uuid) : M CoreDb TwapProgress TwapError :=
  let* o := get_twap twap_id in
  let* twap := of_option NotFound o in
  let pct := if (0 <? tw_total_qty twap)%Z
    then f64_mul (f64_div (f64_of_i64 (tw_filled_qty twap)) (f64_of_i64 (tw_total_qty twap)))
           (f64_of_i64 100)
    else f64_of_i64 0 in
  ret (mkProgress (tw_id twap) (tw_status twap) (tw_total_qty twap) (tw_filled_qty twap)
    (tw_slices_total twap) (tw_slices_completed twap) (i64 (tw_total_qty twap - tw_filled_qty twap))
    (f64_div (round_half_away (f64_mul pct (f64_of_i64 100))) (f64_of_i64 100))).

(** filled_qty BIGINT and slices_completed INT: out of range is refused. *)
Definition count_slice (twap_id : Uuid) (filled : Z) : M CoreDb unit SqlxError :=
  stmt (λ d,
    rs ← sql_try_update (is_twap twap_id) (λ r,
      f ← bigint (tw_filled_qty r + filled);
      n ← (if (tw_slices_completed r + 1 <=? i32_max)%Z then Some (tw_slices_completed r + 1)%Z
           else None);
      Some (tw_touch f n (tw_status r) (tw_finished_at r) r)) (twap_intents d);
    Some (tt, set_twap_intents rs d)).

(** UPDATE .. SET status = s, finished_at = NOW() WHERE id AND status = 'active' *)
Definition finish_twap (twap_id : Uuid) (s : TwapStatus) : M CoreDb unit TwapError :=
  let* t := now in
  map_err DbError (update_twap
    (λ r, is_twap twap_id r && bool_decide (tw_status r = TwActive)) (set_tw_status s t)).

Definition record_child_completed (twap_id child_id : Uuid) (filled_qty : Z)
  : M CoreDb unit TwapError :=
  let* n := map_err DbError (update_children
    (λ c, is_child child_id c && negb (has_status "completed" c)) (set_tc_status "completed")) in
  if (n =? 0)%nat then ret tt else
  map_err DbError (count_slice twap_id filled_qty) ;;;
  let* o := get_twap twap_id in
  let* twap := of_option NotFound o in
  if (tw_total_qty twap <=? tw_filled_qty twap)%Z
     || (tw_slices_total twap <=? tw_slices_completed twap)%Z
  then finish_twap twap_id TwCompleted else ret tt.

Definition record_child_expired (twap_id child_id : Uuid) : M CoreDb unit TwapError :=
  let* n := map_err DbError (update_children
    (λ c, is_child child_id c && negb (has_status "completed" c || has_status "expired" c))
    (set_tc_status "expired")) in
  if (n =? 0)%nat then ret tt else
  map_err DbError (count_slice twap_id 0) ;;;
  let* o := get_twap twap_id in
  let* twap := of_option NotFound o in
  if (tw_slices_total twap <=? tw_slices_completed twap)%Z
     && (tw_filled_qty twap <? tw_total_qty twap)%Z
  then finish_twap twap_id TwFailed else ret tt.

Definition record_child_failed (child_id : Uuid) : M CoreDb unit TwapError :=
  map_err DbError (update_children
    (λ c, is_child child_id c && negb (has_status "failed" c)) (set_tc_status "failed")) ;;;
  ret tt.

End service.

(** The handler of POST /twap/{id}/cancel. *)
Definition cancel_handler `{SqlxDisplay} (twap_id : Uuid) : M CoreDb TwapIntent TwapError :=
  cancel_twap twap_id nil_uuid.
End TwapService.

Module TwapScheduler.
Import TwapService.
Section scheduler.
Context `{SqlxDisplay, F64Display} (config : Settings) (has_cache : bool).

Definition is_due (t : Z) (parents : list TwapIntent) (c : TwapChildIntent) : bool :=
  has_status "pending" c && (tc_scheduled_at c <=? t)%Z &&
  existsb (λ p, is_twap (tc_twap_id c) p && bool_decide (tw_status p = TwActive)) parents.

Definition due_slices (t : Z) (d : CoreDb) : list TwapChildIntent :=
  take 20 (sort_by (λ x y, (tc_scheduled_at x <=? tc_scheduled_at y)%Z)
    (sql_select (is_due t (twap_intents d)) (twap_child_intents d))).

(** The body of the loop over the slices that are due. *)
Definition submit_slice (child : TwapChildIntent) : M CoreDb unit SqlxError :=
  let* parent := query (λ d, sql_one (is_twap (tc_twap_id child)) (twap_intents d)) in
  match parent with
  | None => ret tt
  | Some parent =>
      update_children (is_child (tc_id child)) (set_tc_status "submitted") ;;;
      let deadline := i64 (tc_scheduled_at child + tw_interval_secs parent) in
      let* result := attempt (IntentService.create_intent config has_cache (tw_user_id parent)
        (tw_account_id parent) (tw_token_in parent) (tw_token_out parent) (u64 (tc_qty child))
        (u64 (tw_min_price parent)) deadline) in
      match result with
      | Ok intent =>
          update_children (is_child (tc_id child)) (λ r, tc_touch (i_id intent) (tc_status r) r) ;;;
          ret tt
      | Err _ => attempt (record_child_failed (tc_id child)) ;;; ret tt
      end
  end.

Definition process_due_slices : M CoreDb unit SqlxError :=
  let* t := now in
  let* due := query (due_slices t) in
  mfor due submit_slice.

End scheduler.
End TwapScheduler.

Module TwapListener.
Import TwapService.
Section listener.
(** serde_json's reading of the event's payload. *)
Context (from_str : string → option IntentSettledEvent).

Definition process_intent_settled {E} (payload : string) : M CoreDb unit E :=
  match from_str payload with
  | None => ret tt
  | Some event =>
      let* r := attempt (query (λ d,
        sql_one (λ c, (tc_intent_id c =? ise_intent_id event)%N) (twap_child_intents d))) in
      match r with
      | Ok (Some child) =>
          if String.eqb (ise_status event) "Completed" then
            attempt (record_child_completed (tc_twap_id child) (tc_id child)
              (ise_settled_qty event)) ;;; ret tt
          else if String.eqb (ise_status event) "Expired" then
            attempt (record_child_expired (tc_twap_id child) (tc_id child)) ;;; ret tt
          else ret tt
      | _ => ret tt
      end
  end.

End listener.
End TwapListener.
