(* ===== verification/TwapCorrect.v ===== *)
(** * What TWAP orders guarantee

    The schedule adds up to the order; whatever happens afterwards, its terms
    stay, a finished order stays finished, and each slice is submitted at most
    once.  What the cancellation through the API leaves locked is shown last. *)
From stdpp Require Import gmap list_numbers relations.
From S2P Require Import Prelude Monad Triples Float64 Model Balances Settlement Storage Markets Risk.
From S2P Require Import RiskCorrect Intents IntentsCorrect Twap.
Import TwapService TwapScheduler TwapListener.

Section schedule.
Context `{SqlxDisplay} (add_seconds : Z → Z → option Z).
Hypothesis add_seconds_adds : ∀ t s r, add_seconds t s = Some r → r = (t + s)%Z.

(** A slice as the schedule asks for it. *)
Record slice_of (req : CreateTwapRequest) (id : Uuid) (t n q m i : Z) (c : TwapChildIntent) : Prop := {
  sl_twap : tc_twap_id c = id;
  sl_intent : tc_intent_id c = nil_uuid;
  sl_index : tc_slice_index c = i;
  sl_status : tc_status c = "pending"%string;
  sl_at : tc_scheduled_at c = (t + i64 (rq_interval_secs req * i))%Z;
  sl_qty : tc_qty c = if (i =? n - 1)%Z then i64 (q + m) else q;
}.

Lemma insert_slices req id t n q m ixs e u e' :
  mfor ixs (insert_slice add_seconds req id t n q m) e = (Ok u, e') →
  ∃ slices, Forall2 (slice_of req id t n q m) ixs slices ∧
    env_db e' = set_twap_child_intents (twap_child_intents (env_db e) ++ slices) (env_db e).
Proof.
  revert e. induction ixs as [|i ixs IH]; intros e Hrun.
  { simpl in Hrun. run_inv. exists []. split; [done|]. rewrite app_nil_r. by destruct (env_db _). }
  simpl in Hrun. apply bind_Ok in Hrun as (? & e1 & H1 & H2).
  apply IH in H2 as (slices & Hs & ->). unfold insert_slice, insert_child, new_v4 in H1.
  apply bind_Ok in H1 as (at_ & e2 & [Hat ->]%of_option_Ok & H1). apply add_seconds_adds in Hat.
  apply bind_Ok in H1 as (cid & e2 & Hid & H1). injection Hid as <- <-. run_inv.
  simpl in *. case_match; [done|]. simplify_eq. simpl.
  eexists (_ :: slices). rewrite <- app_assoc. split; [|reflexivity].
  constructor; [by split|exact Hs].
Qed.

(** [q] each, and the remainder in the last. *)
Lemma quantities_add_up req id t n q m slices :
  (0 < n)%Z → in_i64 (q + m) → Forall2 (slice_of req id t n q m) (seqZ 0 n) slices →
  sum_by tc_qty slices = (n * q + m)%Z.
Proof.
  intros Hn Hr HF. replace (seqZ 0 n) with (seqZ 0 ((n - 1) + 1)) in HF by (f_equal; lia).
  rewrite seqZ_app in HF by lia. apply Forall2_app_inv_l in HF as (l1 & l2 & H1 & H2 & ->).
  rewrite Z.add_0_l in H2. change 1%Z with (Z.of_nat 1) in H2.
  inversion H2 as [|? c ? l2' Hc H2' E1 E2]; subst. inversion H2'; subst.
  rewrite sum_by_app. simpl. rewrite (sl_qty _ _ _ _ _ _ _ _ Hc), Z.add_0_r, Z.eqb_refl, i64_id by done.
  assert (sum_by tc_qty l1 = ((n - 1) * q)%Z) as ->; [|lia].
  assert (Z.of_nat (length l1) = n - 1)%Z as <-.
  { apply Forall2_length in H1. rewrite length_seqZ in H1. lia. }
  assert (∀ i, i ∈ seqZ 0 (n - 1) → i ≠ n - 1)%Z as Hi by (intros i Hi%elem_of_seqZ; lia).
  revert Hi H1. generalize (seqZ 0 (n - 1)). clear -Hn. intros ixs Hi H1.
  induction H1 as [|i c ixs l Hc _ IH]; [done|]. simpl. rewrite IH by (intros; apply Hi; by right).
  rewrite (sl_qty _ _ _ _ _ _ _ _ Hc). rewrite (proj2 (Z.eqb_neq _ _)) by (apply Hi; by left). lia.
Qed.

(** An accepted order is stored as active, with its terms as they were
    asked for, and is cut into as many slices as intervals fit into its
    duration: the i-th is due i intervals from now, before the duration is
    over; all are worth the same, rounded down, but the last, which has the
    rest too, so that together they are worth the order exactly.  Nothing
    else changes. *)
Theorem create_twap_schedules req e tw e' :
  create_twap add_seconds req e = (Ok tw, e') →
  in_i64 (rq_total_qty req) → in_i64 (rq_duration_secs req) →
  (rq_duration_secs req `div` rq_interval_secs req ≤ i32_max)%Z →
  let n := (rq_duration_secs req `div` rq_interval_secs req)%Z in
  ∃ slices,
    env_db e' = set_twap_child_intents (twap_child_intents (env_db e) ++ slices)
                  (set_twap_intents (twap_intents (env_db e) ++ [tw]) (env_db e)) ∧
    tw = mkTwap (tw_id tw) (rq_user_id req) (rq_account_id req) (rq_token_in req) (rq_token_out req)
           (rq_total_qty req) 0 (rq_min_price req) (rq_duration_secs req) (rq_interval_secs req)
           n 0 TwActive (env_now e) None ∧
    Z.of_nat (length slices) = n ∧ (0 < n)%Z ∧ sum_by tc_qty slices = rq_total_qty req ∧
    ∀ i c, slices !! i = Some c →
      tc_twap_id c = tw_id tw ∧ tc_slice_index c = Z.of_nat i ∧ tc_status c = "pending"%string ∧
      tc_intent_id c = nil_uuid ∧
      tc_scheduled_at c = (env_now e + rq_interval_secs req * Z.of_nat i)%Z ∧
      (env_now e ≤ tc_scheduled_at c < env_now e + rq_duration_secs req)%Z ∧
      ((S i < length slices)%nat → tc_qty c = (rq_total_qty req `div` n)%Z) ∧
      (S i = length slices → tc_qty c = (rq_total_qty req `div` n + rq_total_qty req `mod` n)%Z).
Proof.
  intros Hrun Hq Hd Hn n. unfold create_twap in Hrun.
  destruct (_ || _) eqn:E1 in Hrun; [by run_inv|]. destruct (_ <=? 0)%Z eqn:E2 in Hrun; [by run_inv|].
  destruct (_ <? _)%Z eqn:E3 in Hrun; [by run_inv|].
  apply orb_false_iff in E1 as [Hint%Z.leb_gt Hdur%Z.leb_gt]. apply Z.leb_gt in E2. apply Z.ltb_ge in E3.
  assert (0 < n)%Z as Hn0 by (apply Z.div_str_pos; lia).
  assert (i32 (rq_duration_secs req `quot` rq_interval_secs req)%Z = n) as Hni.
  { rewrite Z.quot_div_nonneg by lia. apply wrap_s_id; [lia|]. unfold i32_max in Hn. subst n. lia. }
  rewrite Hni in Hrun. rewrite (proj2 (Z.eqb_neq n 0)) in Hrun by lia.
  rewrite Z.quot_div_nonneg in Hrun by lia.
  set (total := rq_total_qty req) in *. set (q := (total `div` n)%Z) in *.
  assert (0 ≤ q * n ≤ total)%Z as Hqn.
  { pose proof (Z.mul_div_le total n Hn0). pose proof (Z.div_pos total n). subst q. lia. }
  assert (i64 (total - i64 (q * n)) = total `mod` n)%Z as Hm.
  { rewrite (i64_id (q * n)) by (i64_lia). pose proof (Z.div_mod total n) as Hdm. fold q in Hdm.
    rewrite i64_id; [lia|]. i64_lia. }
  rewrite Hm in Hrun. pose proof (Z.mod_pos_bound total n Hn0) as Hmb.
  pose proof (Z.div_mod total n ltac:(lia)) as Hdm. fold q in Hdm.
  assert (in_i64 (q + total `mod` n)) as Hlast.
  { assert (0 ≤ q)%Z by (subst q; apply Z.div_pos; lia). assert (q ≤ q * n)%Z by nia. i64_lia. }
  unfold new_v4, insert_twap in Hrun. apply bind_Ok in Hrun as (? & e1 & [-> ->]%ret_Ok & Hrun).
  apply bind_Ok in Hrun as (t & e1 & [-> ->]%now_Ok & Hrun).
  apply bind_Ok in Hrun as (id & e1 & Hid & Hrun). injection Hid as <- <-.
  apply bind_Ok in Hrun as (? & e1 & Hins & Hrun). apply bind_Ok in Hrun as (? & e2 & Hloop & Hret).
  apply ret_Ok in Hret as [-> ->]. apply insert_slices in Hloop as (slices & HF & ->).
  apply map_err_Ok, stmt_Ok in Hins as (_ & d1 & Hins & ->). cbn [env_db with_db pop_fault] in *.
  destruct (existsb _ _) in Hins; [done|]. injection Hins as _ <-. simpl. exists slices.
  assert (Z.of_nat (length slices) = n) as Hlen.
  { apply Forall2_length in HF. rewrite length_seqZ in HF. lia. }
  split_and!; try done; [rewrite (quantities_add_up _ _ _ _ _ _ _ Hn0 Hlast HF); lia|].
  intros i c Hc. destruct (Forall2_lookup_r _ _ _ _ _ HF Hc) as (j & Hj & [? ? Hidx ? Hat Hqty]).
  apply lookup_lt_Some in Hc as Hlt. apply lookup_seqZ in Hj as [-> Hj]. rewrite Z.add_0_l in *.
  assert (rq_interval_secs req * Z.of_nat i ≤ rq_interval_secs req * (n - 1))%Z as Hle
    by (apply Z.mul_le_mono_nonneg_l; lia).
  pose proof (Z.mul_div_le (rq_duration_secs req) (rq_interval_secs req) Hint) as Hdi. fold n in Hdi.
  assert (0 ≤ rq_interval_secs req * Z.of_nat i)%Z by (apply Z.mul_nonneg_nonneg; lia).
  rewrite i64_id in Hat by (i64_lia). split_and!; try done; try lia.
  - intros Hi. rewrite Hqty, (proj2 (Z.eqb_neq _ _)); [done|lia].
  - intros Hi. rewrite Hqty, (proj2 (Z.eqb_eq _ _)) by lia. by apply i64_id.
Qed.
End schedule.

(** ** The life of an order and of its slices *)

Definition twap_tables (d : CoreDb) := (twap_intents d, twap_child_intents d).

Section frames.
Context `{SqlxDisplay, F64Display} (cfg : Settings) (c : bool).

Lemma close_intent_keeps_twaps st ev id acc :
  keeps twap_tables (IntentService.close_intent st ev id acc).
Proof.
  unfold IntentService.close_intent, Storage.get_intent, IntentService.parse_asset,
    IntentService.move_balance, IntentService.set_status, IntentService.publish, EventBus.publish.
  keeps. apply keeps_stmt. intros d ? d' (? & _ & Hd)%bind_Some. by simplify_eq.
Qed.

Lemma validate_intent_keeps_twaps p : keeps twap_tables (RiskEngine.validate_intent cfg c p).
Proof. apply (keeps_via risk_frame _ twap_tables); [done|apply validate_intent_keeps]. Qed.
Lemma record_accepted_keeps_twaps {E} uid n :
  keeps twap_tables (RiskEngine.record_accepted_intent (E := E) uid n).
Proof. apply (keeps_via risk_frame _ twap_tables); [done|apply record_accepted_keeps]. Qed.
#[local] Hint Resolve validate_intent_keeps_twaps record_accepted_keeps_twaps : keeps.

Lemma create_intent_keeps_twaps uid acc tin tout amt mo dl :
  keeps twap_tables (IntentService.create_intent cfg c uid acc tin tout amt mo dl).
Proof.
  unfold IntentService.create_intent, IntentService.parse_asset, Intent_new, IntentService.publish,
    EventBus.publish, StreamBus.publish, IntentService.create_tx, IntentService.available_for_update,
    IntentService.move_balance, IntentService.insert_new.
  keeps; apply keeps_stmt; intros d ? d' Hd.
  - apply bind_Some in Hd as (? & _ & Hd). by simplify_eq.
  - case_match; by simplify_eq.
Qed.
End frames.

Definition tw_terms (r : TwapIntent) : TwapIntent := tw_touch 0 0 TwActive None r.
Definition tc_terms (r : TwapChildIntent) : TwapChildIntent := tc_touch nil_uuid "" r.

(** The terms stay; an order that is not active stays as finished as it is. *)
Definition twap_le (r r' : TwapIntent) : Prop :=
  tw_terms r' = tw_terms r ∧
  (tw_status r ≠ TwActive → tw_status r' = tw_status r ∧ tw_finished_at r' = tw_finished_at r).

(** What an operation at the time [t] can do to a slice, [ps] being the orders:
    the terms stay, nothing becomes pending, and an intent is recorded only
    for a slice that was pending, due, and of an active order. *)
Definition slice_step (t : Z) (ps : list TwapIntent) (r r' : TwapChildIntent) : Prop :=
  tc_terms r' = tc_terms r ∧ (has_status "pending" r' = true → r' = r) ∧
  (tc_intent_id r' ≠ tc_intent_id r → is_due t ps r = true).

#[local] Instance twap_le_preorder : PreOrder twap_le.
Proof.
  split; [done|]. intros r1 r2 r3 [T1 H1] [T2 H2]. split; [by rewrite T2|]. intros Hs.
  destruct (H1 Hs) as [E1 E2]. rewrite <- E1 in Hs. destruct (H2 Hs) as [-> ->]. done.
Qed.
#[local] Instance slice_step_preorder t ps : PreOrder (slice_step t ps).
Proof.
  split; [done|]. intros r1 r2 r3 (T1 & P1 & I1) (T2 & P2 & I2). split_and!.
  - by rewrite T2.
  - intros H3. specialize (P2 H3). subst r3. auto.
  - intros Hne. destruct (decide (tc_intent_id r2 = tc_intent_id r1)) as [E|]; [|auto].
    assert (is_due t ps r2 = true) as Hdue by (apply I2; congruence).
    assert (has_status "pending" r2 = true) as Hp.
    { unfold is_due in Hdue. by apply andb_true_iff in Hdue as [[? _]%andb_true_iff _]. }
    by rewrite <- (P1 Hp).
Qed.

Definition ids_ok (d : CoreDb) : Prop :=
  NoDup (map tw_id (twap_intents d)) ∧ NoDup (map tc_id (twap_child_intents d)).

(** What an operation at the time [t] does to the tables. *)
Record moved (t : Z) (d0 d : CoreDb) : Prop := {
  mv_twaps : rows_le twap_le (twap_intents d0) (twap_intents d);
  mv_slices : rows_le (slice_step t (twap_intents d0)) (twap_child_intents d0) (twap_child_intents d);
  mv_ids : ids_ok d;
}.

Lemma moved_refl t d : ids_ok d → moved t d d.
Proof. intros H. split; [apply rows_le_refl, _|apply rows_le_refl, _|done]. Qed.

Lemma moved_only t d0 d d' : twap_tables d' = twap_tables d → moved t d0 d → moved t d0 d'.
Proof. intros [= E1 E2] [? ? ?]. split; unfold ids_ok; rewrite ?E1, ?E2; done. Qed.

Lemma tw_terms_id r r' : tw_terms r' = tw_terms r → tw_id r' = tw_id r.
Proof. intros E. by injection E. Qed.
Lemma tc_terms_id r r' : tc_terms r' = tc_terms r → tc_id r' = tc_id r.
Proof. intros E. by injection E. Qed.

Section moves.
Context (t : Z) (d0 : CoreDb).
Abbreviation keeping m := (maintains (moved t d0) m).

Lemma update_twap_moves p f : (∀ r, p r = true → twap_le r (f r)) →
  (∀ r, tw_id (f r) = tw_id r) → keeping (update_twap p f).
Proof.
  intros Hf Hid. apply triple_exec. intros d [? ? [? ?]]. split; simpl; [|done|].
  - eapply rows_le_trans; [apply _|done|]. apply rows_le_update; [apply _|auto].
  - split; simpl; [by rewrite map_sql_update|done].
Qed.

Lemma update_children_moves p f : (∀ r, tc_terms (f r) = tc_terms r) →
  (∀ r, has_status "pending" (f r) = false) → (∀ r, tc_intent_id (f r) = tc_intent_id r) →
  keeping (update_children p f).
Proof.
  intros Ht Hp Hi. apply triple_stmt. intros d n d' [? ? [? ?]] [= <- <-].
  split; [|done]. split; simpl; [done| |].
  - eapply rows_le_trans; [apply _|done|]. apply rows_le_update; [apply _|]. intros r _ _.
    split_and!; [apply Ht|by rewrite Hp|by rewrite Hi].
  - split; simpl; [done|]. rewrite map_sql_update; [done|]. intros r. by apply tc_terms_id.
Qed.

Lemma set_tc_status_moves p s : String.eqb s "pending" = false → keeping (update_children p (set_tc_status s)).
Proof. intros Hs. by apply update_children_moves. Qed.

Lemma insert_twap_moves r : keeping (insert_twap r).
Proof.
  apply triple_stmt. intros d ? d' [? ? [? ?]] Hd. case_match eqn:Hfresh; [done|]. simplify_eq.
  split; [|done]. split; simpl; [|done|].
  - eapply rows_le_trans; [apply _|done|]. apply rows_le_app, _.
  - split; simpl; [|done]. apply NoDup_map_snoc; [done|]. intros r' Hr'.
    by apply (existsb_false_elem _ _ _ Hfresh), N.eqb_neq in Hr'.
Qed.

Lemma insert_child_moves r : keeping (insert_child r).
Proof.
  apply triple_stmt. intros d ? d' [? ? [? ?]] Hd. case_match eqn:Hor; [done|]. simplify_eq.
  apply orb_false_iff in Hor as [Hfresh _].
  split; [|done]. split; simpl; [done| |].
  - eapply rows_le_trans; [apply _|done|]. apply rows_le_app, _.
  - split; simpl; [done|]. apply NoDup_map_snoc; [done|]. intros r' Hr'.
    by apply (existsb_false_elem _ _ _ Hfresh), N.eqb_neq in Hr'.
Qed.

Lemma count_slice_moves id q : keeping (count_slice id q).
Proof.
  apply triple_stmt. intros d ? d' [? ? [? ?]] (rs & Hrs & Hd)%bind_Some. simplify_eq.
  apply (sql_try_update_Some _ _ (λ r, tw_touch (tw_filled_qty r + q) (tw_slices_completed r + 1)
    (tw_status r) (tw_finished_at r) r)) in Hrs as ->.
  2:{ intros r r' (f & [_ ->]%bigint_Some & (n & Hn & Hr')%bind_Some)%bind_Some.
      case_match; by simplify_eq. }
  split; [|done]. split; simpl; [|done|].
  - eapply rows_le_trans; [apply _|done|]. by apply rows_le_update; [apply _|].
  - split; simpl; [by rewrite map_sql_update|done].
Qed.

Lemma keeps_moves {A E} (m : M CoreDb A E) : keeps twap_tables m → keeping m.
Proof. apply triple_keeps. apply moved_only. Qed.

Lemma then_any {A B E} (m : M CoreDb A E) (k : A → M CoreDb B E) :
  keeping m → (∀ a, keeping (k a)) → keeping (bind m k).
Proof. intros Hm Hk. by eapply triple_bind; [exact Hm|]. Qed.

Lemma finish_twap_moves id s : keeping (finish_twap id s).
Proof.
  apply then_any; [apply triple_now|]. intros t'. apply triple_map_err, update_twap_moves; [|done].
  intros r [_ Ha%bool_decide_eq_true]%andb_true_iff. split; [done|]. by intros [].
Qed.
End moves.
#[local] Hint Resolve set_tc_status_moves insert_twap_moves insert_child_moves count_slice_moves
  finish_twap_moves : triples.

Section plain.
Context {T : Type} (P : T → Prop).
Lemma plain_query {A} (f : T → A) : maintains P (query f).
Proof. by apply triple_query. Qed.
Lemma plain_of_option {A E} (x : E) (o : option A) : maintains P (of_option x o).
Proof. eapply triple_conseq, triple_of_option. done. Qed.
Lemma plain_ret {A E} (a : A) : maintains P (ret (E := E) a).
Proof. by apply triple_ret. Qed.
Lemma plain_bind {A B E} (m : M T A E) (k : A → M T B E) :
  maintains P m → (∀ a, maintains P (k a)) → maintains P (bind m k).
Proof. intros Hm Hk. by eapply triple_bind; [exact Hm|]. Qed.
Lemma plain_attempt {A E F} (m : M T A E) : maintains P m → maintains P (attempt (F := F) m).
Proof. intros H. eapply triple_conseq, triple_attempt, H. done. Qed.
End plain.
#[local] Hint Resolve plain_query plain_of_option plain_ret : triples.

(** Follows the code, as [keeps] does. *)
Ltac moves :=
  repeat first
    [ progress (auto with triples)
    | apply then_any; [|intros ?]
    | apply triple_map_err | apply plain_attempt | apply triple_mfor; intros ? ?
    | match goal with |- triple _ _ (match ?x with _ => _ end) => destruct x end
    | match goal with |- triple _ _ (let '(_, _) := ?x in _) => destruct x end ].

Section operations.
Context `{SqlxDisplay, F64Display} (add_seconds : Z → Z → option Z) (cfg : Settings) (c : bool).
Context (t : Z) (d0 : CoreDb).
Abbreviation keeping m := (maintains (moved t d0) m).

Lemma create_twap_moves req : keeping (create_twap add_seconds req).
Proof. unfold create_twap, insert_slice. moves. Qed.
Lemma completed_moves id cid q : keeping (record_child_completed id cid q).
Proof. unfold record_child_completed, get_twap. moves. Qed.
Lemma expired_moves id cid : keeping (record_child_expired id cid).
Proof. unfold record_child_expired, get_twap. moves. Qed.
Lemma failed_moves cid : keeping (record_child_failed cid).
Proof. unfold record_child_failed. moves. Qed.

Lemma settled_moves {E} from_str payload : keeping (process_intent_settled (E := E) from_str payload).
Proof.
  unfold process_intent_settled. moves.
Qed.
End operations.

(** ** Cancelling *)

Section cancelling.
Context `{SqlxDisplay}.

Lemma get_twap_cases id e r e1 : get_twap id e = (r, e1) →
  env_db e1 = env_db e ∧ ∀ o, r = Ok o → o = sql_one (is_twap id) (twap_intents (env_db e)).
Proof.
  unfold get_twap, map_err, query, stmt. destruct (faulty e); intros [= <- <-]; [done|].
  split; [done|]. by intros ? [= <-].
Qed.

(** The loop over the slices, and the end of [cancel_twap]. *)
Definition cancel_children (pending : list TwapChildIntent) (account_id : Uuid)
  : M CoreDb unit TwapError :=
  mfor pending (λ child,
    if (tc_intent_id child =? nil_uuid)%N then ret tt
    else attempt (IntentService.cancel_intent (tc_intent_id child) account_id) ;;; ret tt).

Lemma cancel_children_keeps pending acc : keeps twap_tables (cancel_children pending acc).
Proof.
  apply keeps_mfor. intros child. destruct (_ =? _)%N; [apply keeps_ret|].
  apply keeps_bind; [|intros ?; apply keeps_ret].
  apply keeps_attempt, close_intent_keeps_twaps.
Qed.

Lemma cancelled_moves t id d1 d tw t' : ids_ok d1 → tw ∈ twap_intents d1 → tw_id tw = id →
  tw_status tw = TwActive → twap_intents d = twap_intents d1 → moved t d1 d →
  moved t d1 (set_twap_intents
    (sql_update (is_twap id) (set_tw_status TwCancelled t') (twap_intents d)) d).
Proof.
  intros Hok Htw Hid Hactive Heq [? ? [? ?]]. split; simpl; [|done|].
  - rewrite Heq. apply rows_le_update; [apply _|]. intros r' Hr' Hid'%N.eqb_eq. split; [done|].
    assert (r' = tw) as ->; [|by rewrite Hactive; intros []].
    eapply NoDup_map_inj; [apply Hok|done|done|congruence].
  - split; simpl; [by rewrite map_sql_update|done].
Qed.

Lemma cancel_twap_moves id acc e : ids_ok (env_db e) →
  moved (env_now e) (env_db e) (env_db (snd (cancel_twap id acc e))).
Proof.
  intros Hok. destruct (cancel_twap id acc e) as [r e'] eqn:Hrun. simpl. unfold cancel_twap in Hrun.
  apply bind_cases in Hrun as [[x Hrun]|(o & e1 & Hget & Hrun)].
  { apply get_twap_cases in Hrun as [-> _]. by apply moved_refl. }
  apply get_twap_cases in Hget as [Hdb Ho]. specialize (Ho _ eq_refl). rewrite <- Hdb in *. clear Hdb.
  destruct o as [tw|]; unfold of_option, bind at 1, ret at 1 in Hrun; [|injection Hrun as _ <-; by apply moved_refl].
  symmetry in Ho. apply sql_one_Some in Ho as [Htw Hid]. apply N.eqb_eq in Hid.
  destruct (decide (tw_status tw = TwActive)) as [Hactive|Hne].
  2:{ rewrite bool_decide_true in Hrun by done. injection Hrun as _ <-. by apply moved_refl. }
  rewrite bool_decide_false in Hrun by naive_solver.
  generalize (env_now e). intros t. generalize dependent e1. intros e1 Hok Htw Hrun.
  set (d1 := env_db e1) in *.
  assert (moved t d1 d1) as Hm by (by apply moved_refl).
  apply bind_cases in Hrun as [[x Hrun]|(pending & e2 & Hq & Hrun)].
  { apply (keeps_run (λ d, d)) in Hrun; [|keeps]. by rewrite Hrun. }
  apply (keeps_run (λ d, d)) in Hq; [|keeps]. apply bind_cases in Hrun as [[x Hrun]|(u & e3 & Hloop & Hrun)].
  { apply (moved_only t d1 (env_db e2)); [|by rewrite Hq].
    exact (keeps_run _ _ _ _ _ Hrun (cancel_children_keeps _ _)). }
  pose proof (keeps_run _ _ _ _ _ Hloop (cancel_children_keeps _ _)) as Hk. rewrite Hq in Hk.
  assert (moved t d1 (env_db e3)) as Hm3 by (by apply (moved_only t d1 d1)).
  injection Hk as Hparents _.
  assert (maintains (λ d, twap_intents d = twap_intents d1 ∧ moved t d1 d)
    (update_children (unfinished id) (set_tc_status "cancelled"))) as Hup.
  { intros e4 [He4 Hm4]. split; [|done]. split; [|by apply set_tc_status_moves].
    unfold update_children, stmt. by destruct (faulty e4). }
  specialize (Hup e3 (conj Hparents Hm3)).
  unfold bind at 1, map_err at 1 in Hrun. destruct (update_children _ _ e3) as [[n|x] e4].
  2:{ injection Hrun as _ <-. apply Hup. }
  destruct Hup as [[Hp4 Hm4] _]. simpl in Hp4, Hm4.
  unfold now, map_err, update_twap, exec, stmt, bind, ret in Hrun.
  destruct (faulty e4) in Hrun; injection Hrun as _ <-; [exact Hm4|]. by apply (cancelled_moves _ _ _ _ tw).
Qed.
End cancelling.

(** ** Submitting *)

Lemma bind_stmt {T A B} (f : T → option (A * T)) (k : A → M T B SqlxError) e :
  bind (stmt f) k e =
  if faulty e then (Err SqlIo, pop_fault e)
  else match f (env_db e) with
       | Some (a, t) => k a (with_db t (pop_fault e))
       | None => (Err SqlDatabase, pop_fault e)
       end.
Proof. unfold bind, stmt. destruct (faulty e); [done|]. by destruct (f _) as [[? ?]|]. Qed.

Section submitting.
Context `{SqlxDisplay, F64Display} (cfg : Settings) (c : bool).

(** The slice [id] is rewritten, and not pending afterwards. *)
Definition rewritten (id : Uuid) (l l' : list TwapChildIntent) : Prop :=
  ∃ f, l' = sql_update (is_child id) f l ∧
    ∀ r, tc_terms (f r) = tc_terms r ∧ has_status "pending" (f r) = false.

Lemma rewritten_again id p g l l' : rewritten id l l' →
  (∀ r, tc_terms (g r) = tc_terms r) → (∀ r, has_status "pending" r = false → has_status "pending" (g r) = false) →
  (∀ r, p r = true → is_child id r = true) → rewritten id l (sql_update p g l').
Proof.
  intros (f & -> & Hf) Hg Hp Hsel. exists (λ r, if p (f r) then g (f r) else f r). split.
  - unfold sql_update. rewrite map_map. apply map_ext. intros r. destruct (is_child id r) eqn:E; [done|].
    destruct (p r) eqn:E'; [|done]. apply Hsel in E'. congruence.
  - intros r. destruct (Hf r) as [T P]. destruct (p (f r)); [|done]. rewrite Hg. auto.
Qed.

Definition slice_rewritten (id : Uuid) (d0 d : CoreDb) : Prop :=
  twap_intents d = twap_intents d0 ∧ rewritten id (twap_child_intents d0) (twap_child_intents d).

Lemma rewrite_maintains id d0 p g :
  (∀ r, tc_terms (g r) = tc_terms r) → (∀ r, has_status "pending" r = false → has_status "pending" (g r) = false) →
  (∀ r, p r = true → is_child id r = true) → maintains (slice_rewritten id d0) (update_children p g).
Proof.
  intros Hg Hp Hsel. apply triple_stmt. intros d n d' [Hps Hr] [= <- <-]. split; [|done].
  split; [done|]. by apply rewritten_again.
Qed.

Lemma submit_slice_cases x e r e' : submit_slice cfg c x e = (r, e') →
  twap_tables (env_db e') = twap_tables (env_db e) ∨
  slice_rewritten (tc_id x) (env_db e) (env_db e').
Proof.
  unfold submit_slice, query, update_children at 1. rewrite bind_stmt.
  destruct (faulty e); [intros [= <- <-]; by left|]. cbn [with_db env_db pop_fault].
  destruct (sql_one _ _) as [parent|]; [|intros [= <- <-]; by left].
  rewrite bind_stmt. destruct (faulty _); [intros [= <- <-]; by left|]. intros Hrun. right.
  apply (triple_run (slice_rewritten (tc_id x) (env_db e)) (λ _, True) _ _ _ _ Hrun).
  - eapply triple_bind.
    + apply plain_attempt. apply (triple_keeps _ twap_tables); [|apply create_intent_keeps_twaps].
      unfold slice_rewritten. by intros t t' [= -> ->].
    + intros [i|err] _.
      * apply plain_bind; [|by intros; apply plain_ret]. by apply rewrite_maintains.
      * apply plain_bind; [|by intros; apply plain_ret]. apply plain_attempt. unfold record_child_failed.
        apply plain_bind; [|by intros; apply plain_ret]. apply triple_map_err, rewrite_maintains; [done..|].
        by intros r0 [? _]%andb_true_iff.
  - split; [done|]. by eexists.
Qed.

Lemma rewritten_moves t ps id l l' : rewritten id l l' →
  (∀ r, r ∈ l → tc_id r = id → is_due t ps r = true) → rows_le (slice_step t ps) l l'.
Proof.
  intros (f & -> & Hf) Hdue. apply rows_le_update; [apply _|]. intros r Hr Hid%N.eqb_eq.
  destruct (Hf r) as [T P]. split_and!; [done|by rewrite P|by intros _; apply Hdue].
Qed.

(** A row outside [id] is as it was. *)
Lemma rewritten_other id l l' r : rewritten id l l' → r ∈ l' → tc_id r ≠ id → r ∈ l.
Proof.
  intros (f & -> & Hf) (r0 & Hr0 & ->)%elem_of_sql_update Hne. destruct (is_child id r0) eqn:E; [|done].
  destruct Hne. destruct (Hf r0) as [T _]. rewrite (tc_terms_id _ _ T). by apply N.eqb_eq.
Qed.

Lemma rewritten_ids id l l' : rewritten id l l' → map tc_id l' = map tc_id l.
Proof. intros (f & -> & Hf). apply map_sql_update. intros r. apply tc_terms_id, Hf. Qed.

Lemma submit_all t ps xs e : twap_intents (env_db e) = ps → NoDup (map tc_id xs) →
  (∀ x r, x ∈ xs → r ∈ twap_child_intents (env_db e) → tc_id r = tc_id x → is_due t ps r = true) →
  let d' := env_db (snd (mfor xs (submit_slice cfg c) e)) in
  twap_intents d' = ps ∧
  rows_le (slice_step t ps) (twap_child_intents (env_db e)) (twap_child_intents d') ∧
  map tc_id (twap_child_intents d') = map tc_id (twap_child_intents (env_db e)).
Proof.
  revert e. induction xs as [|x xs IH]; intros e Hps Hnd Hdue; simpl.
  { split_and!; [done|apply rows_le_refl, _|done]. }
  simpl in Hnd. apply NoDup_cons in Hnd as [Hx Hnd]. unfold bind.
  destruct (submit_slice cfg c x e) as [r e1] eqn:H1.
  assert (slice_rewritten (tc_id x) (env_db e) (env_db e1) ∨ twap_tables (env_db e1) = twap_tables (env_db e)) as Hcase.
  { apply submit_slice_cases in H1 as [?|?]; auto. }
  assert (twap_intents (env_db e1) = ps ∧
    rows_le (slice_step t ps) (twap_child_intents (env_db e)) (twap_child_intents (env_db e1)) ∧
    map tc_id (twap_child_intents (env_db e1)) = map tc_id (twap_child_intents (env_db e)) ∧
    ∀ r, r ∈ twap_child_intents (env_db e1) → tc_id r ≠ tc_id x → r ∈ twap_child_intents (env_db e)) as (Hps1 & Hr1 & Hids1 & Hoth).
  { destruct Hcase as [[E1 E2]|E].
    - split_and!; [by rewrite E1| |by eapply rewritten_ids|intros r1 Hin Hne; by eapply rewritten_other].
      eapply rewritten_moves; [done|]. intros r1 Hin Hid. apply (Hdue x); [by left|done|done].
    - injection E as E1 E2. rewrite E1, E2. split_and!; [done|apply rows_le_refl, _|done|done]. }
  destruct r as [u|err]; simpl; [|done].
  destruct (IH e1 Hps1 Hnd) as (Hps2 & Hr2 & Hids2).
  { intros y r Hy Hr Hid. apply (Hdue y r); [by right| |done]. apply Hoth; [done|]. rewrite Hid.
    intros Heq. apply Hx. rewrite <- Heq. by apply elem_of_map. }
  split_and!; [done|by eapply rows_le_trans; [apply _|..]|by rewrite Hids2].
Qed.

Lemma due_slices_ok t d : ids_ok d →
  NoDup (map tc_id (due_slices t d)) ∧
  ∀ x r, x ∈ due_slices t d → r ∈ twap_child_intents d → tc_id r = tc_id x →
    is_due t (twap_intents d) r = true.
Proof.
  intros [_ Hnd]. unfold due_slices. split.
  - rewrite <- firstn_map. eapply sublist_NoDup; [|apply sublist_take].
    rewrite sort_by_perm. by apply NoDup_map_select.
  - intros x r Hx Hr Hid. apply elem_of_take in Hx as (i & Hx%list_elem_of_lookup_2 & _).
    apply elem_of_sort_by, elem_of_sql_select in Hx as [Hx Hdue].
    by rewrite (NoDup_map_inj tc_id _ _ _ Hnd Hr Hx Hid).
Qed.

Lemma process_due_slices_moves e : ids_ok (env_db e) →
  moved (env_now e) (env_db e) (env_db (snd (process_due_slices cfg c e))).
Proof.
  intros Hok. unfold process_due_slices, bind at 1, now, query. rewrite bind_stmt.
  destruct (faulty e); [by apply moved_refl|]. cbn [with_db env_db pop_fault].
  destruct (due_slices_ok (env_now e) _ Hok) as [Hnd Hdue].
  match goal with |- context [mfor ?xs ?f ?e1] =>
    destruct (submit_all (env_now e) (twap_intents (env_db e)) xs e1) as (Hps & Hr & Hids); [done..|] end.
  split; [rewrite Hps; apply rows_le_refl, _|done|]. split; [by rewrite Hps; apply Hok|].
  rewrite Hids. apply Hok.
Qed.
End submitting.

(** ** Histories *)

Section histories.
Context `{SqlxDisplay, F64Display} (add_seconds : Z → Z → option Z).
Context (from_str : string → option IntentSettledEvent) (cfg : Settings) (c : bool).

(** The calls of the service, a pass of the scheduler, an event heard by the
    listener. *)
Inductive TwapOp :=
| OpCreate (req : CreateTwapRequest)
| OpCancel (id account_id : Uuid)
| OpCompleted (id child_id : Uuid) (filled_qty : Z)
| OpExpired (id child_id : Uuid)
| OpFailed (child_id : Uuid)
| OpSubmit
| OpSettled (payload : string).

Definition run_twap (op : TwapOp) (e : Env CoreDb) : Env CoreDb :=
  match op with
  | OpCreate req => snd (create_twap add_seconds req e)
  | OpCancel id account_id => snd (cancel_twap id account_id e)
  | OpCompleted id child_id q => snd (record_child_completed id child_id q e)
  | OpExpired id child_id => snd (record_child_expired id child_id e)
  | OpFailed child_id => snd (record_child_failed child_id e)
  | OpSubmit => snd (process_due_slices cfg c e)
  | OpSettled payload => snd (process_intent_settled (E := unit) from_str payload e)
  end.

(** An operation, or anything that leaves the two tables alone meanwhile. *)
Inductive twap_world : Env CoreDb → Env CoreDb → Prop :=
| tw_op op e : twap_world e (run_twap op e)
| tw_other e e' : twap_tables (env_db e') = twap_tables (env_db e) → twap_world e e'.

Lemma run_twap_moves op e : ids_ok (env_db e) →
  moved (env_now e) (env_db e) (env_db (run_twap op e)).
Proof.
  intros Hok. pose proof (moved_refl (env_now e) _ Hok) as Hm. destruct op; simpl.
  - by apply create_twap_moves.
  - by apply cancel_twap_moves.
  - by apply completed_moves.
  - by apply expired_moves.
  - by apply failed_moves.
  - by apply process_due_slices_moves.
  - by apply settled_moves.
Qed.

Lemma world_moves e e' : twap_world e e' → ids_ok (env_db e) → moved (env_now e) (env_db e) (env_db e').
Proof.
  intros [op ?|? ? Heq] Hok; [by apply run_twap_moves|].
  eapply moved_only; [exact Heq|by apply moved_refl].
Qed.

(** What holds of a slice from then on. *)
Definition slice_le (r r' : TwapChildIntent) : Prop :=
  tc_terms r' = tc_terms r ∧
  (has_status "pending" r = false →
     has_status "pending" r' = false ∧ tc_intent_id r' = tc_intent_id r).
#[local] Instance slice_le_preorder : PreOrder slice_le.
Proof.
  split; [done|]. intros r1 r2 r3 [T1 H1] [T2 H2]. split; [by rewrite T2|]. intros Hs.
  destruct (H1 Hs) as [E1 E2]. destruct (H2 E1) as [-> ->]. done.
Qed.
Lemma slice_step_le t ps r r' : slice_step t ps r r' → slice_le r r'.
Proof.
  intros (T & P & I). split; [done|]. intros Hs. split.
  - destruct (has_status "pending" r') eqn:E; [|done]. rewrite (P eq_refl) in E. congruence.
  - destruct (decide (tc_intent_id r' = tc_intent_id r)) as [|Hne]; [done|]. specialize (I Hne).
    unfold is_due in I. rewrite Hs in I. done.
Qed.

Lemma histories_move e e' : rtc twap_world e e' → ids_ok (env_db e) →
  ids_ok (env_db e') ∧ rows_le twap_le (twap_intents (env_db e)) (twap_intents (env_db e')) ∧
  rows_le slice_le (twap_child_intents (env_db e)) (twap_child_intents (env_db e')).
Proof.
  induction 1 as [e|e e1 e2 Hs _ IH]; intros Hok.
  { split_and!; [done|apply rows_le_refl, _..]. }
  apply world_moves in Hs as [Ht Hc Hok1]; [|done]. destruct (IH Hok1) as (Hok2 & Ht2 & Hc2).
  split_and!; [done|by eapply rows_le_trans; [apply _|..]|].
  eapply rows_le_trans; [apply _| |exact Hc2]. eapply rows_le_mono; [|exact Hc]. apply slice_step_le.
Qed.

End histories.

(** ** Cancelling through the API

    The handler passes the nil account, which has no balances. *)

Section handler.
Context `{SqlxDisplay}.

(** Nothing fails, no row of balances is of the nil account, ids are unique. *)
Record calm (bs : list Balance) (e : Env CoreDb) : Prop := {
  cm_faults : env_faults e = [];
  cm_rows : balances (env_db e) = bs;
  cm_nil : ∀ b, b ∈ bs → b_account_id b ≠ nil_uuid;
  cm_ids : NoDup (map i_id (intents (env_db e)));
}.

(** Intents are only ever cancelled. *)
Definition only_cancelled (d d' : CoreDb) : Prop :=
  ∀ i', i' ∈ intents d' → ∃ i, i ∈ intents d ∧ (i' = i ∨ i' = Engine.with_status ICancelled i).

Definition cancelled_in (d : CoreDb) (id : Uuid) : Prop :=
  ∀ i, i ∈ intents d → i_id i = id → Worker.parse_asset (i_token_in i) ≠ None → i_status i = ICancelled.

Lemma cancelled_in_stays d d' id : only_cancelled d d' → cancelled_in d id → cancelled_in d' id.
Proof.
  intros Hd Hc i' Hi' Hid Ha. destruct (Hd _ Hi') as (i & Hi & [->| ->]); [by apply Hc|done].
Qed.

Lemma sql_try_update_none {R} (p : R → bool) f (t : list R) :
  (∀ r, r ∈ t → p r = false) → sql_try_update p f t = Some t.
Proof.
  intros Hp. unfold sql_try_update. induction t as [|r t IH]; [done|].
  simpl. rewrite (Hp r) by left. simpl. rewrite IH; [done|]. intros r' Hr'. apply Hp. by right.
Qed.

Lemma nil_row_none (bs : list Balance) a r : (∀ b, b ∈ bs → b_account_id b ≠ nil_uuid) → r ∈ bs → is_row nil_uuid a r = false.
Proof. intros Hn Hr. unfold is_row. apply andb_false_iff. left. by apply N.eqb_neq, Hn. Qed.

Lemma cancel_with_nil bs id e : calm bs e →
  let e' := snd (IntentService.cancel_intent id nil_uuid e) in
  calm bs e' ∧ only_cancelled (env_db e) (env_db e') ∧ cancelled_in (env_db e') id.
Proof.
  intros [Hf Hbs Hnil Hids]. destruct e as [d fl us n t]. simpl in *. subst fl bs.
  unfold IntentService.cancel_intent, IntentService.close_intent, Storage.get_intent, query.
  cbn -[transaction Worker.parse_asset]. destruct (sql_one _ _) as [i|] eqn:Hi; cbn -[transaction Worker.parse_asset].
  2:{ split_and!; [done|intros i Hi'; eauto|]. intros i Hi' Hid. apply N.eqb_neq in Hid; [done|].
      by eapply sql_one_None in Hi. }
  apply sql_one_Some in Hi as [Hi Hid%N.eqb_eq].
  unfold IntentService.parse_asset.
  destruct (Worker.parse_asset (i_token_in i)) as [a|] eqn:Ha; cbn -[transaction].
  2:{ split_and!; [done|intros i' Hi'; eauto|]. intros i' Hi' Hid' Ha'.
      rewrite (NoDup_map_inj i_id _ _ _ Hids Hi' Hi) in Ha' by congruence. done. }
  unfold transaction, IntentService.move_balance, IntentService.set_status, IntentService.publish,
    EventBus.publish, bind, map_err, exec, stmt, now, ret, faulty. cbn -[sql_try_update].
  rewrite sql_try_update_none by (intros r Hr; by eapply nil_row_none). cbn.
  split_and!.
  - split; [done..|]. simpl. eapply eq_ind_r; [exact Hids|]. by apply (map_sql_update i_id).
  - intros i' (i0 & Hi0 & ->)%elem_of_sql_update. exists i0. destruct (_ =? _)%N; auto.
  - intros i' (i0 & Hi0 & ->)%elem_of_sql_update Hid' _. destruct (_ =? _)%N eqn:E; [done|].
    apply N.eqb_neq in E. done.
Qed.

Lemma cancel_children_nil bs xs e : calm bs e →
  ∃ e', cancel_children xs nil_uuid e = (Ok tt, e') ∧ calm bs e' ∧
    only_cancelled (env_db e) (env_db e') ∧
    ∀ x, x ∈ xs → tc_intent_id x ≠ nil_uuid → cancelled_in (env_db e') (tc_intent_id x).
Proof.
  unfold cancel_children. revert e. induction xs as [|x xs IH]; intros e He; cbn [mfor].
  { exists e. split_and!; [done|done|intros i Hi; eauto|]. by intros x Hx%not_elem_of_nil. }
  unfold bind at 1. destruct (N.eqb_spec (tc_intent_id x) nil_uuid) as [Hx|Hx].
  { destruct (IH e He) as (e' & Hrun & Hc & Ho & Hxs). exists e'. split_and!; [done..|].
    intros y [->|Hy]%elem_of_cons; [done|auto]. }
  destruct (cancel_with_nil _ (tc_intent_id x) _ He) as (He1 & Ho1 & Hc1).
  unfold bind at 1, attempt. destruct (IntentService.cancel_intent _ _ e) as [r e1]. simpl in *.
  destruct (IH e1 He1) as (e' & Hrun & Hc & Ho & Hxs). exists e'. split_and!; [done|done| |].
  - intros i' Hi'. destruct (Ho _ Hi') as (i1 & Hi1 & Hcase1). destruct (Ho1 _ Hi1) as (i & Hi & Hcase).
    exists i. split; [done|]. destruct Hcase as [->| ->], Hcase1 as [->| ->]; auto.
  - intros y [->|Hy]%elem_of_cons Hne; [by eapply cancelled_in_stays|auto].
Qed.

Lemma cancel_children_steady xs acc : steady (cancel_children xs acc).
Proof.
  apply steady_mfor. intros child. destruct (_ =? _)%N; [apply steady_ret|].
  unfold IntentService.cancel_intent, IntentService.close_intent, Storage.get_intent,
    IntentService.parse_asset, IntentService.move_balance, IntentService.set_status,
    IntentService.publish, EventBus.publish. steady.
Qed.

(** Cancelling an active order through the API succeeds when nothing
    fails: the order and its unfinished slices are cancelled, and so is the
    intent of every slice that was submitted.  But no balance changes: what
    these intents had locked stays locked, because the handler names the nil
    account as theirs. *)
Theorem cancel_by_api_leaves_funds_locked twap_id tw e :
  env_faults e = [] → NoDup (map i_id (intents (env_db e))) →
  (∀ b, b ∈ balances (env_db e) → b_account_id b ≠ nil_uuid) →
  sql_one (is_twap twap_id) (twap_intents (env_db e)) = Some tw → tw_status tw = TwActive →
  ∃ e', cancel_handler twap_id e = (Ok (set_tw_status TwCancelled (env_now e) tw), e') ∧
    balances (env_db e') = balances (env_db e) ∧
    twap_child_intents (env_db e') =
      sql_update (unfinished twap_id) (set_tc_status "cancelled") (twap_child_intents (env_db e)) ∧
    ∀ x i, x ∈ twap_child_intents (env_db e) → unfinished twap_id x = true →
      tc_intent_id x ≠ nil_uuid → i ∈ intents (env_db e') → i_id i = tc_intent_id x →
      Worker.parse_asset (i_token_in i) ≠ None → i_status i = ICancelled.
Proof.
  intros Hf Hids Hnil Htw Hact. unfold cancel_handler, cancel_twap.
  unfold bind at 1, get_twap, map_err at 1, query at 1, stmt at 1, faulty. rewrite Hf. simpl.
  rewrite Htw. unfold of_option, bind at 1, ret at 1. rewrite bool_decide_false by naive_solver.
  unfold bind at 1, map_err at 1, query at 1, stmt at 1, faulty. simpl. rewrite Hf. simpl.
  set (xs := sql_select _ _). set (e1 := with_db _ _).
  assert (calm (balances (env_db e)) e1) as Hcalm.
  { split; simpl; [by rewrite Hf|done..]. }
  destruct (cancel_children_nil _ xs _ Hcalm) as (e2 & Hrun & Hcalm2 & _ & Hxs).
  pose proof (keeps_run _ _ _ _ _ Hrun (cancel_children_keeps _ _)) as [= _ Hch].
  pose proof (steady_run _ _ _ _ Hrun (cancel_children_steady _ _)) as Hnow. simpl in Hnow.
  unfold cancel_children in Hrun. unfold bind at 1. rewrite Hrun. clear Hrun Hcalm.
  destruct Hcalm2 as [Hf2 Hbs2 _ _]. destruct e2 as [d2 fl2 us2 n2 t2]. simpl in *. subst fl2 t2.
  eexists. split; [reflexivity|]. simpl. split_and!; [done|by rewrite Hch|].
  intros x i Hx Hun Hne. apply (Hxs x); [|done]. by apply elem_of_sql_select.
Qed.
End handler.

(** ** A concrete order: 101 in two slices, ten seconds apart *)

#[local] Existing Instances plain_errors plain_floats.
Definition plus_seconds (t s : Z) : option Z := Some (t + s)%Z.
Definition slow_sale : CreateTwapRequest := mkTwapRequest "7" alice "usdc" "ETH" 101 0 25 10.
Definition run_creation := create_twap plus_seconds slow_sale trading_env.
Definition heard (payload : string) : option IntentSettledEvent := None.
Abbreviation happens := (twap_world plus_seconds heard defaults true).
Definition run (op : TwapOp) (e : Env CoreDb) : Env CoreDb := run_twap plus_seconds heard defaults true op e.
Definition scheduled_env : Env CoreDb := run (OpCreate slow_sale) trading_env.
Definition submitted_env : Env CoreDb := run OpSubmit scheduled_env.
Definition slow_twap : TwapIntent := Eval vm_compute in
  match fst run_creation with
  | Ok tw => tw
  | Err _ => mkTwap 0 "" 0 "" "" 0 0 0 0 0 0 0 TwFailed 0 None
  end.

Lemma create_twap_schedules_witness :
  ∃ slices, twap_child_intents (env_db scheduled_env) = slices ∧ length slices = 2 ∧
    sum_by tc_qty slices = 101%Z.
Proof.
  destruct (create_twap_schedules plus_seconds) with (req := slow_sale) (e := trading_env)
    (tw := slow_twap) (e' := scheduled_env) as (slices & Hdb & _ & Hlen & _ & Hsum & _).
  - intros t s r [= <-]. reflexivity.
  - vm_compute. reflexivity.
  - vm_compute. split; discriminate.
  - vm_compute. split; discriminate.
  - vm_compute. discriminate.
  - exists slices. rewrite Hdb. split_and!; [reflexivity| |exact Hsum].
    assert (Z.of_nat (length slices) = 2%Z) by exact Hlen. lia.
Defined.

Lemma run_happens op e : happens e (run op e).
Proof. constructor. Qed.


Lemma cancel_by_api_leaves_funds_locked_witness :
  balances (env_db (snd (cancel_handler 1000 submitted_env))) = balances (env_db submitted_env) ∧
  (b_locked_balance <$> find_row alice USDC (balances (env_db submitted_env))) = Some 150%Z.
Proof.
  destruct (cancel_by_api_leaves_funds_locked 1000 slow_twap submitted_env) as (e' & Hrun & Hbs & _).
  - by vm_compute.
  - apply (bool_decide_unpack _). by vm_compute.
  - intros b Hb. apply (elem_of_forallb (λ b, negb (b_account_id b =? 0)%N)) in Hb; [|by vm_compute].
    intros E. rewrite E in Hb. discriminate.
  - by vm_compute.
  - reflexivity.
  - split; [by rewrite Hrun|by vm_compute].
Defined.

(** ** What the order of the outcomes decides

    One slice of an order is settled, the other expires.  When the settlement
    is counted last the order is completed, when the expiry is, it has failed. *)

Definition first_child : Uuid := 1001%N.
Definition second_child : Uuid := 1002%N.
Definition status_after (m : M CoreDb unit TwapError) : option TwapStatus :=
  tw_status <$> head (twap_intents (env_db (snd (m scheduled_env)))).

Theorem outcome_depends_on_the_order :
  status_after (record_child_completed 1000 first_child 50 ;;; record_child_expired 1000 second_child)
    = Some TwFailed ∧
  status_after (record_child_expired 1000 second_child ;;; record_child_completed 1000 first_child 50)
    = Some TwCompleted.
Proof. split; vm_compute; reflexivity. Qed.

(** A slice that could not be submitted is never counted: with the other one
    settled the order stays active for good. *)
Theorem failed_slices_are_not_counted :
  status_after (record_child_failed first_child ;;; record_child_completed 1000 second_child 51)
    = Some TwActive.
Proof. vm_compute. reflexivity. Qed.

(** A slice that expired and is then settled counts twice. *)
Theorem expired_then_completed_counts_twice :
  tw_slices_completed <$> head (twap_intents (env_db (snd ((record_child_expired 1000 first_child ;;;
    record_child_completed 1000 first_child 50) scheduled_env)))) = Some 2%Z.
Proof. vm_compute. reflexivity. Qed.
