(* ===== verification/Positions.v ===== *)
(** * Solver positions: [src/src/solver/positions.rs]

    A solver's position per asset, its average entry price and the profit it
    has realised.  The table belongs to the solver bot alone.  The theorems
    compare the profit reported with the cash that was paid and received. *)
From S2P Require Import Prelude Monad Float64 Model Ledger.
Local Open Scope Z_scope.

Record SolverPosition := mkPosition {
  ps_solver_id : string;
  ps_asset : string;
  ps_position : Z;
  ps_avg_entry_price : Z;
  ps_realized_pnl : Z;
  ps_updated_at : Z;
}.

Record PositionPnl := mkPnl {
  pp_solver_id : string;
  pp_asset : string;
  pp_position : Z;
  pp_avg_entry_price : Z;
  pp_current_price : Z;
  pp_unrealized_pnl : Z;
  pp_realized_pnl : Z;
  pp_total_pnl : Z;
}.

Module PositionTracker.
Section tracker.
Context `{NumericDecode}.

Definition of_solver (solver_id : string) (r : SolverPosition) : bool :=
  String.eqb (ps_solver_id r) solver_id.
Definition is_position (solver_id asset : string) (r : SolverPosition) : bool :=
  of_solver solver_id r && String.eqb (ps_asset r) asset.

Definition load_positions (solver_id : string)
  : M (list SolverPosition) (list SolverPosition) SqlxError :=
  query (λ t, sort_by (λ x y, String.leb (ps_asset x) (ps_asset y))
                (sql_select (of_solver solver_id) t)).

(** A read whose error is swallowed. *)
Definition or_zero {E} (r : result (option Z) SqlxError) : M (list SolverPosition) Z E :=
  ret (match r with Ok (Some n) => n | _ => 0 end).

Definition get_position {E} (solver_id asset : string) : M (list SolverPosition) Z E :=
  let* r := attempt (query (λ t, ps_position <$> sql_one (is_position solver_id asset) t)) in
  or_zero r.

(** SELECT COALESCE(SUM(ABS(position)), 0): a NUMERIC, decoded into an i64.
    ABS of the least BIGINT is out of range. *)
Definition get_total_exposure {E} (solver_id : string) : M (list SolverPosition) Z E :=
  let* r := attempt (stmt (λ t,
    let rows := sql_select (of_solver solver_id) t in
    if existsb (λ r, ps_position r =? i64_min) rows then None
    else Some (numeric_as_i64 (sum_by (λ r, Z.abs (ps_position r)) rows), t))) in
  or_zero r.

Definition i64_abs (z : Z) : Z := i64 (Z.abs z).

Definition check_limit {E} (solver_id : string) (amount max_position : Z)
  : M (list SolverPosition) bool E :=
  let* exposure := get_total_exposure solver_id in
  ret (i64 (exposure + i64_abs amount) <=? max_position).

(** The average and the profit of a fill on an existing position. *)
Definition average_after (pos : SolverPosition) (qty price : Z) : Z :=
  let new_position := i64 (ps_position pos + qty) in
  if negb (new_position =? 0) &&
     ((Z.sgn (ps_position pos) =? Z.sgn qty) || (ps_position pos =? 0))
  then
    let total_cost := i64 (i64 (ps_avg_entry_price pos * i64_abs (ps_position pos))
                           + i64 (price * i64_abs qty)) in
    total_cost `quot` i64_abs new_position
  else if new_position =? 0 then 0
  else ps_avg_entry_price pos.
Definition realized_by (pos : SolverPosition) (qty price : Z) : Z :=
  let closed_qty := if negb (Z.sgn (ps_position pos) =? Z.sgn qty)
    then i64_abs qty `min` i64_abs (ps_position pos) else 0 in
  i64 (closed_qty * i64 (price - ps_avg_entry_price pos)).

(** UPDATE .. SET realized_pnl = realized_pnl + $3: refused out of range. *)
Definition update_position (solver_id asset : string) (position avg realized t : Z)
  : M (list SolverPosition) unit SqlxError :=
  stmt (λ rows,
    rs ← sql_try_update (is_position solver_id asset) (λ r,
      n ← bigint (ps_realized_pnl r + realized);
      Some (mkPosition (ps_solver_id r) (ps_asset r) position avg n t)) rows;
    Some (tt, rs)).

(** (solver_id, asset) is the primary key *)
Definition insert_position (r : SolverPosition) : M (list SolverPosition) unit SqlxError :=
  stmt (λ rows,
    if existsb (is_position (ps_solver_id r) (ps_asset r)) rows then None
    else Some (tt, rows ++ [r])).

Definition record_fill (solver_id asset : string) (qty price : Z)
  : M (list SolverPosition) SolverPosition SqlxError :=
  let* t := now in
  let* existing := query (sql_one (is_position solver_id asset)) in
  match existing with
  | Some pos =>
      let new_position := i64 (ps_position pos + qty) in
      let new_avg := average_after pos qty price in
      let realized := realized_by pos qty price in
      update_position solver_id asset new_position new_avg realized t ;;;
      ret (mkPosition solver_id asset new_position new_avg (i64 (ps_realized_pnl pos + realized)) t)
  | None =>
      let pos := mkPosition solver_id asset qty price 0 t in
      insert_position pos ;;;
      ret pos
  end.

Definition calculate_pnl (pos : SolverPosition) (current_price : Z) : PositionPnl :=
  let unrealized :=
    if negb (ps_position pos =? 0)
    then i64 (ps_position pos * i64 (current_price - ps_avg_entry_price pos)) else 0 in
  mkPnl (ps_solver_id pos) (ps_asset pos) (ps_position pos) (ps_avg_entry_price pos) current_price
    unrealized (ps_realized_pnl pos) (i64 (unrealized + ps_realized_pnl pos)).

End tracker.
End PositionTracker.

Import PositionTracker.

(** ** The profit of a long-only trader

    [n] is the position before the fills [(qty, price)]. *)

Definition bound : Z := 2 ^ 30.
Fixpoint long_only (n : Z) (fills : list (Z * Z)) : Prop :=
  match fills with
  | [] => True
  | (qty, price) :: fills => 0 ≤ n + qty ≤ bound ∧ 0 ≤ price ≤ bound ∧ long_only (n + qty) fills
  end.
(** The positions after each purchase. *)
Fixpoint slack (n : Z) (fills : list (Z * Z)) : Z :=
  match fills with
  | [] => 0
  | (qty, _) :: fills => (if 0 <? qty then n + qty else 0) + slack (n + qty) fills
  end.
(** What the fills are worth at [p], less what was paid. *)
Definition worth (p : Z) (fills : list (Z * Z)) : Z := sum_by (λ f, f.1 * (p - f.2)) fills.

Lemma worth_split p fills :
  worth p fills = sum_by fst fills * p - sum_by (λ f, f.1 * f.2) fills.
Proof. unfold worth. induction fills as [|[q x] fills IH]; simpl; [lia|]. rewrite IH. lia. Qed.

(** A row in the bounds, whose reported profit is [d] above the truth. *)
Record tracks (r : SolverPosition) (fills : list (Z * Z)) (d : Z) : Prop := {
  tk_position : ps_position r = sum_by fst fills;
  tk_range : 0 ≤ ps_position r ≤ bound;
  tk_avg : 0 ≤ ps_avg_entry_price r ≤ bound;
  tk_pnl : ps_realized_pnl r - ps_position r * ps_avg_entry_price r + sum_by (λ f, f.1 * f.2) fills = d;
}.

Lemma in_i64_small a : - 2 ^ 62 ≤ a ≤ 2 ^ 62 → in_i64 a.
Proof. i64_lia. Qed.
Lemma product_small a b : - bound ≤ a ≤ bound → - bound ≤ b ≤ bound → - 2 ^ 60 ≤ a * b ≤ 2 ^ 60.
Proof. unfold bound. nia. Qed.
Ltac small := apply in_i64_small; unfold bound in *; lia.

Section step.
Context (r : SolverPosition) (qty price : Z).
Hypothesis (Hn : 0 ≤ ps_position r ≤ bound) (Ha : 0 ≤ ps_avg_entry_price r ≤ bound).
Hypothesis (Hn' : 0 ≤ ps_position r + qty ≤ bound) (Hp : 0 ≤ price ≤ bound).
Let n := ps_position r.
Let avg := ps_avg_entry_price r.

Lemma position_after : i64 (n + qty) = n + qty.
Proof. apply i64_id. subst n. small. Qed.

Lemma realized_long : realized_by r qty price = if qty <? 0 then - qty * (price - avg) else 0.
Proof.
  unfold realized_by, i64_abs. fold n avg. fold n in Hn, Hn'. fold avg in Ha.
  rewrite (i64_id (Z.abs qty)), (i64_id (Z.abs n)), (i64_id (price - avg)) by small.
  destruct (Z.ltb_spec qty 0) as [Hq|Hq].
  - rewrite (Z.sgn_neg qty), (Z.sgn_pos n) by lia. simpl. rewrite Z.min_l by lia. rewrite Z.abs_neq by lia.
    apply i64_id, in_i64_small. pose proof (product_small (- qty) (price - avg)). unfold bound in *. lia.
  - assert ((if negb (Z.sgn n =? Z.sgn qty) then Z.abs qty `min` Z.abs n else 0) = 0) as ->; [|done].
    destruct (Z.eqb_spec (Z.sgn n) (Z.sgn qty)) as [|Hs]; simpl; [done|].
    destruct (Z.eq_dec n 0) as [->|]; [by rewrite Z.min_r by lia|].
    destruct (Z.eq_dec qty 0) as [->|]; [by rewrite Z.min_l by lia|].
    rewrite !Z.sgn_pos in Hs by lia. done.
Qed.

Lemma average_long :
  average_after r qty price =
    if 0 <? qty then (avg * n + price * qty) `div` (n + qty) else if n + qty =? 0 then 0 else avg.
Proof.
  unfold average_after, i64_abs. fold n avg. rewrite position_after. fold n in Hn, Hn'. fold avg in Ha.
  pose proof (product_small avg n). pose proof (product_small price qty).
  destruct (Z.ltb_spec 0 qty) as [Hq|Hq].
  - rewrite (proj2 (Z.eqb_neq (n + qty) 0)) by lia. simpl.
    assert ((Z.sgn n =? Z.sgn qty) || (n =? 0) = true) as ->.
    { destruct (Z.eq_dec n 0) as [->|]; [by rewrite orb_true_r|]. by rewrite !Z.sgn_pos by lia. }
    rewrite !Z.abs_eq by lia. rewrite (i64_id n), (i64_id qty), (i64_id (n + qty)) by small.
    rewrite (i64_id (avg * n)), (i64_id (price * qty)) by (unfold bound in *; apply in_i64_small; lia).
    rewrite i64_id by (unfold bound in *; apply in_i64_small; lia).
    apply Z.quot_div_nonneg; [|lia]. assert (0 ≤ avg * n) by (apply Z.mul_nonneg_nonneg; lia).
    assert (0 ≤ price * qty) by (apply Z.mul_nonneg_nonneg; lia). lia.
  - destruct (Z.eqb_spec (n + qty) 0) as [E|E]; simpl; [done|].
    assert ((Z.sgn n =? Z.sgn qty) || (n =? 0) = false) as ->; [|done].
    apply orb_false_iff. rewrite (Z.sgn_pos n) by lia. split; apply Z.eqb_neq; [|lia].
    pose proof (Z.sgn_nonpos qty). lia.
Qed.

(** The error of one fill: the rounding of the average of a purchase. *)
Lemma step_error :
  let avg' := average_after r qty price in
  0 ≤ avg' ≤ bound ∧
  0 ≤ realized_by r qty price - (n + qty) * avg' + qty * price + n * avg
    ≤ if 0 <? qty then n + qty else 0.
Proof.
  intros avg'. subst avg'. rewrite average_long, realized_long. fold n in Hn, Hn'. fold avg in Ha.
  destruct (Z.ltb_spec 0 qty) as [Hq|Hq].
  - rewrite (proj2 (Z.ltb_ge qty 0)) by lia. set (t := avg * n + price * qty).
    assert (0 ≤ t ≤ bound * (n + qty)) as Ht by (subst t; nia).
    pose proof (Z.div_mod t (n + qty)) as Hdm. pose proof (Z.mod_pos_bound t (n + qty)) as Hm.
    split; [|subst t; lia]. split; [apply Z.div_pos; lia|]. apply Z.div_le_upper_bound; lia.
  - destruct (Z.ltb_spec qty 0) as [Hq'|Hq'], (Z.eqb_spec (n + qty) 0) as [E|E];
      (split; [unfold bound in *; lia|]); try (replace qty with 0 by lia); nia.
Qed.
End step.

Section history.
Context (solver_id asset : string).
Abbreviation mine := (is_position solver_id asset).

Definition record_all (fills : list (Z * Z)) : M (list SolverPosition) unit SqlxError :=
  mfor fills (λ f, record_fill solver_id asset f.1 f.2 ;;; ret tt).

Lemma record_first qty price e pos e' : record_fill solver_id asset qty price e = (Ok pos, e') →
  sql_one mine (env_db e) = None →
  pos = mkPosition solver_id asset qty price 0 (env_now e) ∧ sql_one mine (env_db e') = Some pos.
Proof.
  intros Hrun Hnone. unfold record_fill, insert_position in Hrun. run_inv. simpl in *.
  rewrite Hnone in Hrun. run_inv. simpl in *. case_match; [done|]. simplify_eq. split; [done|]. simpl.
  rewrite sql_one_app, Hnone. unfold sql_one, sql_select, is_position, of_solver. simpl.
  by rewrite !String.eqb_refl.
Qed.

Lemma record_next qty price e r pos e' : record_fill solver_id asset qty price e = (Ok pos, e') →
  sql_one mine (env_db e) = Some r →
  ∃ r', sql_one mine (env_db e') = Some r' ∧ ps_position r' = i64 (ps_position r + qty) ∧
    ps_avg_entry_price r' = average_after r qty price ∧
    ps_realized_pnl r' = ps_realized_pnl r + realized_by r qty price.
Proof.
  intros Hrun Hr. unfold record_fill, update_position in Hrun. run_inv. simpl in *.
  rewrite Hr in Hrun. run_inv. simpl in *.
  match goal with H : mbind _ _ = Some _ |- _ => apply bind_Some in H as (rs & Hrs & Heq) end.
  simplify_eq. simpl.
  set (g := λ r0, mkPosition (ps_solver_id r0) (ps_asset r0) (i64 (ps_position r + qty))
    (average_after r qty price) (ps_realized_pnl r0 + realized_by r qty price) (env_now e)).
  apply (sql_try_update_Some _ _ g) in Hrs as ->.
  2:{ intros r1 r2 (k & [_ ->]%bigint_Some & Hk)%bind_Some. by simplify_eq. }
  exists (g r). split; [|done]. unfold sql_update. rewrite sql_one_map.
  - rewrite Hr. simpl. apply sql_one_Some in Hr as [_ ->]. done.
  - intros r1. destruct (mine r1) eqn:E; exact E.
Qed.

Lemma tracks_next r fills d qty price r' : tracks r fills d →
  0 ≤ ps_position r + qty ≤ bound → 0 ≤ price ≤ bound →
  ps_position r' = i64 (ps_position r + qty) → ps_avg_entry_price r' = average_after r qty price →
  ps_realized_pnl r' = ps_realized_pnl r + realized_by r qty price →
  ∃ d', tracks r' (fills ++ [(qty, price)]) d' ∧
    d ≤ d' ≤ d + (if 0 <? qty then ps_position r + qty else 0).
Proof.
  intros [Hpos Hn Ha Hd] Hn' Hp E1 E2 E3. rewrite position_after in E1 by done.
  destruct (step_error r qty price Hn Ha Hn' Hp) as [Havg Herr].
  eexists. split; [split; [| | |reflexivity]|].
  - rewrite sum_by_app. simpl. lia.
  - lia.
  - by rewrite E2.
  - rewrite E1, E2, E3, sum_by_app. simpl. lia.
Qed.

Lemma record_all_tracks rest fills e r d e' u :
  record_all rest e = (Ok u, e') → sql_one mine (env_db e) = Some r → tracks r fills d →
  long_only (ps_position r) rest →
  ∃ r' d', sql_one mine (env_db e') = Some r' ∧ tracks r' (fills ++ rest) d' ∧
    d ≤ d' ≤ d + slack (ps_position r) rest.
Proof.
  revert fills e r d. induction rest as [|[qty price] rest IH]; intros fills e r d Hrun Hr Ht Hlong.
  { unfold record_all in Hrun. simpl in Hrun. run_inv. exists r, d. rewrite app_nil_r. simpl. split_and!; [done|done|lia|lia]. }
  simpl in Hlong. destruct Hlong as (Hn' & Hp & Hlong). unfold record_all in Hrun. simpl in Hrun.
  apply bind_Ok in Hrun as (? & e1 & H1 & Hrun). apply bind_Ok in H1 as (pos & e2 & H1 & [-> ->]%ret_Ok).
  destruct (record_next _ _ _ _ _ _ H1 Hr) as (r1 & Hr1 & E1 & E2 & E3).
  destruct (tracks_next _ _ _ _ _ _ Ht Hn' Hp E1 E2 E3) as (d1 & Ht1 & Hd1).
  rewrite position_after in E1 by done.
  destruct (IH _ _ _ _ Hrun Hr1 Ht1) as (r' & d' & Hr' & Ht' & Hd'); [by rewrite E1|].
  exists r', d'. rewrite <- app_assoc in Ht'. rewrite E1 in Hd'. simpl. split_and!; [done|done|lia..].
Qed.

(** For a solver that starts without a position and never goes short, the
    position recorded is the sum of the fills, and at every price the profit
    reported, realised and unrealised together, is what the fills are worth
    less what was paid, up to the rounding of the average price: it is never
    too low, and too high by less than the position after each purchase. *)
Theorem long_pnl_tracks_cash fills e u e' :
  record_all fills e = (Ok u, e') → sql_one mine (env_db e) = None → fills ≠ [] → long_only 0 fills →
  ∃ r, sql_one mine (env_db e') = Some r ∧ ps_position r = sum_by fst fills ∧
    ∀ p, let pnl := ps_realized_pnl r + ps_position r * (p - ps_avg_entry_price r) in
      0 ≤ pnl - worth p fills ≤ slack 0 fills ∧
      (0 ≤ p ≤ bound → in_i64 pnl → pp_total_pnl (calculate_pnl r p) = pnl).
Proof.
  intros Hrun Hnone Hne Hlong. destruct fills as [|[qty price] rest]; [done|]. clear Hne.
  simpl in Hlong. destruct Hlong as (Hq & Hp & Hlong). rewrite Z.add_0_l in Hq, Hlong.
  unfold record_all in Hrun. simpl in Hrun.
  apply bind_Ok in Hrun as (? & e1 & H1 & Hrun). apply bind_Ok in H1 as (pos & e2 & H1 & [-> ->]%ret_Ok).
  destruct (record_first _ _ _ _ _ H1 Hnone) as [-> Hr1].
  assert (tracks (mkPosition solver_id asset qty price 0 (env_now e)) [(qty, price)] 0) as Ht.
  { split; simpl; lia. }
  destruct (record_all_tracks _ _ _ _ _ _ _ Hrun Hr1 Ht Hlong) as (r & d & Hr & Hpnl & Hd).
  destruct Hpnl as [Hpos Hn Ha Hpnl]. simpl in Hd. exists r. split_and!; [done|done|]. intros p pnl.
  change ([(qty, price)] ++ rest) with ((qty, price) :: rest) in *.
  rewrite worth_split, <- Hpos. split.
  - subst pnl. cbn [slack]. rewrite !Z.add_0_l in *. destruct (Z.ltb_spec 0 qty); lia.
  - intros Hpr Hi. unfold calculate_pnl. simpl. unfold bound in *.
    rewrite (i64_id (p - ps_avg_entry_price r)) by (apply in_i64_small; lia).
    pose proof (product_small (ps_position r) (p - ps_avg_entry_price r)) as Hprod. unfold bound in Hprod.
    rewrite (i64_id (ps_position r * _)) by (apply in_i64_small; lia).
    destruct (Z.eqb_spec (ps_position r) 0) as [E|E]; simpl.
    + subst pnl. rewrite E in *. rewrite i64_id by (replace (ps_realized_pnl r) with (ps_realized_pnl r + 0 * (p - ps_avg_entry_price r)) by lia; exact Hi). lia.
    + subst pnl. rewrite i64_id; [lia|]. by rewrite Z.add_comm.
Qed.
End history.

(** Three purchases and a sale. *)
Definition day : list (Z * Z) := [(3, 100); (4, 101); (-5, 110); (2, 90)].
Definition desk : Env (list SolverPosition) := mkEnv [] [] (λ _, 0%N) 0 0.

Lemma long_pnl_tracks_cash_witness :
  ∃ r, sql_one (is_position "s" "ETH") (env_db (snd (record_all "s" "ETH" day desk))) = Some r ∧
    ps_position r = 4.
Proof.
  destruct (long_pnl_tracks_cash "s" "ETH" day desk tt (snd (record_all "s" "ETH" day desk)))
    as (r & Hr & Hpos & _).
  - by vm_compute.
  - reflexivity.
  - discriminate.
  - vm_compute. repeat split; discriminate.
  - exists r. split; [exact Hr|exact Hpos].
Defined.

(** A short position books its profit as a loss: sold at 100 and bought back
    at 90, ten times. *)
Theorem short_profit_is_booked_as_loss :
  ps_realized_pnl <$> head (env_db (snd (record_all "s" "ETH" [(-10, 100); (10, 90)] desk))) = Some (-100) ∧
  worth 0 [(-10, 100); (10, 90)] = 100.
Proof. by vm_compute. Qed.

(** A position that changes sides keeps the price of the side it left: sold
    down from 10 to -5 at 120, it reports 100 at the price 120, not 200. *)
Theorem flipped_position_keeps_old_price :
  (λ r, pp_total_pnl (calculate_pnl r 120)) <$>
    head (env_db (snd (record_all "s" "ETH" [(10, 100); (-15, 120)] desk))) = Some 100 ∧
  worth 120 [(10, 100); (-15, 120)] = 200.
Proof. by vm_compute. Qed.

Lemma unread_limit `{NumericDecode} {E} solver_id amount max_position e :
  (∀ n, numeric_as_i64 n = None) → in_i64 (Z.abs amount) → Z.abs amount ≤ max_position →
  ∃ e', check_limit (E := E) solver_id amount max_position e = (Ok true, e').
Proof.
  intros Hnone Hi Hle.
  assert (∃ e', get_total_exposure (E := E) solver_id e = (Ok 0, e')) as [e' Hexp].
  { unfold get_total_exposure, or_zero, bind, attempt, stmt, ret. destruct (faulty e); [by eexists|].
    destruct (existsb _ _); [by eexists|]. rewrite Hnone. by eexists. }
  exists e'. unfold check_limit, bind, ret. rewrite Hexp. simpl. do 2 f_equal. unfold i64_abs.
  rewrite (i64_id (Z.abs amount)), i64_id by done. lia.
Qed.
(** Where the driver refuses a NUMERIC as an [i64], the exposure reads as zero
    and the limit never stops a solver. *)
Theorem exposure_reads_as_zero `{NumericDecode} solver_id amount max_position e :
  (∀ n, numeric_as_i64 n = None) → in_i64 (Z.abs amount) → Z.abs amount ≤ max_position →
  fst (check_limit (E := unit) solver_id amount max_position e) = Ok true.
Proof. intros Hnone Hi Hle. by destruct (unread_limit (E := unit) solver_id amount max_position e Hnone Hi Hle) as [e' ->]. Qed.
