(* ===== verification/RateLimit.v ===== *)
(** * The gateway's rate limiter: [src/src/gateway/rate_limit.rs]

    A sliding window per identity and route, kept in a Redis sorted set.  The
    sets live in the tables of the monad and instants are microseconds here.
    What the client library answers for a pipeline is a parameter. *)
From stdpp Require Import gmap.
From S2P Require Import Prelude Monad Text.
Local Open Scope Z_scope.

Record RouteLimit := mkRouteLimit { max_requests : Z; window_secs : Z }.
Record RateLimitResult := mkRateLimitResult { rl_limit : Z; rl_remaining : Z; rl_reset_secs : Z }.

(** A sorted set whose members are their own scores, and when it expires. *)
Record ZSet := mkZSet { z_members : gset Z; z_expires_at : Z }.
Abbreviation RedisDb := (gmap string ZSet).

(** The replies of Redis that matter here. *)
Inductive Value := VInt (n : Z) | VOther.

(** A request's path and its headers that are text; a response. *)
Record Request := mkRequest { rq_path : string; rq_header : string → option string }.
Record Response := mkResponse { rs_status : Z; rs_headers : gmap string string }.

Module RateLimiter.
Section limiter.
(** [rate_limit_per_minute] and [rate_limit_window_secs] of the settings. *)
Context (rate_limit_per_minute rate_limit_window_secs : Z).
(** The replies of a pipeline that the client library hands over, each with
    whether the command was marked [ignore()]. *)
Context (handed_over : list (bool * Value) → list Value).

Definition route_limit (path : string) : RouteLimit :=
  if String.prefix "/intents" path || String.prefix "/bids" path then mkRouteLimit 30 60
  else if String.prefix "/balances/deposit" path || String.prefix "/balances/withdraw" path
  then mkRouteLimit 10 60
  else if String.prefix "/auth/" path then mkRouteLimit 5 60
  else mkRouteLimit rate_limit_per_minute rate_limit_window_secs.

Definition extract_identity (req : Request) : string :=
  match rq_header req "x-user-id" with
  | Some uid => uid
  | None =>
      match rq_header req "x-api-key" with
      | Some key => key
      | None => default "unknown"%string (rq_header req "x-forwarded-for")
      end
  end.

(** [route.split('/').take(2).collect::<Vec<_>>().join("/")] *)
Definition route_prefix (route : string) : string :=
  match split_once route with
  | None => route
  | Some (a, r) => a +:+ "/" +:+ match split_once r with Some (b, _) => b | None => r end
  end.

(** What is left of a set at an instant. *)
Definition live (t : Z) (o : option ZSet) : gset Z :=
  match o with Some z => if z_expires_at z <=? t then ∅ else z_members z | None => ∅ end.

(** ZREMRANGEBYSCORE, ZCARD, ZADD and EXPIRE in one MULTI, their replies and
    which of them are ignored. *)
Definition pipeline (key : string) (window_start now ttl : Z) (db : RedisDb)
  : list (bool * Value) * RedisDb :=
  let m0 := live now (db !! key) in
  let m1 := filter (λ x, window_start < x) m0 in
  let m2 := {[now]} ∪ m1 in
  ([(true, VInt (Z.of_nat (size m0 - size m1))); (false, VInt (Z.of_nat (size m1)));
    (true, VInt (Z.of_nat (size m2 - size m1))); (true, VInt 1)],
   if ttl <=? 0 then delete key db else <[key := mkZSet m2 (now + ttl * 1000000)]> db).

Definition zrem (key : string) (member : Z) (db : RedisDb) : RedisDb :=
  alter (λ z, mkZSet (z_members z ∖ {[member]}) (z_expires_at z)) key db.

Definition TOO_MANY_REQUESTS : Z := 429.
Definition INTERNAL_SERVER_ERROR : Z := 500.

Definition check (identity route : string) (limit : RouteLimit) : M RedisDb RateLimitResult Z :=
  let key := ("rate_limit:" +:+ identity +:+ ":" +:+ route_prefix route)%string in
  let* now_micros := now in
  let window_start := i64 (now_micros - i64 (i64 (window_secs limit) * 1000000)) in
  let* results := map_err (λ _, INTERNAL_SERVER_ERROR)
    (stmt (λ db, Some (pipeline key window_start now_micros (u64 (window_secs limit * 2)) db))) in
  let count := match handed_over results with _ :: VInt n :: _ => u64 n | _ => 0 end in
  if max_requests limit <=? count then
    attempt (exec (zrem key now_micros)) ;;;
    throw TOO_MANY_REQUESTS
  else ret (mkRateLimitResult (max_requests limit) (u64 (u64 (max_requests limit - count) - 1))
              (window_secs limit)).

Definition rate_headers (limit remaining reset : Z) (h : gmap string string) : gmap string string :=
  <["x-ratelimit-reset" := print_uint reset]>
    (<["x-ratelimit-remaining" := print_uint remaining]>
       (<["x-ratelimit-limit" := print_uint limit]> h)).

(** The middleware; [inner] is the service behind it. *)
Definition call {E} (inner : Request → M RedisDb Response E) (req : Request) : M RedisDb Response E :=
  let identity := extract_identity req in
  let limit := route_limit (rq_path req) in
  let* result := attempt (check identity (rq_path req) limit) in
  match result with
  | Err status =>
      ret (mkResponse status
        (<["retry-after" := print_uint (window_secs limit)]>
           (rate_headers (max_requests limit) 0 (window_secs limit) ∅)))
  | Ok r =>
      let* response := inner req in
      ret (mkResponse (rs_status response)
        (rate_headers (rl_limit r) (rl_remaining r) (rl_reset_secs r) (rs_headers response)))
  end.

End limiter.
End RateLimiter.

Import RateLimiter.

(** redis-rs drops the replies of the commands that are marked [ignore()]. *)
Definition not_ignored (replies : list (bool * Value)) : list Value :=
  map snd (List.filter (λ r, negb (fst r)) replies).

Section never.
Context (handed_over : list (bool * Value) → list Value).
Hypothesis drops_ignored : ∀ replies, handed_over replies = not_ignored replies.

Lemma check_accepts identity route limit e : env_faults e = [] →
  1 ≤ max_requests limit ≤ u64_max →
  ∃ e', check handed_over identity route limit e =
    (Ok (mkRateLimitResult (max_requests limit) (max_requests limit - 1) (window_secs limit)), e') ∧
    env_faults e' = [].
Proof.
  intros Hf Hmax. destruct e as [db fl us n t]. simpl in Hf. subst fl.
  unfold check, now, map_err, stmt, pipeline, faulty, bind, ret. cbn -[pipeline].
  rewrite drops_ignored. cbn. rewrite (proj2 (Z.leb_gt _ _)) by lia.
  assert (∀ z, 0 ≤ z ≤ u64_max → u64 z = z) as Hu.
  { intros z Hz. apply Z.mod_small. unfold u64_max in Hz. lia. }
  rewrite Z.sub_0_r, (Hu (max_requests limit)), Hu by lia.
  eexists. split; reflexivity.
Qed.

(** The limiter never limits.  The library hands over only the reply of
    ZCARD, so the pattern that looks for it in second place never matches
    and the count reads as zero: as long as Redis answers, every request of
    every identity, on every route that allows any request at all, goes on to
    the service behind, however many there were before, and is told that it
    was the first of its window. *)
Theorem limiter_never_limits {E} per_minute window (inner : Request → M RedisDb Response E) req e :
  1 ≤ per_minute ≤ u64_max → env_faults e = [] →
  let limit := route_limit per_minute window (rq_path req) in
  ∃ e1, env_faults e1 = [] ∧
    call per_minute window handed_over inner req e =
      match inner req e1 with
      | (Ok response, e2) =>
          (Ok (mkResponse (rs_status response)
             (rate_headers (max_requests limit) (max_requests limit - 1) (window_secs limit)
                (rs_headers response))), e2)
      | (Err x, e2) => (Err x, e2)
      end.
Proof.
  intros Hmin Hf limit. assert (1 ≤ max_requests limit ≤ u64_max) as Hmax.
  { subst limit. unfold route_limit. repeat case_match; simpl; done. }
  destruct (check_accepts (extract_identity req) (rq_path req) limit e Hf Hmax) as (e1 & Hc & Hf1).
  exists e1. split; [done|]. unfold call, bind, attempt, ret. fold limit. rewrite Hc.
  by destruct (inner req e1) as [[response|x] e2].
Qed.
End never.

(** The sixth attempt to log in within a second, where five are allowed. *)
Definition login : Request := mkRequest "/auth/login" (λ _, None).
Definition welcome (_ : Request) : M RedisDb Response unit := ret (mkResponse 200 ∅).
Definition attempt_login (e : Env RedisDb) : Env RedisDb :=
  snd (call 100 60 not_ignored welcome login (mkEnv (env_db e) [] (env_uuid e) 0 (env_now e + 1))).
Definition gateway : Env RedisDb := mkEnv ∅ [] (λ _, 0%N) 0 1000000.

Lemma limiter_never_limits_witness :
  size (live 1000005 (env_db (Nat.iter 5 attempt_login gateway) !! "rate_limit:unknown:/auth")) = 5%nat ∧
  rs_status <$> match fst (call 100 60 not_ignored welcome login (Nat.iter 5 attempt_login gateway)) with
                | Ok r => Some r | Err _ => None end = Some 200.
Proof.
  split; [by vm_compute|].
  destruct (limiter_never_limits not_ignored (λ _, eq_refl) 100 60 welcome login
    (Nat.iter 5 attempt_login gateway)) as (e1 & _ & Hc).
  - unfold u64_max. lia.
  - reflexivity.
  - rewrite Hc. reflexivity.
Defined.
