(* ===== verification/Base58.v ===== *)
(** * Base58: [src/src/wallet/solana_signing.rs]

    How Solana writes addresses, blockhashes and transactions as text, which
    is its bytes here.  Both directions are the same change of base, so each
    is proved against one conversion between digit lists. *)
From S2P Require Import Prelude Bytes.
Open Scope Z_scope.

Module Base58.

(** b"123456789ABCDEFGHJKLMNPQRSTUVWXYZabcdefghijkmnopqrstuvwxyz" *)
Definition B58_ALPHABET : bytes :=
  [49; 50; 51; 52; 53; 54; 55; 56; 57; 65; 66; 67; 68; 69; 70; 71; 72; 74; 75; 76; 77; 78; 80; 81; 82;
   83; 84; 85; 86; 87; 88; 89; 90; 97; 98; 99; 100; 101; 102; 103; 104; 105; 106; 107; 109; 110; 111;
   112; 113; 114; 115; 116; 117; 118; 119; 120; 121; 122].

(** [iter().take_while(|&b| b == x).count()] *)
Fixpoint count_leading (x : Z) (l : bytes) : nat :=
  match l with b :: l => if b =? x then S (count_leading x l) else O | [] => O end.

(** The loop over the digits: the digits after it and the carry. *)
Fixpoint encode_digits (digits : bytes) (carry : Z) : bytes * Z :=
  match digits with
  | [] => ([], carry)
  | d :: digits =>
      let carry := u32 (carry + u32 (Z.shiftl d 8)) in
      let '(ds, c) := encode_digits digits (carry `div` 58) in
      (u8 (carry `mod` 58) :: ds, c)
  end.
(** [while carry > 0]: a [u32] is used up after at most 32 divisions. *)
Fixpoint encode_carry (fuel : nat) (carry : Z) : bytes :=
  match fuel with
  | O => []
  | S fuel => if 0 <? carry then u8 (carry `mod` 58) :: encode_carry fuel (carry `div` 58) else []
  end.
Definition encode_byte (digits : bytes) (byte : Z) : bytes :=
  let '(ds, carry) := encode_digits digits byte in ds ++ encode_carry 32 carry.

Definition bs58_encode (data : bytes) : bytes :=
  let zeros := count_leading 0 data in
  let digits := foldl encode_byte [] data in
  replicate zeros 49 ++ map (λ d, nth (Z.to_nat d) B58_ALPHABET 0) (rev digits).

(** [B58_ALPHABET.iter().position(|&c| c == ch)] *)
Fixpoint position (ch : Z) (l : bytes) : option Z :=
  match l with
  | [] => None
  | c :: l => if c =? ch then Some 0 else n ← position ch l; Some (n + 1)
  end.

Fixpoint decode_digits (digits : bytes) (carry : Z) : bytes * Z :=
  match digits with
  | [] => ([], carry)
  | b :: digits =>
      let carry := u32 (carry + u32 (b * 58)) in
      let '(ds, c) := decode_digits digits (Z.shiftr carry 8) in
      (u8 (Z.land carry 255) :: ds, c)
  end.
Fixpoint decode_carry (fuel : nat) (carry : Z) : bytes :=
  match fuel with
  | O => []
  | S fuel => if 0 <? carry then u8 (Z.land carry 255) :: decode_carry fuel (Z.shiftr carry 8) else []
  end.
(** The loop over the characters; an error names the character. *)
Fixpoint decode_chars (input digits : bytes) : result bytes Z :=
  match input with
  | [] => Ok digits
  | ch :: input =>
      match position ch B58_ALPHABET with
      | None => Err ch
      | Some val =>
          let '(ds, carry) := decode_digits digits val in
          decode_chars input (ds ++ decode_carry 32 carry)
      end
  end.
Definition bs58_decode (input : bytes) : result bytes Z :=
  let zeros := count_leading 49 input in
  match decode_chars input [] with
  | Err ch => Err ch
  | Ok digits => Ok (replicate zeros 0 ++ rev digits)
  end.

End Base58.
Import Base58.

(** ** Changing the base of a number

    Digits are little-endian here. *)

Definition digits_in (b : Z) (l : bytes) : Prop := Forall (λ d, 0 ≤ d < b) l.
Fixpoint value (b : Z) (l : bytes) : Z := match l with [] => 0 | d :: l => d + b * value b l end.
(** No leading zero. *)
Fixpoint canonical (l : bytes) : Prop :=
  match l with [] => True | d :: l => (l = [] → d ≠ 0) ∧ canonical l end.

Lemma value_nonneg b l : 0 < b → digits_in b l → 0 ≤ value b l.
Proof. intros Hb. induction 1; simpl; nia. Qed.

Lemma canonical_zero b l : 0 < b → digits_in b l → canonical l → value b l = 0 → l = [].
Proof.
  intros Hb. induction 1 as [|d l Hd Hl IH]; [done|]. simpl. intros [Hne Hc] Hv.
  pose proof (value_nonneg b l Hb Hl). assert (d = 0) as -> by nia.
  destruct Hne; [|done]. apply IH; [done|nia].
Qed.

(** A number has one canonical form. *)
Lemma canonical_unique b l1 l2 : 1 < b → digits_in b l1 → digits_in b l2 → canonical l1 → canonical l2 →
  value b l1 = value b l2 → l1 = l2.
Proof.
  intros Hb H1. revert l2. induction H1 as [|d1 l1 Hd1 Hl1 IH]; intros l2 H2 C1 C2 Hv.
  { symmetry. apply (canonical_zero b); [lia|done|done|]. simpl in Hv. lia. }
  destruct H2 as [|d2 l2 Hd2 Hl2].
  { apply (canonical_zero b) in Hv; [done|lia|by constructor|done]. }
  simpl in *. pose proof (value_nonneg b l1 ltac:(lia) Hl1). pose proof (value_nonneg b l2 ltac:(lia) Hl2).
  assert (value b l1 = value b l2 ∧ d1 = d2) as [Hv' ->].
  { apply (Z.div_mod_unique b); lia. }
  f_equal. apply IH; [done|tauto|tauto|done].
Qed.

(** Multiplying by [m] and adding, in base [b]. *)
Fixpoint mul_add (m b : Z) (digits : bytes) (carry : Z) : bytes * Z :=
  match digits with
  | [] => ([], carry)
  | d :: digits =>
      let '(ds, c) := mul_add m b digits ((carry + d * m) `div` b) in
      ((carry + d * m) `mod` b :: ds, c)
  end.
Fixpoint spill (b : Z) (fuel : nat) (carry : Z) : bytes :=
  match fuel with
  | O => []
  | S fuel => if 0 <? carry then carry `mod` b :: spill b fuel (carry `div` b) else []
  end.
Definition push (m b : Z) (digits : bytes) (x : Z) : bytes :=
  let '(ds, c) := mul_add m b digits x in ds ++ spill b 32 c.
Definition rebase (m b : Z) (l : bytes) : bytes := foldl (push m b) [] l.

(** Big-endian digits of base [m] to big-endian digits of base [b]; leading
    zeros are kept one for one. *)
Definition convert (m b : Z) (l : bytes) : bytes :=
  replicate (count_leading 0 l) 0 ++ rev (rebase m b l).

Section rebase.
Context (m b : Z).
Hypothesis (Hm : 1 < m ≤ 256) (Hb : 1 < b ≤ 256).

Lemma mul_add_spec digits carry : digits_in b digits → 0 ≤ carry < m →
  let '(ds, c) := mul_add m b digits carry in
  digits_in b ds ∧ length ds = length digits ∧ 0 ≤ c < m ∧
  value b ds + b ^ Z.of_nat (length digits) * c = m * value b digits + carry.
Proof.
  intros Hd. revert carry. induction Hd as [|d digits Hd Hds IH]; intros carry Hc; cbn [mul_add].
  { simpl. split_and!; [constructor|done|lia|lia|lia]. }
  pose proof (Z.div_mod (carry + d * m) b ltac:(lia)) as Hdm.
  pose proof (Z.mod_pos_bound (carry + d * m) b ltac:(lia)) as Hmod.
  assert (0 ≤ (carry + d * m) `div` b < m) as Hq.
  { split; [apply Z.div_pos; nia|apply Z.div_lt_upper_bound; nia]. }
  specialize (IH _ Hq). destruct (mul_add _ _ _ _) as [ds c]. destruct IH as (Hin & Hlen & Hc' & Hv).
  cbn [length value]. split_and!; [by constructor|lia|lia|lia|].
  rewrite Nat2Z.inj_succ, Z.pow_succ_r by lia. nia.
Qed.

Lemma spill_spec fuel c : 0 ≤ c < 2 ^ Z.of_nat fuel →
  digits_in b (spill b fuel c) ∧ canonical (spill b fuel c) ∧ value b (spill b fuel c) = c ∧
  (0 < c → spill b fuel c ≠ []).
Proof.
  revert c. induction fuel as [|fuel IH]; intros c Hc; simpl.
  { rewrite Z.pow_0_r in Hc. split_and!; [constructor|done|lia|lia]. }
  destruct (Z.ltb_spec 0 c); [|split_and!; [constructor|done|simpl; lia|lia]].
  rewrite Nat2Z.inj_succ, Z.pow_succ_r in Hc by lia.
  pose proof (Z.div_mod c b ltac:(lia)) as Hdm. pose proof (Z.mod_pos_bound c b ltac:(lia)) as Hmod.
  destruct (IH (c `div` b)) as (Hin & Hcan & Hv & Hne).
  { split; [apply Z.div_pos; lia|apply Z.div_lt_upper_bound; nia]. }
  split_and!; [by constructor| |simpl; lia|done]. split; [|done]. intros Hnil.
  assert (c `div` b = 0) by (rewrite <- Hv, Hnil; done). lia.
Qed.

Lemma canonical_app l1 l2 : canonical l2 → l2 ≠ [] → canonical (l1 ++ l2).
Proof.
  intros H2 Hne. induction l1 as [|d l1 IH]; [done|]. simpl in *. split; [|done].
  by intros [_ ->]%app_eq_nil.
Qed.

Lemma canonical_same_length l1 l2 : digits_in b l1 → digits_in b l2 → length l1 = length l2 →
  canonical l1 → value b l1 ≤ value b l2 → canonical l2.
Proof.
  intros H1. revert l2. induction H1 as [|d1 l1 Hd1 Hl1 IH]; intros l2 H2 Hlen C1 Hv.
  { by destruct l2. }
  destruct H2 as [|d2 l2 Hd2 Hl2]; [done|]. simpl in *. destruct C1 as [Hne C1]. split.
  - intros ->. destruct l1; [|done]. simpl in *. specialize (Hne eq_refl). lia.
  - apply IH; [done|lia|done|]. pose proof (value_nonneg b l1 ltac:(lia) Hl1). nia.
Qed.

Lemma value_app l1 l2 : value b (l1 ++ l2) = value b l1 + b ^ Z.of_nat (length l1) * value b l2.
Proof.
  induction l1 as [|d l1 IH]; cbn [value app length]; [rewrite Z.pow_0_r; lia|].
  rewrite IH, Nat2Z.inj_succ, Z.pow_succ_r by lia. lia.
Qed.

Lemma push_spec digits x : digits_in b digits → canonical digits → 0 ≤ x < m →
  digits_in b (push m b digits x) ∧ canonical (push m b digits x) ∧
  value b (push m b digits x) = m * value b digits + x.
Proof.
  intros Hd Hcan Hx. unfold push. pose proof (mul_add_spec digits x Hd Hx) as Hma.
  destruct (mul_add m b digits x) as [ds c]. destruct Hma as (Hin & Hlen & Hc & Hv).
  destruct (spill_spec 32 c) as (Hsin & Hscan & Hsv & Hsne).
  { assert (2 ^ Z.of_nat 32 = 4294967296) as -> by done. lia. }
  split_and!.
  - by apply Forall_app.
  - destruct (Z.eq_dec c 0) as [->|].
    + rewrite app_nil_r. apply (canonical_same_length digits); [done|done|done|done|].
      pose proof (value_nonneg b digits ltac:(lia) Hd). nia.
    + apply canonical_app; [done|]. apply Hsne. lia.
  - rewrite value_app, Hsv, Hlen. lia.
Qed.

(** The value of big-endian digits. *)
Definition be_value (l : bytes) : Z := value m (rev l).

Lemma be_value_snoc l x : be_value (l ++ [x]) = m * be_value l + x.
Proof. unfold be_value. rewrite rev_app_distr. simpl. lia. Qed.

Lemma rebase_spec l : digits_in m l →
  digits_in b (rebase m b l) ∧ canonical (rebase m b l) ∧ value b (rebase m b l) = be_value l.
Proof.
  induction l as [|x l IH] using rev_ind; intros Hl.
  { split_and!; [constructor|done|done]. }
  apply Forall_app in Hl as [Hl Hx]. apply Forall_cons in Hx as [Hx _].
  destruct (IH Hl) as (Hin & Hcan & Hv). unfold rebase. rewrite foldl_app. simpl. fold (rebase m b l).
  rewrite be_value_snoc, <- Hv. by apply push_spec.
Qed.
End rebase.

(** A list is its leading zeros and a canonical number. *)
Definition significant (l : bytes) : bytes := drop (count_leading 0 l) l.
Lemma split_leading l : l = replicate (count_leading 0 l) 0 ++ significant l.
Proof.
  unfold significant. induction l as [|x l IH]; [done|]. simpl.
  destruct (Z.eqb_spec x 0) as [->|]; [|done]. simpl. by f_equal.
Qed.
Lemma canonical_snoc l x : x ≠ 0 → canonical (l ++ [x]).
Proof. intros Hx. apply canonical_app; [|done]. simpl. auto. Qed.
Lemma significant_canonical l : canonical (rev (significant l)).
Proof.
  unfold significant. induction l as [|x l IH]; [done|]. simpl.
  destruct (Z.eqb_spec x 0) as [->|Hx]; [exact IH|]. simpl. by apply canonical_snoc.
Qed.
Lemma count_leading_zeros n l : count_leading 0 (replicate n 0 ++ l) = (n + count_leading 0 l)%nat.
Proof. induction n as [|n IH]; simpl; [done|]. by rewrite IH. Qed.
Lemma count_leading_canonical l : canonical l → count_leading 0 (rev l) = 0%nat.
Proof.
  destruct l as [|x l _] using rev_ind; [done|]. intros Hc. rewrite rev_app_distr. simpl.
  destruct (Z.eqb_spec x 0) as [->|]; [|done]. exfalso.
  induction l as [|y l IH]; simpl in Hc; [by destruct Hc as [H _]; apply H|]. apply IH, Hc.
Qed.
Lemma value_zeros m l n : value m (rev (replicate n 0 ++ l)) = value m (rev l).
Proof.
  rewrite rev_app_distr. assert (rev (replicate n 0) = replicate n 0) as ->.
  { induction n as [|n IH]; [done|]. simpl. rewrite IH. clear IH. induction n; [done|]. simpl. by f_equal. }
  induction (rev l) as [|x k IH]; simpl; [|by rewrite IH].
  induction n as [|n IH]; simpl; [done|]. rewrite IH. lia.
Qed.

Lemma convert_digits m b l : 1 < m ≤ 256 → 1 < b ≤ 256 → digits_in m l → digits_in b (convert m b l).
Proof.
  intros Hm Hb Hl. unfold convert. apply Forall_app. split; [apply Forall_replicate; lia|].
  apply Forall_rev. by apply (rebase_spec m b).
Qed.

(** Converting back gives the digits back. *)
Lemma convert_convert m b l : 1 < m ≤ 256 → 1 < b ≤ 256 → digits_in m l →
  convert b m (convert m b l) = l.
Proof.
  intros Hm Hb Hl. destruct (rebase_spec m b Hm Hb l Hl) as (Hin & Hcan & Hv).
  unfold convert at 1. unfold convert at 1.
  rewrite count_leading_zeros, (count_leading_canonical _ Hcan), Nat.add_0_r.
  pose proof (convert_digits m b l Hm Hb Hl) as Hcin.
  destruct (rebase_spec b m Hb Hm (convert m b l) Hcin) as (Hin2 & Hcan2 & Hv2).
  rewrite (split_leading l) at 3. f_equal. rewrite <- (rev_involutive (significant l)). f_equal.
  apply (canonical_unique m); [lia|done| |done|apply significant_canonical|].
  - apply Forall_rev. unfold significant. by apply Forall_drop.
  - rewrite Hv2. unfold be_value, convert. rewrite value_zeros, rev_involutive, Hv. unfold be_value.
    rewrite (split_leading l) at 1. by rewrite value_zeros.
Qed.

(** ** The code's loops are these conversions *)

Definition alpha (d : Z) : Z := nth (Z.to_nat d) B58_ALPHABET 0.

Lemma below_58 (P : Z → Prop) : Forall P (seqZ 0 58) → ∀ d, 0 ≤ d < 58 → P d.
Proof. intros H d Hd. rewrite Forall_forall in H. apply H, elem_of_seqZ. lia. Qed.
Lemma position_alpha d : 0 ≤ d < 58 → position (alpha d) B58_ALPHABET = Some d.
Proof. revert d. apply below_58. repeat constructor. Qed.
Lemma alpha_one d : 0 ≤ d < 58 → (alpha d =? 49) = (d =? 0).
Proof. revert d. apply below_58. repeat constructor. Qed.
Lemma position_nth ch l v : position ch l = Some v → 0 ≤ v < Z.of_nat (length l) ∧ nth (Z.to_nat v) l 0 = ch.
Proof.
  revert v. induction l as [|c l IH]; intros v Hv; simpl in *; [done|].
  destruct (Z.eqb_spec c ch) as [->|Hne]; [injection Hv as <-; split; [lia|done]|].
  apply bind_Some in Hv as (n & Hn & [= <-]). destruct (IH _ Hn) as [Hr Hnth]. split; [lia|].
  by replace (Z.to_nat (n + 1)) with (S (Z.to_nat n)) by lia.
Qed.

Lemma u32_small z : 0 ≤ z < 2 ^ 32 → u32 z = z.
Proof. apply Z.mod_small. Qed.

Lemma encode_digits_spec digits carry : digits_in 58 digits → 0 ≤ carry < 256 →
  encode_digits digits carry = mul_add 256 58 digits carry.
Proof.
  intros Hd. revert carry. induction Hd as [|d digits Hd Hds IH]; intros carry Hc; [done|].
  cbn [encode_digits mul_add]. rewrite Z.shiftl_mul_pow2 by lia. change (2 ^ 8) with 256.
  rewrite (u32_small (d * 256)), u32_small by lia.
  rewrite IH by (split; [apply Z.div_pos; lia|apply Z.div_lt_upper_bound; lia]).
  pose proof (Z.mod_pos_bound (carry + d * 256) 58 ltac:(lia)).
  destruct (mul_add _ _ _ _). by rewrite u8_small by lia.
Qed.
Lemma encode_carry_spec fuel carry : encode_carry fuel carry = spill 58 fuel carry.
Proof.
  revert carry. induction fuel as [|fuel IH]; intros carry; [done|]. cbn [encode_carry spill].
  pose proof (Z.mod_pos_bound carry 58 ltac:(lia)). by rewrite IH, u8_small by lia.
Qed.
Lemma encode_byte_spec digits x : digits_in 58 digits → 0 ≤ x < 256 →
  encode_byte digits x = push 256 58 digits x.
Proof.
  intros Hd Hx. unfold encode_byte, push. rewrite encode_digits_spec by done.
  destruct (mul_add _ _ _ _). by rewrite encode_carry_spec.
Qed.
Lemma encode_bytes_spec data : all_bytes data → foldl encode_byte [] data = rebase 256 58 data.
Proof.
  induction data as [|x data IH] using rev_ind; intros Hd; [done|].
  apply Forall_app in Hd as [Hd Hx]. apply Forall_cons in Hx as [Hx _].
  unfold rebase. rewrite !foldl_app. simpl. rewrite IH by done. fold (rebase 256 58 data).
  apply encode_byte_spec; [|done]. by apply (rebase_spec 256 58).
Qed.
Lemma bs58_encode_spec data : all_bytes data → bs58_encode data = map alpha (convert 256 58 data).
Proof.
  intros Hd. unfold bs58_encode, convert. rewrite encode_bytes_spec, map_app by done. f_equal.
  generalize (count_leading 0 data). intros k. induction k as [|k IH]; simpl; [done|]. by f_equal.
Qed.

Lemma decode_digits_spec digits carry : digits_in 256 digits → 0 ≤ carry < 58 →
  decode_digits digits carry = mul_add 58 256 digits carry.
Proof.
  intros Hd. revert carry. induction Hd as [|d digits Hd Hds IH]; intros carry Hc; [done|].
  cbn [decode_digits mul_add]. rewrite (u32_small (d * 58)), u32_small by lia.
  rewrite Z.shiftr_div_pow2 by lia. change (2 ^ 8) with 256.
  rewrite IH by (split; [apply Z.div_pos; lia|apply Z.div_lt_upper_bound; lia]).
  pose proof (Z.mod_pos_bound (carry + d * 58) 256 ltac:(lia)).
  change 255 with (Z.ones 8). rewrite Z.land_ones by lia. change (2 ^ 8) with 256.
  destruct (mul_add _ _ _ _). by rewrite u8_small by lia.
Qed.
Lemma decode_carry_spec fuel carry : decode_carry fuel carry = spill 256 fuel carry.
Proof.
  revert carry. induction fuel as [|fuel IH]; intros carry; [done|]. cbn [decode_carry spill].
  pose proof (Z.mod_pos_bound carry 256 ltac:(lia)).
  change 255 with (Z.ones 8). rewrite Z.land_ones, Z.shiftr_div_pow2 by lia. change (2 ^ 8) with 256.
  by rewrite IH, u8_small by lia.
Qed.

Lemma decode_chars_alpha vals digits : digits_in 58 vals → digits_in 256 digits → canonical digits →
  decode_chars (map alpha vals) digits = Ok (foldl (push 58 256) digits vals).
Proof.
  intros Hv. revert digits. induction Hv as [|v vals Hv Hvs IH]; intros digits Hd Hc; [done|].
  cbn [map decode_chars foldl]. rewrite position_alpha by done.
  rewrite <- IH by (by apply push_spec). unfold push.
  rewrite decode_digits_spec by done. destruct (mul_add _ _ _ _). by rewrite decode_carry_spec.
Qed.
Lemma decode_chars_Ok input digits ds : decode_chars input digits = Ok ds →
  ∃ vals, digits_in 58 vals ∧ input = map alpha vals.
Proof.
  revert digits. induction input as [|ch input IH]; intros digits Hrun; [exists []; by repeat constructor|].
  cbn [decode_chars] in Hrun. destruct (position ch B58_ALPHABET) as [v|] eqn:Hp; [|done].
  apply position_nth in Hp as [Hv Hch]. destruct (decode_digits digits v) as [ds' c].
  destruct (IH _ Hrun) as (vals & Hvals & ->). exists (v :: vals).
  split; [by constructor|]. simpl. by rewrite <- Hch.
Qed.
Lemma bs58_decode_alpha vals : digits_in 58 vals → bs58_decode (map alpha vals) = Ok (convert 58 256 vals).
Proof.
  intros Hv. unfold bs58_decode. rewrite decode_chars_alpha by (done || constructor).
  unfold convert. do 3 f_equal.
  induction Hv as [|v vals Hv Hvs IH]; [done|]. simpl. rewrite alpha_one by done. by rewrite IH.
Qed.

(** Base58 is exact in both directions: decoding succeeds on a text with
    the result [data] if and only if [data] are bytes whose encoding is that
    text.  So what is encoded is read back, leading zeros included; and no
    two texts are read as the same bytes. *)
Theorem base58_exact text data :
  bs58_decode text = Ok data ↔ all_bytes data ∧ bs58_encode data = text.
Proof.
  split.
  - intros Hd. assert (∃ ds, decode_chars text [] = Ok ds) as [ds Hds].
    { unfold bs58_decode in Hd. destruct (decode_chars text []) as [ds|]; [by eexists|done]. }
    apply decode_chars_Ok in Hds as (vals & Hv & ->). rewrite bs58_decode_alpha in Hd by done.
    injection Hd as <-. assert (all_bytes (convert 58 256 vals)) as Hb by (by apply convert_digits).
    split; [done|]. by rewrite bs58_encode_spec, convert_convert.
  - intros [Hb <-]. pose proof (convert_digits 256 58 data ltac:(lia) ltac:(lia) Hb) as Hc.
    by rewrite bs58_encode_spec, bs58_decode_alpha, convert_convert.
Qed.

(** The system program, 32 zero bytes, is 32 ones. *)
Example system_program_text : bs58_encode (replicate 32 0) = replicate 32 49.
Proof. reflexivity. Qed.
