(* ===== verification/SolanaTx.v ===== *)
(** * Solana transactions: [src/src/wallet/solana_tx.rs]

    Instructions, the message they are compiled into, its wire format and its
    signatures.  SHA-256 and Ed25519 are parameters, as is the HTTP client. *)
From S2P Require Import Prelude Monad Text Bytes Base58 Rpc.
Open Scope Z_scope.

Record AccountMeta := mkMeta { pubkey : bytes; is_signer : bool; is_writable : bool }.
Record Instruction := mkIx { program_id : bytes; accounts : list AccountMeta; ix_data : bytes }.
Record TransactionMessage := mkMessage {
  recent_blockhash : bytes;
  instructions : list Instruction;
  fee_payer : bytes;
}.
Record SignedTransaction := mkSignedTx { signatures : list bytes; message : bytes }.

(** [n.to_le_bytes()] *)
Definition to_le (n : nat) (v : Z) : bytes := rev (to_be n v).

Module SolanaTx.

Definition SPL_TOKEN_PROGRAM : bytes :=
  [6; 221; 246; 225; 215; 101; 161; 147; 217; 203; 225; 70; 206; 235; 121; 172;
   28; 180; 133; 237; 95; 91; 55; 145; 58; 140; 245; 133; 126; 255; 0; 169].
Definition ASSOCIATED_TOKEN_PROGRAM : bytes :=
  [140; 151; 37; 143; 78; 36; 137; 241; 187; 61; 16; 41; 20; 142; 13; 131;
   11; 90; 19; 153; 218; 255; 16; 132; 4; 142; 123; 216; 219; 233; 248; 89].
Definition SYSTEM_PROGRAM : bytes := replicate 32 0.

(** ** Instructions *)

Definition spl_transfer_instruction (source destination authority : bytes) (amount : Z) : Instruction :=
  mkIx SPL_TOKEN_PROGRAM
    [mkMeta source false true; mkMeta destination false true; mkMeta authority true false]
    (3 :: to_le 8 amount).

Section programs.
Context (sha256 : bytes → bytes).

(** A heuristic of the source, in place of the check of the curve. *)
Definition is_likely_on_curve (b : bytes) : bool := bool_decide (b = replicate 32 0).

Definition pda_hash (seeds : list bytes) (bump : Z) (program_id : bytes) : bytes :=
  sha256 (concat seeds ++ [bump] ++ program_id ++ as_bytes "ProgramDerivedAddress").

(** [for bump in (0u8..=255).rev()] *)
Fixpoint find_bump (seeds : list bytes) (program_id : bytes) (bumps : list Z) : bytes * Z :=
  match bumps with
  | [] => (replicate 32 0, 0)
  | bump :: bumps =>
      let hash := pda_hash seeds bump program_id in
      if negb (is_likely_on_curve hash) then (hash, bump) else find_bump seeds program_id bumps
  end.
Definition find_program_address (seeds : list bytes) (program_id : bytes) : bytes * Z :=
  find_bump seeds program_id (rev (seqZ 0 256)).

Definition derive_ata (owner mint : bytes) : bytes :=
  fst (find_program_address [owner; SPL_TOKEN_PROGRAM; mint] ASSOCIATED_TOKEN_PROGRAM).

Definition build_create_ata_instruction (payer owner mint : bytes) : Instruction :=
  let ata := derive_ata owner mint in
  mkIx ASSOCIATED_TOKEN_PROGRAM
    [mkMeta payer true true; mkMeta ata false true; mkMeta owner false false;
     mkMeta mint false false; mkMeta SYSTEM_PROGRAM false false; mkMeta SPL_TOKEN_PROGRAM false false]
    [1].

Definition spl_transfer_with_ata (source_ata dest_owner mint authority : bytes) (amount : Z)
    (payer : bytes) : list Instruction :=
  let dest_ata := derive_ata dest_owner mint in
  [build_create_ata_instruction payer dest_owner mint;
   spl_transfer_instruction source_ata dest_ata authority amount].

Definition anchor_discriminator (name : string) : bytes := take 8 (sha256 (as_bytes name)).

Definition settle_instruction (program_id config authority mint buyer_account seller_account
    fee_account : bytes) (amount : Z) (fill_id : bytes) : Instruction :=
  mkIx program_id
    [mkMeta config false true; mkMeta authority true false; mkMeta mint false false;
     mkMeta buyer_account false true; mkMeta seller_account false true; mkMeta fee_account false true]
    (anchor_discriminator "global:settle" ++ to_le 8 amount ++ fill_id).
End programs.

(** ** The message *)

(** A [u16]: [val as u16] where a length is passed. *)
Definition u16 (z : Z) : Z := wrap_u 16 z.

Definition encode_compact_u16 (val : Z) : bytes :=
  if val <? 128 then [u8 val]
  else if val <? 16384 then [u8 (Z.lor (Z.land val 127) 128); u8 (Z.shiftr val 7)]
  else [u8 (Z.lor (Z.land val 127) 128); u8 (Z.lor (Z.land (Z.shiftr val 7) 127) 128);
        u8 (Z.shiftr val 14)].

Definition new (fee_payer recent_blockhash : bytes) (instructions : list Instruction)
  : TransactionMessage := mkMessage recent_blockhash instructions fee_payer.

(** An account of the message with its flags, and the accounts so far with the
    set of their keys. *)
Abbreviation Entry := (Z * bytes)%type.
Definition flags_of (a : AccountMeta) : Z :=
  Z.lor (u8 (Z.shiftl (Z.b2z (is_signer a)) 1)) (Z.b2z (is_writable a)).
Definition add_account (flags : Z) (key : bytes) (st : list Entry * list bytes)
  : list Entry * list bytes :=
  if bool_decide (key ∈ snd st) then st else (fst st ++ [(flags, key)], key :: snd st).
Definition collect_ix (st : list Entry * list bytes) (ix : Instruction) : list Entry * list bytes :=
  add_account 0 (program_id ix)
    (foldl (λ st a, add_account (flags_of a) (pubkey a) st) st (accounts ix)).
Definition collect (m : TransactionMessage) : list Entry :=
  fst (foldl collect_ix ([(3, fee_payer m)], [fee_payer m]) (instructions m)).

(** The bits of the flags. *)
Definition signer_bit (e : Entry) : Z := Z.land (Z.shiftr (fst e) 1) 1.
Definition writable_bit (e : Entry) : Z := Z.land (fst e) 1.

(** Not [Greater] in the comparison of the sort. *)
Definition entry_le (a b : Entry) : bool :=
  if signer_bit a =? signer_bit b then writable_bit b <=? writable_bit a
  else signer_bit b <? signer_bit a.

(** [iter().position(p)] *)
Fixpoint find_index {A} (p : A → bool) (l : list A) : option nat :=
  match l with
  | [] => None
  | x :: l => if p x then Some O else S <$> find_index p l
  end.

Definition key_eqb (k1 k2 : bytes) : bool := bool_decide (k1 = k2).

(** The fee payer is moved to the front. *)
Definition payer_first (payer : bytes) (l : list Entry) : list Entry :=
  match find_index (λ a, key_eqb (snd a) payer) l with
  | Some (S n) =>
      match l !! S n with Some fp => fp :: delete (S n) l | None => l end
  | _ => l
  end.

Definition account_list (m : TransactionMessage) : list Entry :=
  payer_first (fee_payer m) (sort_by entry_le (collect m)).

Definition count (p : Entry → bool) (l : list Entry) : Z := Z.of_nat (length (List.filter p l)).
Definition num_signers (l : list Entry) : Z := count (λ a, signer_bit a =? 1) l.
Definition num_readonly_signed (l : list Entry) : Z :=
  count (λ a, (signer_bit a =? 1) && (writable_bit a =? 0)) l.
Definition num_readonly_unsigned (l : list Entry) : Z :=
  count (λ a, (signer_bit a =? 0) && (writable_bit a =? 0)) l.

Definition index_of (keys : list bytes) (key : bytes) : Z :=
  u8 (Z.of_nat (default O (find_index (λ k, key_eqb k key) keys))).

Definition len_u16 {A} (l : list A) : bytes := encode_compact_u16 (u16 (Z.of_nat (length l))).

Definition serialise_ix (keys : list bytes) (ix : Instruction) : bytes :=
  [index_of keys (program_id ix)] ++
  len_u16 (accounts ix) ++ map (λ a, index_of keys (pubkey a)) (accounts ix) ++
  len_u16 (ix_data ix) ++ ix_data ix.

Definition serialise (m : TransactionMessage) : bytes :=
  let accounts := account_list m in
  let keys := map snd accounts in
  [u8 (num_signers accounts); u8 (num_readonly_signed accounts); u8 (num_readonly_unsigned accounts)] ++
  len_u16 keys ++ concat keys ++
  recent_blockhash m ++
  len_u16 (instructions m) ++ concat (map (serialise_ix keys) (instructions m)).

(** ** Signing and submitting *)

Section signing.
(** Ed25519: the signature of a message under a seed. *)
Context (ed25519 : bytes → bytes → result bytes string).

Fixpoint sign_all (serialised : bytes) (signers : list bytes) : result (list bytes) string :=
  match signers with
  | [] => Ok []
  | seed :: signers =>
      match ed25519 seed serialised with
      | Err e => Err e
      | Ok sig =>
          if negb (length sig =? 64)%nat then Err "Signature not 64 bytes"%string
          else match sign_all serialised signers with Ok sigs => Ok (sig :: sigs) | Err e => Err e end
      end
  end.
Definition sign (m : TransactionMessage) (signers : list bytes) : result SignedTransaction string :=
  let serialised := serialise m in
  match sign_all serialised signers with
  | Ok sigs => Ok (mkSignedTx sigs serialised)
  | Err e => Err e
  end.
End signing.

Definition to_bytes (tx : SignedTransaction) : bytes :=
  len_u16 (signatures tx) ++ concat (signatures tx) ++ message tx.
Definition to_base58 (tx : SignedTransaction) : bytes := Base58.bs58_encode (to_bytes tx).

Section rpc.
Context {T : Type}.
(** POST of a JSON body and its answer; a timer; the text of a byte string. *)
Context (post_json : string → Value → M T Value HttpError) (sleep_for : Z → M T unit string)
        (text_of : bytes → string).

Definition request (method : string) (params : Value) : Value :=
  JObject [("jsonrpc", JString "2.0"); ("id", JNumber "1"); ("method", JString method);
           ("params", params)]%string.

Definition http_text (x : HttpError) : string := match x with SendFailed e | BodyFailed e => e end.

Definition fetch_recent_blockhash (endpoint : string) : M T bytes string :=
  let* resp := map_err http_text (post_json endpoint
    (request "getLatestBlockhash" (JArray [JObject [("commitment", JString "finalized")]%string]))) in
  let* hash_str := of_option "Missing blockhash in response"%string
    (r ← get "result" resp; v ← get "value" r; b ← get "blockhash" v; as_str b) in
  match Base58.bs58_decode (as_bytes hash_str) with
  | Err ch => throw ("Invalid base58 character: " +:+ text_of [ch])%string
  | Ok b => if (length b =? 32)%nat then ret b else throw "Blockhash not 32 bytes"%string
  end.

(** [for attempt in 0..=max_retries], from [attempt] on with [n] to come. *)
Fixpoint send_loop (n : nat) (endpoint : string) (body : Value) (attempt max_retries : Z)
  : M T string string :=
  match n with
  | O => throw "Max retries exceeded"%string
  | S n =>
      let again := sleep_for (u64 (500 * (attempt + 1))) ;;;
                   send_loop n endpoint body (attempt + 1) max_retries in
      let* resp := Monad.attempt (post_json endpoint body) in
      match resp with
      | Ok json =>
          match get "error" json with
          | Some err =>
              let msg := default "Unknown"%string (get "message" err ≫= as_str) in
              if (contains "BlockhashNotFound" msg || contains "Node is behind" msg)
                 && (attempt <? max_retries)
              then again else throw ("RPC error: " +:+ msg)%string
          | None =>
              match get "result" json ≫= as_str with
              | Some sig => ret sig
              | None => throw "Missing result in response"%string
              end
          end
      | Err (BodyFailed e) => throw e
      | Err (SendFailed e) => if attempt <? max_retries then again else throw e
      end
  end.

Definition send_transaction_with_retry (endpoint : string) (signed_tx : SignedTransaction)
    (max_retries : Z) : M T string string :=
  let encoded := text_of (to_base58 signed_tx) in
  send_loop (S (Z.to_nat max_retries)) endpoint
    (request "sendTransaction" (JArray [JString encoded; JObject
      [("encoding", JString "base58"); ("skipPreflight", JBool false);
       ("preflightCommitment", JString "confirmed"); ("maxRetries", JNumber "0")]%string]))
    0 max_retries.
End rpc.
End SolanaTx.
