(* ===== verification/SolanaTxCorrect.v ===== *)
(** * What a compiled Solana message means

    A reference parser, after the documentation of the wire format, reads the
    message back: the keys, what each may do, and the instructions. *)
From S2P Require Import Prelude Monad Text Bytes Base58 Rpc SolanaTx.
Import SolanaTx.
Open Scope Z_scope.

(** ** The reference parser *)

Record CompiledIx := mkCompiled { ci_program : Z; ci_accounts : list Z; ci_data : bytes }.
Record Parsed := mkParsed {
  ps_signers : Z;
  ps_readonly_signed : Z;
  ps_readonly_unsigned : Z;
  ps_keys : list bytes;
  ps_blockhash : bytes;
  ps_instructions : list CompiledIx;
}.

Definition read_u8 (bs : bytes) : option (Z * bytes) :=
  match bs with b :: r => Some (b, r) | [] => None end.
(** A length: seven bits a byte, the lowest first, up to three bytes. *)
Definition read_len (bs : bytes) : option (Z * bytes) :=
  '(a, r) ← read_u8 bs;
  if a <? 128 then Some (a, r) else
  '(b, r) ← read_u8 r;
  if b <? 128 then Some (a - 128 + 128 * b, r) else
  '(c, r) ← read_u8 r;
  Some (a - 128 + 128 * (b - 128) + 16384 * c, r).
Fixpoint read_many {A} (n : nat) (p : bytes → option (A * bytes)) (bs : bytes)
  : option (list A * bytes) :=
  match n with
  | O => Some ([], bs)
  | S n => '(x, r) ← p bs; '(xs, r) ← read_many n p r; Some (x :: xs, r)
  end.
(** A length and as many items. *)
Definition read_vec {A} (p : bytes → option (A * bytes)) (bs : bytes) : option (list A * bytes) :=
  '(n, r) ← read_len bs; read_many (Z.to_nat n) p r.
Definition read_ix (bs : bytes) : option (CompiledIx * bytes) :=
  '(pid, r) ← read_u8 bs;
  '(accs, r) ← read_vec read_u8 r;
  '(data, r) ← read_vec read_u8 r;
  Some (mkCompiled pid accs data, r).
Definition parse_message (bs : bytes) : option Parsed :=
  '(ns, r) ← read_u8 bs;
  '(rs, r) ← read_u8 r;
  '(ru, r) ← read_u8 r;
  '(keys, r) ← read_vec (split_at 32) r;
  '(hash, r) ← split_at 32 r;
  '(ixs, r) ← read_vec read_ix r;
  match r with [] => Some (mkParsed ns rs ru keys hash ixs) | _ => None end.

(** What the chain lets the key at an index do. *)
Definition may_sign (p : Parsed) (i : nat) : Prop := Z.of_nat i < ps_signers p.
Definition may_write (p : Parsed) (i : nat) : Prop :=
  Z.of_nat i < ps_signers p - ps_readonly_signed p ∨
  ps_signers p ≤ Z.of_nat i < Z.of_nat (length (ps_keys p)) - ps_readonly_unsigned p.

(** ** What was asked for

    The keys in the order they are mentioned, the fee payer first. *)
Definition ix_mentions (ix : Instruction) : list Entry :=
  map (λ a, (flags_of a, pubkey a)) (accounts ix) ++ [(0, program_id ix)].
Definition mentions (m : TransactionMessage) : list Entry :=
  (3, fee_payer m) :: concat (map ix_mentions (instructions m)).
Definition first_mention (k : bytes) (l : list Entry) : option Entry :=
  List.find (λ e, key_eqb (snd e) k) l.

(** ** Lengths *)

Lemma below_n (n : Z) (P : Z → Prop) : Forall P (seqZ 0 n) → ∀ d, 0 ≤ d < n → P d.
Proof. intros H d Hd. rewrite Forall_forall in H. apply H, elem_of_seqZ. lia. Qed.
Lemma low_bits v : Z.lor (Z.land v 127) 128 = v `mod` 128 + 128.
Proof.
  change 127 with (Z.ones 7). rewrite Z.land_ones by lia. change (2 ^ 7) with 128.
  pose proof (Z.mod_pos_bound v 128 ltac:(lia)) as H. revert H. generalize (v `mod` 128).
  apply below_n. repeat constructor.
Qed.

Lemma read_len_compact v rest : 0 ≤ v < 65536 → read_len (encode_compact_u16 v ++ rest) = Some (v, rest).
Proof.
  intros Hv. unfold encode_compact_u16. rewrite !low_bits, !Z.shiftr_div_pow2 by lia.
  change (2 ^ 7) with 128. change (2 ^ 14) with 16384.
  pose proof (Z.div_mod v 128 ltac:(lia)). pose proof (Z.mod_pos_bound v 128 ltac:(lia)).
  pose proof (Z.div_mod (v `div` 128) 128 ltac:(lia)). pose proof (Z.mod_pos_bound (v `div` 128) 128 ltac:(lia)).
  destruct (Z.ltb_spec v 128).
  { simpl. unfold read_len. simpl. rewrite u8_small by lia. by rewrite (proj2 (Z.ltb_lt _ _)). }
  destruct (Z.ltb_spec v 16384); simpl; unfold read_len; simpl.
  - assert (0 ≤ v `div` 128 < 128) by (split; [apply Z.div_pos; lia|apply Z.div_lt_upper_bound; lia]).
    rewrite !u8_small by lia. rewrite (proj2 (Z.ltb_ge _ _)), (proj2 (Z.ltb_lt _ _)) by lia.
    do 2 f_equal. lia.
  - assert ((v `div` 128) `div` 128 = v `div` 16384) as Hdd by (by rewrite Z.div_div by lia).
    assert (0 ≤ v `div` 16384 < 4) by (split; [apply Z.div_pos; lia|apply Z.div_lt_upper_bound; lia]).
    rewrite !u8_small by lia. rewrite !(proj2 (Z.ltb_ge _ _)) by lia. do 2 f_equal. lia.
Qed.

Lemma read_many_map {A B} (p : bytes → option (B * bytes)) (enc : A → bytes) (R : A → B → Prop) xs rest :
  (∀ x r, x ∈ xs → ∃ y, p (enc x ++ r) = Some (y, r) ∧ R x y) →
  ∃ ys, read_many (length xs) p (concat (map enc xs) ++ rest) = Some (ys, rest) ∧ Forall2 R xs ys.
Proof.
  induction xs as [|x xs IH]; intros H; [exists []; by repeat constructor|]. simpl.
  rewrite <- app_assoc. destruct (H x (concat (map enc xs) ++ rest)) as (y & -> & Hy); [by left|].
  destruct IH as (ys & Hys & HR); [intros; apply H; by right|]. simpl. rewrite Hys. simpl.
  eexists. split; [done|by constructor].
Qed.

Lemma read_vec_map {A B} (p : bytes → option (B * bytes)) (enc : A → bytes) (R : A → B → Prop) xs rest :
  Z.of_nat (length xs) < 65536 →
  (∀ x r, x ∈ xs → ∃ y, p (enc x ++ r) = Some (y, r) ∧ R x y) →
  ∃ ys, read_vec p (len_u16 xs ++ concat (map enc xs) ++ rest) = Some (ys, rest) ∧ Forall2 R xs ys.
Proof.
  intros Hlen H. unfold read_vec, len_u16, u16, wrap_u. rewrite Z.mod_small by (split; [lia|exact Hlen]).
  rewrite read_len_compact by lia. simpl. rewrite Nat2Z.id. by apply read_many_map.
Qed.

Lemma Forall2_eq_l {A} (l l' : list A) : Forall2 eq l l' → l' = l.
Proof. induction 1; by subst. Qed.

Lemma concat_singletons {A} (l : list A) : concat (map (λ x, [x]) l) = l.
Proof. induction l as [|x l IH]; simpl; [done|]. by rewrite IH. Qed.

(** Bytes after their length. *)
Lemma read_vec_u8 l rest : Z.of_nat (length l) < 65536 →
  read_vec read_u8 (len_u16 l ++ l ++ rest) = Some (l, rest).
Proof.
  intros Hl. destruct (read_vec_map read_u8 (λ x, [x]) eq l rest Hl) as (ys & Hys & Heq); [by eexists|].
  rewrite concat_singletons in Hys. apply Forall2_eq_l in Heq as ->. done.
Qed.

(** ** Collecting the keys *)

Definition add_all (ms : list Entry) (st : list Entry * list bytes) : list Entry * list bytes :=
  foldl (λ st e, add_account (fst e) (snd e) st) st ms.

Lemma collect_mentions m :
  collect m = fst (add_all (concat (map ix_mentions (instructions m)))
                     ([(3, fee_payer m)], [fee_payer m])).
Proof.
  unfold collect. f_equal. generalize ([(3, fee_payer m)], [fee_payer m]). 
  induction (instructions m) as [|ix ixs IH]; intros st; [done|]. simpl.
  unfold add_all. rewrite foldl_app. rewrite IH. unfold add_all. f_equal.
  unfold collect_ix, ix_mentions. rewrite foldl_app. simpl. f_equal. clear.
  revert st. induction (accounts ix) as [|a l IH]; intros st; [done|]. simpl. apply IH.
Qed.

(** The accounts found are the first mentions, one for each key. *)
Record found (ms : list Entry) (st : list Entry * list bytes) : Prop := {
  fd_seen : ∀ k, k ∈ snd st ↔ k ∈ map snd (fst st);
  fd_nodup : NoDup (map snd (fst st));
  fd_first : ∀ fl k, (fl, k) ∈ fst st ↔ first_mention k ms = Some (fl, k);
}.

Lemma find_app {A} (p : A → bool) l1 l2 :
  List.find p (l1 ++ l2) = match List.find p l1 with Some x => Some x | None => List.find p l2 end.
Proof. induction l1 as [|x l1 IH]; simpl; [done|]. by destruct (p x). Qed.

Lemma first_mention_key k l e : first_mention k l = Some e → e.2 = k.
Proof.
  unfold first_mention. intros [_ H]%find_some. by apply bool_decide_eq_true in H.
Qed.

Lemma elem_of_keys k (l : list Entry) : k ∈ map snd l ↔ ∃ fl, (fl, k) ∈ l.
Proof.
  rewrite list_elem_of_In, in_map_iff. split.
  - intros ([fl k'] & <- & H). exists fl. by apply list_elem_of_In.
  - intros [fl H]. exists (fl, k). split; [done|]. by apply list_elem_of_In.
Qed.

Lemma add_found ms st e : found ms st → found (ms ++ [e]) (add_account (fst e) (snd e) st).
Proof.
  intros [Hseen Hnd Hfirst]. destruct e as [fl k]. unfold add_account. simpl.
  assert (k ∈ snd st ↔ ∃ e, first_mention k ms = Some e) as Hk.
  { rewrite Hseen, elem_of_keys. split.
    - intros [fl' H]. exists (fl', k). by apply Hfirst.
    - intros [[fl' k'] H]. pose proof (first_mention_key _ _ _ H) as E. simpl in E. subst k'.
      exists fl'. by apply Hfirst. }
  case_bool_decide as Hin.
  - split; [done|done|]. intros fl' k'. rewrite Hfirst. unfold first_mention at 2. rewrite find_app.
    fold (first_mention k' ms). destruct (first_mention k' ms) as [e|] eqn:E; [done|].
    simpl. unfold key_eqb. case_bool_decide as Hkk; [|done]. subst k'.
    apply Hk in Hin as [e He]. congruence.
  - split; simpl.
    + intros k'. rewrite map_app, elem_of_app, elem_of_cons, Hseen. simpl. set_solver.
    + apply NoDup_map_snoc; [done|]. intros [fl' k'] Hr. simpl. intros ->. apply Hin, Hseen, elem_of_keys.
      by exists fl'.
    + intros fl' k'. rewrite elem_of_app, Hfirst, list_elem_of_singleton.
      unfold first_mention at 2. rewrite find_app. fold (first_mention k' ms).
      destruct (first_mention k' ms) as [e|] eqn:E.
      * split; [intros [H|[= -> ->]]; [done|]|by left]. destruct Hin. apply Hk. by exists e.
      * simpl. unfold key_eqb. case_bool_decide as Hkk; [subst k'|]; naive_solver.
Qed.

Lemma collect_found m : found (mentions m) (collect m, snd (add_all (concat (map ix_mentions (instructions m)))
  ([(3, fee_payer m)], [fee_payer m]))).
Proof.
  rewrite collect_mentions. unfold mentions. rewrite <- surjective_pairing.
  generalize (concat (map ix_mentions (instructions m))). intros ms.
  induction ms as [|e ms IH] using rev_ind.
  - unfold add_all. simpl. split; simpl.
    + intros k. set_solver.
    + apply NoDup_singleton.
    + intros fl k. rewrite list_elem_of_singleton. unfold first_mention. simpl. unfold key_eqb.
      case_bool_decide; naive_solver.
  - unfold add_all in *. rewrite foldl_app. simpl.
    apply (add_found ((3, fee_payer m) :: ms) _ e IH).
Qed.

(** ** Sorting them *)

Definition flag_range (l : list Entry) : Prop := ∀ e, e ∈ l → 0 ≤ fst e < 4.

Lemma bits_of_flags e : 0 ≤ fst e < 4 →
  signer_bit e = (if 2 <=? fst e then 1 else 0) ∧
  writable_bit e = (if Z.odd (fst e) then 1 else 0).
Proof. destruct e as [fl k]. unfold signer_bit, writable_bit. simpl. revert fl. apply below_n. repeat constructor. Qed.

Lemma entry_le_flags a b : 0 ≤ fst a < 4 → 0 ≤ fst b < 4 → entry_le a b = (fst b <=? fst a).
Proof.
  intros Ha Hb. unfold entry_le. destruct (bits_of_flags a Ha) as [-> ->], (bits_of_flags b Hb) as [-> ->].
  destruct a as [x ?], b as [y ?]. simpl in *. revert Hb. revert y. revert Ha. revert x.
  refine (below_n 4 _ _). repeat constructor; apply below_n; repeat constructor.
Qed.

Lemma flags_of_range a : 0 ≤ flags_of a < 4.
Proof. unfold flags_of. destruct (is_signer a), (is_writable a); vm_compute; split; done. Qed.

Lemma mentions_range m : flag_range (mentions m).
Proof.
  intros e He. apply elem_of_cons in He as [->|He]; [done|].
  apply list_elem_of_In, in_concat in He as (l & Hl & He). apply in_map_iff in Hl as (ix & <- & _).
  unfold ix_mentions in He. apply in_app_iff in He as [He|[<-|[]]]; [|done].
  apply in_map_iff in He as (a & <- & _). apply flags_of_range.
Qed.

Lemma collect_range m : flag_range (collect m).
Proof.
  intros [fl k] He. apply (fd_first _ _ (collect_found m)) in He. unfold first_mention in He.
  apply find_some in He as [He _]. apply (mentions_range m). by apply list_elem_of_In.
Qed.

(** The fee payer comes out first. *)
Lemma collect_head m : ∃ l, collect m = (3, fee_payer m) :: l.
Proof.
  rewrite collect_mentions. generalize (concat (map ix_mentions (instructions m))). intros ms.
  induction ms as [|e ms [l IH]] using rev_ind; [by exists []|].
  unfold add_all in *. rewrite foldl_app. simpl. unfold add_account at 1.
  destruct (bool_decide _); simpl; rewrite IH; eauto.
Qed.

Lemma account_list_sorted m : ∃ l,
  account_list m = (3, fee_payer m) :: l ∧ account_list m = sort_by entry_le (collect m).
Proof.
  destruct (collect_head m) as [l Hl]. pose proof (collect_range m) as Hr. unfold account_list.
  assert (sort_by entry_le (collect m) = (3, fee_payer m) :: sort_by entry_le l) as Hs.
  { rewrite Hl in *. simpl. destruct (sort_by entry_le l) as [|y s] eqn:E; [done|]. simpl.
    assert (y ∈ l) as Hy by (rewrite <- (elem_of_sort_by entry_le), E; by left).
    rewrite entry_le_flags; [|done|apply Hr; by right].
    assert (0 ≤ fst y < 4) by (apply Hr; by right). by rewrite (proj2 (Z.leb_le _ _)) by (simpl; lia). }
  exists (sort_by entry_le l). rewrite Hs. unfold payer_first. simpl. unfold key_eqb.
  by rewrite bool_decide_true.
Qed.

Lemma entry_le_total x y : entry_le x y = false → entry_le y x = true.
Proof.
  unfold entry_le. destruct (Z.eqb_spec (signer_bit x) (signer_bit y)), (Z.eqb_spec (signer_bit y) (signer_bit x));
    lia.
Qed.

Definition flags_down (x y : Entry) : Prop := fst y ≤ fst x.
Lemma sorted_down l : flag_range l → Sorted (λ x y, entry_le x y = true) l → StronglySorted flags_down l.
Proof.
  intros Hr Hs. apply Sorted_StronglySorted; [intros x y z; unfold flags_down; lia|].
  induction Hs as [|x l Hl IH Hhd]; constructor.
  - apply IH. intros e He. apply Hr. by right.
  - destruct Hhd as [|y l Hxy]; constructor. rewrite entry_le_flags in Hxy; [unfold flags_down; lia|apply Hr; by left|].
    apply Hr. by right; left.
Qed.

Lemma account_list_facts m :
  StronglySorted flags_down (account_list m) ∧ flag_range (account_list m) ∧
  NoDup (map snd (account_list m)) ∧
  ∀ fl k, (fl, k) ∈ account_list m ↔ first_mention k (mentions m) = Some (fl, k).
Proof.
  destruct (account_list_sorted m) as (l & _ & Hs). rewrite Hs. destruct (collect_found m) as [_ Hnd Hf].
  simpl in Hnd, Hf. assert (flag_range (sort_by entry_le (collect m))) as Hr.
  { intros e He%elem_of_sort_by. by apply (collect_range m). }
  split_and!.
  - apply sorted_down; [done|]. apply sort_by_sorted, entry_le_total.
  - done.
  - by rewrite sort_by_perm.
  - intros fl k. by rewrite elem_of_sort_by.
Qed.

(** ** Who may do what *)

(** In a list sorted downwards the entries above a threshold come first. *)
Lemma above_threshold t l i e : StronglySorted flags_down l → l !! i = Some e →
  (t ≤ fst e ↔ Z.of_nat i < count (λ a, t <=? fst a) l).
Proof.
  intros Hs. revert i. induction Hs as [|x l Hs IH Hall]; intros i Hi; [done|].
  unfold count in *. simpl. destruct (Z.leb_spec t (fst x)) as [Hx|Hx].
  - destruct i as [|i]; simpl in *; [injection Hi as <-; lia|]. rewrite (IH _ Hi). lia.
  - assert (List.filter (λ a, t <=? fst a) l = []) as ->.
    { clear -Hall Hx. induction Hall as [|y l Hy Hl IH]; simpl; [done|]. unfold flags_down in Hy.
      rewrite (proj2 (Z.leb_gt _ _)) by lia. done. }
    simpl. assert (fst e ≤ fst x) as Hle; [|lia].
    destruct i as [|i]; simpl in Hi; [by injection Hi as <-|].
    apply list_elem_of_lookup_2 in Hi. rewrite Forall_forall in Hall. by apply Hall.
Qed.

Lemma count_ext p q l : flag_range l → (∀ e, 0 ≤ fst e < 4 → p e = q e) → count p l = count q l.
Proof.
  unfold count. induction l as [|e l IH]; intros Hr H; [done|]. simpl.
  assert (0 ≤ fst e < 4) by (apply Hr; by left). rewrite (H e) by done.
  assert (Z.of_nat (length (List.filter p l)) = Z.of_nat (length (List.filter q l))) as E.
  { apply IH; [|done]. intros x Hx. apply Hr. by right. }
  destruct (q e); simpl; lia.
Qed.
(** Two disjoint conditions. *)
Lemma count_split p q r l : (∀ e, e ∈ l → Z.b2z (r e) = Z.b2z (p e) + Z.b2z (q e)) →
  count r l = count p l + count q l.
Proof.
  unfold count. induction l as [|e l IH]; intros H; [done|]. simpl.
  specialize (H e (list_elem_of_here _ _)) as He. specialize (IH (λ x Hx, H x (list_elem_of_further _ _ _ Hx))).
  destruct (p e), (q e), (r e); simpl in *; lia.
Qed.
Lemma count_all l : count (λ _, true) l = Z.of_nat (length l).
Proof. unfold count. induction l as [|e l IH]; [done|]. simpl in *. lia. Qed.

Lemma header_counts l : flag_range l →
  num_signers l = count (λ a, 2 <=? fst a) l ∧
  num_signers l - num_readonly_signed l = count (λ a, 3 <=? fst a) l ∧
  Z.of_nat (length l) - num_readonly_unsigned l = count (λ a, 1 <=? fst a) l.
Proof.
  intros Hr. unfold num_signers, num_readonly_signed, num_readonly_unsigned. rewrite <- count_all. split_and!.
  - apply count_ext; [done|]. intros e He. destruct (bits_of_flags e He) as [-> _]. by destruct (2 <=? _).
  - apply Z.sub_move_r, count_split. intros [fl k] He. specialize (Hr _ He). revert Hr. simpl.
    unfold signer_bit, writable_bit. simpl. revert fl He. intros fl _. revert fl. apply below_n. repeat constructor.
  - apply Z.sub_move_r, count_split. intros [fl k] He. specialize (Hr _ He). revert Hr. simpl.
    unfold signer_bit, writable_bit. simpl. revert fl He. intros fl _. revert fl. apply below_n. repeat constructor.
Qed.

(** ** Indexes *)

Lemma find_index_key keys k : k ∈ keys →
  ∃ i, find_index (λ k', key_eqb k' k) keys = Some i ∧ keys !! i = Some k.
Proof.
  induction keys as [|k' keys IH]; intros Hk; [by apply not_elem_of_nil in Hk|]. simpl. unfold key_eqb at 1.
  case_bool_decide as E; [subst; by exists 0%nat|].
  apply elem_of_cons in Hk as [->|Hk]; [done|]. destruct (IH Hk) as (i & -> & Hi). by exists (S i).
Qed.

Lemma index_of_lookup keys k : k ∈ keys → Z.of_nat (length keys) < 256 →
  keys !! Z.to_nat (index_of keys k) = Some k.
Proof.
  intros Hk Hlen. destruct (find_index_key keys k Hk) as (i & Hi & Hl). unfold index_of. rewrite Hi. simpl.
  apply lookup_lt_Some in Hl as Hlt. rewrite u8_small by lia. by rewrite Nat2Z.id.
Qed.

(** The keys of a message are the keys that are mentioned. *)
Lemma mentioned_key m fl k : (fl, k) ∈ mentions m → k ∈ map snd (account_list m).
Proof.
  intros Hin. destruct (account_list_facts m) as (_ & _ & _ & Hf).
  destruct (first_mention k (mentions m)) as [[fl' k']|] eqn:E.
  - pose proof (first_mention_key _ _ _ E) as Ek. simpl in Ek. subst k'.
    apply elem_of_keys. exists fl'. by apply Hf.
  - unfold first_mention in E. apply list_elem_of_In in Hin. apply (find_none _ _ E (fl, k)) in Hin.
    simpl in Hin. unfold key_eqb in Hin. by rewrite bool_decide_true in Hin.
Qed.

Lemma elem_of_ix_mentions m ix e : ix ∈ instructions m → e ∈ ix_mentions ix → e ∈ mentions m.
Proof.
  intros Hix He. right. apply list_elem_of_In, in_concat. exists (ix_mentions ix).
  split; [apply in_map|]; by apply list_elem_of_In.
Qed.
Lemma program_mentioned m ix : ix ∈ instructions m → program_id ix ∈ map snd (account_list m).
Proof.
  intros Hix. apply (mentioned_key m 0). eapply elem_of_ix_mentions; [done|]. unfold ix_mentions.
  apply elem_of_app. right. by left.
Qed.
Lemma account_mentioned m ix a : ix ∈ instructions m → a ∈ accounts ix →
  pubkey a ∈ map snd (account_list m).
Proof.
  intros Hix Ha. apply (mentioned_key m (flags_of a)). eapply elem_of_ix_mentions; [done|]. unfold ix_mentions.
  apply elem_of_app. left. apply list_elem_of_In, in_map_iff. exists a. split; [done|]. by apply list_elem_of_In.
Qed.

(** ** The message *)

(** What fits into the wire format: 32-byte keys, at most 255 of them, lengths
    of 16 bits. *)
Record encodable (m : TransactionMessage) : Prop := {
  en_keys : ∀ e, e ∈ mentions m → length (snd e) = 32%nat;
  en_hash : length (recent_blockhash m) = 32%nat;
  en_few : Z.of_nat (length (account_list m)) < 256;
  en_ixs : Z.of_nat (length (instructions m)) < 65536;
  en_ix : ∀ ix, ix ∈ instructions m →
    Z.of_nat (length (accounts ix)) < 65536 ∧ Z.of_nat (length (ix_data ix)) < 65536;
}.

(** A compiled instruction, its indexes looked up. *)
Definition compiled (keys : list bytes) (ix : Instruction) (c : CompiledIx) : Prop :=
  keys !! Z.to_nat (ci_program c) = Some (program_id ix) ∧
  Forall2 (λ a i, keys !! Z.to_nat i = Some (pubkey a)) (accounts ix) (ci_accounts c) ∧
  ci_data c = ix_data ix.

Lemma read_serialised_ix m ix r : encodable m → ix ∈ instructions m →
  let keys := map snd (account_list m) in
  ∃ c, read_ix (serialise_ix keys ix ++ r) = Some (c, r) ∧ compiled keys ix c.
Proof.
  intros [_ _ Hfew _ Hix] Hin keys. destruct (Hix ix Hin) as [Ha Hd].
  assert (Z.of_nat (length keys) < 256) as Hlen by (subst keys; by rewrite length_map).
  unfold serialise_ix, read_ix. simpl. rewrite <- !app_assoc.
  destruct (read_vec_map read_u8 (λ a, [index_of keys (pubkey a)])
    (λ a i, keys !! Z.to_nat i = Some (pubkey a)) (accounts ix)
    (len_u16 (ix_data ix) ++ ix_data ix ++ r) Ha) as (accs & Haccs & HR).
  { intros a r' Hia. eexists. split; [done|]. apply index_of_lookup; [|done].
    by apply (account_mentioned m ix). }
  rewrite <- (map_map (λ a, index_of keys (pubkey a)) (λ i, [i])), concat_singletons in Haccs.
  rewrite Haccs. simpl. rewrite read_vec_u8 by done. simpl. eexists. split; [done|].
  split_and!; [|done|done]. apply index_of_lookup; [|done]. by apply program_mentioned.
Qed.

Lemma read_serialised m : encodable m →
  let l := account_list m in
  ∃ cs, parse_message (serialise m) = Some (mkParsed (num_signers l) (num_readonly_signed l)
      (num_readonly_unsigned l) (map snd l) (recent_blockhash m) cs) ∧
    Forall2 (compiled (map snd l)) (instructions m) cs.
Proof.
  intros He l. pose proof He as [Hkeys Hhash Hfew Hixs _]. fold l in Hfew.
  assert (∀ p, u8 (count p l) = count p l) as Hu.
  { intros p. apply u8_small. unfold count. pose proof (List.filter_length_le p l). lia. }
  unfold serialise. fold l. simpl. unfold parse_message. simpl.
  unfold num_signers, num_readonly_signed, num_readonly_unsigned. rewrite !Hu.
  destruct (read_vec_map (split_at 32) (λ k, k) eq (map snd l)
    (recent_blockhash m ++ len_u16 (instructions m) ++
       concat (map (serialise_ix (map snd l)) (instructions m)))) as (keys & Hk & Heq).
  - rewrite length_map. lia.
  - intros k r Hin%elem_of_keys. exists k. split; [|done]. apply split_at_app.
    destruct Hin as [fl Hin]. destruct (account_list_facts m) as (_ & _ & _ & Hf).
    apply Hf in Hin. unfold first_mention in Hin. apply find_some in Hin as [Hin _].
    apply (Hkeys (fl, k)). by apply list_elem_of_In.
  - apply Forall2_eq_l in Heq as ->. rewrite map_id in Hk. rewrite Hk. simpl.
    rewrite split_at_app by done. simpl.
    destruct (read_vec_map read_ix (serialise_ix (map snd l)) (compiled (map snd l)) (instructions m) [])
      as (cs & Hcs & Hc); [lia|intros; by apply read_serialised_ix|].
    rewrite app_nil_r in Hcs. rewrite Hcs. simpl. by exists cs.
Qed.

Lemma message_meaning m : encodable m →
  ∃ p, parse_message (serialise m) = Some p ∧
    NoDup (ps_keys p) ∧ ps_keys p !! 0%nat = Some (fee_payer m) ∧
    ps_blockhash p = recent_blockhash m ∧
    Forall2 (compiled (ps_keys p)) (instructions m) (ps_instructions p) ∧
    (∀ i k, ps_keys p !! i = Some k →
      ∃ fl, first_mention k (mentions m) = Some (fl, k) ∧ 0 ≤ fl < 4 ∧
        (may_sign p i ↔ 2 ≤ fl) ∧ (may_write p i ↔ fl = 1 ∨ fl = 3)) ∧
    ps_signers p ≤ Z.of_nat (length (ps_keys p)).
Proof.
  intros He. destruct (read_serialised m He) as (cs & Hp & Hc).
  destruct (account_list_facts m) as (Hs & Hr & Hnd & Hf).
  destruct (header_counts _ Hr) as (Hns & Hrs & Hru).
  eexists. split; [exact Hp|]. simpl. split_and!; [done| |done|done| |].
  { destruct (account_list_sorted m) as (l & -> & _). done. }
  2:{ rewrite length_map. unfold num_signers, count. apply Nat2Z.inj_le, List.filter_length_le. }
  intros i k Hi. assert (∃ fl, account_list m !! i = Some (fl, k)) as [fl Hl].
  { pose proof (list_lookup_fmap snd (account_list m) i) as E. change (map snd (account_list m) !! i
      = snd <$> account_list m !! i) in E. rewrite Hi in E.
    destruct (account_list m !! i) as [[fl k']|]; [|done]. injection E as ->. by exists fl. }
  apply list_elem_of_lookup_2 in Hl as Hin. specialize (Hr _ Hin) as Hfl. simpl in Hfl.
  exists fl. split_and!; [by apply Hf|lia|lia| |]; unfold may_sign, may_write; simpl; rewrite ?length_map.
  - rewrite Hns. symmetry. apply (above_threshold 2 _ _ _ Hs Hl).
  - rewrite Hrs, Hru, Hns. pose proof (above_threshold 1 _ _ _ Hs Hl) as H1.
    pose proof (above_threshold 2 _ _ _ Hs Hl) as H2. pose proof (above_threshold 3 _ _ _ Hs Hl) as H3.
    simpl in *. lia.
Qed.

(** A message that fits is read back as what it says: no key twice, the fee
    payer first, the blockhash, and every instruction with its program, its
    accounts in order and its data.  What a key may do is what its first
    mention asks for: it signs, or can be written, exactly when the flags at
    its first mention say so, the fee payer both. *)
Theorem message_means_its_instructions m : encodable m →
  ∃ p, parse_message (serialise m) = Some p ∧
    NoDup (ps_keys p) ∧ ps_keys p !! 0%nat = Some (fee_payer m) ∧
    ps_blockhash p = recent_blockhash m ∧
    Forall2 (compiled (ps_keys p)) (instructions m) (ps_instructions p) ∧
    ∀ i k, ps_keys p !! i = Some k →
      ∃ fl, first_mention k (mentions m) = Some (fl, k) ∧ 0 ≤ fl < 4 ∧
        (may_sign p i ↔ 2 ≤ fl) ∧ (may_write p i ↔ fl = 1 ∨ fl = 3).
Proof.
  intros He. destruct (message_meaning m He) as (p & Hp & Hnd & H0 & Hb & Hc & Hk & _). by exists p.
Qed.

(** A transfer to an account that has to be created, and a settlement. *)
Definition key (n : Z) : bytes := replicate 32 n.
Definition toy_sha (l : bytes) : bytes := take 32 (map (λ b, (b + 1) `mod` 256) l ++ replicate 32 7).
Definition payout : TransactionMessage :=
  new (key 1) (key 9)
    (spl_transfer_with_ata toy_sha (key 2) (key 3) (key 4) (key 1) 1000 (key 1) ++
     [settle_instruction toy_sha (key 5) (key 6) (key 1) (key 4) (key 7) (key 8) (key 7) 500 (replicate 16 3)]).

Lemma payout_encodable : encodable payout.
Proof.
  split; try (by vm_compute).
  - intros e He. apply (elem_of_forallb (λ e, length (snd e) =? 32)%nat) in He; [by apply Nat.eqb_eq|by vm_compute].
  - intros ix Hix.
    apply (elem_of_forallb (λ ix, (Z.of_nat (length (accounts ix)) <? 65536) &&
      (Z.of_nat (length (ix_data ix)) <? 65536))) in Hix; [lia|by vm_compute].
Qed.

Lemma message_means_its_instructions_witness :
  ∃ p, parse_message (serialise payout) = Some p ∧ length (ps_keys p) = 11%nat ∧ ps_signers p = 1.
Proof.
  destruct (message_means_its_instructions payout payout_encodable) as (p & Hp & _).
  exists p. split; [exact Hp|]. revert Hp. vm_compute. intros [= <-]. split; reflexivity.
Defined.

(** The first mention decides: an owner who is first named as such and then as
    the authority of the transfer does not sign, and the chain refuses it. *)
Definition self_transfer : TransactionMessage :=
  new (key 1) (key 9) (spl_transfer_with_ata toy_sha (key 2) (key 3) (key 4) (key 3) 1000 (key 1)).
Theorem later_signers_are_lost :
  (∃ ix a, ix ∈ instructions self_transfer ∧ a ∈ accounts ix ∧ pubkey a = key 3 ∧ is_signer a = true) ∧
  ∃ p i, parse_message (serialise self_transfer) = Some p ∧ ps_keys p !! i = Some (key 3) ∧ ¬ may_sign p i.
Proof.
  split.
  - eexists _, _. split_and!; [by right; left|by right; right; left|done|done].
  - eexists _, 3%nat. split_and!; [by vm_compute|by vm_compute|]. unfold may_sign. simpl. lia.
Qed.
