(* ===== verification/EthSign.v ===== *)
(** * Signing Ethereum transactions: [src/src/wallet/eth_sign.rs]

    The curve and the hash are the crates k256 and sha3: a class here, with
    what their documentation promises.  What the wallet makes of a signature,
    [v] of EIP-155 included, is modelled at the width of the source. *)
From S2P Require Import Prelude Bytes Rlp RlpCorrect Abi.


Import Rlp.
Open Scope Z_scope.

(** [SigningKey::from_bytes], [sign_prehash_recoverable] (the 64 bytes and the
    recovery id), [Signature::from_slice], [RecoveryId::from_byte],
    [VerifyingKey::recover_from_prehash], [VerifyingKey::from] and the bytes of
    [to_encoded_point(false)]. *)
Class Secp256k1 := {
  SigningKey : Type;
  Signature : Type;
  VerifyingKey : Type;
  keccak256 : bytes → bytes;
  key_from_bytes : bytes → result SigningKey string;
  sign_prehash : SigningKey → bytes → result (bytes * Z) string;
  signature_from_slice : bytes → result Signature string;
  recovery_id_from_byte : Z → bool;
  recover_from_prehash : bytes → Signature → Z → result VerifyingKey string;
  verifying_key : SigningKey → VerifyingKey;
  encoded_point : VerifyingKey → bytes;
}.

Class Secp256k1Laws `{Secp256k1} : Prop := {
  keccak_word b : length (keccak256 b) = 32%nat ∧ all_bytes (keccak256 b);
  signature_bytes k h sig i : sign_prehash k h = Ok (sig, i) →
    length sig = 64%nat ∧ all_bytes sig ∧ recovery_id_from_byte i = true;
  recover_signed k h sig i : sign_prehash k h = Ok (sig, i) →
    ∃ s, signature_from_slice sig = Ok s ∧ recover_from_prehash h s i = Ok (verifying_key k);
}.

(** What the transport of an unsigned transaction carries. *)
Inductive EthUnsignedTxData :=
| Legacy (tx : LegacyTxFields)
| Eip1559 (tx : Eip1559TxFields).

Module EthSign.
Section sign.
Context `{Secp256k1}.

Definition or_error {A} (prefix : string) (r : result A string) : result A string :=
  match r with Ok a => Ok a | Err e => Err (prefix +:+ e) end.

Definition sign_hash (hash private_key : bytes) : result (bytes * bytes * Z) string :=
  match or_error "invalid key: " (key_from_bytes private_key) with
  | Err e => Err e
  | Ok signing_key =>
      match or_error "signing failed: " (sign_prehash signing_key hash) with
      | Err e => Err e
      | Ok (sig_bytes, recid) => Ok (take 32 sig_bytes, drop 32 sig_bytes, recid)
      end
  end.

Definition pubkey_to_address (vk : VerifyingKey) : bytes :=
  drop 12 (keccak256 (drop 1 (encoded_point vk))).

Definition ecrecover (hash : bytes) (recovery_id : Z) (r s : bytes) : result bytes string :=
  match or_error "invalid signature: " (signature_from_slice (r ++ s)) with
  | Err e => Err e
  | Ok sig =>
      if negb (recovery_id_from_byte recovery_id) then Err "invalid recovery id"%string else
      match or_error "ecrecover failed: " (recover_from_prehash hash sig recovery_id) with
      | Err e => Err e
      | Ok vk => Ok (pubkey_to_address vk)
      end
  end.

Definition private_key_to_address (private_key : bytes) : result bytes string :=
  match or_error "invalid key: " (key_from_bytes private_key) with
  | Err e => Err e
  | Ok signing_key => Ok (pubkey_to_address (verifying_key signing_key))
  end.

(** EIP-155: [chain_id * 2 + 35 + recovery_id], and back. *)
Definition v_of (chain_id recovery_id : Z) : Z := u64 (u64 (u64 (chain_id * 2) + 35) + recovery_id).
Definition recovery_id_of (v chain_id : Z) : Z := u8 (u64 (u64 (v - u64 (chain_id * 2)) - 35)).

Definition sign_legacy_tx (tx : LegacyTxFields) (private_key : bytes) : result bytes string :=
  let hash := keccak256 (encode_legacy_unsigned tx) in
  match sign_hash hash private_key with
  | Err e => Err e
  | Ok (r, s, recovery_id) => Ok (encode_legacy_signed tx (v_of (lg_chain_id tx) recovery_id) r s)
  end.

Definition sign_eip1559_tx (tx : Eip1559TxFields) (private_key : bytes) : result bytes string :=
  let hash := keccak256 (encode_eip1559_unsigned tx) in
  match sign_hash hash private_key with
  | Err e => Err e
  | Ok (r, s, recovery_id) => Ok (encode_eip1559_signed tx recovery_id r s)
  end.

Definition same_address (r : result bytes string) (expected : bytes) : result bool string :=
  match r with Ok recovered => Ok (bool_decide (recovered = expected)) | Err e => Err e end.

Definition verify_legacy_tx (tx : LegacyTxFields) (v : Z) (r s expected_address : bytes)
  : result bool string :=
  let hash := keccak256 (encode_legacy_unsigned tx) in
  same_address (ecrecover hash (recovery_id_of v (lg_chain_id tx)) r s) expected_address.

Definition verify_eip1559_tx (tx : Eip1559TxFields) (y_parity : Z) (r s expected_address : bytes)
  : result bool string :=
  let hash := keccak256 (encode_eip1559_unsigned tx) in
  same_address (ecrecover hash y_parity r s) expected_address.

End sign.
End EthSign.

(** * Proofs: Signed Ethereum transactions are received as they were meant

    A node's view of [EthSign]: the reference [receive] reads a raw
    transaction, rejects numbers that are not canonical, and recovers the
    sender.  What the wallet signs is received, from the wallet's address. *)

Import Rlp EthSign.
Open Scope Z_scope.

(** ** The node *)

(** A number of at most [n] bytes, without leading zeros; a word; an address. *)
Definition number (n : nat) (b : bytes) : option Z :=
  if bool_decide (strip_zeros b = b ∧ (length b ≤ n)%nat) then Some (of_be b) else None.
Definition scalar (b : bytes) : option bytes :=
  if bool_decide (strip_zeros b = b ∧ (length b ≤ 32)%nat) then Some (word b) else None.
Definition address (b : bytes) : option bytes :=
  if bool_decide (length b = 20%nat) then Some b else None.

Section receive.
Context `{Secp256k1}.

Definition sender (payload : bytes) (parity : Z) (r s : bytes) : option bytes :=
  match ecrecover (keccak256 payload) parity r s with Ok a => Some a | Err _ => None end.

Definition receive_legacy (items : list Item) : option (EthUnsignedTxData * bytes) :=
  match items with
  | [Str n; Str gp; Str gl; Str t; Str val; Str d; Str v; Str r; Str s] =>
      n ← number 8 n; gp ← number 8 gp; gl ← number 8 gl; t ← address t; val ← number 16 val;
      v ← number 8 v; r ← scalar r; s ← scalar s;
      if v <? 35 then None else
      let tx := mkLegacyTx n gp gl t val d ((v - 35) / 2) in
      a ← sender (encode_legacy_unsigned tx) ((v - 35) `mod` 2) r s;
      Some (Legacy tx, a)
  | _ => None
  end.
Definition receive_eip1559 (items : list Item) : option (EthUnsignedTxData * bytes) :=
  match items with
  | [Str c; Str n; Str pr; Str mf; Str gl; Str t; Str val; Str d; Lst []; Str y; Str r; Str s] =>
      c ← number 8 c; n ← number 8 n; pr ← number 8 pr; mf ← number 8 mf; gl ← number 8 gl;
      t ← address t; val ← number 16 val; y ← number 8 y; r ← scalar r; s ← scalar s;
      let tx := mkEip1559Tx c n pr mf gl t val d in
      a ← sender (encode_eip1559_unsigned tx) y r s;
      Some (Eip1559 tx, a)
  | _ => None
  end.

(** The transaction and its sender. *)
Definition receive (raw : bytes) : option (EthUnsignedTxData * bytes) :=
  let whole bs := match decode (2 * length bs) bs with Some (Lst items, []) => Some items | _ => None end in
  match raw with
  | 2 :: rest => whole rest ≫= receive_eip1559
  | _ => whole raw ≫= receive_legacy
  end.

(** ** What is signed *)

Definition sign_data (d : EthUnsignedTxData) (private_key : bytes) : result bytes string :=
  match d with
  | Legacy tx => sign_legacy_tx tx private_key
  | Eip1559 tx => sign_eip1559_tx tx private_key
  end.
Definition payload (d : EthUnsignedTxData) : bytes :=
  match d with Legacy tx => encode_legacy_unsigned tx | Eip1559 tx => encode_eip1559_unsigned tx end.
(** Typed, and for a legacy transaction a chain id that [v] has room for. *)
Definition signable (d : EthUnsignedTxData) : Prop :=
  match d with
  | Legacy tx => legacy_typed tx ∧ lg_chain_id tx < 2 ^ 63 - 18
  | Eip1559 tx => eip1559_typed tx
  end.
(** The wallet's own check of a signed transaction. *)
Definition verify_data (d : EthUnsignedTxData) (recovery_id : Z) (r s expected : bytes) : result bool string :=
  match d with
  | Legacy tx => verify_legacy_tx tx (v_of (lg_chain_id tx) recovery_id) r s expected
  | Eip1559 tx => verify_eip1559_tx tx recovery_id r s expected
  end.

End receive.

(** ** Lemmas *)

Lemma strip_zeros_twice l : strip_zeros (strip_zeros l) = strip_zeros l.
Proof.
  induction l as [|b l IH]; [done|]. simpl. destruct (Z.eqb_spec b 0); [done|]. simpl.
  by rewrite (proj2 (Z.eqb_neq b 0)).
Qed.

Lemma number_num n v : 0 ≤ v < 256 ^ Z.of_nat n → number n (num n v) = Some v.
Proof.
  intros Hv. unfold number. rewrite bool_decide_eq_true_2; [by rewrite of_be_num|].
  split; [apply strip_zeros_twice|apply num_length].
Qed.
Lemma number8 v : in_u64 v → number 8 (num 8 v) = Some v.
Proof. unfold in_u64, u64_max. intros. apply number_num. lia. Qed.
Lemma number16 v : in_u128 v → number 16 (num 16 v) = Some v.
Proof. unfold in_u128. intros. apply number_num. lia. Qed.

Lemma strip_zeros_pad l : ∃ n, l = replicate n 0 ++ strip_zeros l.
Proof.
  induction l as [|b l [n IH]]; [by exists 0%nat|]. simpl. destruct (Z.eqb_spec b 0) as [->|]; [|by exists 0%nat].
  exists (S n). simpl. by rewrite <- IH.
Qed.
Lemma scalar_strip r : length r = 32%nat → scalar (strip_zeros r) = Some r.
Proof.
  intros Hr. unfold scalar. rewrite bool_decide_eq_true_2.
  - f_equal. destruct (strip_zeros_pad r) as [n E]. unfold word.
    pose proof (f_equal length E) as Hn. rewrite length_app, length_replicate in Hn.
    replace (32 - length (strip_zeros r))%nat with n by lia. by symmetry.
  - split; [apply strip_zeros_twice|]. rewrite <- Hr. apply strip_zeros_length.
Qed.
Lemma address_20 t : length t = 20%nat → address t = Some t.
Proof. intros. unfold address. by rewrite bool_decide_eq_true_2. Qed.

(** A flat list is read whole. *)
Lemma decode_whole xs : Forall flat xs → (length xs ≤ 16)%nat →
  decode (2 * length (encode (Lst xs))) (encode (Lst xs)) = Some (Lst xs, []).
Proof.
  intros Hx Hn. rewrite <- (app_nil_r (encode (Lst xs))) at 2.
  apply (proj1 (decode_encode_aux _)); [lia|by apply flat_item|by apply flat_length].
Qed.

Lemma signature_flat xs v r s : Forall flat xs → all_bytes r → all_bytes s →
  length r = 32%nat → length s = 32%nat →
  Forall flat (xs ++ [Str (num 8 v); Str (strip_zeros r); Str (strip_zeros s)]).
Proof.
  intros Hx Hr Hs Hlr Hls. apply Forall_app. split; [done|].
  pose proof (strip_zeros_length r). pose proof (strip_zeros_length s).
  repeat constructor; try (apply num_flat; lia); simpl; try (by apply strip_zeros_bytes); lia.
Qed.

Lemma v_of_small c i : 0 ≤ c < 2 ^ 63 - 18 → 0 ≤ i ≤ 1 → v_of c i = 2 * c + 35 + i.
Proof.
  intros Hc Hi. unfold v_of. rewrite (u64_small (c * 2)) by lia. rewrite (u64_small (c * 2 + 35)) by lia.
  rewrite u64_small by lia. lia.
Qed.
Lemma v_parts c i : 0 ≤ i ≤ 1 → (2 * c + 35 + i - 35) / 2 = c ∧ (2 * c + 35 + i - 35) `mod` 2 = i.
Proof.
  intros Hi. replace (2 * c + 35 + i - 35) with (c * 2 + i) by lia.
  split; [rewrite Z.div_add_l, Z.div_small by lia; lia|].
  by rewrite Z.add_comm, Z.mod_add, Z.mod_small by lia.
Qed.
(** The wrap-around of [v] cancels out. *)
Lemma recovery_id_back c i : 0 ≤ i < 256 → recovery_id_of (v_of c i) c = i.
Proof.
  intros Hi. unfold recovery_id_of, v_of.
  enough (u64 (u64 (u64 (u64 (u64 (c * 2) + 35) + i) - u64 (c * 2)) - 35) = i) as -> by (by apply u8_small).
  unfold u64, wrap_u. rewrite (Zplus_mod_idemp_l (c * 2) 35), Zplus_mod_idemp_l, Zminus_mod_idemp_r.
  rewrite (Zminus_mod_idemp_l _ (c * 2)), Zminus_mod_idemp_l.
  replace (c * 2 + 35 + i - c * 2 - 35) with i by lia. apply Z.mod_small. lia.
Qed.

Section signed.
Context `{Hc : Secp256k1Laws}.

Lemma sign_hash_spec h pk r s i : sign_hash h pk = Ok (r, s, i) →
  ∃ k, key_from_bytes pk = Ok k ∧ private_key_to_address pk = Ok (pubkey_to_address (verifying_key k)) ∧
    ecrecover h i r s = Ok (pubkey_to_address (verifying_key k)) ∧
    all_bytes r ∧ all_bytes s ∧ length r = 32%nat ∧ length s = 32%nat.
Proof.
  unfold sign_hash, private_key_to_address, ecrecover.
  destruct (key_from_bytes pk) as [k|]; [|done]. cbn [or_error].
  destruct (sign_prehash k h) as [[sig j]|] eqn:E; [|done]. cbn [or_error]. intros [= <- <- <-].
  destruct (signature_bytes _ _ _ _ E) as (Hl & Hb & Hi).
  destruct (recover_signed _ _ _ _ E) as (sg & Es & Er).
  exists k. rewrite take_drop, Es, Hi. cbn [or_error negb]. rewrite Er. cbn [or_error].
  split_and!; [done..|by apply Forall_take|by apply Forall_drop| |].
  - rewrite length_take. lia.
  - rewrite length_drop. lia.
Qed.

Lemma sender_recovers p i r s a : ecrecover (keccak256 p) i r s = Ok a → sender p i r s = Some a.
Proof. unfold sender. by intros ->. Qed.

Lemma receive_signed_legacy tx i r s a : legacy_typed tx → lg_chain_id tx < 2 ^ 63 - 18 → 0 ≤ i ≤ 1 →
  all_bytes r → all_bytes s → length r = 32%nat → length s = 32%nat →
  sender (encode_legacy_unsigned tx) i r s = Some a →
  receive (encode_legacy_signed tx (v_of (lg_chain_id tx) i) r s) = Some (Legacy tx, a).
Proof.
  intros Ht Hcid Hi Hr Hs Hlr Hls Ha. pose proof (lt_chain_id _ Ht) as Hc0. unfold in_u64 in Hc0.
  rewrite v_of_small by (unfold u64_max in *; lia). set (v := 2 * lg_chain_id tx + 35 + i).
  rewrite legacy_signed_item.
  pose proof (decode_whole _ (signature_flat _ v r s (legacy_flat _ Ht) Hr Hs Hlr Hls) ltac:(simpl; lia)) as D.
  set (items := legacy_fields tx ++ _) in *.
  assert (receive_legacy items = Some (Legacy tx, a)) as R.
  { destruct (v_parts (lg_chain_id tx) i Hi) as [E1 E2]. destruct Ht. unfold items, legacy_fields. simpl app.
    unfold receive_legacy.
    rewrite !number8 by (done || unfold in_u64, u64_max, v; lia). rewrite number16, address_20 by tauto.
    rewrite !scalar_strip by done. cbn [mbind option_bind].
    rewrite (proj2 (Z.ltb_ge v 35)) by (unfold v; lia). unfold v. rewrite E1, E2.
    destruct tx. simpl in *. by rewrite Ha. }
  unfold receive. destruct (encode (Lst items)) as [|p rest] eqn:Eh.
  { pose proof (encode_nonempty (Lst items)) as Hn. rewrite Eh in Hn. simpl in Hn. lia. }
  assert (p ≠ 2) as Hp.
  { change (encode (Lst items)) with (wrap_list (concat (map encode items))) in Eh. destruct (wrap_list_head (concat (map encode items))) as (q & l & E & Hq).
    rewrite E in Eh. by injection Eh as <- _. }
  repeat case_match; try congruence; subst; try lia; by injection D as <-.
Qed.

Lemma receive_signed_eip1559 tx i r s a : eip1559_typed tx → 0 ≤ i ≤ 1 →
  all_bytes r → all_bytes s → length r = 32%nat → length s = 32%nat →
  sender (encode_eip1559_unsigned tx) i r s = Some a →
  receive (encode_eip1559_signed tx i r s) = Some (Eip1559 tx, a).
Proof.
  intros Ht Hi Hr Hs Hlr Hls Ha. rewrite eip1559_signed_item.
  pose proof (decode_whole _ (signature_flat _ i r s (eip1559_flat _ Ht) Hr Hs Hlr Hls) ltac:(simpl; lia)) as D.
  unfold receive. rewrite D. cbn [mbind option_bind].
  destruct Ht. unfold eip1559_fields. simpl app. unfold receive_eip1559.
  rewrite !number8 by (done || unfold in_u64, u64_max; lia). rewrite number16, address_20 by tauto.
  rewrite !scalar_strip by done. cbn [mbind option_bind]. destruct tx. simpl in *. by rewrite Ha.
Qed.

Lemma signed_received d private_key r s recovery_id :
  signable d → sign_hash (keccak256 (payload d)) private_key = Ok (r, s, recovery_id) →
  0 ≤ recovery_id ≤ 1 →
  ∃ raw addr, sign_data d private_key = Ok raw ∧ private_key_to_address private_key = Ok addr ∧
    receive raw = Some (d, addr) ∧ verify_data d recovery_id r s addr = Ok true.
Proof.
  intros Hd Es Hi. destruct (sign_hash_spec _ _ _ _ _ Es) as (k & _ & Ea & Er & Hr & Hs & Hlr & Hls).
  destruct d as [tx|tx]; simpl in *; unfold sign_legacy_tx, sign_eip1559_tx; rewrite Es;
    (eexists _, _; split_and!; [done|done| |]).
  - destruct Hd. by apply receive_signed_legacy, sender_recovers.
  - unfold verify_legacy_tx. rewrite recovery_id_back, Er by lia. simpl. by rewrite bool_decide_eq_true_2.
  - by apply receive_signed_eip1559, sender_recovers.
  - unfold verify_eip1559_tx. rewrite Er. simpl. by rewrite bool_decide_eq_true_2.
Qed.

(** C33: Whatever the wallet signs, a legacy or an EIP-1559 transaction, a node
    receives as exactly that transaction, fee, nonce, recipient, value, data
    and chain id, from the address of the wallet's key; and the wallet's own
    verification of the parts accepts it.  The recovery id is 0 or 1, as the
    curve gives but for one signature in 2^127, and a legacy chain id is one
    that [v] has room for. *)
Theorem signed_transactions_are_received d private_key r s recovery_id :
  signable d → sign_hash (keccak256 (payload d)) private_key = Ok (r, s, recovery_id) →
  0 ≤ recovery_id ≤ 1 →
  ∃ raw addr, sign_data d private_key = Ok raw ∧ private_key_to_address private_key = Ok addr ∧
    receive raw = Some (d, addr) ∧ verify_data d recovery_id r s addr = Ok true.
Proof. apply signed_received. Qed.

End signed.

(** A signature scheme with the laws, of no other use: the signature shows the
    hash and the key. *)
Module ToyCurve.
Definition digest (b : bytes) : bytes := to_be 32 (of_be b).
Definition curve : Secp256k1 := {|
  SigningKey := Z; Signature := bytes; VerifyingKey := bytes;
  keccak256 := digest;
  key_from_bytes b := if bool_decide (length b = 32%nat) then Ok (of_be b) else Err "length"%string;
  sign_prehash k h := Ok (digest h ++ to_be 32 k, of_be h `mod` 2);
  signature_from_slice b := Ok b;
  recovery_id_from_byte i := (0 <=? i) && (i <=? 3);
  recover_from_prehash h s i :=
    if bool_decide (take 32 s = digest h) then Ok (drop 32 s) else Err "no point"%string;
  verifying_key k := to_be 32 k;
  encoded_point vk := 4 :: vk ++ vk;
|}.

Lemma signed k h sig i : @sign_prehash curve k h = Ok (sig, i) →
  sig = digest h ++ to_be 32 k ∧ i = of_be h `mod` 2.
Proof. injection 1 as <- <-. done. Qed.

Lemma recovered h k : @recover_from_prehash curve h (digest h ++ to_be 32 k) (of_be h `mod` 2) =
  Ok (@verifying_key curve k).
Proof.
  unfold recover_from_prehash, curve. rewrite take_app_length', drop_app_length' by (symmetry; apply length_to_be).
  by rewrite bool_decide_eq_true_2.
Qed.

Lemma laws : @Secp256k1Laws curve.
Proof.
  split.
  - intros b. split; [apply length_to_be|apply to_be_bytes].
  - intros k h sig i [-> ->]%signed. rewrite length_app. unfold digest. rewrite !length_to_be.
    split_and!; [done| |].
    + apply Forall_app. split; apply to_be_bytes.
    + pose proof (Z.mod_pos_bound (of_be h) 2). apply andb_true_intro. split; apply Z.leb_le; lia.
  - intros k h sig i [-> ->]%signed. eexists. split; [done|]. apply recovered.
Qed.

(** The transaction of the EIP-155 document and its key. *)
Definition tx : LegacyTxFields :=
  mkLegacyTx 9 20000000000 21000 (replicate 20 53) 1000000000000000000 [] 1.
Definition key : bytes := replicate 32 70.
End ToyCurve.

Lemma signed_transactions_are_received_witness :
  let _ := ToyCurve.curve in
  ∃ raw addr, sign_data (Legacy ToyCurve.tx) ToyCurve.key = Ok raw ∧
    private_key_to_address ToyCurve.key = Ok addr ∧ receive raw = Some (Legacy ToyCurve.tx, addr) ∧
    verify_data (Legacy ToyCurve.tx) 0 (keccak256 (payload (Legacy ToyCurve.tx))) ToyCurve.key addr = Ok true.
Proof.
  intros C.
  apply (signed_transactions_are_received (Hc := ToyCurve.laws) (Legacy ToyCurve.tx)).
  - split; [|vm_compute; done]. split; simpl; unfold in_u64, in_u128, u64_max, calldata, all_bytes, is_byte; simpl;
      try lia; split; (done || lia || (repeat constructor; lia)).
  - vm_compute. reflexivity.
  - lia.
Defined.
