(* ===== verification/Chain.v ===== *)
(** * Chains behind one interface: [src/src/wallet/{chain,registry}.rs]

    What the wallet asks of a chain, as a record of operations, and the
    registry that picks one by name. *)
From stdpp Require Import gmap.
From S2P Require Import Prelude Monad Float64 Model Bytes.
Open Scope Z_scope.

Inductive TxState :=
| StatePending
| StateConfirmed (block confirmations : Z)
| StateFailed (reason : string).

Record FeeEstimate := mkFeeEstimate {
  fe_base_fee : Z;
  fe_priority_fee : Z;
  fe_total : Z;
  fe_unit : string;
}.

Record SettlementData := mkSettlementData {
  sd_from : string;
  sd_to : string;
  sd_amount : Z;
  sd_token : string;
  sd_chain : string;
}.

Record UnsignedTx := mkUnsignedTx { ut_chain : string; ut_data : bytes }.
Record SignedTx := mkSignedTx { st_chain : string; st_data : bytes }.

Inductive ChainError :=
| ChainRpc (e : string)
| ChainSigning (e : string)
| ChainUnsupported (e : string)
| ChainOther (e : string).

(** [impl Display for ChainError] *)
Definition chain_error_text (e : ChainError) : string :=
  match e with
  | ChainRpc e => "RPC: " +:+ e
  | ChainSigning e => "Signing: " +:+ e
  | ChainUnsupported e => "Unsupported: " +:+ e
  | ChainOther e => e
  end.

Record ChainAdapter := mkChainAdapter {
  chain_name : string;
  required_confirmations : Z;
  drop_timeout_secs : Z;
  send_transaction : SignedTx → M CoreDb string ChainError;
  get_transaction_status : string → M CoreDb TxState ChainError;
  estimate_fees : SettlementData → M CoreDb FeeEstimate ChainError;
  get_balance : string → string → M CoreDb Z ChainError;
  build_settlement_tx : SettlementData → M CoreDb UnsignedTx ChainError;
  sign_transaction : UnsignedTx → bytes → result SignedTx ChainError;
}.

(** [drop_timeout_secs] where an adapter does not define it. *)
Definition DEFAULT_DROP_TIMEOUT_SECS : Z := 600.

(** An adapter talks to its chain and leaves our tables alone, but for what [φ]
    does not see. *)
Class Apart {X} (φ : CoreDb → X) (a : ChainAdapter) : Prop := {
  send_apart tx : keeps φ (send_transaction a tx);
  status_apart h : keeps φ (get_transaction_status a h);
  fees_apart d : keeps φ (estimate_fees a d);
  balance_apart x t : keeps φ (get_balance a x t);
  build_apart d : keeps φ (build_settlement_tx a d);
}.

Module ChainRegistry.
Abbreviation Registry := (gmap string ChainAdapter).

Definition new : Registry := ∅.
Definition register (adapter : ChainAdapter) (adapters : Registry) : Registry :=
  <[chain_name adapter := adapter]> adapters.
Definition get (chain : string) (adapters : Registry) : result ChainAdapter ChainError :=
  match adapters !! chain with
  | Some a => Ok a
  | None => Err (ChainUnsupported ("No adapter for chain: " +:+ chain))
  end.
Definition chains (adapters : Registry) : list string := (map_to_list adapters).*1.
End ChainRegistry.
