(* ===== verification/Ethereum.v ===== *)
(** * Ethereum for the wallet: [src/src/wallet/{rpc,ethereum}.rs]

    First the JSON-RPC client, each method one call through the circuit breaker
    and a reading of its answer, with numbers read as [from_str_radix] of the
    standard library reads them; then the adapter. *)
From Stdlib Require Import Ascii HexadecimalString.
From S2P Require Import Prelude Monad Float64 Model Text Bytes Breaker Rpc Rlp Abi EthSign Chain.
Open Scope Z_scope.

(** ** Hexadecimal numbers *)

Inductive IntErrorKind := Empty | InvalidDigit | PosOverflow | NegOverflow.

(** [impl Display for ParseIntError] *)
Definition int_error_text (e : IntErrorKind) : string :=
  match e with
  | Empty => "cannot parse integer from empty string"
  | InvalidDigit => "invalid digit found in string"
  | PosOverflow => "number too large to fit in target type"
  | NegOverflow => "number too small to fit in target type"
  end.

(** [c.to_digit(16)] *)
Definition to_digit (c : ascii) : option Z :=
  let n := Z.of_nat (nat_of_ascii c) in
  if (48 <=? n) && (n <=? 57) then Some (n - 48)
  else if (65 <=? n) && (n <=? 70) then Some (n - 55)
  else if (97 <=? n) && (n <=? 102) then Some (n - 87)
  else None.

Fixpoint digits_loop (negative : bool) (lo hi acc : Z) (s : string) : result Z IntErrorKind :=
  match s with
  | "" => Ok acc
  | String c s =>
      match to_digit c with
      | None => Err InvalidDigit
      | Some d =>
          let acc := if negative then acc * 16 - d else acc * 16 + d in
          if hi <? acc then Err PosOverflow
          else if acc <? lo then Err NegOverflow
          else digits_loop negative lo hi acc s
      end
  end.

(** [from_str_radix(s, 16)] of the integers from [lo] to [hi]: a sign, alone it
    is no number; only a signed type takes a minus. *)
Definition from_str_radix_16 (lo hi : Z) (s : string) : result Z IntErrorKind :=
  match s with
  | "" => Err Empty
  | String "+" "" | String "-" "" => Err InvalidDigit
  | String "+" r => digits_loop false lo hi 0 r
  | String "-" r => if lo <? 0 then digits_loop true lo hi 0 r else Err InvalidDigit
  | _ => digits_loop false lo hi 0 s
  end.

(** [s.trim_start_matches("0x")] *)
Fixpoint trim_start_0x (s : string) : string :=
  match s with
  | String "0" (String "x" r) => trim_start_0x r
  | _ => s
  end.

Definition hex_i64 (s : string) : result Z IntErrorKind := from_str_radix_16 i64_min i64_max (trim_start_0x s).
Definition hex_u64 (s : string) : result Z IntErrorKind := from_str_radix_16 0 u64_max (trim_start_0x s).

(** [format!("0x{n:x}")] *)
Definition print_hex_0x (n : Z) : string :=
  "0x" +:+ NilZero.string_of_uint (N.to_hex_uint (Z.to_N n)).

(** ** The client *)

Record TxReceipt := mkTxReceipt {
  rx_tx_hash : string;
  rx_block_number : Z;
  rx_gas_used : Z;
  rx_status : bool;
}.

Inductive RpcError :=
| RNetwork (e : string)
| RJsonRpc (code : Z) (message : string)
| RParse (e : string).

(** [impl Display for RpcError] *)
Definition rpc_error_text (e : RpcError) : string :=
  match e with
  | RNetwork e => "RPC network error: " +:+ e
  | RJsonRpc code message => "RPC error " +:+ print_int code +:+ ": " +:+ message
  | RParse e => "RPC parse error: " +:+ e
  end.

Record RpcClient := mkRpcClient {
  rc_endpoint : string;
  rc_chain_id : Z;
  rc_breaker : CircuitBreakerConfig;
}.

Module RpcClient.

Definition new (endpoint : string) (chain_id : Z) : RpcClient :=
  let breaker_name :=
    if (chain_id =? 1) || (chain_id =? 11155111) then "ethereum_rpc" else "evm_rpc" in
  mkRpcClient endpoint chain_id (CircuitBreakerConfig.new breaker_name 5 30).

Section client.
Context (net : Network) (self : RpcClient).

Definition call (method : string) (params : Value) : M CoreDb Value RpcError :=
  map_err (λ x, match x with
                | COpen breaker remaining_secs =>
                    RNetwork ("Circuit breaker '" +:+ breaker +:+ "' open (resets in " +:+
                              print_uint remaining_secs +:+ "s)")
                | CInner e => e
                end)
    (CircuitBreaker.call (rc_breaker self)
       (let* rpc_resp := map_err (λ x, match x with
                                       | SendFailed e => RNetwork e
                                       | BodyFailed e => RParse e
                                       end) (post net (rc_endpoint self) method params) in
        match rpc_error rpc_resp with
        | Some err => throw (RJsonRpc (code err) (message err))
        | None => of_option (RParse "Missing result field") (rpc_result rpc_resp)
        end)).

Definition expect_str (what : string) (v : Value) : M CoreDb string RpcError :=
  of_option (RParse what) (as_str v).
Definition parse_hex (r : result Z IntErrorKind) : M CoreDb Z RpcError :=
  match r with Ok n => ret n | Err e => throw (RParse (int_error_text e)) end.

Definition send_raw_transaction (signed_tx_hex : string) : M CoreDb string RpcError :=
  let* resp := call "eth_sendRawTransaction" (JArray [JString signed_tx_hex]) in
  expect_str "Expected tx hash string" resp.

(** [resp[key].as_str().unwrap_or("0x0")] *)
Definition field_or_0x0 (key : string) (resp : Value) : string :=
  default "0x0" (get key resp ≫= as_str).
Definition hex_or_0 (s : string) : Z := match hex_i64 s with Ok n => n | Err _ => 0 end.

Definition get_transaction_receipt (tx_hash : string) : M CoreDb (option TxReceipt) RpcError :=
  let* resp := call "eth_getTransactionReceipt" (JArray [JString tx_hash]) in
  if is_null resp then ret None else
  let block_hex := field_or_0x0 "blockNumber" resp in
  let gas_hex := field_or_0x0 "gasUsed" resp in
  let status_hex := field_or_0x0 "status" resp in
  ret (Some (mkTxReceipt tx_hash (hex_or_0 block_hex) (hex_or_0 gas_hex)
               (String.eqb status_hex "0x1"))).

Definition get_block_number : M CoreDb Z RpcError :=
  let* resp := call "eth_blockNumber" (JArray []) in
  let* hex := expect_str "Expected hex block number" resp in
  parse_hex (hex_i64 hex).

Definition get_nonce (address : string) : M CoreDb Z RpcError :=
  let* resp := call "eth_getTransactionCount" (JArray [JString address; JString "latest"]) in
  let* hex := expect_str "Expected hex nonce" resp in
  parse_hex (hex_u64 hex).

Definition eth_call (to data : string) : M CoreDb string RpcError :=
  let* resp := call "eth_call"
    (JArray [JObject [("to", JString to); ("data", JString data)]; JString "latest"]) in
  expect_str "Expected hex string from eth_call" resp.

Definition gas_price : M CoreDb Z RpcError :=
  let* resp := call "eth_gasPrice" (JArray []) in
  let* hex := expect_str "Expected hex gas price" resp in
  parse_hex (hex_i64 hex).

Definition get_base_fee : M CoreDb (option Z) RpcError :=
  let* resp := call "eth_getBlockByNumber" (JArray [JString "latest"; JBool false]) in
  match get "baseFeePerGas" resp ≫= as_str with
  | None => ret None
  | Some hex => let* val := parse_hex (hex_u64 hex) in ret (Some val)
  end.

Definition max_priority_fee : M CoreDb (option Z) RpcError :=
  let* r := attempt (call "eth_maxPriorityFeePerGas" (JArray [])) in
  match r with
  | Ok resp =>
      let* hex := expect_str "Expected hex priority fee" resp in
      let* val := parse_hex (hex_u64 hex) in
      ret (Some val)
  | Err (RJsonRpc code message) =>
      if (code =? -32601) || (code =? -32602) then ret None else throw (RJsonRpc code message)
  | Err e => throw e
  end.

Definition estimate_gas (from to data : string) : M CoreDb Z RpcError :=
  let* resp := call "eth_estimateGas"
    (JArray [JObject [("from", JString from); ("to", JString to); ("data", JString data)]]) in
  let* hex := expect_str "Expected hex gas estimate" resp in
  parse_hex (hex_u64 hex).

(** The tip of a block: the first of its rewards, if that is a string. *)
Definition tip_of (block_rewards : Value) : option Z :=
  arr ← as_array block_rewards; v ← head arr; hex ← as_str v;
  Some (match hex_u64 hex with Ok n => n | Err _ => 0 end).

(** The percentiles as serde_json prints them. *)
Definition fee_history (block_count : Z) (percentiles : list string) : M CoreDb (list Z) RpcError :=
  let* resp := call "eth_feeHistory"
    (JArray [JString (print_hex_0x block_count); JString "latest"; JArray (map JNumber percentiles)]) in
  let rewards := default [] (get "reward" resp ≫= as_array) in
  ret (omap tip_of rewards).

(** ** Frames *)
Section apart.
Context {X} (φ : CoreDb → X) `{!Separate φ net}.
Hypothesis φ_breakers : ∀ x d, φ (set_breakers x d) = φ d.

Lemma keeps_client_call method params : keeps φ (call method params).
Proof.
  unfold call. apply keeps_map_err, keeps_call; [done|]. keeps. apply post_separate.
Qed.
End apart.
End client.
End RpcClient.

(** ** The Ethereum adapter of the wallet: [src/src/wallet/ethereum.rs]

    Fees, the settlement transaction, its submission with retries and its
    status.  The counters and logs are left out; JSON of the unsigned
    transaction (serde_json) and hexadecimal (hex) are parameters. *)

Import Rlp Erc20Abi.
Open Scope Z_scope.

Record GasParams := mkGasParams {
  gp_eip1559 : bool;
  gp_base_fee : Z;
  gp_max_priority_fee : Z;
  gp_max_fee_per_gas : Z;
  gp_gas_limit : Z;
}.

Module EthereumAdapter.

Definition ERC20_TRANSFER_GAS : Z := 65000.
Definition GAS_ESTIMATE_BUFFER_PCT : Z := 120.
Definition DEFAULT_PRIORITY_FEE : Z := 1500000000.
Definition MIN_PRIORITY_FEE : Z := 100000000.
Definition MAX_PRIORITY_FEE : Z := 50000000000.
Definition BASE_FEE_MULTIPLIER : Z := 2.
Definition MAX_SEND_RETRIES : Z := 3.
Definition RETRY_BASE_DELAY_MS : Z := 500.

(** [n.clamp(lo, hi)] *)
Definition clamp (n lo hi : Z) : Z := if n <? lo then lo else if hi <? n then hi else n.

(** Whether a rejected submission is tried again, and the name of the case. *)
Definition classify_send_error (code : Z) (msg : string) : bool * string :=
  if contains "nonce too low" msg || contains "nonce is too low" msg then (true, "nonce_retry"%string)
  else if contains "replacement transaction underpriced" msg || contains "underpriced" msg
          || contains "gas price too low" msg then (true, "underpriced"%string)
  else if contains "already known" msg || contains "already imported" msg
  then (false, "already_known"%string)
  else if contains "txpool is full" msg || contains "transaction pool" msg then (true, "pool_full"%string)
  else if contains "insufficient funds" msg || contains "insufficient balance" msg
  then (false, "insufficient_funds"%string)
  else if ((-32099 <=? code) && (code <=? -32000)) && negb (contains "revert" msg)
  then (true, "server_error"%string)
  else (false, "failed"%string).

Section adapter.
Context `{C : Secp256k1}.
(** [hex::encode], [hex::decode]; serde_json of an unsigned transaction. *)
Context (hex_encode : bytes → string) (hex_decode : string → result bytes string)
        (to_vec : EthUnsignedTxData → result bytes string)
        (from_slice : bytes → result EthUnsignedTxData string).
Context (net : Network) (rpc : RpcClient).

Definition rpc_error {A} (m : M CoreDb A RpcError) : M CoreDb A ChainError :=
  map_err (λ e, ChainRpc (rpc_error_text e)) m.

(** [sorted[sorted.len() / 2]] *)
Definition median_of (tips : list Z) : option Z :=
  sort_by Z.leb tips !! (length tips / 2)%nat.

Definition estimate_priority_fee {E} : M CoreDb Z E :=
  let* direct := attempt (RpcClient.max_priority_fee net rpc) in
  match direct with
  | Ok (Some fee) => ret (clamp fee MIN_PRIORITY_FEE MAX_PRIORITY_FEE)
  | _ =>
      let* tips := attempt (RpcClient.fee_history net rpc 5 ["50.0"%string]) in
      match tips with
      | Ok tips =>
          match median_of tips with
          | Some median =>
              if 0 <? median then ret (clamp median MIN_PRIORITY_FEE MAX_PRIORITY_FEE)
              else ret DEFAULT_PRIORITY_FEE
          | None => ret DEFAULT_PRIORITY_FEE
          end
      | Err _ => ret DEFAULT_PRIORITY_FEE
      end
  end.

Definition estimate_gas_params (from to_contract : string) (calldata : bytes)
  : M CoreDb GasParams ChainError :=
  let data_hex := ("0x" +:+ hex_encode calldata)%string in
  let* estimated := attempt (RpcClient.estimate_gas net rpc from to_contract data_hex) in
  let estimated_gas := match estimated with Ok n => n | Err _ => ERC20_TRANSFER_GAS end in
  let gas_limit := (u64 (estimated_gas * GAS_ESTIMATE_BUFFER_PCT) / 100) `max` ERC20_TRANSFER_GAS in
  let* base_fee := rpc_error (RpcClient.get_base_fee net rpc) in
  match base_fee with
  | Some base =>
      let* priority := estimate_priority_fee in
      let max_fee := u64 (u64 (base * BASE_FEE_MULTIPLIER) + priority) in
      ret (mkGasParams true base priority max_fee gas_limit)
  | None =>
      let* gas_price := rpc_error (RpcClient.gas_price net rpc) in
      ret (mkGasParams false 0 0 (u64 gas_price) gas_limit)
  end.

Definition encode_type2_tx (chain_id nonce : Z) (gas : GasParams) (to_contract calldata : bytes) : bytes :=
  encode_eip1559_unsigned (mkEip1559Tx chain_id nonce (gp_max_priority_fee gas) (gp_max_fee_per_gas gas)
    (gp_gas_limit gas) to_contract 0 calldata).
Definition encode_legacy_tx (chain_id nonce gas_price gas_limit : Z) (to_contract calldata : bytes) : bytes :=
  encode_legacy_unsigned (mkLegacyTx nonce gas_price gas_limit to_contract 0 calldata chain_id).

(** The attempts of [for attempt in 0..=MAX_SEND_RETRIES] from [attempt] on. *)
Fixpoint send_loop (n : nat) (attempt : Z) (raw_hex : string) : M CoreDb string ChainError :=
  match n with
  | O => throw (ChainRpc "Max retries exceeded")
  | S n =>
      let again :=
        sleep_ms net (RETRY_BASE_DELAY_MS * Z.shiftl 1 attempt) ;;;
        send_loop n (attempt + 1) raw_hex in
      let* r := Monad.attempt (RpcClient.send_raw_transaction net rpc raw_hex) in
      match r with
      | Ok tx_hash => ret tx_hash
      | Err (RJsonRpc code message) =>
          let '(retriable, category) := classify_send_error code (to_lowercase message) in
          if retriable && (attempt <? MAX_SEND_RETRIES) then again
          else throw (ChainRpc (category +:+ ": " +:+ message))
      | Err (RNetwork e) =>
          if attempt <? MAX_SEND_RETRIES then again else throw (ChainRpc (rpc_error_text (RNetwork e)))
      | Err e => throw (ChainRpc (rpc_error_text e))
      end
  end.
Definition send_transaction (tx : SignedTx) : M CoreDb string ChainError :=
  send_loop 4 0 ("0x" +:+ hex_encode (st_data tx)).

Definition get_transaction_status (tx_hash : string) : M CoreDb TxState ChainError :=
  let* receipt := rpc_error (RpcClient.get_transaction_receipt net rpc tx_hash) in
  match receipt with
  | None => ret StatePending
  | Some r =>
      if negb (rx_status r) then ret (StateFailed "Transaction reverted") else
      let* current_block := rpc_error (RpcClient.get_block_number net rpc) in
      let confirmations := u32 (i64 (current_block - rx_block_number r) `max` 0) in
      ret (StateConfirmed (u64 (rx_block_number r)) confirmations)
  end.

Definition of_address (what addr : string) : M CoreDb bytes ChainError :=
  match parse_address hex_decode addr with
  | Ok a => ret a
  | Err e => throw (ChainRpc (what +:+ ": " +:+ e))
  end.

Definition estimate_fees (data : SettlementData) : M CoreDb FeeEstimate ChainError :=
  let* to_addr := of_address "Bad address" (sd_to data) in
  let calldata := encode_transfer to_addr (sd_amount data) in
  let* gas := estimate_gas_params (sd_from data) (sd_token data) calldata in
  ret (mkFeeEstimate (gp_base_fee gas) (gp_max_priority_fee gas)
    (u64 (gp_max_fee_per_gas gas * gp_gas_limit gas))
    (if gp_eip1559 gas then "wei (EIP-1559)" else "wei (legacy)")).

Definition get_balance (address token : string) : M CoreDb Z ChainError :=
  let* account := of_address "Bad address" address in
  let calldata := encode_balance_of account in
  let* result := rpc_error (RpcClient.eth_call net rpc token ("0x" +:+ hex_encode calldata)) in
  let bytes := match hex_decode (strip_0x result) with Ok b => b | Err _ => [] end in
  ret (if (32 <=? length bytes)%nat then of_be (slice 24 8 bytes) else 0).

Definition build_settlement_tx (data : SettlementData) : M CoreDb UnsignedTx ChainError :=
  let* to_addr := of_address "Bad recipient" (sd_to data) in
  let calldata := encode_transfer to_addr (sd_amount data) in
  let* token_contract := of_address "Bad token" (sd_token data) in
  let* nonce := rpc_error (RpcClient.get_nonce net rpc (sd_from data)) in
  let* gas := estimate_gas_params (sd_from data) (sd_token data) calldata in
  let chain_id := rc_chain_id rpc in
  let tx_data :=
    if gp_eip1559 gas then
      Eip1559 (mkEip1559Tx chain_id nonce (gp_max_priority_fee gas) (gp_max_fee_per_gas gas)
        (gp_gas_limit gas) token_contract 0 calldata)
    else
      Legacy (mkLegacyTx nonce (gp_max_fee_per_gas gas) (gp_gas_limit gas) token_contract 0 calldata
        chain_id) in
  match to_vec tx_data with
  | Ok data => ret (mkUnsignedTx "ethereum" data)
  | Err e => throw (ChainSigning ("serialize tx: " +:+ e))
  end.

Definition sign_transaction (unsigned_tx : UnsignedTx) (private_key : bytes) : result SignedTx ChainError :=
  match from_slice (ut_data unsigned_tx) with
  | Err e => Err (ChainSigning ("deserialize tx: " +:+ e))
  | Ok tx_data =>
      let signed := match tx_data with
                    | Legacy tx => EthSign.sign_legacy_tx tx private_key
                    | Eip1559 tx => EthSign.sign_eip1559_tx tx private_key
                    end in
      match signed with
      | Ok signed_bytes => Ok (mkSignedTx "ethereum" signed_bytes)
      | Err e => Err (ChainSigning e)
      end
  end.

Definition adapter : ChainAdapter :=
  mkChainAdapter "ethereum" 12 DEFAULT_DROP_TIMEOUT_SECS send_transaction get_transaction_status
    estimate_fees get_balance build_settlement_tx sign_transaction.

End adapter.
End EthereumAdapter.
