(* ===== verification/EthereumCorrect.v ===== *)
(** * What the Ethereum adapter promises

    Its fees are bounded; the settlement transaction it builds and signs is, for
    a node, the transfer that was asked for; and it never reports a transaction
    as pending. *)
From stdpp Require Import gmap.
From S2P Require Import Prelude Monad Float64 Model Text Bytes Breaker Rpc Rlp RlpCorrect Abi CalldataCorrect.
From S2P Require Import EthSign Chain Ethereum.
Import Rlp Erc20Abi EthereumAdapter.
Open Scope Z_scope.

(** ** Numbers a node gives *)

Lemma digits_loop_range negative lo hi acc s n : lo ≤ acc ≤ hi →
  digits_loop negative lo hi acc s = Ok n → lo ≤ n ≤ hi.
Proof.
  revert acc. induction s as [|c s IH]; intros acc Hacc; simpl; [by intros [= <-]|].
  destruct (to_digit c) as [d|]; [|done]. set (acc' := if negative then _ else _).
  destruct (Z.ltb_spec hi acc'); [done|]. destruct (Z.ltb_spec acc' lo); [done|]. apply IH. lia.
Qed.

Lemma from_str_radix_range lo hi s n : lo ≤ 0 ≤ hi → from_str_radix_16 lo hi s = Ok n → lo ≤ n ≤ hi.
Proof. intros H0. unfold from_str_radix_16. repeat case_match; try done; by apply digits_loop_range. Qed.

Lemma hex_u64_range s n : hex_u64 s = Ok n → in_u64 n.
Proof. intros H. apply from_str_radix_range in H; unfold in_u64, u64_max in *; lia. Qed.

Section adapter.
Context (hex_encode : bytes → string) (hex_decode : string → result bytes string).
Context (net : Network) (rpc : RpcClient).

Lemma parse_hex_Ok r e n e' : RpcClient.parse_hex r e = (Ok n, e') → r = Ok n.
Proof. destruct r; [by intros [= -> _]|done]. Qed.

Lemma nonce_range a e n e' : RpcClient.get_nonce net rpc a e = (Ok n, e') → in_u64 n.
Proof.
  unfold RpcClient.get_nonce. intros (resp & e1 & _ & H)%bind_Ok. apply bind_Ok in H as (h & e2 & _ & H).
  by eapply hex_u64_range, parse_hex_Ok.
Qed.
Lemma base_fee_range e n e' : RpcClient.get_base_fee net rpc e = (Ok (Some n), e') → in_u64 n.
Proof.
  unfold RpcClient.get_base_fee. intros (resp & e1 & _ & H)%bind_Ok.
  destruct (get _ _ ≫= _); [|by apply ret_Ok in H as [? _]].
  apply bind_Ok in H as (v & e2 & Hv & H). apply ret_Ok in H as [[= ->] _].
  by eapply hex_u64_range, parse_hex_Ok.
Qed.

(** ** Fees *)

Lemma clamp_range n : MIN_PRIORITY_FEE ≤ clamp n MIN_PRIORITY_FEE MAX_PRIORITY_FEE ≤ MAX_PRIORITY_FEE.
Proof.
  unfold clamp. destruct (Z.ltb_spec n MIN_PRIORITY_FEE); [done|].
  destruct (Z.ltb_spec MAX_PRIORITY_FEE n); [done|]. lia.
Qed.

Lemma priority_range {E} e n e' : estimate_priority_fee (E := E) net rpc e = (Ok n, e') →
  MIN_PRIORITY_FEE ≤ n ≤ MAX_PRIORITY_FEE.
Proof.
  assert (∀ (m : Z) (e0 : Env CoreDb), ret (E := E) m e0 = (Ok n, e') →
    MIN_PRIORITY_FEE ≤ m ≤ MAX_PRIORITY_FEE → MIN_PRIORITY_FEE ≤ n ≤ MAX_PRIORITY_FEE) as Hret
    by (intros m e0 [-> _]%ret_Ok; done).
  unfold estimate_priority_fee. intros (r & e1 & _ & H)%bind_Ok.
  destruct r as [[fee|]|]; [by eapply Hret, clamp_range| |];
    (apply bind_Ok in H as (tips & e2 & _ & H); destruct tips as [tips|]; [|by eapply Hret];
     destruct (median_of tips) as [m|]; [destruct (0 <? m)|]; eapply Hret; (done || apply clamp_range)).
Qed.

(** The limits of what a transaction can cost. *)
Definition fees_ok (g : GasParams) : Prop :=
  ERC20_TRANSFER_GAS ≤ gp_gas_limit g ≤ u64_max / 100 ∧ in_u64 (gp_max_fee_per_gas g) ∧
  if gp_eip1559 g
  then in_u64 (gp_base_fee g) ∧ MIN_PRIORITY_FEE ≤ gp_max_priority_fee g ≤ MAX_PRIORITY_FEE ∧
       (gp_base_fee g ≤ 2 ^ 62 → gp_max_fee_per_gas g = 2 * gp_base_fee g + gp_max_priority_fee g)
  else gp_base_fee g = 0 ∧ gp_max_priority_fee g = 0.

Lemma u64_in_u64 n : in_u64 (u64 n).
Proof. unfold in_u64, u64, wrap_u, u64_max. pose proof (Z.mod_pos_bound n (2 ^ 64)). lia. Qed.

Lemma gas_params_ok from to cd e g e' :
  estimate_gas_params hex_encode net rpc from to cd e = (Ok g, e') → fees_ok g.
Proof.
  unfold estimate_gas_params. intros (r & e1 & _ & H)%bind_Ok.
  set (gas := match r with Ok n => n | Err _ => _ end) in H.
  assert (ERC20_TRANSFER_GAS ≤ (u64 (gas * GAS_ESTIMATE_BUFFER_PCT) / 100) `max` ERC20_TRANSFER_GAS
          ≤ u64_max / 100) as Hg.
  { pose proof (u64_in_u64 (gas * GAS_ESTIMATE_BUFFER_PCT)) as [_ Hu].
    apply (Z.div_le_mono _ _ 100) in Hu; [|lia].
    assert (ERC20_TRANSFER_GAS ≤ u64_max / 100) by (vm_compute; discriminate). lia. }
  apply bind_Ok in H as (base_fee & e2 & Hb & H). apply map_err_Ok in Hb.
  destruct base_fee as [base|]; apply bind_Ok in H as (p & e3 & Hp & H); apply ret_Ok in H as [-> _];
    (split; [exact Hg|]; split; [apply u64_in_u64|]); simpl; [|done].
  apply base_fee_range in Hb. apply priority_range in Hp. split; [done|]. split; [done|]. intros Hmax.
  unfold in_u64 in Hb. unfold BASE_FEE_MULTIPLIER, MIN_PRIORITY_FEE, MAX_PRIORITY_FEE in *.
  rewrite (u64_small (base * 2)), u64_small by lia. lia.
Qed.

(** The fees of every transaction the adapter prices are bounded whatever
    the node answers: the gas limit is at least that of a token transfer; the
    tip stays between its floor and its cap; and the fee cap is twice the base
    fee plus the tip, without overflow for base fees up to 2^62 wei. *)
Theorem eth_fees_bounded from to calldata e g e' :
  estimate_gas_params hex_encode net rpc from to calldata e = (Ok g, e') → fees_ok g.
Proof. apply gas_params_ok. Qed.

(** ** Status *)

Lemma client_call_not_null method params e v e' : null_is_absent net →
  RpcClient.call net rpc method params e = (Ok v, e') → v ≠ JNull.
Proof.
  intros Hnull H. unfold RpcClient.call in H. apply map_err_Ok, call_Ok in H as (e1 & e2 & H).
  apply bind_Ok in H as (resp & e3 & Hp & H). apply map_err_Ok in Hp.
  destruct (Rpc.rpc_error resp); [by apply throw_Ok in H|]. apply of_option_Ok in H as [H _].
  intros ->. by eapply Hnull.
Qed.

(** A transaction that is not mined is an error, not a pending transaction. *)
Lemma status_never_pending tx_hash e e' : null_is_absent net →
  get_transaction_status net rpc tx_hash e ≠ (Ok StatePending, e').
Proof.
  intros Hnull H. unfold get_transaction_status in H. apply bind_Ok in H as (r & e1 & Hr & H).
  apply map_err_Ok in Hr. unfold RpcClient.get_transaction_receipt in Hr.
  apply bind_Ok in Hr as (v & e2 & Hv & Hr). apply client_call_not_null in Hv; [|done].
  destruct (is_null v) eqn:En; [by destruct v|]. apply ret_Ok in Hr as [-> _].
  destruct (rx_status _); simpl in H; [|by apply ret_Ok in H as [? _]].
  apply bind_Ok in H as (b & e3 & _ & H). by apply ret_Ok in H as [? _].
Qed.

(** ** The interface: an adapter over a separate network is apart *)
Section apart.
Context {X} (φ : CoreDb → X) `{!Separate φ net}.
Hypothesis φ_breakers : ∀ x d, φ (set_breakers x d) = φ d.
Context `{C : Secp256k1} (to_vec : EthUnsignedTxData → result bytes string)
        (from_slice : bytes → result EthUnsignedTxData string).

Lemma eth_keeps_call method params : keeps φ (RpcClient.call net rpc method params).
Proof. by apply RpcClient.keeps_client_call. Qed.
#[local] Hint Resolve eth_keeps_call keeps_sleep : keeps.
Ltac eth_keeps := unfold rpc_error, of_address, RpcClient.parse_hex, RpcClient.expect_str; keeps.

Lemma eth_keeps_priority {E} : keeps φ (estimate_priority_fee (E := E) net rpc).
Proof. unfold estimate_priority_fee, RpcClient.max_priority_fee, RpcClient.fee_history. eth_keeps. Qed.
#[local] Hint Resolve eth_keeps_priority : keeps.
Lemma eth_keeps_gas from to cd : keeps φ (estimate_gas_params hex_encode net rpc from to cd).
Proof.
  unfold estimate_gas_params, RpcClient.estimate_gas, RpcClient.get_base_fee, RpcClient.gas_price. eth_keeps.
Qed.
#[local] Hint Resolve eth_keeps_gas : keeps.
Lemma eth_keeps_send n attempt raw : keeps φ (send_loop net rpc n attempt raw).
Proof.
  revert attempt. induction n as [|n IH]; intros attempt; simpl; [keeps|].
  unfold RpcClient.send_raw_transaction. eth_keeps; apply IH.
Qed.

Lemma ethereum_apart : Apart φ (adapter hex_encode hex_decode to_vec from_slice net rpc).
Proof.
  split; intros; simpl.
  - apply eth_keeps_send.
  - unfold get_transaction_status, RpcClient.get_transaction_receipt, RpcClient.get_block_number. eth_keeps.
  - unfold estimate_fees. eth_keeps.
  - unfold get_balance, RpcClient.eth_call. eth_keeps.
  - unfold build_settlement_tx, RpcClient.get_nonce. eth_keeps.
Qed.
End apart.

(** ** The settlement transaction *)
Section settlement.
Context `{C : Secp256k1} `{Hc : !Secp256k1Laws}.
Context (to_vec : EthUnsignedTxData → result bytes string)
        (from_slice : bytes → result EthUnsignedTxData string).
(** serde_json reads back what it wrote; two digits are a byte. *)
Hypothesis json_back : ∀ d b, to_vec d = Ok b → from_slice b = Ok d.
Hypothesis hex_bytes : ∀ s b, hex_decode s = Ok b → String.length s = (2 * length b)%nat ∧ all_bytes b.

Lemma parse_address_bytes s b : parse_address hex_decode s = Ok b → CalldataCorrect.address b.
Proof.
  unfold parse_address. destruct (Z.eqb_spec (Z.of_nat (String.length (strip_0x s))) 40) as [E|]; [|done].
  simpl. destruct (hex_decode _) as [b'|] eqn:Eh; [|done]. intros [= <-].
  apply hex_bytes in Eh as [El Hb]. split; [lia|done].
Qed.

(** Where a transaction goes, what it calls and on which chain. *)
Definition call_of (d : EthUnsignedTxData) : Z * bytes * Z * bytes :=
  match d with
  | Legacy tx => (lg_chain_id tx, lg_to tx, lg_value tx, lg_data tx)
  | Eip1559 tx => (chain_id tx, to tx, value tx, Rlp.data tx)
  end.

Lemma of_address_Ok what s e b e' : of_address hex_decode what s e = (Ok b, e') →
  parse_address hex_decode s = Ok b.
Proof. unfold of_address. destruct (parse_address _ _); [by intros [-> _]%ret_Ok|by intros ?%throw_Ok]. Qed.

Lemma transfer_calldata to amount : CalldataCorrect.address to → in_u64 amount →
  calldata (encode_transfer to amount).
Proof.
  intros [Hl Hb] Ha. unfold encode_transfer. split.
  - unfold encode_address, encode_uint256. apply Forall_app_2;
      [|apply Forall_app_2; apply Forall_app_2; (done || by apply Forall_replicate || apply to_be_bytes)].
    unfold TRANSFER_SELECTOR. repeat constructor; unfold is_byte; lia.
  - rewrite !length_app, length_encode_address, length_encode_uint256 by done. simpl. lia.
Qed.

Lemma build_spec sd e u e' : in_u64 (sd_amount sd) → 0 ≤ rc_chain_id rpc < 2 ^ 63 - 18 →
  build_settlement_tx hex_encode hex_decode to_vec net rpc sd e = (Ok u, e') →
  ∃ d recipient token, parse_address hex_decode (sd_to sd) = Ok recipient ∧
    parse_address hex_decode (sd_token sd) = Ok token ∧
    to_vec d = Ok (ut_data u) ∧ signable d ∧
    call_of d = (rc_chain_id rpc, token, 0, encode_transfer recipient (sd_amount sd)).
Proof.
  intros Ha Hid. unfold build_settlement_tx. intros (recipient & e1 & Hr & H)%bind_Ok.
  apply bind_Ok in H as (token & e2 & Ht & H). apply bind_Ok in H as (n & e3 & Hn & H).
  apply bind_Ok in H as (g & e4 & Hg & H). apply map_err_Ok, nonce_range in Hn.
  apply gas_params_ok in Hg as (Hl & Hm & Hg). apply of_address_Ok in Hr, Ht.
  pose proof (parse_address_bytes _ _ Hr) as Hra. pose proof (parse_address_bytes _ _ Ht) as [Htl Htb].
  pose proof (transfer_calldata _ _ Hra Ha) as Hcd.
  assert (in_u64 (gp_gas_limit g)) as Hgl.
  { unfold in_u64. unfold ERC20_TRANSFER_GAS in Hl. pose proof (Z.div_le_upper_bound u64_max 100 u64_max ltac:(lia)).
    unfold u64_max in *. lia. }
  assert (in_u64 (rc_chain_id rpc)) as Hci by (unfold in_u64, u64_max; lia).
  assert (in_u128 0) as H0 by (unfold in_u128; lia).
  destruct (gp_eip1559 g).
  - destruct (to_vec _) as [b|] eqn:Ev; [|done]. apply ret_Ok in H as [-> _].
    eexists _, recipient, token. split_and!; [done|done|exact Ev| |done].
    destruct Hg as (_ & Hp & _). unfold MIN_PRIORITY_FEE, MAX_PRIORITY_FEE in Hp.
    split; simpl; (done || unfold in_u64, u64_max; lia).
  - destruct (to_vec _) as [b|] eqn:Ev; [|done]. apply ret_Ok in H as [-> _].
    eexists _, recipient, token. split_and!; [done|done|exact Ev| |done].
    split; [split; simpl; done|simpl; lia].
Qed.

(** C24: From the business data to the chain: when the adapter builds and signs
    a settlement, a node receives from the signing key's address, on the
    client's chain, a call of the token's contract, without value, that the
    contract reads as [transfer] of exactly the amount to the recipient. *)
Theorem settlement_is_the_transfer sd e u e' key signed :
  in_u64 (sd_amount sd) → 0 ≤ rc_chain_id rpc < 2 ^ 63 - 18 →
  (∀ h r s i, EthSign.sign_hash h key = Ok (r, s, i) → 0 ≤ i ≤ 1) →
  build_settlement_tx hex_encode hex_decode to_vec net rpc sd e = (Ok u, e') →
  sign_transaction from_slice u key = Ok signed →
  ∃ d sender recipient token call, EthSign.private_key_to_address key = Ok sender ∧
    parse_address hex_decode (sd_to sd) = Ok recipient ∧
    parse_address hex_decode (sd_token sd) = Ok token ∧
    receive (st_data signed) = Some (d, sender) ∧ call_of d = (rc_chain_id rpc, token, 0, call) ∧
    take 4 call = TRANSFER_SELECTOR ∧ length (args call) = 64%nat ∧
    word_at (args call) 0 = Some (of_be recipient) ∧ word_at (args call) 1 = Some (sd_amount sd).
Proof.
  intros Ha Hid Hrec Hb Hs. apply build_spec in Hb as (d & recipient & token & Hr & Ht & Hv & Hd & Hcall); [|done..].
  unfold sign_transaction in Hs. rewrite (json_back _ _ Hv) in Hs.
  change (match sign_data d key with Ok b => Ok (mkSignedTx "ethereum" b) | Err e => Err (ChainSigning e) end
    = Ok signed) in Hs.
  assert (∃ r s i, EthSign.sign_hash (keccak256 (payload d)) key = Ok (r, s, i)) as (r & s & i & Es).
  { destruct d; simpl in Hs; unfold EthSign.sign_legacy_tx, EthSign.sign_eip1559_tx in Hs; simpl;
      destruct (EthSign.sign_hash _ _) as [[[r s] i]|]; by eauto. }
  destruct (signed_received d key r s i Hd Es (Hrec _ _ _ _ Es)) as (raw & sender & Hraw & Hsender & Hrecv & _).
  rewrite Hraw in Hs. injection Hs as <-.
  pose proof (parse_address_bytes _ _ Hr) as Hra.
  destruct (erc20_calls_read_back recipient recipient (sd_amount sd) Hra Hra) as [(H1 & H2 & H3 & H4) _].
  { unfold in_u64, u64_max in Ha. lia. }
  exists d, sender, recipient, token, (encode_transfer recipient (sd_amount sd)). by split_and!.
Qed.

End settlement.
End adapter.

(** ** A node that answers *)
Module NodeExample.

(** Two hexadecimal digits a byte. *)
Fixpoint hex_decode (s : string) : result bytes string :=
  match s with
  | "" => Ok []
  | String a (String b r) =>
      match to_digit a, to_digit b, hex_decode r with
      | Some x, Some y, Ok l => Ok (16 * x + y :: l)
      | _, _, _ => Err "digits"
      end
  | _ => Err "odd length"
  end%string.
Definition hex_encode (b : bytes) : string := "".

Lemma to_digit_range c d : to_digit c = Some d → 0 ≤ d < 16.
Proof.
  unfold to_digit. intros H. repeat case_match; try done; injection H as <-;
    repeat match goal with E : _ && _ = true |- _ => apply andb_prop in E as [?%Z.leb_le ?%Z.leb_le] end; lia.
Qed.
Lemma hex_bytes n s b : (String.length s ≤ n)%nat → hex_decode s = Ok b →
  String.length s = (2 * length b)%nat ∧ all_bytes b.
Proof.
  revert s b. induction n as [|n IH]; intros [|x [|y r]] b Hn; simpl in *; try lia; try done;
    try (by intros [= <-]; repeat constructor).
  destruct (to_digit x) as [d1|] eqn:E1; [|done]. destruct (to_digit y) as [d2|] eqn:E2; [|done].
  destruct (hex_decode r) as [l|] eqn:E; [|done]. intros [= <-].
  apply to_digit_range in E1, E2. destruct (IH r l) as [Hl Hb]; [lia|done|]. simpl. split; [lia|].
  constructor; [unfold is_byte; lia|done].
Qed.

(** A reader of unsigned transactions, and a writer of those it reads. *)
Definition from_slice (b : bytes) : result EthUnsignedTxData string :=
  let whole bs := match decode (2 * length bs) bs with Some (Lst items, []) => items | _ => [] end in
  match b with
  | 2 :: rest =>
      match whole rest with
      | [Str c; Str n; Str p; Str m; Str g; Str t; Str v; Str d; Lst []] =>
          Ok (Eip1559 (mkEip1559Tx (of_be c) (of_be n) (of_be p) (of_be m) (of_be g) t (of_be v) d))
      | _ => Err "fields"%string
      end
  | _ =>
      match whole b with
      | [Str n; Str p; Str g; Str t; Str v; Str d; Str c; Str []; Str []] =>
          Ok (Legacy (mkLegacyTx (of_be n) (of_be p) (of_be g) t (of_be v) d (of_be c)))
      | _ => Err "fields"%string
      end
  end.
#[export] Instance legacy_eq_dec : EqDecision LegacyTxFields.
Proof. solve_decision. Defined.
#[export] Instance eip1559_eq_dec : EqDecision Eip1559TxFields.
Proof. solve_decision. Defined.
#[export] Instance data_eq_dec : EqDecision EthUnsignedTxData.
Proof. solve_decision. Defined.
Definition to_vec (d : EthUnsignedTxData) : result bytes string :=
  if decide (from_slice (payload d) = Ok d) then Ok (payload d) else Err "no JSON"%string.

Definition answer (method : string) : option Value :=
  if String.eqb method "eth_getBlockByNumber" then Some (JObject [("baseFeePerGas", JString "0x3b9aca00")])
  else if String.eqb method "eth_maxPriorityFeePerGas" then Some (JString "0x59682f00")
  else if String.eqb method "eth_estimateGas" then Some (JString "0xc350")
  else if String.eqb method "eth_getTransactionCount" then Some (JString "0x7")
  else if String.eqb method "eth_sendRawTransaction" then Some (JString "0xabcd")
  else None.
Definition net : Network :=
  mkNetwork (λ _ method _, ret (mkRpcResponse (answer method) None)) (λ _, ret (200, ""))
    (λ ms e, e) (λ e, (1, e)) (λ _, "").
Definition rpc : RpcClient := RpcClient.new "http://node" 1.
Definition origin : Env CoreDb := mkEnv empty_db [] (λ n, N.of_nat n) 0 50.
Definition data : SettlementData :=
  mkSettlementData "0x3535353535353535353535353535353535353535" "0x00112233445566778899aabbccddeeff00112233"
    250000 "0xa0b86991c6218b36c1d19d4a2e9eb0ce3606eb48" "ethereum".

Lemma node_net_null : null_is_absent net.
Proof.
  intros url method params e resp e' [= <- _]. simpl. unfold answer.
  repeat (destruct (String.eqb _ _); [done|]). done.
Qed.
End NodeExample.

Lemma eth_fees_bounded_witness :
  ∃ g, fst (estimate_gas_params NodeExample.hex_encode NodeExample.net NodeExample.rpc "a" "b" []
              NodeExample.origin) = Ok g ∧ fees_ok g ∧ gp_max_fee_per_gas g = 3500000000.
Proof.
  destruct (estimate_gas_params NodeExample.hex_encode NodeExample.net NodeExample.rpc "a" "b" []
              NodeExample.origin) as [[g|x] e'] eqn:E; [|vm_compute in E; discriminate E].
  exists g. split; [reflexivity|]. split; [exact (eth_fees_bounded _ _ _ _ _ _ _ _ _ E)|].
  vm_compute in E. by injection E as <- _.
Defined.

(** 250000 units of a token to 0x0011..33, signed with the key of [ToyCurve]. *)
Lemma settlement_is_the_transfer_witness :
  let _ := ToyCurve.curve in
  ∃ signed d sender call, receive (st_data signed) = Some (d, sender) ∧
    call_of d = (1, [160; 184; 105; 145; 198; 33; 139; 54; 193; 209; 157; 74; 46; 158; 176; 206; 54; 6; 235; 72],
                 0, call) ∧
    word_at (args call) 1 = Some 250000.
Proof.
  intros C.
  destruct (build_settlement_tx NodeExample.hex_encode NodeExample.hex_decode NodeExample.to_vec NodeExample.net
              NodeExample.rpc NodeExample.data NodeExample.origin) as [[u|x] e'] eqn:E;
    [|vm_compute in E; discriminate E].
  destruct (sign_transaction NodeExample.from_slice u ToyCurve.key) as [signed|x] eqn:Es.
  2:{ vm_compute in E. injection E as <- _. vm_compute in Es. discriminate Es. }
  destruct (settlement_is_the_transfer NodeExample.hex_encode NodeExample.hex_decode NodeExample.net
              NodeExample.rpc (Hc := ToyCurve.laws) NodeExample.to_vec NodeExample.from_slice) with
    (sd := NodeExample.data) (e := NodeExample.origin) (u := u) (e' := e') (key := ToyCurve.key) (signed := signed)
    as (d & sender & recipient & token & call & _ & _ & Ht & Hrecv & Hcall & _ & _ & _ & Hamt).
  - unfold NodeExample.to_vec. intros d b. destruct (decide _) as [Hd|]; [|discriminate].
    intros [= <-]. exact Hd.
  - intros s b. exact (NodeExample.hex_bytes _ s b (Nat.le_refl _)).
  - vm_compute. split; discriminate.
  - vm_compute. split; [discriminate|reflexivity].
  - intros h r s i Hsig. unfold EthSign.sign_hash in Hsig. simpl in Hsig.
    injection Hsig as _ _ <-. pose proof (Z.mod_pos_bound (of_be h) 2 ltac:(lia)). lia.
  - exact E.
  - exact Es.
  - exists signed, d, sender, call. split; [exact Hrecv|]. vm_compute in Ht. injection Ht as <-.
    split; [exact Hcall|exact Hamt].
Defined.

(** A node that already holds the transaction, from an earlier attempt say,
    answers so, and the submission counts as failed (a flaw: the transaction
    can still be mined). *)
Definition holding_node : Network :=
  mkNetwork (λ _ _ _, ret (mkRpcResponse None (Some (mkRpcError (-32000) "already known"))))
    (λ _, ret (200, "")) (λ ms e, e) (λ e, (1, e)) (λ _, "").
Theorem already_known_is_a_failure :
  fst (send_transaction NodeExample.hex_encode holding_node NodeExample.rpc (mkSignedTx "ethereum" [])
         NodeExample.origin) = Err (ChainRpc "already_known: already known").
Proof. by vm_compute. Qed.
