(* ===== verification/SolanaAdapter.v ===== *)
(** * The Solana adapter of the wallet: [src/src/wallet/solana.rs]

    The settlement transaction, its signature, submission with retries, status
    and fees.  HTTP, timers, JSON text, SHA-256 and Ed25519 are parameters. *)
From stdpp Require Import gmap.
From S2P Require Import Prelude Monad Float64 Model Text Bytes Base58 Rpc SolanaTx Chain SolanaTxCorrect.
Open Scope Z_scope.

(** [Value::as_u64] *)
Definition as_u64 (v : Value) : option Z :=
  match v with JNumber text => parse_uint u64_max text | _ => None end.
Definition as_object (v : Value) : option (list (string * Value)) :=
  match v with JObject fields => Some fields | _ => None end.

Module SolanaAdapter.
Section adapter.
(** POST of a JSON body and its answer; a timer; [serde_json]'s printing; the
    text of bytes that are one. *)
Context (post_json : string → Value → M CoreDb Value HttpError)
        (sleep_for : Z → ∀ E, M CoreDb unit E) (print_json : Value → string) (text_of : bytes → string).
Context (sha256 : bytes → bytes) (ed25519 : bytes → bytes → result bytes string).
Context (endpoint : string).

Definition http_error (x : HttpError) : ChainError := ChainRpc (SolanaTx.http_text x).

Definition rpc_call (method : string) (params : Value) : M CoreDb Value ChainError :=
  let* json := map_err http_error (post_json endpoint (SolanaTx.request method params)) in
  match get "error" json with
  | Some err => throw (ChainRpc (print_json err))
  | None => of_option (ChainRpc "Missing result") (get "result" json)
  end.

(** The attempts of [for attempt in 0..3] from [attempt] on. *)
Fixpoint send_loop (n : nat) (attempt : Z) (body : Value) (last_err : string) : M CoreDb string ChainError :=
  match n with
  | O => throw (ChainRpc ("Max retries exceeded: " +:+ last_err))
  | S n =>
      let again last_err :=
        sleep_for (u64 (500 * (attempt + 1))) _ ;;; send_loop n (attempt + 1) body last_err in
      let* resp := Monad.attempt (post_json endpoint body) in
      match resp with
      | Ok json =>
          match get "error" json with
          | Some err =>
              let msg := default "Unknown" (get "message" err ≫= as_str) in
              if contains "BlockhashNotFound" msg && (attempt <? 2) then again msg
              else throw (ChainRpc msg)
          | None => of_option (ChainRpc "Missing result") (get "result" json ≫= as_str)
          end
      | Err (BodyFailed e) => throw (ChainRpc e)
      | Err (SendFailed e) => if attempt <? 2 then again e else throw (ChainRpc e)
      end
  end.

Definition send_transaction (tx : SignedTx) : M CoreDb string ChainError :=
  let encoded := text_of (Base58.bs58_encode (st_data tx)) in
  send_loop 3 0 (SolanaTx.request "sendTransaction" (JArray [JString encoded; JObject
    [("encoding", JString "base58"); ("skipPreflight", JBool false);
     ("preflightCommitment", JString "confirmed")]%string])) "".

Definition get_transaction_status (tx_hash : string) : M CoreDb TxState ChainError :=
  let* result := rpc_call "getSignatureStatuses"
    (JArray [JArray [JString tx_hash]; JObject [("searchTransactionHistory", JBool true)]%string]) in
  let* statuses := of_option (ChainRpc "Invalid status response") (get "value" result ≫= as_array) in
  match head statuses ≫= as_object with
  | None | Some [] => ret StatePending
  | Some fields =>
      let status := JObject fields in
      let slot := default 0 (get "slot" status ≫= as_u64) in
      let confirmations := u32 (default 0 (get "confirmations" status ≫= as_u64)) in
      let finalized := bool_decide (get "confirmationStatus" status ≫= as_str = Some "finalized"%string) in
      let confirmed := ret (StateConfirmed slot (if finalized then 32 else confirmations)) in
      match get "err" status with
      | Some err => if is_null err then confirmed else ret (StateFailed (print_json err))
      | None => confirmed
      end
  end.

(** The fees of the last blocks, those that are numbers. *)
Definition prioritization_fees (val : Value) : list Z :=
  omap (λ v, get "prioritizationFee" v ≫= as_u64) (default [] (as_array val)).

Definition estimate_fees (data : SettlementData) : M CoreDb FeeEstimate ChainError :=
  let base_fee := 5000 in
  let* result := attempt (rpc_call "getRecentPrioritizationFees" (JArray [])) in
  let priority_fee :=
    match result with
    | Ok val =>
        match prioritization_fees val with
        | [] => 0
        | fees => foldl (λ acc f, u64 (acc + f)) 0 fees / Z.of_nat (length fees)
        end
    | Err _ => 0
    end in
  ret (mkFeeEstimate base_fee priority_fee (u64 (base_fee + priority_fee)) "lamports").

Definition get_balance (address token : string) : M CoreDb Z ChainError :=
  if String.eqb token "SOL" then
    let* result := rpc_call "getBalance" (JArray [JString address]) in
    of_option (ChainRpc "Invalid balance response") (get "value" result ≫= as_u64)
  else
    let* result := rpc_call "getTokenAccountsByOwner"
      (JArray [JString address; JObject [("mint", JString token)]%string;
               JObject [("encoding", JString "jsonParsed")]%string]) in
    let* accounts := of_option (ChainRpc "Invalid token balance response") (get "value" result ≫= as_array) in
    ret (default 0 (a ← head accounts; a ← get "account" a; a ← get "data" a; a ← get "parsed" a;
                    a ← get "info" a; a ← get "tokenAmount" a; a ← get "amount" a; s ← as_str a;
                    parse_uint u64_max s)).

Definition decode_pubkey (address : string) : M CoreDb bytes ChainError :=
  match Base58.bs58_decode (as_bytes address) with
  | Err ch => throw (ChainSigning ("Invalid address: Invalid base58 character: " +:+ text_of [ch]))
  | Ok b => if (length b =? 32)%nat then ret b else throw (ChainSigning "Address must be 32 bytes")
  end.

Definition build_settlement_tx (data : SettlementData) : M CoreDb UnsignedTx ChainError :=
  let* blockhash := map_err ChainRpc (SolanaTx.fetch_recent_blockhash post_json text_of endpoint) in
  let* from_bytes := decode_pubkey (sd_from data) in
  let* to_bytes := decode_pubkey (sd_to data) in
  let* mint_bytes :=
    if (10 <? String.length (sd_token data))%nat then decode_pubkey (sd_token data)
    else ret SolanaTx.SYSTEM_PROGRAM in
  let source_ata := SolanaTx.derive_ata sha256 from_bytes mint_bytes in
  let instructions := SolanaTx.spl_transfer_with_ata sha256 source_ata to_bytes mint_bytes from_bytes
    (sd_amount data) from_bytes in
  let msg := SolanaTx.new from_bytes blockhash instructions in
  ret (mkUnsignedTx "solana" (SolanaTx.serialise msg)).

Definition sign_transaction (unsigned_tx : UnsignedTx) (private_key : bytes) : result SignedTx ChainError :=
  match ed25519 private_key (ut_data unsigned_tx) with
  | Err e => Err (ChainSigning e)
  | Ok sig => Ok (mkSignedTx "solana" (1 :: sig ++ ut_data unsigned_tx))
  end.

Definition adapter : ChainAdapter :=
  mkChainAdapter "solana" 31 120 send_transaction get_transaction_status estimate_fees get_balance
    build_settlement_tx sign_transaction.

End adapter.
End SolanaAdapter.

(** ** What the Solana adapter puts on the chain

    The settlement the adapter builds and signs is read, by the reference
    parser of [SolanaTxCorrect], as one transfer of the token, signed by the
    sender alone. *)

Import SolanaTx.
Open Scope Z_scope.

Section adapter.
Context (post_json : string → Value → M CoreDb Value HttpError)
        (sleep_for : Z → ∀ E, M CoreDb unit E) (print_json : Value → string) (text_of : bytes → string).
Context (sha256 : bytes → bytes) (ed25519 : bytes → bytes → result bytes string) (endpoint : string).
(** A hash has 32 bytes, a signature 64. *)
Hypothesis sha_length : ∀ b, length (sha256 b) = 32%nat.
Hypothesis sig_length : ∀ k m s, ed25519 k m = Ok s → length s = 64%nat.

Lemma find_bump_length seeds program bumps : length (fst (find_bump sha256 seeds program bumps)) = 32%nat.
Proof.
  induction bumps as [|b bumps IH]; [done|]. cbn [find_bump]. destruct (negb _); [|done].
  simpl. apply sha_length.
Qed.
Lemma derive_ata_length owner mint : length (derive_ata sha256 owner mint) = 32%nat.
Proof. apply find_bump_length. Qed.

Lemma decode_pubkey_Ok s e b e' : SolanaAdapter.decode_pubkey text_of s e = (Ok b, e') →
  Base58.bs58_decode (as_bytes s) = Ok b ∧ length b = 32%nat.
Proof.
  unfold SolanaAdapter.decode_pubkey. destruct (Base58.bs58_decode _) as [b0|]; [|by intros ?%throw_Ok].
  destruct (Nat.eqb_spec (length b0) 32); [by intros [-> _]%ret_Ok|by intros ?%throw_Ok].
Qed.

Lemma blockhash_length e b e' : fetch_recent_blockhash post_json text_of endpoint e = (Ok b, e') →
  length b = 32%nat.
Proof.
  unfold fetch_recent_blockhash. intros (r & e1 & _ & H)%bind_Ok. apply bind_Ok in H as (s & e2 & _ & H).
  destruct (Base58.bs58_decode _) as [b0|]; [|by apply throw_Ok in H].
  destruct (Nat.eqb_spec (length b0) 32); [by apply ret_Ok in H as [-> _]|by apply throw_Ok in H].
Qed.

(** The mint: the address of the token, or the system program for short names. *)
Definition mint_of (token : string) (mint : bytes) : Prop :=
  if (10 <? String.length token)%nat then Base58.bs58_decode (as_bytes token) = Ok mint
  else mint = SYSTEM_PROGRAM.

(** ** The message of a settlement *)

Definition settlement (hash from to mint : bytes) (amount : Z) : TransactionMessage :=
  new from hash (spl_transfer_with_ata sha256 (derive_ata sha256 from mint) to mint from amount from).

Lemma spl_build_spec sd e u e' :
  SolanaAdapter.build_settlement_tx post_json text_of sha256 endpoint sd e = (Ok u, e') →
  ∃ hash from to mint, Base58.bs58_decode (as_bytes (sd_from sd)) = Ok from ∧
    Base58.bs58_decode (as_bytes (sd_to sd)) = Ok to ∧ mint_of (sd_token sd) mint ∧
    Forall (λ k : bytes, length k = 32%nat) [hash; from; to; mint] ∧
    ut_data u = serialise (settlement hash from to mint (sd_amount sd)).
Proof.
  unfold SolanaAdapter.build_settlement_tx. intros (hash & e1 & Hh & H)%bind_Ok.
  apply map_err_Ok, blockhash_length in Hh.
  apply bind_Ok in H as (from & e2 & Hf & H). apply decode_pubkey_Ok in Hf as [Hf Hfl].
  apply bind_Ok in H as (to & e3 & Ht & H). apply decode_pubkey_Ok in Ht as [Ht Htl].
  apply bind_Ok in H as (mint & e4 & Hm & H). apply ret_Ok in H as [-> _].
  assert (mint_of (sd_token sd) mint ∧ length mint = 32%nat) as [Hmint Hml].
  { unfold mint_of. destruct (10 <? _)%nat; [by apply decode_pubkey_Ok in Hm|]. by apply ret_Ok in Hm as [-> _]. }
  exists hash, from, to, mint. split_and!; [done|done|done| |done]. by repeat constructor.
Qed.

Section message.
Context (hash from to mint : bytes) (amount : Z).
Hypothesis keys_32 : Forall (λ k : bytes, length k = 32%nat) [hash; from; to; mint].
Abbreviation m := (settlement hash from to mint amount).

Lemma settlement_mentions e : e ∈ mentions m → length (snd e) = 32%nat ∧ (2 ≤ fst e → snd e = from).
Proof.
  pose proof (derive_ata_length to mint). pose proof (derive_ata_length from mint).
  repeat match goal with K : Forall _ (_ :: _) |- _ => apply Forall_cons in K as [? K] end.
  revert e. apply Forall_forall. unfold settlement, spl_transfer_with_ata, build_create_ata_instruction.
  generalize dependent (derive_ata sha256 to mint). generalize dependent (derive_ata sha256 from mint).
  intros source Hsource dest Hdest. cbn. repeat constructor; simpl; (done || lia).
Qed.

Lemma settlement_few : Z.of_nat (length (account_list m)) < 256.
Proof.
  destruct (account_list_facts m) as (_ & _ & Hnd & Hf).
  assert (length (map snd (account_list m)) ≤ length (map snd (mentions m)))%nat as Hl.
  { apply NoDup_incl_length; [by apply NoDup_ListNoDup|]. intros k Hk%list_elem_of_In.
    apply elem_of_keys in Hk as [fl Hk]. apply Hf in Hk. unfold first_mention in Hk.
    apply find_some in Hk as [Hk _]. by apply (in_map snd) in Hk. }
  rewrite !length_map in Hl. assert (length (mentions m) = 12%nat) as E; [|lia].
  unfold settlement, spl_transfer_with_ata, build_create_ata_instruction.
  generalize (derive_ata sha256 to mint), (derive_ata sha256 from mint). done.
Qed.

Lemma settlement_encodable : encodable m.
Proof.
  split.
  - intros e He. by apply settlement_mentions.
  - by apply Forall_cons in keys_32 as [? _].
  - apply settlement_few.
  - done.
  - apply Forall_forall. unfold settlement, spl_transfer_with_ata, build_create_ata_instruction.
    generalize (derive_ata sha256 to mint), (derive_ata sha256 from mint). intros dest source.
    repeat constructor; simpl; lia.
Qed.

(** One signature is asked for, the sender's. *)
Lemma settlement_read :
  ∃ p, parse_message (serialise m) = Some p ∧ ps_signers p = 1 ∧ ps_keys p !! 0%nat = Some from ∧
    Forall2 (compiled (ps_keys p)) (instructions m) (ps_instructions p).
Proof.
  destruct (message_meaning m settlement_encodable) as (p & Hp & Hnd & H0 & _ & Hc & Hk & Hl).
  exists p. split_and!; [done| |done|done].
  destruct (Hk 0%nat from H0) as (fl & Hm & _ & Hs & _).
  assert (0 < ps_signers p) as H1.
  { apply Hs. unfold first_mention, mentions in Hm. simpl in Hm. unfold key_eqb in Hm.
    rewrite bool_decide_eq_true_2 in Hm by done. injection Hm as <-. lia. }
  destruct (decide (ps_signers p = 1)) as [|Hne]; [done|exfalso].
  destruct (lookup_lt_is_Some_2 (ps_keys p) 1) as [k Hk1]; [lia|].
  destruct (Hk 1%nat k Hk1) as (fl' & Hm' & _ & Hs' & _).
  assert (2 ≤ fl') as Hfl by (apply Hs'; unfold may_sign; lia).
  apply find_some in Hm' as [Hin _]. apply list_elem_of_In, settlement_mentions in Hin as [_ Hfrom].
  simpl in Hfrom. rewrite (Hfrom Hfl) in Hk1. by pose proof (NoDup_lookup _ _ _ _ Hnd H0 Hk1).
Qed.
End message.

(** From the business data to the chain: when the adapter builds and signs
    a settlement, the transaction carries one signature, of the message under
    the given key, and one is required, the sender's; the message has two
    instructions: create the recipient's token account, and transfer exactly
    the amount from the sender's token account to it, on the authority of the
    sender. *)
Theorem spl_settlement_is_the_transfer sd e u e' key signed : in_u64 (sd_amount sd) →
  SolanaAdapter.build_settlement_tx post_json text_of sha256 endpoint sd e = (Ok u, e') →
  SolanaAdapter.sign_transaction ed25519 u key = Ok signed →
  ∃ from to mint sig message p create transfer,
    Base58.bs58_decode (as_bytes (sd_from sd)) = Ok from ∧
    Base58.bs58_decode (as_bytes (sd_to sd)) = Ok to ∧ mint_of (sd_token sd) mint ∧
    read_vec (split_at 64) (st_data signed) = Some ([sig], message) ∧ ed25519 key message = Ok sig ∧
    parse_message message = Some p ∧ ps_signers p = 1 ∧ ps_keys p !! 0%nat = Some from ∧
    ps_instructions p = [create; transfer] ∧
    compiled (ps_keys p) (build_create_ata_instruction sha256 from to mint) create ∧
    ps_keys p !! Z.to_nat (ci_program transfer) = Some SPL_TOKEN_PROGRAM ∧
    Forall2 (λ k i, ps_keys p !! Z.to_nat i = Some k)
      [derive_ata sha256 from mint; derive_ata sha256 to mint; from] (ci_accounts transfer) ∧
    ci_data transfer = 3 :: to_le 8 (sd_amount sd) ∧ of_be (rev (to_le 8 (sd_amount sd))) = sd_amount sd.
Proof.
  intros Ha (hash & from & to & mint & Hf & Ht & Hm & H32 & Hu)%spl_build_spec Hs.
  destruct (settlement_read hash from to mint (sd_amount sd) H32) as (p & Hp & H1 & H0 & Hc).
  unfold SolanaAdapter.sign_transaction in Hs. destruct (ed25519 key (ut_data u)) as [sig|] eqn:Es; [|done].
  injection Hs as <-. pose proof (sig_length _ _ _ Es) as Hlen.
  inversion Hc as [|i1 c1 l1 l2 Hcreate Hc2]; subst. inversion Hc2 as [|i2 c2 l3 l4 Htransfer Hc3]; subst.
  inversion Hc3; subst. destruct Htransfer as (Hprog & Haccs & Hdata). simpl in Hprog, Haccs, Hdata.
  exists from, to, mint, sig, (ut_data u), p, c1, c2.
  split_and!; [done|done|done| |done|by rewrite Hu|done|done|done|done|done| |done|].
  - unfold read_vec, read_len. simpl. rewrite split_at_app by done. done.
  - repeat (inversion Haccs as [|? ? ? ? ? Haccs']; subst; clear Haccs; rename Haccs' into Haccs; constructor; [done|]).
    inversion Haccs. constructor.
  - unfold to_le. rewrite rev_involutive. apply of_to_be. unfold in_u64, u64_max in Ha. lia.
Qed.
End adapter.

(** A validator that gives a blockhash, and addresses that are small numbers. *)
Module ValidatorExample.
Definition ones : string := "1111111111111111111111111111111".
Definition validator (url : string) (body : Value) : M CoreDb Value HttpError :=
  ret (JObject [("result", JObject [("value", JObject [("blockhash", JString (ones +:+ "9"))])])]%string).
Definition toy_sign (k m : bytes) : result bytes string := Ok (take 64 (k ++ replicate 64 1)).
Definition data : SettlementData :=
  mkSettlementData (ones +:+ "2") (ones +:+ "3") 1000000 (ones +:+ "4") "solana".
Definition origin : Env CoreDb := mkEnv empty_db [] (λ n, N.of_nat n) 0 50.
Abbreviation build :=
  (SolanaAdapter.build_settlement_tx validator (λ _, ""%string) toy_sha "http://v" data origin).
End ValidatorExample.

Lemma spl_settlement_is_the_transfer_witness :
  ∃ signed message p transfer, read_vec (split_at 64) (st_data signed) = Some ([replicate 32 70 ++ replicate 32 1], message) ∧
    parse_message message = Some p ∧ ps_signers p = 1 ∧
    ps_keys p !! Z.to_nat (ci_program transfer) = Some SPL_TOKEN_PROGRAM ∧
    ci_data transfer = [3; 64; 66; 15; 0; 0; 0; 0; 0].
Proof.
  destruct ValidatorExample.build as [[u|x] e'] eqn:E; [|vm_compute in E; discriminate E].
  destruct (SolanaAdapter.sign_transaction ValidatorExample.toy_sign u (replicate 32 70)) as [signed|] eqn:Es;
    [|discriminate Es].
  destruct (spl_settlement_is_the_transfer ValidatorExample.validator (λ _, ""%string) toy_sha
              ValidatorExample.toy_sign "http://v") with
    (sd := ValidatorExample.data) (e := ValidatorExample.origin) (u := u) (e' := e')
    (key := replicate 32 70) (signed := signed)
    as (from & to & mint & sig & message & p & create & transfer & _ & _ & _ & Hread & Hsig & Hp & H1 & _ & _ & _ &
        Hprog & _ & Hdata & _).
  - intros b. unfold toy_sha. rewrite length_take, length_app, length_map, length_replicate. lia.
  - intros k m s Hs. assert (s = take 64 (k ++ replicate 64 1)) as -> by (by injection Hs).
    rewrite length_take, length_app, length_replicate. lia.
  - vm_compute. split; discriminate.
  - exact E.
  - exact Es.
  - exists signed, message, p, transfer. injection Hsig as <-. split; [exact Hread|]. split; [exact Hp|].
    split; [exact H1|]. split; [exact Hprog|exact Hdata].
Defined.
