(* ===== verification/Wallet.v ===== *)
(** * The wallet: [src/src/wallet/{model,repository,service,confirmation}.rs]

    Wallets, the transactions sent from them, and the worker that follows a
    transaction until it is final.  Key generation and encryption are
    parameters (k256, ed25519-dalek, aes-gcm); logs and counts are left out. *)
From stdpp Require Import gmap.
From S2P Require Import Prelude Monad Float64 Model Text Bytes Chain.
Open Scope Z_scope.

Record WalletPublic := mkWalletPublic {
  wp_id : Uuid;
  wp_account_id : Uuid;
  wp_address : string;
  wp_chain : string;
  wp_active : bool;
  wp_created_at : Z;
}.
(** [impl From<Wallet> for WalletPublic] *)
Definition public_of (w : Wallet) : WalletPublic :=
  mkWalletPublic (wa_id w) (wa_account_id w) (wa_address w) (wa_chain w) (wa_active w) (wa_created_at w).

Inductive WalletError :=
| WalletNotFound
| SigningError (e : string)
| WalletRpcError (e : string)
| UnsupportedChain (c : string)
| WalletDbError (e : SqlxError).

(** [impl From<ChainError> for WalletError] *)
Definition of_chain_error (e : ChainError) : WalletError :=
  match e with
  | ChainRpc msg => WalletRpcError msg
  | ChainSigning msg => SigningError msg
  | ChainUnsupported msg => UnsupportedChain msg
  | ChainOther msg => WalletRpcError msg
  end.

Module WalletRepository.

Definition is_wallet (id : Uuid) (w : Wallet) : bool := (wa_id w =? id)%N.
Definition is_tx (id : Uuid) (r : TransactionRecord) : bool := (tr_id r =? id)%N.

(** PRIMARY KEY (id), UNIQUE (address) *)
Definition insert_wallet (wallet : Wallet) : M CoreDb unit SqlxError :=
  stmt (λ d,
    if existsb (λ w, is_wallet (wa_id wallet) w || String.eqb (wa_address w) (wa_address wallet)) (wallets d)
    then None else Some (tt, set_wallets (wallets d ++ [wallet]) d)).
Definition find_wallet (id : Uuid) : M CoreDb (option Wallet) SqlxError :=
  query (λ d, sql_one (is_wallet id) (wallets d)).
Definition find_wallet_by_account (account_id : Uuid) : M CoreDb (list Wallet) SqlxError :=
  query (λ d, sort_by (λ x y, wa_created_at x <=? wa_created_at y)
    (sql_select (λ w, (wa_account_id w =? account_id)%N && wa_active w) (wallets d))).
Definition find_wallet_by_address (address : string) : M CoreDb (option Wallet) SqlxError :=
  query (λ d, sql_one (λ w, String.eqb (wa_address w) address && wa_active w) (wallets d)).

(** PRIMARY KEY (id), fill_id REFERENCES fills(id) *)
Definition insert_transaction (tx : TransactionRecord) : M CoreDb unit SqlxError :=
  stmt (λ d,
    if existsb (is_tx (tr_id tx)) (transactions d)
       || match tr_fill_id tx with
          | Some f => negb (existsb (λ r, (f_id r =? f)%N) (fills d))
          | None => false
          end
    then None else Some (tt, set_transactions (transactions d ++ [tx]) d)).
Definition find_transaction (id : Uuid) : M CoreDb (option TransactionRecord) SqlxError :=
  query (λ d, sql_one (is_tx id) (transactions d)).
Definition find_transactions_by_fill (fill_id : Uuid) : M CoreDb (list TransactionRecord) SqlxError :=
  query (λ d, sort_by (λ x y, tr_created_at x <=? tr_created_at y)
    (sql_select (λ r, bool_decide (tr_fill_id r = Some fill_id)) (transactions d))).
Definition unsettled (r : TransactionRecord) : bool :=
  bool_decide (tr_status r = TxPending) || bool_decide (tr_status r = TxSubmitted).
Definition find_pending_transactions : M CoreDb (list TransactionRecord) SqlxError :=
  query (λ d, take 100 (sort_by (λ x y, tr_created_at x <=? tr_created_at y)
    (sql_select unsettled (transactions d)))).

Definition update_tx (id : Uuid) (f : TransactionRecord → TransactionRecord) : M CoreDb unit SqlxError :=
  exec (λ d, set_transactions (sql_update (is_tx id) f (transactions d)) d).

(** The columns the updates set; the terms of a transaction do not change. *)
Definition tr_touch (hash : option string) (s : TxStatus) (gas gas_used block : option Z) (conf : Z)
    (err : option string) (submitted confirmed : option Z) (r : TransactionRecord) : TransactionRecord :=
  mkTxRecord (tr_id r) (tr_fill_id r) (tr_from_address r) (tr_to_address r) (tr_chain r) hash (tr_amount r)
    (tr_asset r) s gas gas_used block conf err submitted confirmed (tr_created_at r).

Definition as_submitted (tx_hash : string) (gas_price t : Z) (r : TransactionRecord) : TransactionRecord :=
  tr_touch (Some tx_hash) TxSubmitted (Some gas_price) (tr_gas_used r) (tr_block_number r)
    (tr_confirmations r) (tr_error r) (Some t) (tr_confirmed_at r) r.
Definition as_confirmed (block_number gas_used confirmations t : Z) (r : TransactionRecord) : TransactionRecord :=
  tr_touch (tr_tx_hash r) TxConfirmed (tr_gas_price r) (Some gas_used) (Some block_number) confirmations
    (tr_error r) (tr_submitted_at r) (Some t) r.
Definition as_ended (s : TxStatus) (error : string) (r : TransactionRecord) : TransactionRecord :=
  tr_touch (tr_tx_hash r) s (tr_gas_price r) (tr_gas_used r) (tr_block_number r) (tr_confirmations r)
    (Some error) (tr_submitted_at r) (tr_confirmed_at r) r.
Definition with_confirmations (confirmations : Z) (r : TransactionRecord) : TransactionRecord :=
  tr_touch (tr_tx_hash r) (tr_status r) (tr_gas_price r) (tr_gas_used r) (tr_block_number r) confirmations
    (tr_error r) (tr_submitted_at r) (tr_confirmed_at r) r.

Definition update_tx_submitted (id : Uuid) (tx_hash : string) (gas_price : Z) : M CoreDb unit SqlxError :=
  let* t := now in update_tx id (as_submitted tx_hash gas_price t).
Definition update_tx_confirmed (id : Uuid) (block_number gas_used confirmations : Z) : M CoreDb unit SqlxError :=
  let* t := now in update_tx id (as_confirmed block_number gas_used confirmations t).
Definition update_tx_failed (id : Uuid) (error : string) : M CoreDb unit SqlxError :=
  update_tx id (as_ended TxFailed error).
Definition increment_confirmations (id : Uuid) (confirmations : Z) : M CoreDb unit SqlxError :=
  update_tx id (with_confirmations confirmations).
Definition update_tx_dropped (id : Uuid) (reason : string) : M CoreDb unit SqlxError :=
  update_tx id (as_ended TxDropped reason).

Definition with_tx_hash (h : string) (f : Fill) : Fill :=
  mkFill (f_id f) (f_intent_id f) (f_solver_id f) (f_price f) (f_qty f) (f_filled_qty f) h (f_timestamp f)
    (f_settled f) (f_settled_at f).
Definition mark_fill_on_chain_settled (fill_id : Uuid) (tx_hash : string) : M CoreDb unit SqlxError :=
  exec (λ d, set_fills (sql_update (λ f, (f_id f =? fill_id)%N && String.eqb (f_tx_hash f) "")
                          (with_tx_hash tx_hash) (fills d)) d).
End WalletRepository.
Import WalletRepository.

Module WalletService.
Section service.
(** The keys of a new wallet and their encryption: the seed, the address, the
    ciphertext and its nonce; the decryption. *)
Context (generate_solana generate_evm : M CoreDb (bytes * string * bytes * bytes) WalletError)
        (decrypt_seed decrypt_key : bytes → bytes → result bytes string).
Context (chains : ChainRegistry.Registry).

Definition adapter (chain : string) : M CoreDb ChainAdapter WalletError :=
  match ChainRegistry.get chain chains with
  | Ok a => ret a
  | Err e => throw (UnsupportedChain (chain_error_text e))
  end.

Definition create_wallet (account_id : Uuid) (chain : string) : M CoreDb Wallet WalletError :=
  adapter chain ;;;
  let* (_, address, encrypted_key, nonce) :=
    if String.eqb chain "solana" then generate_solana else generate_evm in
  let* id := new_v4 in
  let* created_at := now in
  let wallet := mkWallet id account_id address chain encrypted_key nonce true created_at in
  map_err WalletDbError (insert_wallet wallet) ;;;
  ret wallet.

Definition get_wallet (id : Uuid) : M CoreDb (option Wallet) WalletError := map_err WalletDbError (find_wallet id).
Definition get_wallets_for_account (account_id : Uuid) : M CoreDb (list Wallet) WalletError :=
  map_err WalletDbError (find_wallet_by_account account_id).

Definition decrypt_wallet_key (wallet : Wallet) : M CoreDb bytes WalletError :=
  match (if String.eqb (wa_chain wallet) "solana" then decrypt_seed else decrypt_key)
          (wa_encrypted_key wallet) (wa_nonce wallet) with
  | Ok k => ret k
  | Err e => throw (SigningError e)
  end.

Definition send_settlement_tx (fill_id : Uuid) (from_wallet : Wallet) (to_address : string) (amount : Z)
    (asset : string) : M CoreDb TransactionRecord WalletError :=
  let* adapter := adapter (wa_chain from_wallet) in
  let* private_key := decrypt_wallet_key from_wallet in
  let settlement_data :=
    mkSettlementData (wa_address from_wallet) to_address (u64 amount) asset (wa_chain from_wallet) in
  let* unsigned_tx := map_err of_chain_error (build_settlement_tx adapter settlement_data) in
  let* signed_tx :=
    match sign_transaction adapter unsigned_tx private_key with
    | Ok t => ret t
    | Err e => throw (of_chain_error e)
    end in
  let* tx_id := new_v4 in
  let* t := now in
  let tx_record := mkTxRecord tx_id (Some fill_id) (wa_address from_wallet) to_address (wa_chain from_wallet)
    None amount asset TxPending None None None 0 None None None t in
  map_err WalletDbError (insert_transaction tx_record) ;;;
  let* sent := attempt (send_transaction adapter signed_tx) in
  match sent with
  | Ok tx_hash =>
      let* fee := attempt (estimate_fees adapter settlement_data) in
      let gas_price := match fee with Ok f => i64 (fe_total f) | Err _ => 0 end in
      map_err WalletDbError (update_tx_submitted tx_id tx_hash gas_price) ;;;
      let* t := now in
      ret (as_submitted tx_hash gas_price t tx_record)
  | Err e =>
      let error_msg := chain_error_text e in
      map_err WalletDbError (update_tx_failed tx_id error_msg) ;;;
      throw (WalletRpcError error_msg)
  end.

Definition get_transaction (id : Uuid) : M CoreDb (option TransactionRecord) WalletError :=
  map_err WalletDbError (find_transaction id).
Definition get_transactions_for_fill (fill_id : Uuid) : M CoreDb (list TransactionRecord) WalletError :=
  map_err WalletDbError (find_transactions_by_fill fill_id).
Definition get_pending_transactions : M CoreDb (list TransactionRecord) WalletError :=
  map_err WalletDbError find_pending_transactions.
End service.
End WalletService.

Module Confirmation.

Definition BATCH_SIZE : nat := 100.

Inductive TxOutcome := Confirmed | Failed | Dropped | Pending | Skipped.

Section worker.
Context (chains : ChainRegistry.Registry).

Definition complete (tx_hash : string) (x : Execution) : Execution :=
  mkExecution (x_id x) (x_intent_id x) (x_solver_id x) tx_hash XCompleted (x_created_at x).
Definition is_open (x : Execution) : bool := match x_status x with XCompleted => false | _ => true end.

(** A fill that is not there has no intent, and NULL equals nothing. *)
Definition update_execution_status {E} (fill_id : Uuid) (tx_hash : string) : M CoreDb unit E :=
  attempt (exec (λ d,
    match sql_one (λ f, (f_id f =? fill_id)%N) (fills d) with
    | Some f => set_executions (sql_update (λ x, (x_intent_id x =? f_intent_id f)%N && is_open x)
                                  (complete tx_hash) (executions d)) d
    | None => d
    end)) ;;; ret tt.

Definition post_confirmation {E} (tx : TransactionRecord) (tx_hash : string) : M CoreDb unit E :=
  match tr_fill_id tx with
  | None => ret tt
  | Some fill_id =>
      attempt (mark_fill_on_chain_settled fill_id tx_hash) ;;;
      update_execution_status fill_id tx_hash
  end.

Definition handle_confirmed {E} (tx : TransactionRecord) (tx_hash : string) (block confirmations required : Z)
  : M CoreDb TxOutcome E :=
  if required <=? confirmations then
    let* r := attempt (update_tx_confirmed (tr_id tx) (i64 block) (default 0 (tr_gas_used tx))
                         (i32 confirmations)) in
    match r with
    | Err _ => ret Pending
    | Ok _ => post_confirmation tx tx_hash ;;; ret Confirmed
    end
  else
    attempt (increment_confirmations (tr_id tx) (i32 confirmations)) ;;; ret Pending.

Definition handle_failed {E} (tx : TransactionRecord) (reason : string) : M CoreDb TxOutcome E :=
  attempt (update_tx_failed (tr_id tx) reason) ;;; ret Failed.

Definition handle_pending {E} (tx : TransactionRecord) (drop_timeout : Z) : M CoreDb TxOutcome E :=
  match tr_submitted_at tx with
  | None => ret Pending
  | Some submitted =>
      let* t := now in
      let age_secs := t - submitted in
      if age_secs <=? drop_timeout then ret Pending else
      let reason := ("No receipt after " +:+ print_int age_secs +:+ "s (chain drop timeout: " +:+
                       print_int drop_timeout +:+ "s)")%string in
      attempt (update_tx_dropped (tr_id tx) reason) ;;; ret Dropped
  end.

Definition process_tx {E} (tx : TransactionRecord) : M CoreDb TxOutcome E :=
  if negb (bool_decide (tr_status tx = TxSubmitted)) then ret Skipped else
  match tr_tx_hash tx with
  | None => ret Skipped
  | Some tx_hash =>
      match ChainRegistry.get (tr_chain tx) chains with
      | Err _ => ret Skipped
      | Ok adapter =>
          let required := required_confirmations adapter in
          let drop_timeout := drop_timeout_secs adapter in
          let* status := attempt (get_transaction_status adapter tx_hash) in
          match status with
          | Ok (StateConfirmed block confirmations) =>
              handle_confirmed tx tx_hash block confirmations required
          | Ok (StateFailed reason) => handle_failed tx reason
          | Ok StatePending => handle_pending tx drop_timeout
          | Err _ => ret Pending
          end
      end
  end.

Definition poll_cycle : M CoreDb unit WalletError :=
  let* pending := WalletService.get_pending_transactions in
  mfor (take BATCH_SIZE pending) (λ tx, process_tx tx ;;; ret tt).

End worker.
End Confirmation.
