(* ===== verification/WalletCorrect.v ===== *)
(** * The life of an on-chain transaction

    Histories of settlements sent and of passes of the confirmation worker, in
    any order and with failures of the database and of the chains anywhere. *)
From stdpp Require Import gmap.
From S2P Require Import Prelude Monad Float64 Model Text Bytes Breaker Rpc Rlp EthSign Chain Ethereum.
From S2P Require Import Ethereum EthereumCorrect Wallet.
Import WalletRepository WalletService Confirmation.
Open Scope Z_scope.

(** ** What a record says *)

Definition tr_terms (r : TransactionRecord) : TransactionRecord :=
  tr_touch None TxPending None None None 0 None None None r.
Definition final (s : TxStatus) : bool :=
  match s with TxConfirmed | TxFailed | TxDropped => true | _ => false end.

(** What holds of a record from then on. *)
Definition tx_le (r r' : TransactionRecord) : Prop :=
  tr_terms r' = tr_terms r ∧ (final (tr_status r) = true → r' = r) ∧
  (tr_status r' = TxPending → r' = r) ∧ (∀ h, tr_tx_hash r = Some h → tr_tx_hash r' = Some h).
#[local] Instance tx_le_preorder : PreOrder tx_le.
Proof.
  split; [done|]. intros r1 r2 r3 (T1 & F1 & P1 & H1) (T2 & F2 & P2 & H2). split_and!; [by rewrite T2| | |auto].
  - intros Hf. specialize (F1 Hf). subst r2. auto.
  - intros Hp. specialize (P2 Hp). subst r3. auto.
Qed.
Lemma tx_le_id r r' : tx_le r r' → tr_id r' = tr_id r.
Proof. intros [E _]. by injection E. Qed.

Section wallet.
Context (chains : ChainRegistry.Registry).
Hypothesis chains_apart : ∀ name a, chains !! name = Some a → Apart transactions a.

(** Each status with what the chain said for it. *)
Definition justified (r : TransactionRecord) : Prop :=
  match tr_status r with
  | TxPending => tr_tx_hash r = None
  | TxSubmitted => is_Some (tr_tx_hash r) ∧ is_Some (tr_submitted_at r)
  | TxConfirmed => ∃ h a b c e e', tr_tx_hash r = Some h ∧ chains !! tr_chain r = Some a ∧
      get_transaction_status a h e = (Ok (StateConfirmed b c), e') ∧ required_confirmations a ≤ c ∧
      tr_block_number r = Some (i64 b) ∧ tr_confirmations r = i32 c
  | TxDropped => ∃ h a s e e', tr_tx_hash r = Some h ∧ chains !! tr_chain r = Some a ∧
      get_transaction_status a h e = (Ok StatePending, e') ∧ tr_submitted_at r = Some s ∧
      s + drop_timeout_secs a < env_now e'
  | TxFailed => ∃ a, chains !! tr_chain r = Some a ∧
      ((tr_tx_hash r = None ∧ ∃ tx e x e', send_transaction a tx e = (Err x, e') ∧
          tr_error r = Some (chain_error_text x)) ∨
       (∃ h reason e e', tr_tx_hash r = Some h ∧
          get_transaction_status a h e = (Ok (StateFailed reason), e') ∧ tr_error r = Some reason))
  end.

(** A table in which only the record [id] changed. *)
Definition touched (id : Uuid) (t t' : list TransactionRecord) : Prop :=
  ∃ g, t' = sql_update (is_tx id) g t ∧
    ∀ r, r ∈ t → tr_id r = id → tx_le r (g r) ∧ (justified r → justified (g r)).

Lemma touched_refl id t : touched id t t.
Proof.
  exists (λ r, r). split; [|done]. unfold sql_update. symmetry. rewrite <- (map_id t) at 2. apply map_ext.
  intros r. by destruct (is_tx id r).
Qed.
Lemma touched_rows id t t' : touched id t t' → rows_le tx_le t t'.
Proof.
  intros (g & -> & Hg). apply rows_le_update; [apply _|]. intros r Hr Hid%N.eqb_eq. by apply Hg.
Qed.
Lemma touched_elem id t t' r' : touched id t t' → r' ∈ t' →
  ∃ r, r ∈ t ∧ tr_id r' = tr_id r ∧ (tr_id r ≠ id → r' = r) ∧ (justified r → justified r').
Proof.
  intros (g & -> & Hg) (r & Hr & ->)%elem_of_sql_update. exists r. split; [done|].
  destruct (is_tx id r) eqn:E.
  - apply N.eqb_eq in E. destruct (Hg r Hr E) as [Hle Hj]. split_and!; [by apply tx_le_id|done|done].
  - apply N.eqb_neq in E. done.
Qed.

(** The invariant of the table. *)
Record sound (t : list TransactionRecord) : Prop := {
  so_ids : NoDup (map tr_id t);
  so_rows : ∀ r, r ∈ t → justified r;
}.
Lemma touched_ids id t t' : touched id t t' → map tr_id t' = map tr_id t.
Proof.
  intros (g & -> & Hg). unfold sql_update. rewrite map_map.
  apply map_ext_in. intros r Hr%list_elem_of_In. destruct (is_tx id r) eqn:E; [|done].
  apply N.eqb_eq in E. by apply tx_le_id, Hg.
Qed.
Lemma touched_sound id t t' : touched id t t' → sound t → sound t'.
Proof.
  intros Ht [Hn Hj]. split; [by rewrite (touched_ids _ _ _ Ht)|].
  intros r' Hr'. destruct (touched_elem _ _ _ _ Ht Hr') as (r & Hr & _ & _ & Hj'). auto.
Qed.

(** ** The worker *)

Lemma update_run {E} id f e (r : result (result unit SqlxError) E) e' :
  attempt (update_tx id f) e = (r, e') →
  (transactions (env_db e') = transactions (env_db e) ∨
   transactions (env_db e') = sql_update (is_tx id) f (transactions (env_db e))).
Proof.
  unfold attempt, update_tx, exec, stmt. destruct (faulty e); intros [= <- <-]; [by left|by right].
Qed.

Lemma update_touches id f t t' : (t' = t ∨ t' = sql_update (is_tx id) f t) →
  (∀ r, r ∈ t → tr_id r = id → tx_le r (f r) ∧ (justified r → justified (f r))) → touched id t t'.
Proof. intros [->| ->] Hf; [apply touched_refl|]. by exists f. Qed.

Lemma keeps_post_confirmation {E} tx h : keeps transactions (post_confirmation (E := E) tx h).
Proof.
  unfold post_confirmation, update_execution_status, mark_fill_on_chain_settled. keeps.
  apply keeps_exec. intros d. by destruct (sql_one _ _).
Qed.

(** A record moves on from submitted; its hash and terms stay. *)
Lemma tx_le_submitted r r' : tr_terms r' = tr_terms r → tr_status r = TxSubmitted → tr_status r' ≠ TxPending →
  tr_tx_hash r' = tr_tx_hash r → tx_le r r'.
Proof. intros T Hs Hp Hh. split_and!; [done|by rewrite Hs|done|by rewrite Hh]. Qed.

Lemma process_tx_touches {E} tx e (o : result TxOutcome E) e' :
  (∀ r, r ∈ transactions (env_db e) → tr_id r = tr_id tx → r = tx) →
  process_tx chains tx e = (o, e') → touched (tr_id tx) (transactions (env_db e)) (transactions (env_db e')).
Proof.
  intros Hone. unfold process_tx. destruct (bool_decide _) eqn:Hs; [|intros [= _ <-]; apply touched_refl].
  apply bool_decide_eq_true in Hs. cbn [negb].
  destruct (tr_tx_hash tx) as [h|] eqn:Hh; [|intros [= _ <-]; apply touched_refl].
  unfold ChainRegistry.get. destruct (chains !! tr_chain tx) as [a|] eqn:Ha; [|intros [= _ <-]; apply touched_refl].
  unfold bind at 1, attempt at 1. destruct (get_transaction_status a h e) as [st e1] eqn:Est.
  assert (transactions (env_db e1) = transactions (env_db e)) as E1.
  { pose proof (status_apart (Apart := chains_apart _ _ Ha) h e) as Hk. by rewrite Est in Hk. }
  rewrite <- E1 in *. destruct st as [[|b c|reason]|x].
  - unfold handle_pending. destruct (tr_submitted_at tx) as [s|] eqn:Hsub; [|intros [= _ <-]; apply touched_refl].
    unfold bind at 1, now. destruct (Z.leb_spec (env_now e1 - s) (drop_timeout_secs a));
      [intros [= _ <-]; apply touched_refl|].
    unfold bind. destruct (attempt _ e1) as [r e2] eqn:Hu. intros Hr.
    assert (e' = e2) as -> by (destruct r; by injection Hr). clear Hr.
    eapply update_touches; [by eapply update_run|]. intros r0 Hr0 Hid. rewrite (Hone _ Hr0 Hid).
    split; [by apply tx_le_submitted|]. intros _. unfold justified. simpl.
    exists h, a, s, e, e1. split_and!; (done || lia).
  - unfold handle_confirmed. destruct (Z.leb_spec (required_confirmations a) c).
    + unfold bind at 1. destruct (attempt _ e1) as [r e2] eqn:Hu.
      apply (update_run (E := E) (tr_id tx)
        (as_confirmed (i64 b) (default 0 (tr_gas_used tx)) (i32 c) (env_now e1))) in Hu. intros Hr.
      assert (transactions (env_db e') = transactions (env_db e2)) as ->.
      { destruct r as [[u|u]|u]; [|by injection Hr as _ <-|by injection Hr as _ <-].
        pose proof (keeps_post_confirmation (E := E) tx h e2) as Hk. unfold bind in Hr.
        destruct (post_confirmation tx h e2) as [[] ?]; by injection Hr as _ <-. }
      eapply update_touches; [exact Hu|].
      intros r0 Hr0 Hid. rewrite (Hone _ Hr0 Hid). split; [by apply tx_le_submitted|]. intros _.
      unfold justified. simpl. by exists h, a, b, c, e, e1.
    + unfold increment_confirmations, bind. destruct (attempt _ e1) as [r e2] eqn:Hu. intros Hr.
      assert (e' = e2) as -> by (destruct r; by injection Hr). clear Hr.
      eapply update_touches; [by eapply update_run|]. intros r0 Hr0 Hid. rewrite (Hone _ Hr0 Hid).
      split; [by apply tx_le_submitted; simpl; rewrite ?Hs|]. unfold justified. simpl. by rewrite Hs.
  - unfold handle_failed, update_tx_failed, bind. destruct (attempt _ e1) as [r e2] eqn:Hu. intros Hr.
    assert (e' = e2) as -> by (destruct r; by injection Hr). clear Hr.
    eapply update_touches; [by eapply update_run|]. intros r0 Hr0 Hid. rewrite (Hone _ Hr0 Hid).
    split; [by apply tx_le_submitted|]. intros _. unfold justified. simpl.
    exists a. split; [done|]. right. by exists h, reason, e, e1.
  - intros [= _ <-]. apply touched_refl.
Qed.

(** Records that are read once and processed one after the other. *)
Lemma process_all xs e : NoDup (map tr_id xs) →
  (∀ x r, x ∈ xs → r ∈ transactions (env_db e) → tr_id r = tr_id x → r = x) →
  sound (transactions (env_db e)) →
  let t' := transactions (env_db (snd (mfor (E := WalletError) xs (λ tx, process_tx chains tx ;;; ret tt) e))) in
  rows_le tx_le (transactions (env_db e)) t' ∧ sound t'.
Proof.
  revert e. induction xs as [|x xs IH]; intros e Hnd Hone Hsound.
  { split; [apply rows_le_refl, _|done]. }
  simpl in Hnd. apply NoDup_cons in Hnd as [Hx Hnd]. cbn [mfor]. unfold bind.
  destruct (process_tx chains x e) as [r e1] eqn:H1.
  apply process_tx_touches in H1; [|by intros r0; apply Hone; left].
  pose proof (touched_rows _ _ _ H1) as Hle. pose proof (touched_sound _ _ _ H1 Hsound) as Hs1.
  destruct r as [u|err]; [|done]. cbn [ret]. destruct (IH e1 Hnd) as [Hle2 Hs2]; [|done|].
  - intros y r Hy Hr Hid. destruct (touched_elem _ _ _ _ H1 Hr) as (r0 & Hr0 & Hid0 & Hsame & _).
    assert (tr_id r0 ≠ tr_id x) as Hne.
    { intros Heq. apply Hx. rewrite <- Heq, <- Hid0, Hid. by apply elem_of_map. }
    rewrite (Hsame Hne) in *. apply (Hone y); [by right|done|done].
  - split; [|exact Hs2]. by eapply rows_le_trans; [apply _| |exact Hle2].
Qed.

Lemma poll_cycle_sound e : sound (transactions (env_db e)) →
  rows_le tx_le (transactions (env_db e)) (transactions (env_db (snd (poll_cycle chains e)))) ∧
  sound (transactions (env_db (snd (poll_cycle chains e)))).
Proof.
  intros Hs. unfold poll_cycle, get_pending_transactions, find_pending_transactions, query, bind, map_err, stmt.
  destruct (faulty e); [split; [apply rows_le_refl, _|done]|]. cbn [env_db with_db pop_fault].
  set (xs := take BATCH_SIZE _).
  assert (NoDup (map tr_id xs)) as Hnd.
  { unfold xs. rewrite <- !firstn_map. eapply sublist_NoDup; [|apply sublist_take].
    eapply sublist_NoDup; [|apply sublist_take]. rewrite sort_by_perm. apply NoDup_map_select, Hs. }
  match goal with |- context [mfor xs ?f ?e1] => destruct (process_all xs e1 Hnd) as [H1 H2]; [|done|done] end.
  intros x r Hx Hr Hid. unfold xs in Hx.
  apply elem_of_take in Hx as (i & Hx%list_elem_of_lookup_2 & _).
  apply elem_of_take in Hx as (j & Hx%list_elem_of_lookup_2 & _).
  apply elem_of_sort_by, elem_of_sql_select in Hx as [Hx _].
  by apply (NoDup_map_inj tr_id _ _ _ (so_ids _ Hs) Hr Hx).
Qed.
(** ** Sending *)

(** What an operation does to the table. *)
Definition moves (t t' : list TransactionRecord) : Prop := rows_le tx_le t t' ∧ sound t'.
Lemma moves_refl t : sound t → moves t t.
Proof. split; [apply rows_le_refl, _|done]. Qed.
Lemma moves_touched id t t' : sound t → touched id t t' → moves t t'.
Proof. intros Hs Ht. split; [by eapply touched_rows|by eapply touched_sound]. Qed.
Lemma moves_trans t1 t2 t3 : moves t1 t2 → moves t2 t3 → moves t1 t3.
Proof. intros [H1 _] [H2 Hs]. split; [by eapply rows_le_trans; [apply _|..]|done]. Qed.
Lemma moves_snoc t r : sound t → (∀ r0, r0 ∈ t → tr_id r0 ≠ tr_id r) → justified r → moves t (t ++ [r]).
Proof.
  intros [Hn Hj] Hnew Hr. split; [apply rows_le_app, _|]. split; [by apply NoDup_map_snoc|].
  intros r0 [Hr0|Hr0]%elem_of_app; [by apply Hj|]. by apply list_elem_of_singleton in Hr0 as ->.
Qed.

(** Past a part that leaves the table alone. *)
Lemma moves_keeps {A B} (m : M CoreDb A WalletError) (k : A → M CoreDb B WalletError) e :
  keeps transactions m → sound (transactions (env_db e)) →
  (∀ a e1, m e = (Ok a, e1) → transactions (env_db e1) = transactions (env_db e) →
     moves (transactions (env_db e)) (transactions (env_db (snd (k a e1))))) →
  moves (transactions (env_db e)) (transactions (env_db (snd (bind m k e)))).
Proof.
  intros Hm Hs Hk. specialize (Hm e). unfold bind. destruct (m e) as [[a|x] e1] eqn:E; simpl in Hm.
  - apply (Hk a e1); [done|exact Hm].
  - simpl. rewrite Hm. by apply moves_refl.
Qed.

(** The two ways a submission ends. *)
Lemma submitted_moves id f e t1 : sound t1 → transactions (env_db e) = t1 →
  (∀ r, r ∈ t1 → tr_id r = id → tx_le r (f r) ∧ (justified r → justified (f r))) →
  ∀ {A} (k : unit → M CoreDb A WalletError), (∀ u, keeps transactions (k u)) →
  moves t1 (transactions (env_db (snd (bind (map_err WalletDbError (update_tx id f)) k e)))).
Proof.
  intros Hs Ht Hf A k Hk. unfold bind, map_err, update_tx, exec, stmt.
  destruct (faulty e); [simpl; rewrite Ht; by apply moves_refl|].
  cbn [env_db with_db pop_fault]. rewrite Hk. simpl. rewrite Ht. apply (moves_touched id); [done|]. by exists f.
Qed.

Context (decrypt_seed decrypt_key : bytes → bytes → result bytes string).

Lemma send_sound fill w to_address amount asset e : sound (transactions (env_db e)) →
  moves (transactions (env_db e))
    (transactions (env_db (snd (send_settlement_tx decrypt_seed decrypt_key chains fill w to_address amount asset e)))).
Proof.
  intros Hs. unfold send_settlement_tx. apply moves_keeps; [|done|].
  { unfold adapter. keeps. }
  intros a e1 Ha E1.
  assert (chains !! wa_chain w = Some a) as Hchain.
  { unfold adapter, ChainRegistry.get in Ha. destruct (chains !! wa_chain w); [by injection Ha as -> _|done]. }
  pose proof (chains_apart _ _ Hchain) as Hap. clear Ha. rewrite <- E1 in *. clear e E1.
  apply moves_keeps; [by unfold decrypt_wallet_key; keeps|done|]. intros key e2 _ E2. rewrite <- E2 in *. clear e1 E2.
  apply moves_keeps; [apply keeps_map_err, build_apart|done|]. intros u e3 _ E3. rewrite <- E3 in *. clear e2 E3.
  apply moves_keeps; [keeps|done|]. intros signed e4 _ E4. rewrite <- E4 in *. clear e3 E4.
  apply moves_keeps; [keeps|done|]. intros id e5 _ E5. rewrite <- E5 in *. clear e4 E5.
  apply moves_keeps; [keeps|done|]. intros t e6 _ E6. rewrite <- E6 in *. clear e5 E6.
  set (rec := mkTxRecord id _ _ _ _ _ _ _ _ _ _ _ _ _ _ _ _).
  unfold bind at 1, map_err at 1, insert_transaction, stmt.
  destruct (faulty e6); [by apply moves_refl|].
  destruct (existsb _ _ || _) eqn:Hnew; [by apply moves_refl|]. apply orb_false_iff in Hnew as [Hnew _].
  cbn [with_db env_db pop_fault].
  match goal with |- context [bind (attempt _) _ ?e0] => set (e7 := e0) end.
  assert (moves (transactions (env_db e6)) (transactions (env_db e7))) as Hm.
  { apply moves_snoc; [done| |done]. intros r0 Hr0. by apply (existsb_false_elem _ _ _ Hnew), N.eqb_neq in Hr0. }
  eapply moves_trans; [exact Hm|]. destruct Hm as [_ Hs7].
  assert (∀ r, r ∈ transactions (env_db e7) → tr_id r = id → r = rec) as Hone.
  { intros r Hr Hid. apply (NoDup_map_inj tr_id _ _ _ (so_ids _ Hs7) Hr); [|done].
    unfold e7. simpl. apply elem_of_app. right. by left. }
  clearbody e7. unfold bind at 1, attempt at 1. destruct (send_transaction a signed e7) as [sent e8] eqn:Esend.
  assert (transactions (env_db e8) = transactions (env_db e7)) as E8.
  { pose proof (send_apart (Apart := Hap) signed e7) as Hk. by rewrite Esend in Hk. }
  destruct sent as [h|x].
  - rewrite <- E8 in Hs7, Hone |- *. apply moves_keeps; [apply keeps_attempt, fees_apart|done|].
    intros fee e9 _ E9. rewrite <- E9 in *.
    match goal with |- context [update_tx_submitted id h ?g] =>
      apply (submitted_moves id (as_submitted h g (env_now e9)) e9 _ Hs7 eq_refl) end; [|intros; keeps].
    intros r Hr Hid. rewrite (Hone _ Hr Hid). split; [by split_and!|]. intros _. by split; eexists.
  - rewrite <- E8 in Hs7, Hone |- *. apply submitted_moves; [done|done| |intros; keeps].
    intros r Hr Hid. rewrite (Hone _ Hr Hid). split; [by split_and!|]. intros _. unfold justified. simpl.
    exists a. split; [done|]. left. split; [done|]. by exists signed, e7, x, e8.
Qed.

(** ** Histories *)

Inductive WalletOp :=
| OpSend (fill : Uuid) (w : Wallet) (to_address : string) (amount : Z) (asset : string)
| OpPoll.
Definition run_wallet (op : WalletOp) (e : Env CoreDb) : Env CoreDb :=
  match op with
  | OpSend fill w to_address amount asset =>
      snd (send_settlement_tx decrypt_seed decrypt_key chains fill w to_address amount asset e)
  | OpPoll => snd (poll_cycle chains e)
  end.
(** An operation, or anything that leaves the table alone meanwhile. *)
Inductive wallet_world : Env CoreDb → Env CoreDb → Prop :=
| ww_op op e : wallet_world e (run_wallet op e)
| ww_other e e' : transactions (env_db e') = transactions (env_db e) → wallet_world e e'.

Lemma history_moves e e' : rtc wallet_world e e' → sound (transactions (env_db e)) →
  moves (transactions (env_db e)) (transactions (env_db e')).
Proof.
  induction 1 as [e|e e1 e2 Hstep _ IH]; intros Hs; [by apply moves_refl|].
  assert (moves (transactions (env_db e)) (transactions (env_db e1))) as Hm.
  { destruct Hstep as [[] e|e e' Heq]; simpl; [by apply send_sound|by apply poll_cycle_sound|].
    rewrite Heq. by apply moves_refl. }
  eapply moves_trans; [exact Hm|]. apply IH, Hm.
Qed.

Lemma sound_empty : sound [].
Proof. split; [constructor|]. by intros r ?%elem_of_nil. Qed.

(** An Ethereum transaction is never dropped: the adapter reports a
    transaction that is not mined as an error of the node's answer, not as
    pending, so through every history, however much time passes, a record of
    that chain stays submitted, and is polled, for ever (a flaw). *)
Theorem ethereum_never_dropped `{C : Secp256k1} hex_encode hex_decode to_vec from_slice net rpc e0 e r :
  chains !! "ethereum"%string =
    Some (EthereumAdapter.adapter hex_encode hex_decode to_vec from_slice net rpc) →
  null_is_absent net → transactions (env_db e0) = [] → rtc wallet_world e0 e →
  r ∈ transactions (env_db e) → tr_chain r = "ethereum"%string → tr_status r ≠ TxDropped.
Proof.
  intros Hch Hnull H0 Hr Hin Hc Hd. pose proof sound_empty as Hs. rewrite <- H0 in Hs.
  destruct (history_moves _ _ Hr Hs) as [_ [_ Hj]]. specialize (Hj _ Hin). unfold justified in Hj.
  rewrite Hd in Hj. destruct Hj as (h & a & s & e1 & e2 & _ & Ha & Hst & _).
  rewrite Hc, Hch in Ha. injection Ha as <-. simpl in Hst. by apply status_never_pending in Hst.
Qed.
End wallet.

(** ** A settlement over Ethereum *)
Module WalletExample.

(** The node of [NodeExample], with the transaction mined, or not yet. *)
Definition answer (mined : bool) (method : string) : option Value :=
  if String.eqb method "eth_getTransactionReceipt" then
    if mined then Some (JObject [("status", JString "0x1"); ("blockNumber", JString "0x10")]) else None
  else if String.eqb method "eth_blockNumber" then Some (JString "0x20")
  else NodeExample.answer method.
Definition net (mined : bool) : Network :=
  mkNetwork (λ _ method _, ret (mkRpcResponse (answer mined method) None)) (λ _, ret (200, ""))
    (λ ms e, e) (λ e, (1, e)) (λ _, "").
Definition chains (mined : bool) : ChainRegistry.Registry :=
  ChainRegistry.register
    (EthereumAdapter.adapter (C := ToyCurve.curve) NodeExample.hex_encode NodeExample.hex_decode
       NodeExample.to_vec NodeExample.from_slice (net mined) NodeExample.rpc) ChainRegistry.new.
#[export] Instance net_separate mined : Separate transactions (net mined).
Proof. by split. Qed.
Lemma chains_apart mined name a : chains mined !! name = Some a → Apart transactions a.
Proof.
  unfold chains, ChainRegistry.register, ChainRegistry.new.
  intros [[<- <-]|[_ H]]%lookup_insert_Some; [|done]. by apply ethereum_apart.
Qed.
Lemma chain_net_null mined : null_is_absent (net mined).
Proof.
  intros url method params e resp e' [= <- _]. simpl. unfold answer, NodeExample.answer.
  repeat (destruct (String.eqb _ _); [by try destruct mined|]). done.
Qed.

Definition wallet : Wallet :=
  mkWallet 5 6 "0x3535353535353535353535353535353535353535" "ethereum" [] [] true 0.
Definition filled : Env CoreDb :=
  mkEnv (set_executions [mkExecution 8 2 "s" "" XPending 0; mkExecution 9 2 "t" "" XPending 0]
           (set_fills [mkFill 1 2 "s" 3 4 4 "" 0 false None] empty_db))
    [] (λ n, N.of_nat (100 + n)) 0 1000.
Abbreviation no_seed := (λ _ _, Err "no seed"%string).
Abbreviation the_key := (λ _ _, Ok ToyCurve.key).
Definition send : WalletOp :=
  OpSend 1 wallet "0x00112233445566778899aabbccddeeff00112233" 250000 "0xa0b86991c6218b36c1d19d4a2e9eb0ce3606eb48".
Definition later (seconds : Z) (e : Env CoreDb) : Env CoreDb :=
  mkEnv (env_db e) (env_faults e) (env_uuid e) (env_drawn e) (env_now e + seconds).
Abbreviation run mined := (run_wallet (chains mined) no_seed the_key).
Definition statuses (e : Env CoreDb) : list TxStatus := map tr_status (transactions (env_db e)).
End WalletExample.


(** Ten years and still submitted. *)
Lemma ethereum_never_dropped_witness :
  let e1 := WalletExample.run false WalletExample.send WalletExample.filled in
  let e2 := WalletExample.later 315360000 e1 in
  let e3 := WalletExample.run false OpPoll e2 in
  WalletExample.statuses e3 = [TxSubmitted] ∧
  ∀ r, r ∈ transactions (env_db e3) → tr_chain r = "ethereum"%string → tr_status r ≠ TxDropped.
Proof.
  intros e1 e2 e3. split; [by vm_compute|].
  assert (wallet_world (WalletExample.chains false) WalletExample.no_seed WalletExample.the_key
            WalletExample.filled e1) as H1 by apply ww_op.
  assert (wallet_world (WalletExample.chains false) WalletExample.no_seed WalletExample.the_key e1 e2) as H2
    by (apply ww_other; reflexivity).
  assert (wallet_world (WalletExample.chains false) WalletExample.no_seed WalletExample.the_key e2 e3) as H3
    by apply ww_op.
  clearbody e3. clearbody e2. clearbody e1. intros r Hr Hc.
  refine (ethereum_never_dropped (C := ToyCurve.curve) _ (WalletExample.chains_apart false) _ _
            _ _ _ _ (WalletExample.net false) NodeExample.rpc WalletExample.filled e3 r
            (lookup_insert_eq _ _ _) (WalletExample.chain_net_null false) eq_refl _ Hr Hc).
  exact (rtc_l _ _ _ _ H1 (rtc_l _ _ _ _ H2 (rtc_once _ _ H3))).
Defined.

(** ** What the worker overlooks *)

(** A record that stays pending, because the update after its submission
    failed, is polled for ever and takes one of the hundred places of a pass;
    a hundred of them, and no record is followed any more (a flaw). *)
Theorem stuck_records_starve_the_worker chains e :
  Forall (λ r, tr_status r = TxPending)
    (take 100 (sort_by (λ x y, tr_created_at x <=? tr_created_at y)
       (sql_select unsettled (transactions (env_db e))))) →
  env_db (snd (poll_cycle chains e)) = env_db e.
Proof.
  intros Hp. unfold poll_cycle, get_pending_transactions, find_pending_transactions, query, bind, map_err, stmt.
  destruct (faulty e); [done|]. cbn [env_db with_db pop_fault].
  set (xs := take BATCH_SIZE _). assert (Forall (λ r, tr_status r = TxPending) xs) as Hxs by (by apply Forall_take).
  clearbody xs. change (env_db e) with (env_db (with_db (env_db e) (pop_fault e))) at 2.
  generalize (with_db (env_db e) (pop_fault e)). induction Hxs as [|x xs Hx _ IH]; intros e1; [done|].
  cbn [mfor]. unfold bind, process_tx. rewrite bool_decide_eq_false_2 by (by rewrite Hx). apply IH.
Qed.

(** The update of the record fails after the transaction was sent: the record
    stays pending, without the hash. *)
Theorem a_submission_can_be_forgotten :
  let e := WalletExample.filled in
  let e' := WalletExample.run true OpPoll
    (WalletExample.run true WalletExample.send (mkEnv (env_db e) [false; true] (env_uuid e) 0 1000)) in
  map (λ r, (tr_status r, tr_tx_hash r)) (transactions (env_db e')) = [(TxPending, None)].
Proof. by vm_compute. Qed.

(** One fill is confirmed and the executions of all fills of its intent are
    completed, with its hash (a flaw). *)
Theorem confirmation_completes_other_executions :
  let run := WalletExample.run true in let e := run OpPoll (run WalletExample.send WalletExample.filled) in
  map (λ x, (x_id x, x_status x, x_tx_hash x)) (executions (env_db e)) =
    [(8%N, XCompleted, "0xabcd"%string); (9%N, XCompleted, "0xabcd"%string)].
Proof. by vm_compute. Qed.
