(* ===== verification/Access.v ===== *)
(** * The state behind the HTTP layer: roles, keys and Redis

    The tables of [src/migrations/{014,018,019,021}*.sql], the keys with an
    expiry in Redis, and what a process of the platform keeps in memory.  The
    tables of the rest of the back end are the field [core]. *)
From stdpp Require Import gmap.
From S2P Require Import Prelude Monad Model.
Open Scope Z_scope.

(** [rbac/service.rs]; a row of [permissions] with its role. *)
Record Role := mkRole { ro_id : Uuid; ro_name : string; ro_description : string }.
Record Permission := mkPermission { pe_resource : string; pe_action : string }.
#[export] Instance permission_eq_dec : EqDecision Permission.
Proof. solve_decision. Defined.

(** [api_keys/service.rs] *)
Record ApiKey := mkApiKey {
  ak_id : Uuid; ak_user_id : Uuid; ak_key_hash : string; ak_key_prefix : string; ak_name : string;
  ak_permissions : list string; ak_created_at : Z; ak_last_used_at : option Z; ak_revoked : bool;
}.

(** [auth/key_rotation.rs], [auth/jwt.rs] *)
Record JwtKey := mkJwtKey { jk_id : Uuid; jk_key_secret : string; jk_active : bool; jk_created_at : Z }.
Record CachedKey := mkCachedKey { ck_secret : string; ck_fetched_at : Z }.
Record Claims := mkClaims {
  cl_sub : Uuid; cl_email : string; cl_permissions : list string; cl_exp : Z; cl_iat : Z;
  cl_kid : option string;
}.
#[export] Instance claims_eq_dec : EqDecision Claims.
Proof. solve_decision. Defined.

(** [idempotency/middleware.rs], with the user of the INSERT. *)
Record CachedResponse := mkCachedResponse {
  cr_key : string; cr_user_id : string; cr_request_hash : string; cr_status_code : Z;
  cr_response_body : string;
}.

Record Platform := mkPlatform {
  core : CoreDb;
  roles : list Role;
  user_roles : list (Uuid * Uuid);
  permissions : list (Uuid * Permission);
  api_keys : list ApiKey;
  jwt_keys : list JwtKey;
  idempotency_keys : list CachedResponse;
  redis : gmap string (string * Z);
  key_service : bool;
  active_key_cache : option CachedKey;
}.

Definition set_core (x : CoreDb) (p : Platform) : Platform :=
  mkPlatform x (roles p) (user_roles p) (permissions p) (api_keys p) (jwt_keys p) (idempotency_keys p)
    (redis p) (key_service p) (active_key_cache p).
Definition set_user_roles (x : list (Uuid * Uuid)) (p : Platform) : Platform :=
  mkPlatform (core p) (roles p) x (permissions p) (api_keys p) (jwt_keys p)
    (idempotency_keys p) (redis p) (key_service p) (active_key_cache p).
Definition set_api_keys (x : list ApiKey) (p : Platform) : Platform :=
  mkPlatform (core p) (roles p) (user_roles p) (permissions p) x (jwt_keys p)
    (idempotency_keys p) (redis p) (key_service p) (active_key_cache p).
Definition set_jwt_keys (x : list JwtKey) (p : Platform) : Platform :=
  mkPlatform (core p) (roles p) (user_roles p) (permissions p) (api_keys p) x
    (idempotency_keys p) (redis p) (key_service p) (active_key_cache p).
Definition set_idempotency_keys (x : list CachedResponse) (p : Platform) : Platform :=
  mkPlatform (core p) (roles p) (user_roles p) (permissions p) (api_keys p)
    (jwt_keys p) x (redis p) (key_service p) (active_key_cache p).
Definition set_redis (x : gmap string (string * Z)) (p : Platform) : Platform :=
  mkPlatform (core p) (roles p) (user_roles p) (permissions p) (api_keys p)
    (jwt_keys p) (idempotency_keys p) x (key_service p) (active_key_cache p).
Definition set_key_service (x : bool) (p : Platform) : Platform :=
  mkPlatform (core p) (roles p) (user_roles p) (permissions p) (api_keys p)
    (jwt_keys p) (idempotency_keys p) (redis p) x (active_key_cache p).
Definition set_active_key_cache (x : option CachedKey) (p : Platform) : Platform :=
  mkPlatform (core p) (roles p) (user_roles p) (permissions p) (api_keys p)
    (jwt_keys p) (idempotency_keys p) (redis p) (key_service p) x.

(** GET, EXISTS, SETEX and DEL of Redis; a key is gone once it expired. *)
Definition redis_get (key : string) (t : Z) (p : Platform) : option string :=
  match redis p !! key with
  | Some (v, expires) => if expires <=? t then None else Some v
  | None => None
  end.
Definition set_ex (key value : string) (ttl t : Z) (p : Platform) : Platform :=
  set_redis (<[key := (value, t + ttl)]> (redis p)) p.
Definition redis_del (key : string) (p : Platform) : Platform := set_redis (delete key (redis p)) p.

(** A row of [jwt_keys] by id, and the other primary keys. *)
Definition is_jwt_key (id : Uuid) (k : JwtKey) : bool := (jk_id k =? id)%N.
Definition is_api_key (id : Uuid) (k : ApiKey) : bool := (ak_id k =? id)%N.

(** A draw from the random number generator: what the [n]th draw of the
    process returns is not the program's to say. *)
Definition draw {T A E} (f : nat → A) : M T A E :=
  λ e, (Ok (f (env_drawn e)), mkEnv (env_db e) (env_faults e) (env_uuid e) (S (env_drawn e)) (env_now e)).
Lemma draw_Ok {T A E} (f : nat → A) (e : Env T) a e' : draw (E := E) f e = (Ok a, e') →
  a = f (env_drawn e) ∧ env_db e' = env_db e ∧ env_now e' = env_now e ∧ env_faults e' = env_faults e.
Proof. by intros [= <- <-]. Qed.
Lemma keeps_draw {T X A E} (φ : T → X) (f : nat → A) : keeps φ (draw (E := E) f).
Proof. done. Qed.
Lemma steady_draw {T A E} (f : nat → A) : steady (draw (T := T) (E := E) f).
Proof. done. Qed.
#[export] Hint Resolve keeps_draw steady_draw : keeps.
