(* ===== verification/Strings.v ===== *)
(** * More of [str]: splitting, joining and trimming, and UTF-8

    [split], [splitn], [join], [trim], [strip_prefix], [sort], [dedup] and
    [String::from_utf8_lossy]; a string is the bytes of its UTF-8 text. *)
From Stdlib Require Import Ascii.
From S2P Require Import Prelude Text Bytes.
Open Scope Z_scope.

(** Does the text hold the character? *)
Fixpoint has_char (c : ascii) (s : string) : bool :=
  match s with "" => false | String d r => Ascii.eqb d c || has_char c r end%string.

(** [s.split_once(c)], and the parts of [s.splitn(2, c)] when there are two *)
Fixpoint split_once_at (c : ascii) (s : string) : option (string * string) :=
  match s with
  | "" => None
  | String d r =>
      if Ascii.eqb d c then Some (""%string, r)
      else '(a, b) ← split_once_at c r; Some (String d a, b)
  end%string.

(** [s.split(c)]: never empty *)
Fixpoint split_on (c : ascii) (s : string) : list string :=
  match s with
  | "" => [""]
  | String d r =>
      if Ascii.eqb d c then "" :: split_on c r
      else match split_on c r with p :: ps => String d p :: ps | [] => [String d ""] end
  end%string.

(** [l.join(sep)] *)
Fixpoint join (sep : string) (l : list string) : string :=
  match l with
  | [] => ""
  | [s] => s
  | s :: r => s +:+ sep +:+ join sep r
  end.

(** [s.trim()] of text whose white space is ASCII *)
Definition is_space (c : ascii) : bool :=
  let n := nat_of_ascii c in ((9 <=? n)%nat && (n <=? 13)%nat) || (n =? 32)%nat.
Fixpoint trim_start (s : string) : string :=
  match s with "" => "" | String c r => if is_space c then trim_start r else s end%string.
Fixpoint trim_end (s : string) : string :=
  match s with
  | "" => ""
  | String c r => match trim_end r with
                  | "" => if is_space c then "" else String c ""
                  | r' => String c r'
                  end
  end%string.
Definition trim (s : string) : string := trim_end (trim_start s).

(** [s.strip_prefix(p)]; [s.starts_with(p)] is [String.prefix p s] *)
Fixpoint strip_prefix (p s : string) : option string :=
  match p, s with
  | "", _ => Some s
  | String c p, String d s => if Ascii.eqb c d then strip_prefix p s else None
  | _, _ => None
  end%string.

(** [&s[..n]] where [n] is no more than the length *)
Definition first_chars (n : nat) (s : string) : string := String.substring 0 n s.

(** [v.sort(); v.dedup()]: strings compare by their bytes *)
Fixpoint dedup (l : list string) : list string :=
  match l with
  | x :: ((y :: _) as r) => if String.eqb x y then dedup r else x :: dedup r
  | _ => l
  end.
Definition sorted_texts (l : list string) : list string := dedup (sort_by String.leb l).

Lemma elem_of_dedup x l : x ∈ dedup l ↔ x ∈ l.
Proof.
  induction l as [|y l IH]; [done|]. destruct l as [|z l]; [done|].
  change (dedup (y :: z :: l)) with (if String.eqb y z then dedup (z :: l) else y :: dedup (z :: l)).
  destruct (String.eqb_spec y z) as [->|].
  - rewrite IH, !elem_of_cons. naive_solver.
  - by rewrite !(elem_of_cons _ _ y), IH.
Qed.
Lemma elem_of_sorted_texts x l : x ∈ sorted_texts l ↔ x ∈ l.
Proof. unfold sorted_texts. by rewrite elem_of_dedup, elem_of_sort_by. Qed.

Lemma append_assoc (a b c : string) : (a +:+ b) +:+ c = a +:+ (b +:+ c).
Proof. induction a as [|x a IH]; [done|]. exact (f_equal (String x) IH). Qed.

Lemma split_once_at_app c a b : has_char c a = false → split_once_at c (a +:+ String c b) = Some (a, b).
Proof.
  induction a as [|d a IH]; simpl; [by rewrite Ascii.eqb_refl|].
  destruct (Ascii.eqb d c); [done|]. simpl. intros H. by rewrite IH.
Qed.
Lemma split_once_at_None c a : has_char c a = false → split_once_at c a = None.
Proof.
  induction a as [|d a IH]; simpl; [done|]. destruct (Ascii.eqb d c); [done|]. simpl.
  intros H. by rewrite IH.
Qed.
(** A separator that neither first part holds separates. *)
Lemma append_sep_inj c a b a' b' : has_char c a = false → has_char c a' = false →
  a +:+ String c b = a' +:+ String c b' → a = a' ∧ b = b'.
Proof.
  intros Ha Ha' Heq. apply (f_equal (split_once_at c)) in Heq.
  rewrite !split_once_at_app in Heq by done. by injection Heq as -> ->.
Qed.
Lemma split_on_app c a b : has_char c a = false → split_on c (a +:+ String c b) = a :: split_on c b.
Proof.
  induction a as [|d a IH]; simpl; [by rewrite Ascii.eqb_refl|].
  destruct (Ascii.eqb d c); [done|]. simpl. intros H. by rewrite IH.
Qed.
Lemma split_on_one c a : has_char c a = false → split_on c a = [a].
Proof.
  induction a as [|d a IH]; simpl; [done|]. destruct (Ascii.eqb d c); [done|]. simpl.
  intros H. by rewrite IH.
Qed.
Lemma split_join c l : l ≠ [] → Forall (λ s, has_char c s = false) l → split_on c (join (String c "") l) = l.
Proof.
  intros Hne Hl. induction Hl as [|s l Hs Hl IH]; [done|]. destruct l as [|s' l].
  - by apply split_on_one.
  - change (join (String c "") (s :: s' :: l)) with (s +:+ String c (join (String c "") (s' :: l))).
    rewrite split_on_app by done. by rewrite IH.
Qed.
Lemma has_char_app c a b : has_char c (a +:+ b) = has_char c a || has_char c b.
Proof.
  induction a as [|d a IH]; [done|]. change (Ascii.eqb d c || has_char c (a +:+ b) = Ascii.eqb d c || has_char c a || has_char c b).
  by rewrite IH, orb_assoc.
Qed.

(** ** UTF-8 *)

Definition chr (b : Z) : ascii := ascii_of_nat (Z.to_nat b).
Fixpoint text_of (b : bytes) : string := match b with [] => "" | x :: r => String (chr x) (text_of r) end.

Definition is_cont (b : Z) : bool := (128 <=? b) && (b <? 192).
(** The second bytes a lead byte of three or four allows. *)
Definition second_of_3 (b0 b1 : Z) : bool :=
  if b0 =? 224 then (160 <=? b1) && (b1 <? 192)
  else if b0 =? 237 then (128 <=? b1) && (b1 <? 160)
  else is_cont b1.
Definition second_of_4 (b0 b1 : Z) : bool :=
  if b0 =? 240 then (144 <=? b1) && (b1 <? 192)
  else if b0 =? 244 then (128 <=? b1) && (b1 <? 144)
  else is_cont b1.

(** U+FFFD *)
Definition replacement : bytes := [239; 191; 189].

(** [String::from_utf8_lossy]: the longest start of a character that is not
    continued becomes one replacement character. *)
Fixpoint utf8_lossy (s : bytes) : bytes :=
  match s with
  | [] => []
  | b0 :: s1 =>
      if b0 <? 128 then b0 :: utf8_lossy s1
      else if (194 <=? b0) && (b0 <? 224) then
        match s1 with
        | b1 :: s2 => if is_cont b1 then b0 :: b1 :: utf8_lossy s2 else replacement ++ utf8_lossy s1
        | [] => replacement
        end
      else if (224 <=? b0) && (b0 <? 240) then
        match s1 with
        | b1 :: s2 =>
            if second_of_3 b0 b1 then
              match s2 with
              | b2 :: s3 =>
                  if is_cont b2 then b0 :: b1 :: b2 :: utf8_lossy s3 else replacement ++ utf8_lossy s2
              | [] => replacement
              end
            else replacement ++ utf8_lossy s1
        | [] => replacement
        end
      else if (240 <=? b0) && (b0 <? 245) then
        match s1 with
        | b1 :: s2 =>
            if second_of_4 b0 b1 then
              match s2 with
              | b2 :: s3 =>
                  if is_cont b2 then
                    match s3 with
                    | b3 :: s4 => if is_cont b3 then b0 :: b1 :: b2 :: b3 :: utf8_lossy s4
                                  else replacement ++ utf8_lossy s3
                    | [] => replacement
                    end
                  else replacement ++ utf8_lossy s2
              | [] => replacement
              end
            else replacement ++ utf8_lossy s1
        | [] => replacement
        end
      else replacement ++ utf8_lossy s1
  end.
Definition from_utf8_lossy (b : bytes) : string := text_of (utf8_lossy b).

(** What a [String] of the source is. *)
Definition is_text (s : string) : Prop := utf8_lossy (as_bytes s) = as_bytes s.

Lemma text_of_as_bytes s : text_of (as_bytes s) = s.
Proof.
  unfold as_bytes. induction s as [|c s IH]; [done|]. simpl. f_equal; [|exact IH].
  unfold chr. by rewrite Nat2Z.id, ascii_nat_embedding.
Qed.
Lemma from_utf8_as_bytes s : is_text s → from_utf8_lossy (as_bytes s) = s.
Proof. unfold is_text, from_utf8_lossy. intros ->. apply text_of_as_bytes. Qed.

(** ASCII text is text. *)
Definition is_ascii (s : string) : bool := forallb (λ b, b <? 128) (as_bytes s).
Lemma is_ascii_text s : is_ascii s = true → is_text s.
Proof.
  unfold is_ascii, is_text. induction (as_bytes s) as [|b l IH]; [done|]. simpl.
  intros [Hb Hl]%andb_true_iff. rewrite Hb. f_equal. by apply IH.
Qed.

(** ** Signed integers as text *)

(** [s.parse::<i64>()] *)
Definition parse_i64 (s : string) : option Z :=
  match s with
  | String "-"%char r =>
      u ← DecimalString.NilZero.uint_of_string r;
      let n := - Z.of_N (N.of_uint u) in
      if i64_min <=? n then Some n else None
  | _ => parse_uint i64_max s
  end.

Lemma digits_bytes u b : b ∈ as_bytes (DecimalString.NilEmpty.string_of_uint u) → 48 ≤ b ≤ 57.
Proof.
  induction u; [by intros ?%elem_of_nil|..];
    (intros Hin; unfold as_bytes in Hin; simpl in Hin; apply elem_of_cons in Hin as [->|Hin]; [by vm_compute|by apply IHu]).
Qed.
Lemma print_uint_bytes n b : b ∈ as_bytes (print_uint n) → 48 ≤ b ≤ 57.
Proof.
  unfold print_uint, DecimalString.NilZero.string_of_uint.
  destruct (N.to_uint _) eqn:E; [by intros ->%list_elem_of_singleton|apply (digits_bytes (Decimal.D0 _))|..];
    match goal with |- context [DecimalString.NilEmpty.string_of_uint ?u] => apply digits_bytes end.
Qed.
(** Digits, and a minus. *)
Lemma print_int_bytes n b : b ∈ as_bytes (print_int n) → 45 ≤ b ≤ 57.
Proof.
  unfold print_int. destruct (n <? 0); [|intros Hb%print_uint_bytes; lia].
  change (as_bytes ("-" +:+ print_uint (- n))) with (45 :: as_bytes (print_uint (- n))).
  intros [->|Hb%print_uint_bytes]%elem_of_cons; lia.
Qed.
Lemma print_int_text n : is_text (print_int n).
Proof.
  apply is_ascii_text. unfold is_ascii. apply forallb_forall. intros b Hb%list_elem_of_In%print_int_bytes.
  apply Z.ltb_lt. lia.
Qed.

Lemma print_uint_no_minus n : match print_uint n with String c _ => c ≠ "-"%char | EmptyString => False end.
Proof.
  unfold print_uint, DecimalString.NilZero.string_of_uint. destruct (N.to_uint _) eqn:E; try done.
Qed.
Lemma parse_print_int n : in_i64 n → parse_i64 (print_int n) = Some n.
Proof.
  intros Hn. rewrite in_i64_iff in Hn. unfold print_int. destruct (Z.ltb_spec n 0).
  - change ("-" +:+ print_uint (- n)) with (String "-" (print_uint (- n))). unfold parse_i64.
    unfold print_uint. rewrite DecimalString.NilZero.usu.
    + cbn [mbind option_bind]. cbv zeta. rewrite DecimalN.Unsigned.of_to, Z2N.id, Z.opp_involutive by lia.
      assert ((i64_min <=? n) = true) as -> by (apply Z.leb_le; exact (proj1 Hn)). done.
    + destruct (Z.to_N (- n)) eqn:E; [lia|]. simpl. apply DecimalPos.Unsigned.to_uint_nonnil.
  - transitivity (parse_uint i64_max (print_uint n)); [|apply parse_print; change i64_max with 9223372036854775807; lia].
    unfold parse_i64. pose proof (print_uint_no_minus n) as Hm.
    destruct (print_uint n) as [|c r]; [done|]. by destruct c as [[] [] [] [] [] [] [] []].
Qed.

Lemma print_int_inj n n' : in_i64 n → in_i64 n' → print_int n = print_int n' → n = n'.
Proof.
  intros Hn Hn' E. apply (f_equal parse_i64) in E. rewrite !parse_print_int in E by done. congruence.
Qed.

Lemma parse_i64_range s n : parse_i64 s = Some n → in_i64 n.
Proof.
  assert (∀ s n, parse_uint i64_max s = Some n → in_i64 n) as Hu.
  { clear. intros s n. unfold parse_uint. set (digits := match s with String "+" r => r | _ => s end).
    destruct (DecimalString.NilZero.uint_of_string digits) as [u|]; [|done]. simpl.
    destruct (Z.leb_spec (Z.of_N (N.of_uint u)) i64_max); [|done]. intros [= <-].
    unfold in_i64, i64_min. lia. }
  unfold parse_i64. destruct s as [|c r]; [done|].
  destruct (decide (c = "-"%char)) as [->|Hc].
  - destruct (DecimalString.NilZero.uint_of_string r) as [u|]; [|done]. simpl.
    destruct (Z.leb_spec i64_min (- Z.of_N (N.of_uint u))); [|done]. intros [= <-].
    unfold in_i64, i64_max. lia.
  - intros Hp. apply (Hu (String c r)). destruct c as [[] [] [] [] [] [] [] []]; try exact Hp. by destruct Hc.
Qed.
