(* ===== verification/Http.v ===== *)
(** * Requests, responses and handlers

    What the middlewares of the source see of axum and of the crate http:
    header names are lower case, a value is text or not ([to_str]). *)
From Stdlib Require Import Ascii.
From stdpp Require Import gmap.
From S2P Require Import Prelude Monad Model Bytes Text Strings Access.
Open Scope Z_scope.

Inductive Method := GET | HEAD | OPTIONS | POST | PUT | PATCH | DELETE | OtherMethod (name : string).
#[export] Instance method_eq_dec : EqDecision Method.
Proof. solve_decision. Defined.
Definition method_text (m : Method) : string :=
  match m with
  | GET => "GET" | HEAD => "HEAD" | OPTIONS => "OPTIONS" | POST => "POST" | PUT => "PUT"
  | PATCH => "PATCH" | DELETE => "DELETE" | OtherMethod name => name
  end.

Inductive HeaderValue := Visible (s : string) | Opaque (b : bytes).
Abbreviation Headers := (list (string * HeaderValue)) (only parsing).

(** [rq_claims] is what a middleware put into the request's extensions. *)
Record Request := mkRequest {
  rq_method : Method; rq_path : string; rq_query : option string; rq_headers : Headers;
  rq_claims : option Claims; rq_body : bytes;
}.
Record Response := mkResponse { rs_status : Z; rs_headers : Headers; rs_body : bytes }.

(** A handler that does not return a response panics. *)
Inductive Panic := Panicked (message : string).
Abbreviation Handler := (Request → M Platform Response Panic) (only parsing).

(** [headers.get(name)], and [.and_then(|v| v.to_str().ok())] *)
Fixpoint header_value (name : string) (h : Headers) : option HeaderValue :=
  match h with
  | [] => None
  | (n, v) :: r => if String.eqb n name then Some v else header_value name r
  end.
Definition visible (v : HeaderValue) : option string :=
  match v with Visible s => Some s | Opaque _ => None end.
Definition header (name : string) (req : Request) : option string := header_value name (rq_headers req) ≫= visible.

(** [headers_mut().insert(name, value)] *)
Definition insert_header (name : string) (v : HeaderValue) (h : Headers) : Headers :=
  (name, v) :: List.filter (λ '(n, _), negb (String.eqb n name)) h.

Definition with_headers (h : Headers) (req : Request) : Request :=
  mkRequest (rq_method req) (rq_path req) (rq_query req) h (rq_claims req) (rq_body req).
Definition with_claims (c : Claims) (req : Request) : Request :=
  mkRequest (rq_method req) (rq_path req) (rq_query req) (rq_headers req) (Some c) (rq_body req).
Definition with_body (b : bytes) (req : Request) : Request :=
  mkRequest (rq_method req) (rq_path req) (rq_query req) (rq_headers req) (rq_claims req) b.

Definition OK : Z := 200.
Definition CREATED : Z := 201.
Definition NO_CONTENT : Z := 204.
Definition BAD_REQUEST : Z := 400.
Definition UNAUTHORIZED : Z := 401.
Definition FORBIDDEN : Z := 403.
Definition NOT_FOUND : Z := 404.
Definition CONFLICT : Z := 409.
Definition UNPROCESSABLE_ENTITY : Z := 422.
Definition INTERNAL_SERVER_ERROR : Z := 500.
Definition BAD_GATEWAY : Z := 502.

(** [(status, text).into_response()] *)
Definition respond (status : Z) (text : string) : Response :=
  mkResponse status [("content-type", Visible "text/plain; charset=utf-8")] (as_bytes text).

(** [axum::body::to_bytes(body, 10 * 1024 * 1024)]; a body that breaks off is
    one that is too long. *)
Definition to_bytes (b : bytes) : option bytes :=
  if Z.of_nat (length b) <=? 10 * 1024 * 1024 then Some b else None.

Lemma header_value_insert_eq name v h : header_value name (insert_header name v h) = Some v.
Proof. simpl. by rewrite String.eqb_refl. Qed.
Lemma header_value_insert_ne name name' v h : name' ≠ name →
  header_value name' (insert_header name v h) = header_value name' h.
Proof.
  intros Hne. simpl. destruct (String.eqb_spec name name') as [|_]; [congruence|].
  induction h as [|[n w] h IH]; [done|]. simpl.
  destruct (String.eqb_spec n name) as [->|]; simpl; [|by rewrite IH].
  destruct (String.eqb_spec name name'); [congruence|done].
Qed.
Lemma header_insert_eq name s req :
  header name (with_headers (insert_header name (Visible s) (rq_headers req)) req) = Some s.
Proof. unfold header. simpl rq_headers. by rewrite header_value_insert_eq. Qed.
Lemma header_insert_ne name name' v req : name' ≠ name →
  header name' (with_headers (insert_header name v (rq_headers req)) req) = header name' req.
Proof. intros Hne. unfold header. simpl rq_headers. by rewrite header_value_insert_ne. Qed.
