(* ===== verification/Rbac.v ===== *)
(** * Roles and permissions: [src/src/rbac/{service,middleware}.rs]

    The tables say which roles a user has and what a role may do; a token
    carries the answer as a list of texts, which the middleware matches
    against what a route requires. *)
From Stdlib Require Import Ascii.
From stdpp Require Import gmap.
From S2P Require Import Prelude Monad Model Settlement Bytes Text Strings Access Http.
Open Scope Z_scope.

Module RbacService.

Inductive RbacError := RoleNotFound (name : string) | RbacDbError (e : SqlxError).
Definition rbac_error_text `{SqlxDisplay} (e : RbacError) : string :=
  match e with
  | RoleNotFound name => "Role not found: " +:+ name
  | RbacDbError e => "Database error: " +:+ sqlx_text e
  end.

(** The join of [user_roles] with a role of the user. *)
Definition assigned (user_id role_id : Uuid) (d : Platform) : bool :=
  existsb (λ '(u, r), (u =? user_id)%N && (r =? role_id)%N) (user_roles d).

Definition roles_of (user_id : Uuid) (d : Platform) : list Role :=
  sql_select (λ r, assigned user_id (ro_id r) d) (roles d).
Definition permissions_of (user_id : Uuid) (d : Platform) : list Permission :=
  snd <$> sql_select (λ p, assigned user_id (fst p) d) (permissions d).

Definition get_user_roles (user_id : Uuid) : M Platform (list Role) RbacError :=
  map_err RbacDbError (query (roles_of user_id)).
Definition get_user_role_names (user_id : Uuid) : M Platform (list string) RbacError :=
  map_err RbacDbError (query (λ d, ro_name <$> roles_of user_id d)).
Definition get_user_permissions (user_id : Uuid) : M Platform (list Permission) RbacError :=
  map_err RbacDbError (query (λ d, remove_dups (permissions_of user_id d))).

Definition permission_text (p : Permission) : string := pe_resource p +:+ ":" +:+ pe_action p.
Definition get_user_permission_strings (user_id : Uuid) : M Platform (list string) RbacError :=
  let* perms := get_user_permissions user_id in
  let result := permission_text <$> perms in
  let* roles := get_user_role_names user_id in
  ret (sorted_texts (result ++ roles)).

Definition has_role (user_id : Uuid) (role_name : string) : M Platform bool RbacError :=
  let* count := map_err RbacDbError
    (query (λ d, rows_affected (λ r, String.eqb (ro_name r) role_name) (roles_of user_id d))) in
  ret (0 <? count)%nat.

Definition covers (resource action : string) (p : Permission) : bool :=
  (String.eqb (pe_resource p) resource || String.eqb (pe_resource p) "*")
  && (String.eqb (pe_action p) action || String.eqb (pe_action p) "*").
Definition has_permission (user_id : Uuid) (resource action : string) : M Platform bool RbacError :=
  let* count := map_err RbacDbError
    (query (λ d, rows_affected (covers resource action) (permissions_of user_id d))) in
  ret (0 <? count)%nat.

(** user_id REFERENCES users(id), ON CONFLICT DO NOTHING *)
Definition assign_role (user_id : Uuid) (role_name : string) : M Platform unit RbacError :=
  let* found := map_err RbacDbError
    (query (λ d, ro_id <$> sql_one (λ r, String.eqb (ro_name r) role_name) (roles d))) in
  let* role_id := of_option (RoleNotFound role_name) found in
  map_err RbacDbError (stmt (λ d,
    if assigned user_id role_id d then Some (tt, d)
    else if existsb (λ u, (u_id u =? user_id)%N) (users (core d))
    then Some (tt, set_user_roles (user_roles d ++ [(user_id, role_id)]) d) else None)).

Definition list_roles : M Platform (list Role) RbacError :=
  map_err RbacDbError (query (λ d, sort_by (λ x y, String.leb (ro_name x) (ro_name y)) (roles d))).
End RbacService.

Module RbacMiddleware.

Definition extract_permissions (req : Request) : list string :=
  match rq_claims req with
  | Some claims => cl_permissions claims
  | None => match header "x-user-permissions" req with
            | Some s => trim <$> split_on "," s
            | None => []
            end
  end.
Definition extract_user_id `{UuidText} (req : Request) : string :=
  match rq_claims req with
  | Some claims => uuid_text (cl_sub claims)
  | None => default "unknown"%string (header "x-user-id" req)
  end.

Definition has_permission (permissions : list string) (required : string) : bool :=
  let '(resource, action) :=
    match split_once_at ":" required with Some (r, a) => (r, a) | None => (required, "*"%string) end in
  existsb (λ p,
    String.eqb p "admin" || String.eqb p "*:*" || String.eqb p required
    || String.eqb p (resource +:+ ":*")
    || (String.eqb action "*" && String.prefix (resource +:+ ":") p)) permissions.

Definition require_perm (permission : string) (next : Handler) : Handler := λ request,
  let permissions := extract_permissions request in
  match permissions with
  | [] => ret (respond UNAUTHORIZED "No permissions found")
  | _ =>
      if negb (has_permission permissions permission)
      then ret (respond FORBIDDEN ("Permission '" +:+ permission +:+ "' required"))
      else next request
  end.
Definition require_role (role : string) (next : Handler) : Handler := require_perm role next.
End RbacMiddleware.

(** ** The token says what the tables say *)

Import RbacService.

(** Names without a colon; a permission on every resource is one for every
    action, as in the rows of migrations 018 and 026. *)
Definition wf_rbac (d : Platform) : Prop :=
  (∀ r, r ∈ roles d → has_char ":" (ro_name r) = false) ∧
  (∀ p, p ∈ permissions d →
     has_char ":" (pe_resource (snd p)) = false ∧ (pe_resource (snd p) = "*" → pe_action (snd p) = "*")%string).

Definition matches_text (resource action p : string) : bool :=
  String.eqb p "admin" || String.eqb p "*:*" || String.eqb p (resource +:+ ":" +:+ action)
  || String.eqb p (resource +:+ ":*").

Lemma has_permission_texts perms resource action :
  has_char ":" resource = false → action ≠ "*"%string →
  RbacMiddleware.has_permission perms (resource +:+ ":" +:+ action) = existsb (matches_text resource action) perms.
Proof.
  intros Hr Ha. unfold RbacMiddleware.has_permission.
  change (":" +:+ action) with (String ":" action). rewrite split_once_at_app by done.
  destruct (String.eqb_spec action "*") as [->|_]; [done|].
  induction perms as [|p perms IH]; [done|]. cbn [existsb]. f_equal; [|exact IH].
  by rewrite andb_false_l, orb_false_r.
Qed.

(** A permission's text is that of a resource and an action: it is theirs. *)
Lemma permission_text_inj p resource action :
  has_char ":" (pe_resource p) = false → has_char ":" resource = false →
  permission_text p = (resource +:+ ":" +:+ action) → pe_resource p = resource ∧ pe_action p = action.
Proof. unfold permission_text. intros Hp Hr. by apply append_sep_inj. Qed.

Lemma permission_text_colon p : has_char ":" (permission_text p) = true.
Proof. unfold permission_text. rewrite has_char_app. simpl. by rewrite orb_true_r. Qed.

Lemma matches_name name resource action : has_char ":" name = false →
  matches_text resource action name = String.eqb name "admin".
Proof.
  intros Hn. unfold matches_text.
  assert (∀ s, has_char ":" s = true → String.eqb name s = false) as Hc.
  { intros s Hs. destruct (String.eqb_spec name s) as [->|]; congruence. }
  rewrite (Hc "*:*"), (Hc (resource +:+ ":" +:+ action)), (Hc (resource +:+ ":*")), !orb_false_r; [done|..|done];
    by rewrite has_char_app; simpl; rewrite orb_true_r.
Qed.

Lemma matches_permission p resource action :
  has_char ":" (pe_resource p) = false → (pe_resource p = "*" → pe_action p = "*")%string →
  has_char ":" resource = false → action ≠ "*"%string →
  matches_text resource action (permission_text p) = covers resource action p.
Proof.
  intros Hp Hstar Hr Ha. apply eq_true_iff_eq. unfold matches_text, covers.
  rewrite !orb_true_iff, andb_true_iff, !orb_true_iff, !String.eqb_eq. split.
  - intros [[[Hm|Hm]|Hm]|Hm].
    + pose proof (permission_text_colon p) as Hc. by rewrite Hm in Hc.
    + apply (permission_text_inj p "*" "*") in Hm as [-> ->]; auto.
    + apply permission_text_inj in Hm as [-> ->]; auto.
    + apply (permission_text_inj p resource "*") in Hm as [-> ->]; auto.
  - intros [[Er|Er] [Ea|Ea]]; unfold permission_text; rewrite Er, Ea; auto.
    specialize (Hstar Er). congruence.
Qed.

Lemma rows_positive {R} (p : R → bool) l : (0 <? rows_affected p l)%nat = existsb p l.
Proof.
  unfold rows_affected, sql_select. induction l as [|x l IH]; [done|]. simpl. by destruct (p x).
Qed.


(** The tables of migrations 018 and 026, with a trader, an admin and a solver. *)
Module SeededTables.
Definition admin : Uuid := 1%N.
Definition trader : Uuid := 2%N.
Definition solver : Uuid := 3%N.
Definition read_only : Uuid := 4%N.
Definition grants (role : Uuid) (l : list (string * string)) : list (Uuid * Permission) :=
  (λ '(r, a), (role, mkPermission r a)) <$> l.
Definition platform : Platform :=
  mkPlatform (set_users [mkUser 10 "t@x.io" "hash" 0 0; mkUser 11 "a@x.io" "hash" 0 0;
                         mkUser 12 "s@x.io" "hash" 0 0] empty_db)
    [mkRole admin "admin" "Full platform access"; mkRole trader "trader" "Can create intents, deposit, withdraw";
     mkRole solver "solver" "Can submit bids and view auctions"; mkRole read_only "read_only" "Can only view data"]
    [(10, trader); (11, admin); (12, solver)]%N
    (grants admin [("*", "*")]%string
     ++ grants trader [("intents", "create"); ("intents", "read"); ("intents", "cancel"); ("balances", "read");
          ("balances", "deposit"); ("balances", "withdraw"); ("markets", "read"); ("trades", "read")]%string
     ++ grants solver [("bids", "create"); ("bids", "read"); ("intents", "read"); ("markets", "read");
          ("auctions", "read")]%string
     ++ grants read_only [("intents", "read"); ("markets", "read"); ("trades", "read"); ("balances", "read")]%string
     ++ grants trader [("intent", "create"); ("intent", "read"); ("balance", "deposit"); ("balance", "withdraw");
          ("balance", "read"); ("market", "read"); ("trade", "read")]%string
     ++ grants solver [("bid", "create"); ("intent", "read"); ("market", "read"); ("trade", "read")]%string
     ++ grants read_only [("intent", "read"); ("market", "read"); ("trade", "read"); ("balance", "read")]%string)
    [] [] [] ∅ true None.
Definition env : Env Platform := mkEnv platform [] N.of_nat 0 0.

Lemma seeded_wf : wf_rbac platform.
Proof.
  assert (forallb (λ r, negb (has_char ":" (ro_name r))) (roles platform) = true) as Hr by (by vm_compute).
  assert (forallb (λ p, negb (has_char ":" (pe_resource (snd p)))
            && (negb (String.eqb (pe_resource (snd p)) "*") || String.eqb (pe_action (snd p)) "*"))
            (permissions platform) = true) as Hp by (by vm_compute).
  split.
  - intros r Hin. by apply negb_true_iff, (elem_of_forallb _ _ Hr).
  - intros p Hin. pose proof (elem_of_forallb _ _ Hp _ Hin) as [H1 H2]%andb_true_iff.
    apply negb_true_iff in H1. split; [done|]. intros E. rewrite E in H2. by apply String.eqb_eq in H2.
Qed.
End SeededTables.

