(* ===== verification/ApiKeys.v ===== *)
(** * API keys: [src/src/api_keys/{service,mod}.rs]

    A key is shown once; the table keeps its SHA-256 and its first characters.
    The hash, random bytes and hexadecimal are parameters. *)
From stdpp Require Import gmap.
From S2P Require Import Prelude Monad Triples Model Settlement Bytes Text Strings Access Http.
Open Scope Z_scope.

Definition KEY_PREFIX_LEN : nat := 8.

Record CreateKeyResponse := mkCreateKeyResponse { ck_id : Uuid; ck_key : string; ck_name : string }.

Inductive ApiKeyError := KeyNotFound | KeyRevoked | InvalidKey | KeyDbError (e : SqlxError) | HashError (e : string).
Definition api_key_error_text `{SqlxDisplay} (e : ApiKeyError) : string :=
  match e with
  | KeyNotFound => "API key not found"
  | KeyRevoked => "API key has been revoked"
  | InvalidKey => "Invalid API key"
  | KeyDbError e => "Database error: " +:+ sqlx_text e
  | HashError e => "Hash error: " +:+ e
  end.

Module ApiKeyService.
Section service.
Context (random_bytes : nat → nat → bytes) (hex_encode : bytes → string) (sha256 : bytes → bytes).

Definition nth_key (i : nat) : string := "itx_" +:+ hex_encode (random_bytes 16 i).
Definition generate_key {E} : M Platform string E := draw nth_key.
Definition hash_key (key : string) : result string ApiKeyError := Ok (hex_encode (sha256 (as_bytes key))).
Definition lift {A} (r : result A ApiKeyError) : M Platform A ApiKeyError :=
  match r with Ok a => ret a | Err e => throw e end.

(** user_id REFERENCES users(id) *)
Definition insert_key (key : ApiKey) : M Platform unit SqlxError :=
  stmt (λ d,
    if existsb (is_api_key (ak_id key)) (api_keys d)
       || negb (existsb (λ u, (u_id u =? ak_user_id key)%N) (users (core d)))
    then None else Some (tt, set_api_keys (api_keys d ++ [key]) d)).

Definition create_key (user_id : Uuid) (name : string) (permissions : list string)
  : M Platform CreateKeyResponse ApiKeyError :=
  let* raw_key := generate_key in
  let prefix := first_chars KEY_PREFIX_LEN raw_key in
  let* hash := lift (hash_key raw_key) in
  let* id := new_v4 in
  let* t := now in
  map_err KeyDbError (insert_key (mkApiKey id user_id hash prefix name permissions t None false)) ;;;
  ret (mkCreateKeyResponse id raw_key name).

Definition with_last_used (t : Z) (k : ApiKey) : ApiKey :=
  mkApiKey (ak_id k) (ak_user_id k) (ak_key_hash k) (ak_key_prefix k) (ak_name k) (ak_permissions k)
    (ak_created_at k) (Some t) (ak_revoked k).
Definition as_revoked (k : ApiKey) : ApiKey :=
  mkApiKey (ak_id k) (ak_user_id k) (ak_key_hash k) (ak_key_prefix k) (ak_name k) (ak_permissions k)
    (ak_created_at k) (ak_last_used_at k) true.

Definition validate_key (raw_key : string) : M Platform ApiKey ApiKeyError :=
  if (String.length raw_key <? KEY_PREFIX_LEN)%nat then throw InvalidKey else
  let prefix := first_chars KEY_PREFIX_LEN raw_key in
  let* candidates := map_err KeyDbError
    (query (λ d, sql_select (λ k, String.eqb (ak_key_prefix k) prefix && negb (ak_revoked k)) (api_keys d))) in
  let* hash := lift (hash_key raw_key) in
  let* key := of_option KeyNotFound (List.find (λ k, String.eqb (ak_key_hash k) hash) candidates) in
  if ak_revoked key then throw KeyRevoked else
  let* t := now in
  attempt (exec (λ d, set_api_keys (sql_update (is_api_key (ak_id key)) (with_last_used t) (api_keys d)) d)) ;;;
  ret key.

Definition list_keys (user_id : Uuid) : M Platform (list ApiKey) ApiKeyError :=
  map_err KeyDbError (query (λ d,
    sort_by (λ x y, ak_created_at y <=? ak_created_at x)
      (sql_select (λ k, (ak_user_id k =? user_id)%N) (api_keys d)))).

Definition is_key_of (key_id user_id : Uuid) (k : ApiKey) : bool :=
  (ak_id k =? key_id)%N && (ak_user_id k =? user_id)%N.
Definition revoke_key (key_id user_id : Uuid) : M Platform unit ApiKeyError :=
  let* affected := map_err KeyDbError (stmt (λ d,
    Some (rows_affected (is_key_of key_id user_id) (api_keys d),
          set_api_keys (sql_update (is_key_of key_id user_id) as_revoked (api_keys d)) d))) in
  if (affected =? 0)%nat then throw KeyNotFound else ret tt.

End service.
End ApiKeyService.

(** The handlers of [mod.rs]: a status and a body, or a status and a text. *)
Module ApiKeyHandlers.
Import ApiKeyService.
Section handlers.
Context `{SqlxDisplay} (random_bytes : nat → nat → bytes) (hex_encode : bytes → string) (sha256 : bytes → bytes).

Record CreateKeyRequest := mkCreateKeyRequest { ckr_user_id : Uuid; ckr_name : string; ckr_permissions : list string }.

Definition create_key_handler (req : CreateKeyRequest) : M Platform (Z * CreateKeyResponse) (Z * string) :=
  let* r := map_err (λ e, (INTERNAL_SERVER_ERROR, api_key_error_text e))
    (create_key random_bytes hex_encode sha256 (ckr_user_id req) (ckr_name req) (ckr_permissions req)) in
  ret (CREATED, r).
Definition list_keys_handler (user_id : Uuid) : M Platform (list ApiKey) (Z * string) :=
  map_err (λ e, (INTERNAL_SERVER_ERROR, api_key_error_text e)) (list_keys user_id).
Definition revoke_key_handler (key_id user_id : Uuid) : M Platform Z (Z * string) :=
  map_err (λ e, (BAD_REQUEST, api_key_error_text e)) (revoke_key key_id user_id) ;;; ret NO_CONTENT.
End handlers.
End ApiKeyHandlers.

(** ** A key is good until it is revoked, and never again *)

Import ApiKeyService.
Section lifecycle.
Context (random_bytes : nat → nat → bytes) (hex_encode : bytes → string) (sha256 : bytes → bytes).
#[local] Abbreviation nth_key := (nth_key random_bytes hex_encode).
#[local] Abbreviation create_key := (create_key random_bytes hex_encode sha256).
#[local] Abbreviation validate_key := (validate_key hex_encode sha256).
#[local] Abbreviation hash key := (hex_encode (sha256 (as_bytes key))).

(** What never changes of a key, and that a revocation is final. *)
Definition key_le (k k' : ApiKey) : Prop :=
  ak_id k' = ak_id k ∧ ak_user_id k' = ak_user_id k ∧ ak_key_hash k' = ak_key_hash k ∧
  ak_key_prefix k' = ak_key_prefix k ∧ ak_permissions k' = ak_permissions k ∧
  (ak_revoked k = true → ak_revoked k' = true).
#[local] Instance key_le_preorder : PreOrder key_le.
Proof. split; [by intros k|]. intros k1 k2 k3. unfold key_le. naive_solver congruence. Qed.

Definition keys_grow (e e' : Env Platform) : Prop :=
  rows_le key_le (api_keys (env_db e)) (api_keys (env_db e')) ∧
  (NoDup (map ak_id (api_keys (env_db e))) → NoDup (map ak_id (api_keys (env_db e')))).
#[local] Instance keys_grow_preorder : PreOrder keys_grow.
Proof.
  split; [split; [by apply rows_le_refl, _|done]|].
  intros e1 e2 e3 [] []. split; [by eapply rows_le_trans; [apply _|..]|auto].
Qed.

Lemma keys_grow_pop e : keys_grow e (pop_fault e).
Proof. split; [apply rows_le_refl, _|done]. Qed.
Lemma keys_grow_update e p f : (∀ k, p k = true → key_le k (f k)) →
  keys_grow e (with_db (set_api_keys (sql_update p f (api_keys (env_db e))) (env_db e)) (pop_fault e)).
Proof.
  intros Hf. split; simpl.
  - apply rows_le_update; [apply _|]. auto.
  - replace (map ak_id (sql_update p f (api_keys (env_db e)))) with (map ak_id (api_keys (env_db e))); [done|].
    unfold sql_update. rewrite map_map. apply map_ext. intros k. destruct (p k) eqn:E; [|done].
    by destruct (Hf k E).
Qed.

Inductive key_op :=
| OCreate (user_id : Uuid) (name : string) (permissions : list string)
| OUse (raw_key : string)
| ORevoke (key_id user_id : Uuid).
Definition run_op (op : key_op) (e : Env Platform) : Env Platform :=
  match op with
  | OCreate u n ps => snd (create_key u n ps e)
  | OUse k => snd (validate_key k e)
  | ORevoke k u => snd (revoke_key k u e)
  end.
Inductive api_world : Env Platform → Env Platform → Prop :=
| aw_op op e : api_world e (run_op op e)
| aw_other e e' : api_keys (env_db e') = api_keys (env_db e) → api_world e e'.

Lemma create_key_grows u n ps : respects keys_grow (create_key u n ps).
Proof.
  unfold ApiKeyService.create_key, generate_key, hash_key, lift, insert_key. respects.
  all: try by intros e; split; [apply rows_le_refl, _|].
  apply respects_stmt; [apply keys_grow_pop|]. intros e x d. destruct (existsb _ _) eqn:Hex; [done|].
  destruct (negb _); [done|]. intros [= _ <-]. split; simpl.
  - apply rows_le_app, _.
  - intros Hnd. apply NoDup_map_snoc; [done|]. intros k Hk Heq.
    pose proof (existsb_false_elem _ _ _ Hex Hk) as Hid. unfold is_api_key in Hid. rewrite Heq in Hid.
    by rewrite N.eqb_refl in Hid.
Qed.
Lemma validate_key_grows k : respects keys_grow (validate_key k).
Proof.
  unfold ApiKeyService.validate_key, hash_key, lift. respects; [apply respects_query, keys_grow_pop|].
  apply respects_exec; [apply keys_grow_pop|]. intros e. by apply keys_grow_update.
Qed.
Lemma revoke_key_grows k u : respects keys_grow (revoke_key k u).
Proof.
  unfold revoke_key. respects. apply respects_stmt; [apply keys_grow_pop|].
  intros e x d [= _ <-]. by apply keys_grow_update.
Qed.

Lemma api_history e e' : rtc api_world e e' → keys_grow e e'.
Proof.
  induction 1 as [e|e e1 e2 Hstep _ IH]; [done|]. etrans; [|exact IH].
  destruct Hstep as [[]|e e' Heq]; simpl.
  - apply create_key_grows.
  - apply validate_key_grows.
  - apply revoke_key_grows.
  - split; rewrite Heq; [apply rows_le_refl, _|done].
Qed.

Lemma create_key_Ok u n ps e r e' : create_key u n ps e = (Ok r, e') →
  ck_key r = nth_key (env_drawn e) ∧
  api_keys (env_db e') = api_keys (env_db e) ++
    [mkApiKey (ck_id r) u (hash (ck_key r)) (first_chars KEY_PREFIX_LEN (ck_key r)) n ps (env_now e) None false].
Proof.
  intros Hrun. unfold ApiKeyService.create_key, hash_key, lift, insert_key in Hrun.
  apply bind_Ok in Hrun as (k & e1 & (-> & Hdb & Hnow & _)%draw_Ok & Hrun).
  apply bind_Ok in Hrun as (h & e2 & [-> ->]%ret_Ok & Hrun).
  apply bind_Ok in Hrun as (id & e3 & Hid & Hrun). injection Hid as <- <-.
  apply bind_Ok in Hrun as (t & e4 & [-> ->]%now_Ok & Hrun).
  apply bind_Ok in Hrun as ([] & e5 & (_ & d & Hd & ->)%map_err_Ok%stmt_Ok & [-> ->]%ret_Ok).
  cbn in *. destruct (existsb _ _); [done|]. destruct (negb _); [done|]. injection Hd as <-.
  cbn. by rewrite Hdb, Hnow.
Qed.

(** No two keys with one hash. *)
Definition only_key (id : Uuid) (raw_key : string) (e : Env Platform) : Prop :=
  ∀ k, k ∈ api_keys (env_db e) → ak_key_hash k = hash raw_key → ak_id k = id.

(** A key that is presented: the row with its hash answers, unless it is revoked. *)
Lemma validate_row raw_key k e : faulty e = false → (KEY_PREFIX_LEN ≤ String.length raw_key)%nat →
  NoDup (map ak_id (api_keys (env_db e))) → only_key (ak_id k) raw_key e → k ∈ api_keys (env_db e) →
  ak_key_hash k = hash raw_key → ak_key_prefix k = first_chars KEY_PREFIX_LEN raw_key →
  fst (validate_key raw_key e) = if ak_revoked k then Err KeyNotFound else Ok k.
Proof.
  intros Hf Hlen Hnd Honly Hk Hh Hp. unfold ApiKeyService.validate_key.
  rewrite (proj2 (Nat.ltb_ge _ _)) by done. unfold bind, map_err, query, stmt. rewrite Hf.
  cbn [hash_key lift ret of_option env_db with_db pop_fault].
  set (P := λ k, String.eqb (ak_key_prefix k) _ && negb (ak_revoked k)).
  destruct (List.find _ _) as [k'|] eqn:Hfind.
  - apply find_some in Hfind as [[Hk' HP]%list_elem_of_In%elem_of_sql_select Hh'%String.eqb_eq].
    assert (k' = k) as ->.
    { eapply NoDup_map_inj; [done..|]. by apply Honly. }
    apply andb_true_iff in HP as [_ HP%negb_true_iff]. unfold ret, of_option, now, attempt, exec, stmt. cbn.
    rewrite HP. cbv beta. by destruct (faulty (with_db (env_db e) (pop_fault e))).
  - destruct (ak_revoked k) eqn:Hr; [done|]. exfalso.
    eapply find_none in Hfind; [|apply list_elem_of_In, elem_of_sql_select; split; [done|]].
    + by rewrite Hh, String.eqb_refl in Hfind.
    + unfold P. by rewrite Hp, String.eqb_refl, Hr.
Qed.

Lemma revoke_marks id u e e' k : revoke_key id u e = (Ok tt, e') → k ∈ api_keys (env_db e') →
  ak_id k = id → ak_user_id k = u → ak_revoked k = true.
Proof.
  unfold revoke_key. intros Hrun Hk Hid Hu.
  apply bind_Ok in Hrun as (n & e1 & (_ & d & Hd & ->)%map_err_Ok%stmt_Ok & Hrun).
  injection Hd as Hn <-. destruct (n =? 0)%nat; [by run_inv|]. apply ret_Ok in Hrun as [_ ->].
  cbn in Hk. apply elem_of_sql_update in Hk as (k0 & Hk0 & ->).
  destruct (is_key_of id u k0) eqn:E; [done|].
  unfold is_key_of in E. by rewrite Hid, Hu, !N.eqb_refl in E.
Qed.

End lifecycle.

(** Carol makes a key, uses it, revokes it and tries it again. *)
Module KeysExample.
Definition random_bytes (n i : nat) : list Z := repeat (Z.of_nat i) n.
Definition hex_encode (b : list Z) : string := "0000" +:+ print_uint (hd 0 b).
Definition sha256 (b : list Z) : list Z := b.
Definition platform : Platform :=
  mkPlatform (set_users [mkUser 3 "carol@x.io" "hash" 0 0] empty_db) [] [] [] [] [] [] ∅ true None.
Definition e : Env Platform := mkEnv platform [] N.of_nat 5 100.
Definition e1 := snd (create_key random_bytes hex_encode sha256 3 "bot" ["intent:create"] e).
Definition raw : string := nth_key random_bytes hex_encode 5.
Definition e2 := snd (validate_key hex_encode sha256 raw e1).
Definition e3 := snd (revoke_key 6 3 e2).
End KeysExample.

