(* ===== verification/Jwt.v ===== *)
(** * Tokens and the keys that sign them: [src/src/auth/{jwt,key_rotation}.rs]

    The signing keys are rows of [jwt_keys]; a worker rotates and deletes
    them.  The token format and its HMAC (the crate jsonwebtoken), random bytes
    and hexadecimal are parameters; logs are left out. *)
From stdpp Require Import gmap.
From S2P Require Import Prelude Monad Model Settlement Bytes Access.
Open Scope Z_scope.

(** What jsonwebtoken reports; every other kind is treated alike. *)
Inductive JwtErrorKind := ExpiredSignature | InvalidSignature | OtherJwtError (text : string).

(** [encode(&Header::default(), claims, secret)] and
    [decode(token, secret, &Validation::default())] at an instant *)
Class JwtLib := {
  jwt_encode : string → Claims → result string string;
  jwt_decode : string → Z → string → result Claims JwtErrorKind;
}.

(** jsonwebtoken's [Validation::default().leeway], in seconds *)
Definition leeway : Z := 60.

(** What the library documents: a token is read back with its own secret until
    it expires, and with no other one. *)
Class JwtLaws `{JwtLib} := {
  decode_own s c tok t : jwt_encode s c = Ok tok →
    jwt_decode s t tok = if cl_exp c <? t - leeway then Err ExpiredSignature else Ok c;
  decode_other s s' c tok t : jwt_encode s c = Ok tok → s' ≠ s →
    jwt_decode s' t tok = Err InvalidSignature;
  decode_one_secret s s' t t' tok c c' :
    jwt_decode s t tok = Ok c → jwt_decode s' t' tok = Ok c' → s' = s;
}.

Module KeyRotation.

Definition KEY_MAX_AGE_DAYS : Z := 7.
Definition KEY_CLEANUP_DAYS : Z := 30.
Definition KEY_LENGTH : nat := 64.
(** [Duration::days(n)] and [num_days()], which truncates. *)
Definition days (n : Z) : Z := n * 86400.
Definition num_days (secs : Z) : Z := secs ÷ 86400.

Section rotation.
Context (random_bytes : nat → nat → bytes) (hex_encode : bytes → string).

(** The secret that the [i]th draw of the process makes. *)
Definition nth_secret (i : nat) : string := hex_encode (random_bytes KEY_LENGTH i).
Definition generate_secret {E} : M Platform string E := draw nth_secret.

Definition newer (x y : JwtKey) : bool := jk_created_at y <=? jk_created_at x.

Definition create_and_activate_key : M Platform JwtKey SqlxError :=
  let* secret := generate_secret in
  let* id := new_v4 in
  let* created_at := now in
  let key := mkJwtKey id secret true created_at in
  stmt (λ d, if existsb (is_jwt_key id) (jwt_keys d) then None
             else Some (tt, set_jwt_keys (jwt_keys d ++ [key]) d)) ;;;
  ret key.

Definition get_active_key : M Platform JwtKey SqlxError :=
  let* key := query (λ d, head (sort_by newer (sql_select jk_active (jwt_keys d)))) in
  match key with
  | Some k => ret k
  | None => create_and_activate_key
  end.

(** ORDER BY active DESC, created_at DESC *)
Definition active_first (x y : JwtKey) : bool :=
  match jk_active x, jk_active y with
  | true, false => true
  | false, true => false
  | _, _ => newer x y
  end.
Definition is_valid_at (t : Z) (k : JwtKey) : bool :=
  jk_active k || (t - days KEY_MAX_AGE_DAYS <=? jk_created_at k).
Definition get_validation_keys : M Platform (list JwtKey) SqlxError :=
  let* t := now in
  query (λ d, sort_by active_first (sql_select (is_valid_at t) (jwt_keys d))).

Definition deactivate (k : JwtKey) : JwtKey := mkJwtKey (jk_id k) (jk_key_secret k) false (jk_created_at k).

Definition rotate_if_needed : M Platform bool SqlxError :=
  let* active := get_active_key in
  let* t := now in
  let age := t - jk_created_at active in
  if num_days age <? KEY_MAX_AGE_DAYS then ret false else
  exec (λ d, set_jwt_keys (sql_update (is_jwt_key (jk_id active)) deactivate (jwt_keys d)) d) ;;;
  create_and_activate_key ;;;
  ret true.

Definition is_stale (cutoff : Z) (k : JwtKey) : bool := negb (jk_active k) && (jk_created_at k <? cutoff).
Definition cleanup_old_keys : M Platform nat SqlxError :=
  let* t := now in
  let cutoff := t - days KEY_CLEANUP_DAYS in
  stmt (λ d, Some (rows_affected (is_stale cutoff) (jwt_keys d),
                   set_jwt_keys (sql_delete (is_stale cutoff) (jwt_keys d)) d)).

(** One round of [run_rotation_worker], which it repeats every hour. *)
Definition rotation_round {E} : M Platform unit E :=
  attempt rotate_if_needed ;;; attempt cleanup_old_keys ;;; ret tt.

End rotation.
End KeyRotation.

Module Jwt.
Import KeyRotation.

Definition TOKEN_EXPIRY_SECS : Z := 86400.
Definition KEY_CACHE_TTL_SECS : Z := 60.

Inductive JwtError :=
| EncodingFailed (e : string)
| InvalidToken (e : string)
| Expired
| NoSigningKey.
Definition jwt_error_text (e : JwtError) : string :=
  match e with
  | EncodingFailed e => "Token encoding failed: " +:+ e
  | InvalidToken e => "Invalid token: " +:+ e
  | Expired => "Token expired"
  | NoSigningKey => "No signing key available"
  end.

Definition init_key_service {E} : M Platform unit E :=
  modify (λ d, if key_service d then d else set_active_key_cache None (set_key_service true d)).

Section jwt.
Context `{JwtLib} `{SqlxDisplay} (random_bytes : nat → nat → bytes) (hex_encode : bytes → string).
(** [jwt_secret] of the settings. *)
Context (jwt_secret : string).

Definition get_signing_secret : M Platform string JwtError :=
  let* initialized := reads key_service in
  if negb initialized then ret jwt_secret else
  let* cache := reads active_key_cache in
  let* t := now in
  match match cache with
        | Some cached => if t - ck_fetched_at cached <? KEY_CACHE_TTL_SECS then Some cached else None
        | None => None
        end with
  | Some cached => ret (ck_secret cached)
  | None =>
      let* key := map_err (λ e, EncodingFailed (sqlx_text e)) (get_active_key random_bytes hex_encode) in
      let* t := now in
      modify (set_active_key_cache (Some (mkCachedKey (jk_key_secret key) t))) ;;;
      ret (jk_key_secret key)
  end.

Definition get_validation_secrets {E} : M Platform (list string) E :=
  let* initialized := reads key_service in
  if initialized then
    let* keys := attempt get_validation_keys in
    match keys with
    | Ok keys => ret (jk_key_secret <$> keys)
    | Err _ => ret [jwt_secret]
    end
  else ret [jwt_secret].

Definition create_token (user_id : Uuid) (email : string) (permissions : list string)
  : M Platform string JwtError :=
  let* secret := get_signing_secret in
  let* t := now in
  let claims := mkClaims user_id email permissions (i64 (t + TOKEN_EXPIRY_SECS)) t None in
  match jwt_encode secret claims with
  | Ok token => ret token
  | Err e => throw (EncodingFailed e)
  end.

Fixpoint try_secrets (t : Z) (token : string) (secrets : list string) : result Claims JwtError :=
  match secrets with
  | [] => Err (InvalidToken "No valid signing key found")
  | secret :: rest =>
      match jwt_decode secret t token with
      | Ok claims => Ok claims
      | Err ExpiredSignature => Err Expired
      | Err _ => try_secrets t token rest
      end
  end.

Definition of_result {A E} (r : result A E) : M Platform A E :=
  match r with Ok a => ret a | Err x => throw x end.

Definition validate_token (token : string) : M Platform Claims JwtError :=
  let* secrets := get_validation_secrets in
  let* t := now in
  of_result (try_secrets t token secrets).

(** The text of the other errors is the library's. *)
Definition validate_token_sync (library_text : JwtErrorKind → string) (token : string)
  : M Platform Claims JwtError :=
  let* t := now in
  match jwt_decode jwt_secret t token with
  | Ok claims => ret claims
  | Err ExpiredSignature => throw Expired
  | Err e => throw (InvalidToken (library_text e))
  end.

End jwt.
End Jwt.
