(* ===== verification/JwtCorrect.v ===== *)
(** * Tokens live as long as their key, and no longer: proofs about [Jwt]

    Which tokens the platform accepts, and what a rotation of the signing keys
    does to the tokens that were handed out before it. *)
From stdpp Require Import gmap relations.
From S2P Require Import Prelude Monad Triples Model Settlement Bytes Text Access Jwt.
Import KeyRotation Jwt.
Open Scope Z_scope.

Section tokens.
Context `{JwtLaws} `{SqlxDisplay} (random_bytes : nat → nat → bytes) (hex_encode : bytes → string).
Context (jwt_secret : string).
#[local] Abbreviation nth_secret := (nth_secret random_bytes hex_encode).
#[local] Abbreviation create_and_activate_key := (create_and_activate_key random_bytes hex_encode).
#[local] Abbreviation get_active_key := (get_active_key random_bytes hex_encode).
#[local] Abbreviation rotate_if_needed := (rotate_if_needed random_bytes hex_encode).
#[local] Abbreviation rotation_round := (rotation_round random_bytes hex_encode (E := unit)).
#[local] Abbreviation create_token := (create_token random_bytes hex_encode jwt_secret).
#[local] Abbreviation validate_token := (validate_token jwt_secret).

(** ** Validation *)

Lemma try_secrets_own t tok c s secrets : jwt_encode s c = Ok tok → s ∈ secrets →
  try_secrets t tok secrets = if cl_exp c <? t - leeway then Err Expired else Ok c.
Proof.
  intros Htok. induction secrets as [|s' secrets IH]; intros Hs; [by apply not_elem_of_nil in Hs|]. simpl.
  destruct (decide (s' = s)) as [->|Hne].
  - rewrite (decode_own _ _ _ t Htok). by destruct (_ <? _).
  - rewrite (decode_other _ s' _ _ t Htok Hne). apply IH.
    by apply elem_of_cons in Hs as [->|Hs].
Qed.

Lemma try_secrets_other t tok c s secrets : jwt_encode s c = Ok tok → s ∉ secrets →
  try_secrets t tok secrets = Err (InvalidToken "No valid signing key found").
Proof.
  intros Htok. induction secrets as [|s' secrets IH]; intros Hs; [done|]. simpl.
  apply not_elem_of_cons in Hs as [Hne Hs].
  rewrite (decode_other _ s' _ _ t Htok) by done. by apply IH.
Qed.

(** The secrets a token is tried against: those of the keys that are valid. *)
Lemma validate_run tok e : key_service (env_db e) = true → faulty e = false →
  fst (validate_token tok e) =
  try_secrets (env_now e) tok
    (jk_key_secret <$> sort_by active_first (sql_select (is_valid_at (env_now e)) (jwt_keys (env_db e)))).
Proof.
  intros Hs Hf. unfold Jwt.validate_token, get_validation_secrets, get_validation_keys, query, stmt.
  cbv [bind attempt reads now ret]. rewrite Hs, Hf. unfold of_result. by destruct (try_secrets _ _ _).
Qed.

Lemma elem_of_valid_secrets s t keys :
  s ∈ jk_key_secret <$> sort_by active_first (sql_select (is_valid_at t) keys) ↔
  ∃ k, k ∈ keys ∧ is_valid_at t k = true ∧ jk_key_secret k = s.
Proof.
  rewrite list_elem_of_fmap. setoid_rewrite elem_of_sort_by. setoid_rewrite elem_of_sql_select. naive_solver.
Qed.


(** ** Retired secrets stay retired *)

(** No key with this secret is active or younger than [bound]. *)
Definition retired (s : string) (bound : Z) (d : Platform) : Prop :=
  ∀ k, k ∈ jwt_keys d → jk_key_secret k = s → jk_active k = false ∧ jk_created_at k ≤ bound.

Definition fresh (s : string) (e : Env Platform) : Prop := ∀ i, (env_drawn e ≤ i)%nat → nth_secret i ≠ s.

Definition keeps_retired (s : string) (e e' : Env Platform) : Prop :=
  (env_drawn e ≤ env_drawn e')%nat ∧ env_now e ≤ env_now e' ∧
  (fresh s e → ∀ bound, retired s bound (env_db e) → retired s bound (env_db e')).

#[local] Instance keeps_retired_preorder s : PreOrder (keeps_retired s).
Proof.
  split; [by intros e; unfold keeps_retired; split_and!; [lia|lia|auto]|].
  intros e1 e2 e3 (Hd1 & Hn1 & Hr1) (Hd2 & Hn2 & Hr2). split_and!; [lia..|].
  intros Hf bound Hr. apply Hr2; [|by apply Hr1]. intros i Hi. apply Hf. lia.
Qed.

(** A statement that leaves each row, deactivates it or deletes it. *)
Lemma keeps_retired_rows s e d :
  (∀ k', k' ∈ jwt_keys d → ∃ k, k ∈ jwt_keys (env_db e) ∧ jk_key_secret k' = jk_key_secret k ∧
     jk_created_at k' = jk_created_at k ∧ (jk_active k' = true → jk_active k = true)) →
  keeps_retired s e (with_db d (pop_fault e)).
Proof.
  intros Hrows. split_and!; simpl; [lia|lia|]. intros _ bound Hr k' Hk' Hs.
  destruct (Hrows _ Hk') as (k & Hk & Hsec & Hc & Ha). rewrite Hsec in Hs.
  destruct (Hr _ Hk Hs) as [Hia Hib]. split; [|by rewrite Hc].
  destruct (jk_active k') eqn:E; [|done]. rewrite Ha in Hia; done.
Qed.
Lemma keeps_retired_pop s e : keeps_retired s e (pop_fault e).
Proof. split_and!; simpl; [lia|lia|]. done. Qed.
Lemma keeps_retired_same s e d : jwt_keys d = jwt_keys (env_db e) → keeps_retired s e (with_db d e).
Proof. intros Hd. split_and!; simpl; [lia|lia|]. intros _ bound Hr. unfold retired in *. by rewrite Hd. Qed.

Lemma create_key_keeps s : respects (keeps_retired s) create_and_activate_key.
Proof.
  intros e. unfold KeyRotation.create_and_activate_key, generate_secret, draw, new_v4, now, stmt, ret, bind.
  cbn [env_db env_faults env_uuid env_drawn env_now]. unfold faulty. simpl env_faults.
  destruct (default false (head (env_faults e))); [|destruct (existsb _ _)]; simpl;
    (split_and!; simpl; [lia|lia|]); intros Hf bound Hr; [exact Hr..|].
  intros k Hk Hs. simpl in Hk. apply elem_of_app in Hk as [Hk| ->%list_elem_of_singleton]; [by apply Hr|].
  simpl in Hs. by destruct (Hf (env_drawn e)).
Qed.

#[local] Hint Resolve create_key_keeps : respects.

Lemma get_active_key_keeps s : respects (keeps_retired s) get_active_key.
Proof.
  unfold KeyRotation.get_active_key. apply respects_bind; [apply _| |].
  - apply respects_query, keeps_retired_pop.
  - intros [k|]; [by apply respects_ret, _|apply create_key_keeps].
Qed.

Lemma update_keeps s p : respects (keeps_retired s)
  (exec (λ d, set_jwt_keys (sql_update p deactivate (jwt_keys d)) d)).
Proof.
  apply respects_exec; [apply keeps_retired_pop|]. intros e. apply keeps_retired_rows. simpl.
  intros k' (k & Hk & ->)%elem_of_sql_update. exists k. by destruct (p k).
Qed.

Lemma rotate_keeps s : respects (keeps_retired s) rotate_if_needed.
Proof.
  unfold KeyRotation.rotate_if_needed. apply respects_bind; [apply _|apply get_active_key_keeps|]. intros k.
  respects. apply update_keeps.
Qed.

#[local] Hint Resolve get_active_key_keeps update_keeps rotate_keeps : respects.

Lemma cleanup_keeps s : respects (keeps_retired s) cleanup_old_keys.
Proof.
  unfold cleanup_old_keys. apply respects_bind; [apply _|by apply respects_now, _|]. intros t.
  apply respects_stmt; [apply keeps_retired_pop|]. intros e a d [= _ <-]. apply keeps_retired_rows. simpl.
  intros k' Hk'. exists k'. unfold sql_delete in Hk'. apply list_elem_of_In, filter_In in Hk' as [Hk' _].
  by apply list_elem_of_In in Hk'.
Qed.

#[local] Hint Resolve cleanup_keeps : respects.

(** ** Histories *)

(** What happens to keys and tokens between two instants. *)
Inductive key_op :=
| OCreate (user_id : Uuid) (email : string) (permissions : list string)
| OValidate (token : string)
| ORound.
Definition run_key_op (op : key_op) (e : Env Platform) : Env Platform :=
  match op with
  | OCreate u em ps => snd (create_token u em ps e)
  | OValidate tok => snd (validate_token tok e)
  | ORound => snd (rotation_round e)
  end.
Inductive key_world : Env Platform → Env Platform → Prop :=
| kw_op op e : key_world e (run_key_op op e)
| kw_other e e' : jwt_keys (env_db e') = jwt_keys (env_db e) → (env_drawn e ≤ env_drawn e')%nat →
    env_now e ≤ env_now e' → key_world e e'.

Lemma create_token_keeps s u em ps : respects (keeps_retired s) (create_token u em ps).
Proof.
  unfold Jwt.create_token, get_signing_secret. respects; apply respects_modify; intros e; by apply keeps_retired_same.
Qed.
Lemma validate_token_keeps s tok : respects (keeps_retired s) (validate_token tok).
Proof.
  unfold Jwt.validate_token, get_validation_secrets, get_validation_keys, of_result. respects; apply respects_query, keeps_retired_pop.
Qed.
Lemma rotation_round_keeps s : respects (keeps_retired s) rotation_round.
Proof. unfold KeyRotation.rotation_round. respects. Qed.

Lemma run_key_op_keeps s op e : keeps_retired s e (run_key_op op e).
Proof.
  destruct op; [apply create_token_keeps|apply validate_token_keeps|apply rotation_round_keeps].
Qed.

Lemma history_keeps s e e' : rtc key_world e e' → keeps_retired s e e'.
Proof.
  induction 1 as [e|e e1 e2 Hstep _ IH]; [reflexivity|]. etrans; [|exact IH].
  destruct Hstep as [op e|e e' Hk Hd Hn]; [apply run_key_op_keeps|].
  split_and!; [lia|lia|]. intros _ bound Hr. unfold retired in *. by rewrite Hk.
Qed.

Lemma signing_key_Ok e k e' : create_and_activate_key e = (Ok k, e') →
  k = mkJwtKey (jk_id k) (nth_secret (env_drawn e)) true (env_now e) ∧
  jwt_keys (env_db e') = jwt_keys (env_db e) ++ [k] ∧ env_now e' = env_now e.
Proof.
  intros Hrun. unfold KeyRotation.create_and_activate_key in Hrun.
  apply bind_Ok in Hrun as (s & e1 & Hs%draw_Ok & Hrun). destruct Hs as (-> & Hdb & Hnow & _).
  apply bind_Ok in Hrun as (id & e2 & Hid & Hrun). injection Hid as <- <-.
  apply bind_Ok in Hrun as (t & e3 & [-> ->]%now_Ok & Hrun).
  apply bind_Ok in Hrun as ([] & e4 & (_ & d & Hd & ->)%stmt_Ok & [-> ->]%ret_Ok). cbn in *.
  destruct (existsb _ _); [done|]. injection Hd as <-. cbn. by rewrite Hdb, Hnow.
Qed.

(** What a rotation leaves of the key it replaces. *)
Lemma rotate_retires e e1 k :
  head (sort_by newer (sql_select jk_active (jwt_keys (env_db e)))) = Some k →
  NoDup (map jk_key_secret (jwt_keys (env_db e))) → fresh (jk_key_secret k) e →
  rotate_if_needed e = (Ok true, e1) →
  retired (jk_key_secret k) (env_now e1 - days 7) (env_db e1).
Proof.
  intros Hk Hnd Hfresh Hrun. unfold KeyRotation.rotate_if_needed in Hrun.
  apply bind_Ok in Hrun as (k' & e0 & Hget & Hrun).
  assert (k' = k ∧ e0 = pop_fault e) as [-> ->].
  { unfold KeyRotation.get_active_key in Hget. apply bind_Ok in Hget as (o & e2 & (_ & -> & ->)%query_Ok & Hget).
    rewrite Hk in Hget. apply ret_Ok in Hget. naive_solver. }
  apply bind_Ok in Hrun as (t & e2 & [-> ->]%now_Ok & Hrun). cbn [env_now pop_fault] in Hrun.
  destruct (Z.ltb_spec (num_days (env_now e - jk_created_at k)) KEY_MAX_AGE_DAYS) as [|Hage]; [by run_inv|].
  apply bind_Ok in Hrun as ([] & e3 & (_ & ->)%exec_Ok & Hrun).
  apply bind_Ok in Hrun as (k2 & e4 & (Hk2 & Hkeys & Hnow)%signing_key_Ok & [_ ->]%ret_Ok).
  cbn in *. apply head_Some_elem_of, elem_of_sort_by, elem_of_sql_select in Hk as [Hin _].
  intros k' Hk' Hsec. rewrite Hkeys in Hk'. rewrite Hnow.
  apply elem_of_app in Hk' as [Hk'| ->%list_elem_of_singleton].
  2:{ rewrite Hk2 in Hsec. by destruct (Hfresh (env_drawn e)). }
  apply elem_of_sql_update in Hk' as (k0 & Hk0 & ->).
  assert (k0 = k) as ->.
  { eapply (NoDup_map_inj jk_key_secret); [done..|]. rewrite <- Hsec. by destruct (is_jwt_key _ _). }
  unfold is_jwt_key. rewrite N.eqb_refl. cbn. split; [done|].
  unfold num_days, days, KEY_MAX_AGE_DAYS in *. pose proof (Z.quot_rem' (env_now e - jk_created_at k) 86400).
  pose proof (Z.rem_bound_abs (env_now e - jk_created_at k) 86400).
  destruct (Z.le_gt_cases 0 (env_now e - jk_created_at k)).
  - pose proof (Z.rem_nonneg (env_now e - jk_created_at k) 86400). lia.
  - lia.
Qed.

(** C34: A rotation ends every token at once.  A key is replaced when it is seven
    days old, and that is the age up to which a retired key would still be
    accepted: from the next second on, through every history of tokens made and
    checked, rotations, clean-ups and foreign events, no token that was ever
    signed with the old key is accepted, although tokens are issued for a day
    (a flaw: the grace period the source speaks of is empty).  The same goes for
    the tokens the process goes on signing for a minute with the key it keeps in
    memory. *)
Theorem rotation_ends_every_token e e1 e2 k c tok :
  head (sort_by newer (sql_select jk_active (jwt_keys (env_db e)))) = Some k →
  NoDup (map jk_key_secret (jwt_keys (env_db e))) →
  (∀ i, (env_drawn e ≤ i)%nat → nth_secret i ≠ jk_key_secret k) →
  rotate_if_needed e = (Ok true, e1) → rtc key_world e1 e2 → env_now e1 < env_now e2 →
  key_service (env_db e2) = true → faulty e2 = false →
  jwt_encode (jk_key_secret k) c = Ok tok →
  fst (validate_token tok e2) = Err (InvalidToken "No valid signing key found").
Proof.
  intros Hk Hnd Hfresh Hrot Hh Hlater Hsvc Hf Htok.
  pose proof (rotate_retires _ _ _ Hk Hnd Hfresh Hrot) as Hr.
  pose proof (respects_run _ _ _ _ _ (rotate_keeps (jk_key_secret k)) Hrot) as (Hd & _ & _).
  destruct (history_keeps (jk_key_secret k) _ _ Hh) as (_ & _ & Hkeep).
  rewrite validate_run by done. eapply try_secrets_other; [done|].
  intros (k' & Hk' & Hv & Hsec)%elem_of_valid_secrets.
  destruct (Hkeep (λ i Hi, Hfresh i ltac:(lia)) _ Hr _ Hk' Hsec) as [Ha Hc].
  unfold is_valid_at, KEY_MAX_AGE_DAYS in Hv. rewrite Ha in Hv. simpl in Hv. apply Z.leb_le in Hv. lia.
Qed.
End tokens.

(** ** A small token library that obeys the laws

    It knows a few claims; a token is the number of its claims and the secret. *)
Module ToyJwt.
Section toy.
Context (known : list Claims).

Definition encode (s : string) (c : Claims) : result string string :=
  match list_find (c =.) known with
  | Some (i, _) => if bool_decide (length known < 1000)%nat then Ok (print_uint (Z.of_nat i) +:+ "/" +:+ s)
                   else Err "too many claims"%string
  | None => Err "unknown claims"%string
  end.
Definition decode (s : string) (t : Z) (tok : string) : result Claims JwtErrorKind :=
  match split_once tok with
  | Some (i, s') =>
      if String.eqb s' s then
        match n ← parse_uint 1000 i; known !! Z.to_nat n with
        | Some c => if cl_exp c <? t - leeway then Err ExpiredSignature else Ok c
        | None => Err (OtherJwtError "Json")
        end
      else Err InvalidSignature
  | None => Err (OtherJwtError "InvalidToken")
  end.
#[local] Instance lib : JwtLib := {| jwt_encode := encode; jwt_decode := decode |}.

Lemma encode_decode s s' c tok t : encode s c = Ok tok →
  decode s' t tok = if String.eqb s s' then if cl_exp c <? t - leeway then Err ExpiredSignature else Ok c
                    else Err InvalidSignature.
Proof.
  unfold encode, decode. destruct (list_find _ _) as [[i c']|] eqn:Hi; [|done].
  destruct (bool_decide_reflect (length known < 1000)%nat) as [Hlen|]; [|done]. intros [= <-].
  apply list_find_Some in Hi as (Hi & <- & _). pose proof (lookup_lt_Some _ _ _ Hi).
  rewrite split_once_app by apply print_no_slash. rewrite parse_print by lia. simpl. by rewrite Nat2Z.id, Hi.
Qed.

#[local] Instance laws : JwtLaws.
Proof.
  split.
  - intros s c tok t Htok. simpl. rewrite (encode_decode _ s _ _ t Htok). by rewrite String.eqb_refl.
  - intros s s' c tok t Htok Hne. simpl. rewrite (encode_decode _ s' _ _ t Htok).
    by destruct (String.eqb_spec s s') as [->|].
  - intros s s' t t' tok c c'. simpl. unfold decode. destruct (split_once tok) as [[i s0]|]; [|done].
    destruct (String.eqb_spec s0 s) as [->|]; [|done]. by destruct (String.eqb_spec s s').
Qed.
End toy.
End ToyJwt.

(** ** Witnesses *)

Module KeyExample.
Definition alice : Claims := mkClaims 7 "alice@x.io" ["trader"] 690000 603600 None.
#[export] Instance lib : JwtLib := ToyJwt.lib [alice].
#[export] Instance laws : JwtLaws := ToyJwt.laws [alice].
#[export] Instance display : SqlxDisplay := {| sqlx_text := λ _, "error"%string |}.
Definition random_bytes (n i : nat) : list Z := replicate n (Z.of_nat i).
Definition hex_encode (b : list Z) : string := "secret" +:+ print_uint (hd 0 b).
Definition old : JwtKey := mkJwtKey 1 "first" true 0.

Definition platform : Platform := mkPlatform empty_db [] [] [] [] [old] [] ∅ true None.
Definition at_time (t : Z) (p : Platform) : Env Platform := mkEnv p [] N.of_nat 2 t.
Definition rotated : Env Platform :=
  snd (KeyRotation.rotate_if_needed random_bytes hex_encode (at_time 604800 platform)).
Definition next_second : Env Platform := mkEnv (env_db rotated) [] N.of_nat (env_drawn rotated) 604801.
End KeyExample.
Import KeyExample.


(** The same token, a second after the key was replaced. *)
Lemma rotation_ends_every_token_witness :
  fst (KeyRotation.rotate_if_needed random_bytes hex_encode (at_time 604800 platform)) = Ok true ∧
  fst (validate_token "config" "0/first" next_second) = Err (InvalidToken "No valid signing key found").
Proof.
  split; [by vm_compute|].
  apply (rotation_ends_every_token random_bytes hex_encode "config" (at_time 604800 platform)
    rotated next_second old alice); [done|apply NoDup_singleton|by intros i _|by vm_compute| |done..].
  apply rtc_once, kw_other; done.
Defined.
