(* ===== verification/Users.v ===== *)
(** * Users and their accounts: [src/src/accounts/*.rs], [src/src/users/*.rs]
      and [src/src/auth/handler.rs]

    Passwords, registration and login, with the handlers that hand out tokens.
    bcrypt and the tables of the Unicode standard are parameters. *)
From Stdlib Require Import Ascii.
From stdpp Require Import gmap.
From S2P Require Import Prelude Monad Model Settlement Bytes Text Strings Access Http Rbac Jwt.
Open Scope Z_scope.

(** A service on the tables of [core], seen from the platform. *)
Definition on_core {A E} (m : M CoreDb A E) : M Platform A E := λ e,
  match m (mkEnv (core (env_db e)) (env_faults e) (env_uuid e) (env_drawn e) (env_now e)) with
  | (r, e') => (r, mkEnv (set_core (env_db e') (env_db e)) (env_faults e') (env_uuid e') (env_drawn e')
                     (env_now e'))
  end.

Module AccountService.
Inductive AccountError := AccountDbError (e : SqlxError).
Definition account_error_text `{SqlxDisplay} (e : AccountError) : string :=
  match e with AccountDbError e => "Database error: " +:+ sqlx_text e end.

(** PRIMARY KEY (id), user_id REFERENCES users(id) *)
Definition insert (account : Account) : M CoreDb unit SqlxError :=
  stmt (λ d,
    if existsb (λ a, (a_id a =? a_id account)%N) (accounts d)
       || negb (existsb (λ u, (u_id u =? a_user_id account)%N) (users d))
    then None else Some (tt, set_accounts (accounts d ++ [account]) d)).
Definition find_by_id (id : Uuid) : M CoreDb (option Account) SqlxError :=
  query (λ d, sql_one (λ a, (a_id a =? id)%N) (accounts d)).
Definition find_by_user_id (user_id : Uuid) : M CoreDb (list Account) SqlxError :=
  query (λ d, sql_select (λ a, (a_user_id a =? user_id)%N) (accounts d)).

Definition create_default_account (user_id : Uuid) : M CoreDb Account AccountError :=
  let* id := new_v4 in
  let* t := now in
  let account := mkAccount id user_id Spot t in
  map_err AccountDbError (insert account) ;;;
  ret account.
Definition create_account (user_id : Uuid) : M CoreDb Account AccountError := create_default_account user_id.
Definition get_account (account_id : Uuid) : M CoreDb (option Account) AccountError :=
  map_err AccountDbError (find_by_id account_id).
Definition get_accounts (user_id : Uuid) : M CoreDb (list Account) AccountError :=
  map_err AccountDbError (find_by_user_id user_id).

(** The handlers of [accounts/handler.rs] *)
Definition create_account_handler `{SqlxDisplay} (user_id : Uuid) : M CoreDb (Z * Account) (Z * string) :=
  let* acc := map_err (λ e, (INTERNAL_SERVER_ERROR, account_error_text e)) (create_account user_id) in
  ret (CREATED, acc).
Definition get_accounts_handler `{SqlxDisplay} (user_id : Uuid) : M CoreDb (list Account) (Z * string) :=
  map_err (λ e, (INTERNAL_SERVER_ERROR, account_error_text e)) (get_accounts user_id).
End AccountService.

(** [char]'s classes and [str::to_lowercase] beyond ASCII *)
Class Unicode := {
  unicode_uppercase : Z → bool;
  unicode_lowercase : Z → bool;
  unicode_alphanumeric : Z → bool;
  unicode_to_lowercase : string → string;
}.

Module Password.
Definition MIN_LENGTH : nat := 12.
Definition COMMON_PASSWORDS : list string :=
  ["password1234"; "123456789012"; "qwertyuiopas"; "abcdefghijkl";
   "letmein12345"; "welcome12345"; "administrator"; "changeme1234";
   "iloveyou1234"; "trustno1test"; "passw0rd1234"; "p@ssword1234";
   "admin1234567"; "master123456"; "dragon123456"; "monkey123456";
   "shadow123456"; "sunshine1234"; "princess1234"; "football1234";
   "charlie12345"; "michael12345"; "password!234"; "1234567890ab";
   "qwerty123456"; "abc123456789"]%string.

(** [s.chars()]: the code points of valid UTF-8 *)
Fixpoint chars (s : bytes) : list Z :=
  match s with
  | [] => []
  | b0 :: s1 =>
      if b0 <? 128 then b0 :: chars s1
      else match s1 with
           | [] => []
           | b1 :: s2 =>
               if b0 <? 224 then ((b0 mod 32) * 64 + b1 mod 64) :: chars s2
               else match s2 with
                    | [] => []
                    | b2 :: s3 =>
                        if b0 <? 240 then ((b0 mod 16) * 4096 + (b1 mod 64) * 64 + b2 mod 64) :: chars s3
                        else match s3 with
                             | [] => []
                             | b3 :: s4 => ((b0 mod 8) * 262144 + (b1 mod 64) * 4096 + (b2 mod 64) * 64
                                            + b3 mod 64) :: chars s4
                             end
                    end
           end
  end.

Section password.
Context `{Unicode}.

Definition in_range (a b c : Z) : bool := (a <=? c) && (c <=? b).
Definition is_ascii_digit (c : Z) : bool := in_range 48 57 c.
Definition is_uppercase (c : Z) : bool := if c <? 128 then in_range 65 90 c else unicode_uppercase c.
Definition is_lowercase (c : Z) : bool := if c <? 128 then in_range 97 122 c else unicode_lowercase c.
Definition is_alphanumeric (c : Z) : bool :=
  if c <? 128 then is_ascii_digit c || in_range 65 90 c || in_range 97 122 c else unicode_alphanumeric c.
Definition lowercase (s : string) : string := if is_ascii s then to_lowercase s else unicode_to_lowercase s.

Definition local_part (email : string) : string := hd ""%string (split_on "@" (lowercase email)).

Definition validate (password email : string) : result unit (list string) :=
  let cs := chars (as_bytes password) in
  let check (b : bool) (message : string) : list string := if b then [message] else [] in
  let errors :=
    check (String.length password <? MIN_LENGTH)%nat "Must be at least 12 characters"
    ++ check (negb (existsb is_uppercase cs)) "Must contain at least 1 uppercase letter"
    ++ check (negb (existsb is_lowercase cs)) "Must contain at least 1 lowercase letter"
    ++ check (negb (existsb is_ascii_digit cs)) "Must contain at least 1 number"
    ++ check (negb (existsb (λ c, negb (is_alphanumeric c)) cs)) "Must contain at least 1 special character"
    ++ check (negb (String.eqb (local_part email) "") && (3 <=? String.length (local_part email))%nat
              && contains (local_part email) (lowercase password)) "Must not contain your email or username"
    ++ check (existsb (String.eqb (lowercase password)) COMMON_PASSWORDS) "This password is too common" in
  match errors with [] => Ok tt | _ => Err errors end.
End password.
End Password.

(** The crate bcrypt: the salt of the [i]th draw, and its documented law. *)
Class Bcrypt := {
  bcrypt_hash : nat → string → result string string;
  bcrypt_verify : string → string → result bool string;
}.
(** bcrypt sees no more than 72 bytes of a password. *)
Definition seen_by_bcrypt (password : string) : bytes := take 72 (as_bytes password).
Class BcryptLaws `{Bcrypt} := {
  verify_hash i pw h pw' : bcrypt_hash i pw = Ok h →
    bcrypt_verify pw' h = Ok (bool_decide (seen_by_bcrypt pw' = seen_by_bcrypt pw));
}.

Module UserService.
Record Credentials := mkCredentials { cd_email : string; cd_password : string }.
Record AuthResponse := mkAuthResponse { au_user_id : Uuid; au_email : string; au_message : string }.

Inductive UserError :=
| EmailTaken
| WeakPassword (errs : list string)
| InvalidCredentials
| UserHashError (e : string)
| UserDbError (e : SqlxError)
| UserAccountError (e : string).

Section service.
Context `{SqlxDisplay} `{Unicode} `{Bcrypt}.

Definition user_error_text (e : UserError) : string :=
  match e with
  | EmailTaken => "Email already registered"
  | WeakPassword errs => "Weak password: " +:+ join "; " errs
  | InvalidCredentials => "Invalid email or password"
  | UserHashError e => "Password hash error: " +:+ e
  | UserDbError e => "Database error: " +:+ sqlx_text e
  | UserAccountError e => "Account creation error: " +:+ e
  end.

(** PRIMARY KEY (id), UNIQUE (email) *)
Definition insert (user : User) : M CoreDb unit SqlxError :=
  stmt (λ d,
    if existsb (λ u, (u_id u =? u_id user)%N || String.eqb (u_email u) (u_email user)) (users d)
    then None else Some (tt, set_users (users d ++ [user]) d)).
Definition find_by_id (id : Uuid) : M CoreDb (option User) SqlxError :=
  query (λ d, sql_one (λ u, (u_id u =? id)%N) (users d)).
Definition find_by_email (email : string) : M CoreDb (option User) SqlxError :=
  query (λ d, sql_one (λ u, String.eqb (u_email u) email) (users d)).

Definition register (req : Credentials) : M CoreDb AuthResponse UserError :=
  match Password.validate (cd_password req) (cd_email req) with
  | Err violations => throw (WeakPassword violations)
  | Ok _ =>
      let* existing := map_err UserDbError (find_by_email (cd_email req)) in
      match existing with
      | Some _ => throw EmailTaken
      | None =>
          let* hashed := draw (λ i, bcrypt_hash i (cd_password req)) in
          match hashed with
          | Err e => throw (UserHashError e)
          | Ok password_hash =>
              let* t := now in
              let* id := new_v4 in
              let user := mkUser id (cd_email req) password_hash t t in
              map_err UserDbError (insert user) ;;;
              map_err (λ e, UserAccountError (AccountService.account_error_text e))
                (AccountService.create_default_account id) ;;;
              ret (mkAuthResponse id (cd_email req) "Registration successful")
          end
      end
  end.

Definition login (req : Credentials) : M CoreDb AuthResponse UserError :=
  let* found := map_err UserDbError (find_by_email (cd_email req)) in
  let* user := of_option InvalidCredentials found in
  match bcrypt_verify (cd_password req) (u_password_hash user) with
  | Err e => throw (UserHashError e)
  | Ok valid =>
      if negb valid then throw InvalidCredentials
      else ret (mkAuthResponse (u_id user) (u_email user) "Login successful")
  end.

Definition get_user (id : Uuid) : M CoreDb (option User) UserError := map_err UserDbError (find_by_id id).

(** [users/handler.rs] and [auth/handler.rs] have the same [map_error]. *)
Definition map_error (e : UserError) : Z * string :=
  match e with
  | EmailTaken => (CONFLICT, user_error_text e)
  | WeakPassword _ => (BAD_REQUEST, user_error_text e)
  | InvalidCredentials => (UNAUTHORIZED, user_error_text e)
  | UserHashError _ | UserDbError _ | UserAccountError _ => (INTERNAL_SERVER_ERROR, user_error_text e)
  end.
Definition register_handler (req : Credentials) : M CoreDb (Z * AuthResponse) (Z * string) :=
  let* resp := map_err map_error (register req) in ret (CREATED, resp).
Definition login_handler (req : Credentials) : M CoreDb AuthResponse (Z * string) :=
  map_err map_error (login req).
Definition get_user_handler (id : Uuid) : M CoreDb User (Z * string) :=
  let* found := map_err map_error (get_user id) in
  of_option (NOT_FOUND, "User not found"%string) found.
End service.
End UserService.

(** [auth/handler.rs]: the handlers that answer with a token. *)
Module AuthHandlers.
Import UserService RbacService Jwt.
Record TokenResponse := mkTokenResponse {
  to_token : string; to_user_id : string; to_email : string; to_roles : list string;
}.

Section handlers.
Context `{JwtLib} `{SqlxDisplay} `{UuidText} `{Unicode} `{Bcrypt}.
Context (random_bytes : nat → nat → bytes) (hex_encode : bytes → string) (jwt_secret : string).

(** Both handlers end alike. *)
Definition token_response (auth : AuthResponse) (roles : list string) : M Platform TokenResponse (Z * string) :=
  let* token := map_err (λ e, (INTERNAL_SERVER_ERROR, jwt_error_text e))
    (create_token random_bytes hex_encode jwt_secret (au_user_id auth) (au_email auth) roles) in
  ret (mkTokenResponse token (uuid_text (au_user_id auth)) (au_email auth) roles).

Definition register (req : Credentials) : M Platform (Z * TokenResponse) (Z * string) :=
  let* auth := map_err map_error (on_core (UserService.register req)) in
  attempt (assign_role (au_user_id auth) "trader") ;;;
  let* roles := attempt (get_user_permission_strings (au_user_id auth)) in
  let roles := match roles with Ok l => l | Err _ => ["trader"%string] end in
  let* r := token_response auth roles in
  ret (CREATED, r).

Definition login (req : Credentials) : M Platform TokenResponse (Z * string) :=
  let* auth := map_err map_error (on_core (UserService.login req)) in
  let* roles := attempt (get_user_role_names (au_user_id auth)) in
  let roles := match roles with Ok l => l | Err _ => [] end in
  token_response auth roles.
End handlers.
End AuthHandlers.

(** [rbac/mod.rs] *)
Module RbacHandlers.
Import RbacService.
Section handlers.
Context `{SqlxDisplay}.
Definition assign_role_handler (user_id : Uuid) (role_name : string) : M Platform (Z * string) (Z * string) :=
  map_err (λ e, (BAD_REQUEST, rbac_error_text e)) (assign_role user_id role_name) ;;;
  ret (OK, "Role assigned"%string).
Definition get_user_roles_handler (user_id : Uuid) : M Platform (list Role) (Z * string) :=
  map_err (λ e, (INTERNAL_SERVER_ERROR, rbac_error_text e)) (get_user_roles user_id).
Definition list_roles_handler : M Platform (list Role) (Z * string) :=
  map_err (λ e, (INTERNAL_SERVER_ERROR, rbac_error_text e)) list_roles.
End handlers.
End RbacHandlers.

(** ** Who registered can log in *)

Import UserService.
Open Scope Z_scope.

Section users.
Context `{SqlxDisplay} `{Unicode} `{BcryptLaws}.

(** What a registration that succeeds went through. *)
Lemma register_Ok req resp e e' : UserService.register req e = (Ok resp, e') →
  ∃ u a, users (env_db e') = users (env_db e) ++ [u] ∧ accounts (env_db e') = accounts (env_db e) ++ [a] ∧
    u_id u = au_user_id resp ∧ u_email u = cd_email req ∧ au_email resp = cd_email req ∧
    a_user_id a = u_id u ∧
    bcrypt_hash (env_drawn e) (cd_password req) = Ok (u_password_hash u) ∧
    (∀ u', u' ∈ users (env_db e) → u_email u' ≠ cd_email req ∧ u_id u' ≠ u_id u).
Proof.
  unfold UserService.register. destruct (Password.validate _ _) as [_|?]; [|by intros ?%throw_Ok].
  intros Hrun. apply bind_Ok in Hrun as (o & e1 & (_ & -> & ->)%map_err_Ok%query_Ok & Hrun).
  destruct (sql_one _ _) eqn:Hone; [by apply throw_Ok in Hrun|].
  apply bind_Ok in Hrun as (h & e2 & (-> & Hdb & Hnow & _)%draw_Ok & Hrun).
  destruct (bcrypt_hash _ _) as [hash|] eqn:Hhash; [|by apply throw_Ok in Hrun].
  apply bind_Ok in Hrun as (t & e3 & [-> ->]%now_Ok & Hrun).
  apply bind_Ok in Hrun as (id & e4 & Hid & Hrun). injection Hid as <- <-.
  apply bind_Ok in Hrun as ([] & e5 & (_ & d & Hd & ->)%map_err_Ok%stmt_Ok & Hrun).
  destruct (existsb _ _) eqn:Hex in Hd; [done|]. injection Hd as <-.
  apply bind_Ok in Hrun as (a & e6 & Ha%map_err_Ok & [-> ->]%ret_Ok).
  unfold AccountService.create_default_account in Ha.
  apply bind_Ok in Ha as (aid & e7 & Hid & Ha). injection Hid as <- <-.
  apply bind_Ok in Ha as (t & e8 & [-> ->]%now_Ok & Ha).
  apply bind_Ok in Ha as ([] & e9 & (_ & d & Hd & ->)%map_err_Ok%stmt_Ok & [-> ->]%ret_Ok).
  destruct (_ || _) in Hd; [done|]. injection Hd as <-. cbn in *. rewrite Hdb in *. cbn in *.
  eexists _, _. split_and!; [reflexivity|reflexivity|done..|].
  intros u Hu. pose proof (existsb_false_elem _ _ _ Hex Hu) as [Hi Hm]%orb_false_iff. cbn in *.
  apply N.eqb_neq in Hi. by apply String.eqb_neq in Hm.
Qed.

(** C35: Who registered can log in, and nobody else as them: as long as the
    user's row is there, a login with the registered address answers with the
    registered user exactly when the password agrees with the registered one in
    the 72 bytes bcrypt looks at, and is refused otherwise; and the user has an
    account. *)
Theorem registered_users_log_in req resp e e1 e2 pw :
  UserService.register req e = (Ok resp, e1) →
  rows_le eq (users (env_db e1)) (users (env_db e2)) → NoDup (map u_email (users (env_db e2))) →
  faulty e2 = false →
  fst (UserService.login (mkCredentials (cd_email req) pw) e2) =
    (if bool_decide (seen_by_bcrypt pw = seen_by_bcrypt (cd_password req))
     then Ok (mkAuthResponse (au_user_id resp) (cd_email req) "Login successful")
     else Err InvalidCredentials) ∧
  ∃ a, a ∈ accounts (env_db e1) ∧ a_user_id a = au_user_id resp.
Proof.
  intros Hrun Hle Hnd Hf. apply register_Ok in Hrun as (u & a & Hu & Ha & Hid & Hem & _ & Hau & Hhash & _).
  split.
  - assert (users (env_db e2) !! length (users (env_db e)) = Some u) as Hu2.
    { destruct (Hle (length (users (env_db e))) u) as (u' & Hu' & <-); [|done].
      rewrite Hu. by apply list_lookup_middle. }
    apply list_elem_of_lookup_2 in Hu2. unfold UserService.login, find_by_email.
    assert (sql_one (λ u, String.eqb (u_email u) (cd_email req)) (users (env_db e2)) = Some u) as Hone.
    { apply (sql_one_unique u_email); [done| |done|by rewrite Hem, String.eqb_refl].
      intros u' _ E%String.eqb_eq. congruence. }
    unfold bind, map_err, query, stmt. rewrite Hf. cbn [cd_email cd_password]. rewrite Hone. cbn [of_option ret].
    unfold of_option, ret. rewrite (verify_hash _ _ _ pw Hhash). rewrite Hid, Hem. by destruct (bool_decide _).
  - exists a. rewrite Ha, Hau. split; [|done]. apply elem_of_app. right. by left.
Qed.
End users.

(** ** A concrete user *)

Module UserExample.
#[export] Instance display : SqlxDisplay := {| sqlx_text := λ _, "error"%string |}.
#[export] Instance ascii_only : Unicode :=
  {| unicode_uppercase := λ _, false; unicode_lowercase := λ _, false; unicode_alphanumeric := λ _, true;
     unicode_to_lowercase := id |}.
(** A hash that hides nothing, of what bcrypt sees. *)
#[export] Instance bcrypt : Bcrypt :=
  {| bcrypt_hash := λ _ pw, Ok (text_of (seen_by_bcrypt pw));
     bcrypt_verify := λ pw h, Ok (String.eqb (text_of (seen_by_bcrypt pw)) h) |}.

Lemma text_of_inj l l' : (∀ b, b ∈ l → 0 ≤ b < 256) → (∀ b, b ∈ l' → 0 ≤ b < 256) → text_of l = text_of l' → l = l'.
Proof.
  assert (∀ l, (∀ b, b ∈ l → 0 ≤ b < 256) → as_bytes (text_of l) = l) as Hr.
  { clear. intros l. induction l as [|b l IH]; intros Hl; [done|].
    change (Z.of_nat (nat_of_ascii (chr b)) :: as_bytes (text_of l) = b :: l).
    rewrite IH by (intros; apply Hl; by right). f_equal. unfold chr.
    specialize (Hl b (list_elem_of_here _ _)). rewrite nat_ascii_embedding; lia. }
  intros Hl Hl' E. by rewrite <- (Hr l), <- (Hr l'), E.
Qed.
Lemma seen_bytes pw b : b ∈ seen_by_bcrypt pw → 0 ≤ b < 256.
Proof.
  unfold seen_by_bcrypt, as_bytes. intros Hb. apply (subseteq_take 72) in Hb.
  apply list_elem_of_fmap in Hb as (c & -> & _). pose proof (nat_ascii_bounded c). lia.
Qed.
#[export] Instance bcrypt_laws : BcryptLaws.
Proof.
  split. intros i pw h pw' [= <-]. simpl. f_equal. apply eq_true_iff_eq.
  rewrite String.eqb_eq, bool_decide_eq_true. split; [|by intros ->].
  apply text_of_inj; apply seen_bytes.
Qed.

Definition alice : Credentials := mkCredentials "alice@x.io" "C0mpl3x!Pass#".
Definition e : Env CoreDb := mkEnv empty_db [] N.of_nat 0 100.
Definition registered := UserService.register alice e.
End UserExample.
Import UserExample.

Lemma registered_users_log_in_witness :
  fst (UserService.login alice (snd registered)) = Ok (mkAuthResponse 1 "alice@x.io" "Login successful") ∧
  fst (UserService.login (mkCredentials "alice@x.io" "C0mpl3x!Pass") (snd registered)) = Err InvalidCredentials.
Proof.
  assert (fst registered = Ok (mkAuthResponse 1 "alice@x.io" "Registration successful")) as Hr by (by vm_compute).
  destruct registered as [r e1] eqn:Hrun. cbn [fst snd] in *. subst r.
  assert (users (env_db e1) = [mkUser 1 "alice@x.io" "C0mpl3x!Pass#" 100 100] ∧ faulty e1 = false) as [Hu Hf].
  { vm_compute in Hrun. injection Hrun as <-. done. }
  assert (rows_le eq (users (env_db e1)) (users (env_db e1))) as Hle by apply rows_le_refl, _.
  split.
  - destruct (registered_users_log_in alice _ e e1 e1 "C0mpl3x!Pass#" Hrun Hle) as [Hl _];
      [rewrite Hu; apply NoDup_singleton|done|exact Hl].
  - destruct (registered_users_log_in alice _ e e1 e1 "C0mpl3x!Pass" Hrun Hle) as [Hl _];
      [rewrite Hu; apply NoDup_singleton|done|exact Hl].
Defined.

(** A registration is not one transaction: when the INSERT of the account fails,
    the user stays, without an account, and can never register again. *)
Theorem registration_is_not_atomic :
  let outage := mkEnv empty_db [false; false; true] N.of_nat 0 100 in
  let '(r, e1) := UserService.register alice outage in
  r = Err (UserAccountError "Database error: error") ∧ accounts (env_db e1) = [] ∧
  fst (UserService.register alice e1) = Err EmailTaken.
Proof. by vm_compute. Qed.
