(* ===== verification/Guards.v ===== *)
(** * The layers in front of the handlers: [src/src/auth/middleware.rs],
      [src/src/csrf/*.rs], [src/src/idempotency/*.rs], [src/src/signing/*.rs]
      and [src/src/gateway/{auth,proxy}.rs]

    Each layer is a function from the handler behind it to a handler; [main.rs]
    and the gateway's [router.rs] say in which order they are put on.  JSON
    texts, HMAC, the HTTP client and the parser of header values are parameters;
    logs are left out. *)
From Stdlib Require Import Ascii.
From stdpp Require Import gmap.
From S2P Require Import Prelude Monad Model Settlement Bytes Text Strings Access Http Rbac ApiKeys Jwt.
Open Scope Z_scope.

Module Auth.
Section auth.
Context `{JwtLib} (jwt_secret : string).

Definition bearer (req : Request) : option string := header "authorization" req ≫= strip_prefix "Bearer ".

Definition require_auth (next : Handler) : Handler := λ request,
  match bearer request with
  | None => ret (respond UNAUTHORIZED "Missing Authorization header")
  | Some token =>
      let* r := attempt (Jwt.validate_token jwt_secret token) in
      match r with
      | Ok claims => next (with_claims claims request)
      | Err Jwt.Expired => ret (respond UNAUTHORIZED "Token expired")
      | Err _ => ret (respond UNAUTHORIZED "Invalid token")
      end
  end.
End auth.
End Auth.

Module Csrf.
Definition TOKEN_TTL_SECS : Z := 3600.
Definition CSRF_HEADER : string := "x-csrf-token".
Definition CSRF_COOKIE : string := "csrf_token".
Definition REDIS_PREFIX : string := "csrf:".
Definition csrf_key (token : string) : string := REDIS_PREFIX +:+ token.

Section csrf.
Context `{UuidText} (csrf_json : string → bytes).

Definition generate_token {E} (user_id : string) : M Platform string E :=
  let* id := new_v4 in
  let token := uuid_text id in
  let* t := now in
  attempt (exec (set_ex (csrf_key token) user_id TOKEN_TTL_SECS t)) ;;;
  ret token.

Definition validate_token {E} (token : string) : M Platform (option string) E :=
  let* t := now in
  let* got := attempt (query (redis_get (csrf_key token) t)) in
  match got with
  | Ok (Some user_id) => attempt (exec (redis_del (csrf_key token))) ;;; ret (Some user_id)
  | _ => ret None
  end.

(** The value of the first cookie whose name starts like ours. *)
Fixpoint find_cookie (cookies : list string) : option string :=
  match cookies with
  | [] => None
  | c :: r =>
      let c := trim c in
      if String.prefix CSRF_COOKIE c
      then match split_once_at "=" c with Some (_, v) => Some v | None => find_cookie r end
      else find_cookie r
  end.
Definition cookie_token (req : Request) : option string :=
  header "cookie" req ≫= λ cookies, find_cookie (split_on ";" cookies).

Definition is_safe (m : Method) : bool := match m with GET | HEAD | OPTIONS => true | _ => false end.

Definition call (inner : Handler) : Handler := λ req,
  if is_safe (rq_method req) then inner req else
  match header CSRF_HEADER req with
  | None => ret (respond FORBIDDEN "Missing X-CSRF-Token header")
  | Some token =>
      if match cookie_token req with Some cookie => negb (String.eqb cookie token) | None => false end
      then ret (respond FORBIDDEN "CSRF token mismatch") else
      let* found := validate_token token in
      match found with
      | None => ret (respond FORBIDDEN "Invalid or expired CSRF token")
      | Some user_id_from_token =>
          if match header "x-user-id" req with
             | Some request_user => negb (String.eqb request_user user_id_from_token)
                                    && negb (String.eqb user_id_from_token "anonymous")
             | None => false
             end
          then ret (respond FORBIDDEN "CSRF token not issued for this user")
          else inner req
      end
  end.

Definition get_csrf_token : Handler := λ req,
  let user_id := default "anonymous"%string (header "x-user-id" req) in
  let* token := generate_token user_id in
  let cookie := ("csrf_token=" +:+ token +:+ "; Path=/; HttpOnly; SameSite=Strict; Max-Age=3600")%string in
  ret (mkResponse OK [("content-type", Visible "application/json"); ("set-cookie", Visible cookie)]
         (csrf_json token)).
End csrf.
End Csrf.

Module Idempotency.

Definition lookup {E} (key : string) : M Platform (option CachedResponse) E :=
  let* r := attempt (query (λ d, sql_one (λ c, String.eqb (cr_key c) key) (idempotency_keys d))) in
  ret (match r with Ok o => o | Err _ => None end).

(** ON CONFLICT (key) DO NOTHING *)
Definition store (key user_id request_hash : string) (status_code : Z) (response_body : string)
  : M Platform unit SqlxError :=
  exec (λ d,
    if existsb (λ c, String.eqb (cr_key c) key) (idempotency_keys d) then d
    else set_idempotency_keys
           (idempotency_keys d ++ [mkCachedResponse key user_id request_hash status_code response_body]) d).

(** [StatusCode::from_u16] takes 100 to 999. *)
Definition status_from_u16 (n : Z) : option Z := if (100 <=? n) && (n <? 1000) then Some n else None.
Definition u16 (n : Z) : Z := wrap_u 16 n.

Definition build_cached_response (cached : CachedResponse) : Response :=
  mkResponse (default INTERNAL_SERVER_ERROR (status_from_u16 (u16 (cr_status_code cached))))
    [("content-type", Visible "application/json"); ("x-idempotent-replay", Visible "true")]
    (as_bytes (cr_response_body cached)).
Definition conflict_response : Response :=
  respond UNPROCESSABLE_ENTITY "Idempotency key already used for a different request".

Definition is_mutating (m : Method) : bool := match m with POST | PUT | PATCH => true | _ => false end.
Definition request_hash (req : Request) : string :=
  method_text (rq_method req) +:+ ":" +:+ rq_path req +:+ ":" +:+ default ""%string (header "x-user-id" req).

Definition call (inner : Handler) : Handler := λ req,
  if negb (is_mutating (rq_method req)) then inner req else
  match header "idempotency-key" req with
  | None => inner req
  | Some idem_key =>
      let user_id := default ""%string (header "x-user-id" req) in
      let* found := lookup idem_key in
      match found with
      | Some cached =>
          if negb (String.eqb (cr_request_hash cached) (request_hash req))
          then ret conflict_response
          else ret (build_cached_response cached)
      | None =>
          let* response := inner req in
          let status := rs_status response in
          let body_bytes := default [] (to_bytes (rs_body response)) in
          let body_str := from_utf8_lossy body_bytes in
          attempt (store idem_key user_id (request_hash req) status body_str) ;;;
          ret (mkResponse (rs_status response) (rs_headers response) body_bytes)
      end
  end.
End Idempotency.

Module Signing.
Definition HEADER_SIGNATURE : string := "x-signature".
Definition HEADER_TIMESTAMP : string := "x-timestamp".
Definition HEADER_NONCE : string := "x-nonce".
Definition MAX_AGE_SECS : Z := 30.
Definition NONCE_TTL_SECS : Z := 60.
Definition NONCE_PREFIX : string := "nonce:".
Definition nonce_key (nonce : string) : string := NONCE_PREFIX +:+ nonce.

(** [i64::abs] wraps in release builds. *)
Definition i64_abs (n : Z) : Z := i64 (Z.abs n).

Section signing.
Context `{UuidText} (hmac : bytes → bytes → bytes) (hex_encode : bytes → string).

Definition bar : bytes := [124].
Definition signed_message (method path : string) (body : bytes) (timestamp : Z) (nonce : string) : bytes :=
  as_bytes method ++ bar ++ as_bytes path ++ bar ++ body ++ bar ++ as_bytes (print_int timestamp)
  ++ bar ++ as_bytes nonce.
Definition compute_signature (secret method path : string) (body : bytes) (timestamp : Z) (nonce : string)
  : string := hex_encode (hmac (as_bytes secret) (signed_message method path body timestamp nonce)).

Definition sign_request {E} (secret method path : string) (body : bytes) : M Platform (string * string * string) E :=
  let* timestamp := now in
  let* id := new_v4 in
  let nonce := uuid_text id in
  let signature := compute_signature secret method path body timestamp nonce in
  ret (signature, print_int timestamp, nonce).

(** The layer of [verifier.rs]. *)
Definition call (secret : string) (inner : Handler) : Handler := λ req,
  match header HEADER_SIGNATURE req, header HEADER_TIMESTAMP req, header HEADER_NONCE req with
  | Some signature, Some timestamp_str, Some nonce =>
      match parse_i64 timestamp_str with
      | None => ret (respond BAD_REQUEST "Invalid timestamp")
      | Some timestamp =>
          let* t := now in
          if MAX_AGE_SECS <? i64_abs (i64 (t - timestamp))
          then ret (respond UNAUTHORIZED "Request too old") else
          let* exists_ := attempt (query (λ d, match redis_get (nonce_key nonce) t d with
                                               | Some _ => true | None => false end)) in
          if match exists_ with Ok b => b | Err _ => false end
          then ret (respond UNAUTHORIZED "Nonce already used") else
          attempt (exec (set_ex (nonce_key nonce) "1" NONCE_TTL_SECS t)) ;;;
          let body_bytes := default [] (to_bytes (rq_body req)) in
          let expected := compute_signature secret (method_text (rq_method req)) (rq_path req) body_bytes
                            timestamp nonce in
          if negb (String.eqb signature expected)
          then ret (respond UNAUTHORIZED "Invalid signature")
          else inner (with_body body_bytes req)
      end
  | _, _, _ => ret (respond UNAUTHORIZED "Missing signature headers")
  end.
End signing.
End Signing.

Module Gateway.
Section gateway.
Context `{JwtLib} `{UuidText} (jwt_secret signing_secret : string).
Context (hmac : bytes → bytes → bytes) (sha256 : bytes → bytes) (hex_encode : bytes → string).
(** [str::parse::<HeaderValue>()] *)
Context (parse_header : string → option HeaderValue).
Context (library_text : JwtErrorKind → string).

Definition API_KEY_HEADER : string := "x-api-key".

(** [headers.insert(name, text.parse().unwrap())] *)
Definition insert_text (name text : string) (req : Request) : M Platform Request Panic :=
  match parse_header text with
  | Some v => ret (with_headers (insert_header name v (rq_headers req)) req)
  | None => throw (Panicked "called `Result::unwrap()` on an `Err` value: InvalidHeaderValue")
  end.

Definition validate_auth (next : Handler) : Handler := λ request,
  match Auth.bearer request with
  | Some token =>
      let* r := attempt (Jwt.validate_token_sync jwt_secret library_text token) in
      match r with
      | Ok claims =>
          let* request := insert_text "x-user-id" (uuid_text (cl_sub claims)) request in
          let* request := insert_text "x-user-email" (cl_email claims) request in
          next request
      | Err Jwt.Expired => ret (respond UNAUTHORIZED "Token expired")
      | Err _ => ret (respond UNAUTHORIZED "Invalid token")
      end
  | None =>
      match header API_KEY_HEADER request with
      | Some raw_key =>
          let* r := attempt (ApiKeyService.validate_key hex_encode sha256 raw_key) in
          match r with
          | Ok key =>
              let* request := insert_text "x-user-id" (uuid_text (ak_user_id key)) request in
              let* request := insert_text "x-user-permissions" (join "," (ak_permissions key)) request in
              next request
          | Err KeyRevoked => ret (respond FORBIDDEN "API key revoked")
          | Err _ => ret (respond UNAUTHORIZED "Invalid API key")
          end
      | None => ret (respond UNAUTHORIZED "Unauthorized")
      end
  end.

(** The HTTP client: what the upstream answers, or no answer; and reading the
    body of the answer. *)
Context (send : Request → M Platform (option Response) Panic).

Definition hop (name : string) : bool := String.eqb name "transfer-encoding" || String.eqb name "connection".
Definition status_only (status : Z) : Response := mkResponse status [] [].

Definition proxy_handler : Handler := λ request,
  let headers := List.filter (λ '(name, _), negb (String.eqb name "host" || hop name)) (rq_headers request) in
  match to_bytes (rq_body request) with
  | None => ret (status_only BAD_REQUEST)
  | Some body_bytes =>
      let* (sig, ts, nonce) := Signing.sign_request hmac hex_encode signing_secret
                                 (method_text (rq_method request)) (rq_path request) body_bytes in
      let* upstream_response := send (mkRequest (rq_method request) (rq_path request) (rq_query request)
        (headers ++ [(Signing.HEADER_SIGNATURE, Visible sig); (Signing.HEADER_TIMESTAMP, Visible ts);
                     (Signing.HEADER_NONCE, Visible nonce)])
        None body_bytes) in
      match upstream_response with
      | None => ret (status_only BAD_GATEWAY)
      | Some r =>
          ret (mkResponse (default INTERNAL_SERVER_ERROR (Idempotency.status_from_u16 (rs_status r)))
                 (List.filter (λ '(name, _), negb (hop name)) (rs_headers r)) (rs_body r))
      end
  end.
End gateway.
End Gateway.

(** ** The stacks of [main.rs] and of [gateway/router.rs]

    The layer that is put on last runs first. *)
Module Stack.
Section stack.
Context `{JwtLib} `{UuidText} (jwt_secret signing_secret : string).
Context (hmac : bytes → bytes → bytes) (sha256 : bytes → bytes) (hex_encode : bytes → string).

(** A protected route behind [require_perm(permission)]. *)
Definition protected (permission : string) (handler : Handler) : Handler :=
  Auth.require_auth jwt_secret (Idempotency.call (Csrf.call (RbacMiddleware.require_perm permission handler))).
Definition admin (handler : Handler) : Handler :=
  Auth.require_auth jwt_secret (RbacMiddleware.require_role "admin" handler).

(** In production, the verifier is around all routes. *)
Definition platform (production : bool) (routes : Handler) : Handler :=
  if production then Signing.call hmac hex_encode signing_secret routes else routes.

(** A service route of the gateway, its rate limiter apart, with the platform
    as its upstream; the client gets an answer or none. *)
Definition through_gateway (parse_header : string → option HeaderValue) (library_text : JwtErrorKind → string)
    (reach : Response → option Response) (upstream : Handler) : Handler :=
  Gateway.validate_auth jwt_secret sha256 hex_encode parse_header library_text
    (Gateway.proxy_handler signing_secret hmac hex_encode (λ req,
       let* r := upstream req in ret (reach r))).
End stack.
End Stack.
