(* ===== verification/GuardsCorrect.v ===== *)
(** * What the layers let through: proofs about [Guards]

    A layer lets a request through when the handler behind it runs: put in front
    of a handler that only panics, it panics. *)
From Stdlib Require Import Ascii.
From stdpp Require Import gmap relations.
From S2P Require Import Prelude Monad Model Settlement Bytes Text Strings Access Http Rbac ApiKeys Jwt Guards.
Open Scope Z_scope.

Definition probe : Handler := λ _, throw (Panicked "the handler ran").
Definition lets_through (layer : Handler → Handler) (req : Request) (e : Env Platform) : Prop :=
  fst (layer probe req e) = Err (Panicked "the handler ran").

(** ** Idempotency *)

Section idempotency.
Import Idempotency.
Implicit Types (inner : Handler).

Definition is_row (key : string) (c : CachedResponse) : bool := String.eqb (cr_key c) key.

Lemma call_first inner req key e r e1 :
  is_mutating (rq_method req) = true → header "idempotency-key" req = Some key →
  sql_one (is_row key) (idempotency_keys (env_db e)) = None →
  keeps idempotency_keys (inner req) →
  call inner req e = (Ok r, e1) →
  ∀ c, c ∈ idempotency_keys (env_db e1) → cr_key c = key →
  cr_request_hash c = request_hash req ∧ cr_status_code c = rs_status r ∧
  cr_response_body c = from_utf8_lossy (rs_body r).
Proof.
  intros Hm Hkey Hnone Hkeeps Hrun c Hc Hck.
  assert (c ∉ idempotency_keys (env_db e)) as Hnew.
  { intros Hin. pose proof (sql_one_None _ _ _ Hnone Hin) as Hr. unfold is_row in Hr. rewrite Hck in Hr.
    by rewrite String.eqb_refl in Hr. }
  unfold call in Hrun. rewrite Hm, Hkey in Hrun. change (negb true) with false in Hrun. cbv iota in Hrun.
  apply bind_Ok in Hrun as (found & e2 & Hl & Hrun).
  assert (found = None ∧ idempotency_keys (env_db e2) = idempotency_keys (env_db e)) as [-> He2].
  { unfold lookup, bind, attempt, query, stmt, ret in Hl. fold (is_row key) in Hl. rewrite Hnone in Hl.
    destruct (faulty e); by injection Hl as <- <-. }
  apply bind_Ok in Hrun as (resp & e3 & Hinner & Hrun).
  pose proof (keeps_run _ _ _ _ _ Hinner Hkeeps) as He3.
  apply bind_Ok in Hrun as (st & e4 & Hst%attempt_Ok & [-> ->]%ret_Ok).
  unfold store, exec, stmt in Hst. cbn [rs_status rs_body].
  destruct (faulty e3).
  { injection Hst as _ <-. cbn in Hc. rewrite He3, He2 in Hc. done. }
  injection Hst as _ <-. cbn in Hc. destruct (existsb _ _).
  { rewrite He3, He2 in Hc. done. }
  cbn in Hc. rewrite He3, He2 in Hc.
  apply elem_of_app in Hc as [Hc| ->%list_elem_of_singleton]; done.
Qed.

Lemma call_again inner req key c e :
  is_mutating (rq_method req) = true → header "idempotency-key" req = Some key → faulty e = false →
  sql_one (is_row key) (idempotency_keys (env_db e)) = Some c →
  call inner req e =
    (Ok (if String.eqb (cr_request_hash c) (request_hash req) then build_cached_response c
         else conflict_response), pop_fault e).
Proof.
  intros Hm Hkey Hf Hone. unfold call. rewrite Hm, Hkey. change (negb true) with false. cbv iota.
  unfold lookup, bind, attempt, query, stmt, ret. fold (is_row key). cbv beta. rewrite Hf, Hone.
  destruct e. by destruct (String.eqb _ _).
Qed.

End idempotency.

(** ** CSRF tokens *)

Section csrf.
Import Csrf.
Implicit Types (inner : Handler).

(** The layer without failures: what it checks, and that it spends the token. *)
Lemma csrf_run inner req token e : env_faults e = [] → is_safe (rq_method req) = false →
  header CSRF_HEADER req = Some token →
  call inner req e =
    if match cookie_token req with Some cookie => negb (String.eqb cookie token) | None => false end
    then (Ok (respond FORBIDDEN "CSRF token mismatch"), e)
    else match redis_get (csrf_key token) (env_now e) (env_db e) with
         | None => (Ok (respond FORBIDDEN "Invalid or expired CSRF token"), e)
         | Some uid =>
             let e' := with_db (redis_del (csrf_key token) (env_db e)) e in
             if match header "x-user-id" req with
                | Some u => negb (String.eqb u uid) && negb (String.eqb uid "anonymous") | None => false end
             then (Ok (respond FORBIDDEN "CSRF token not issued for this user"), e')
             else inner req e'
         end.
Proof.
  destruct e as [d fl us n t]. cbn. intros -> Hs Hh. unfold call. rewrite Hs, Hh.
  destruct (match cookie_token req with Some _ => _ | None => _ end); [done|].
  unfold validate_token, query, exec, stmt. cbv [bind attempt now ret]. cbn.
  destruct (redis_get _ _ _) as [uid|]; [|done]. cbn. by destruct (match header _ _ with Some _ => _ | None => _ end).
Qed.

(** A CSRF token is good for one request.  A changing request gets through
    only with a live token in its header, equal to the one in the cookie when
    there is such a cookie, and issued to the user the request names or to
    nobody; the token is spent with it, so no other changing request with the
    same token gets through afterwards, whatever the first one's handler did,
    unless the same token is issued again.  (Requests one after the other, and
    Redis answering.) *)
Theorem csrf_token_is_spent req req' token e e' :
  env_faults e = [] → env_faults e' = [] →
  is_safe (rq_method req) = false → is_safe (rq_method req') = false →
  header CSRF_HEADER req = Some token → header CSRF_HEADER req' = Some token →
  lets_through call req e →
  redis (env_db e') !! csrf_key token = redis (env_db (snd (call probe req e))) !! csrf_key token →
  (∃ uid, redis_get (csrf_key token) (env_now e) (env_db e) = Some uid ∧
     (∀ cookie, cookie_token req = Some cookie → cookie = token) ∧
     ∀ u, header "x-user-id" req = Some u → u = uid ∨ uid = "anonymous"%string) ∧
  ¬ lets_through call req' e'.
Proof.
  intros Hf Hf' Hs Hs' Hh Hh' Hthrough Hredis. unfold lets_through in *.
  rewrite (csrf_run _ _ token e) in Hthrough, Hredis by done. rewrite (csrf_run _ _ token e') by done.
  destruct (match cookie_token req with Some _ => _ | None => _ end) eqn:Hcookie; [done|].
  destruct (redis_get (csrf_key token) (env_now e) (env_db e)) as [uid|]; [|done]. cbv zeta in *.
  destruct (match header _ req with Some _ => _ | None => _ end) eqn:Huser; [done|].
  split.
  - exists uid. split; [done|]. split.
    + intros cookie Hck. rewrite Hck in Hcookie. by apply negb_false_iff, String.eqb_eq in Hcookie.
    + intros u Hu. rewrite Hu in Huser. apply andb_false_iff in Huser as [Hx|Hx];
        apply negb_false_iff, String.eqb_eq in Hx; auto.
  - destruct (match cookie_token req' with Some _ => _ | None => _ end); [done|].
    cbn in Hredis. rewrite lookup_delete_eq in Hredis. unfold redis_get. by rewrite Hredis.
Qed.
End csrf.

(** ** Signed requests *)

Lemma sep_inj (x : Z) a b a' b' : x ∉ a → x ∉ a' → a ++ x :: b = a' ++ x :: b' → a = a' ∧ b = b'.
Proof.
  revert a'. induction a as [|y a IH]; intros [|y' a'] Ha Ha' E; simpl in E.
  - by injection E as ->.
  - injection E as -> _. by destruct Ha'; left.
  - injection E as -> _. by destruct Ha; left.
  - injection E as -> E. apply IH in E as [-> ->]; [done|..]; intros ?; [apply Ha|apply Ha']; by right.
Qed.
(** The same from the right. *)
Lemma sep_inj_r (x : Z) a b a' b' : x ∉ b → x ∉ b' → a ++ x :: b = a' ++ x :: b' → a = a' ∧ b = b'.
Proof.
  intros Hb Hb' E. apply (f_equal reverse) in E. rewrite !reverse_app, !reverse_cons, <- !app_assoc in E.
  apply sep_inj in E as [H1 H2]; [|by rewrite elem_of_reverse..].
  by apply (inj reverse) in H1, H2.
Qed.

Lemma print_int_no_bar n : 124 ∉ as_bytes (print_int n).
Proof. intros Hb%print_int_bytes. lia. Qed.

Section signing.
Import Signing.
Context (hmac : bytes → bytes → bytes) (hex_encode : bytes → string) (secret : string).
#[local] Abbreviation verify := (call hmac hex_encode secret).

(** What separates the parts of a message. *)
Definition bar_free (s : string) : Prop := 124 ∉ as_bytes s.

Lemma as_bytes_inj s s' : as_bytes s = as_bytes s' → s = s'.
Proof. intros E. by rewrite <- (text_of_as_bytes s), E, text_of_as_bytes. Qed.

Lemma signed_message_inj m p b t n m' p' b' t' n' :
  bar_free m → bar_free p → bar_free n → bar_free m' → bar_free p' → bar_free n' → in_i64 t → in_i64 t' →
  signed_message m p b t n = signed_message m' p' b' t' n' →
  m = m' ∧ p = p' ∧ b = b' ∧ t = t' ∧ n = n'.
Proof.
  unfold bar_free, signed_message, bar. intros Hm Hp Hn Hm' Hp' Hn' Ht Ht' E.
  apply sep_inj in E as [Em E]; [|done..]. apply sep_inj in E as [Ep E]; [|done..].
  rewrite !(assoc_L (++)), <- !(assoc_L (++)) in E.
  assert ((b ++ 124 :: as_bytes (print_int t)) ++ 124 :: as_bytes n =
          (b' ++ 124 :: as_bytes (print_int t')) ++ 124 :: as_bytes n') as E'
    by (rewrite <- !(assoc_L (++)); exact E).
  apply sep_inj_r in E' as [E' En]; [|done..].
  apply sep_inj_r in E' as [Eb Et]; [|apply print_int_no_bar..].
  apply as_bytes_inj in Em, Ep, En, Et. apply print_int_inj in Et; auto.
Qed.

(** The layer without failures. *)
Lemma verify_run req inner e sig nonce ts : env_faults e = [] →
  header HEADER_SIGNATURE req = Some sig → header HEADER_NONCE req = Some nonce →
  header HEADER_TIMESTAMP req ≫= parse_i64 = Some ts →
  verify inner req e =
    if MAX_AGE_SECS <? i64_abs (i64 (env_now e - ts)) then (Ok (respond UNAUTHORIZED "Request too old"), e)
    else match redis_get (nonce_key nonce) (env_now e) (env_db e) with
         | Some _ => (Ok (respond UNAUTHORIZED "Nonce already used"), e)
         | None =>
             let e' := with_db (set_ex (nonce_key nonce) "1" NONCE_TTL_SECS (env_now e) (env_db e)) e in
             let body := default [] (to_bytes (rq_body req)) in
             if String.eqb sig (compute_signature hmac hex_encode secret (method_text (rq_method req))
                                  (rq_path req) body ts nonce)
             then inner (with_body body req) e'
             else (Ok (respond UNAUTHORIZED "Invalid signature"), e')
         end.
Proof.
  destruct e as [d fl us n t]. cbn. intros -> Hsig Hnonce Hts. unfold call. rewrite Hsig, Hnonce.
  destruct (header HEADER_TIMESTAMP req) as [text|]; [|done]. cbn in Hts. rewrite Hts.
  unfold query, exec, stmt. cbv [bind attempt now ret]. cbn.
  destruct (MAX_AGE_SECS <? _); [done|]. cbn.
  destruct (redis_get _ _ _) as [v|]; [done|]. cbn. by destruct (String.eqb _ _).
Qed.

Lemma lets_through_headers req e : lets_through verify req e →
  ∃ sig nonce ts, header HEADER_SIGNATURE req = Some sig ∧ header HEADER_NONCE req = Some nonce ∧
    header HEADER_TIMESTAMP req ≫= parse_i64 = Some ts.
Proof.
  unfold lets_through, call. destruct (header HEADER_SIGNATURE req) as [sig|]; [|done].
  destruct (header HEADER_TIMESTAMP req) as [text|]; [|done].
  destruct (header HEADER_NONCE req) as [nonce|]; [|done]. cbn.
  destruct (parse_i64 text) as [ts|]; [|done]. eauto 10.
Qed.

(** A fresh timestamp: within thirty seconds, or at the one distance whose
    absolute value does not fit. *)
Lemma fresh_timestamp t ts : 0 ≤ t < 2 ^ 62 → in_i64 ts →
  (MAX_AGE_SECS <? i64_abs (i64 (t - ts))) = false → Z.abs (t - ts) ≤ 30 ∨ t - ts = 2 ^ 63.
Proof.
  intros Ht Hts Hage%Z.ltb_ge. rewrite in_i64_iff in Hts. unfold MAX_AGE_SECS, i64_abs, i64, wrap_s in Hage.
  change (2 ^ (64 - 1)) with 9223372036854775808 in *. change (2 ^ 64) with 18446744073709551616 in *.
  change (2 ^ 62) with 4611686018427387904 in *. change (2 ^ 63) with 9223372036854775808.
  destruct (Z.le_gt_cases (t - ts) 9223372036854775807) as [Hle|Hgt].
  - rewrite (Z.mod_small (t - ts + _)) in Hage by lia.
    rewrite (Z.mod_small (Z.abs _ + _)) in Hage by lia. lia.
  - assert ((t - ts + 9223372036854775808) mod 18446744073709551616 = t - ts - 9223372036854775808) as E.
    { symmetry. apply (Z.mod_unique_pos _ _ 1); lia. }
    rewrite E in Hage. destruct (decide (t - ts = 9223372036854775808)) as [|Hne]; [by right|].
    rewrite (Z.mod_small (Z.abs _ + _)) in Hage by lia. lia.
Qed.


(** The bars do not keep the parts apart: one signature is good for a second
    request, with another nonce, when the body of the first holds them. *)
Theorem signature_covers_another_request :
  compute_signature hmac hex_encode secret "POST" "/intents" (as_bytes "a|1000|b") 1000 "n" =
  compute_signature hmac hex_encode secret "POST" "/intents" (as_bytes "a") 1000 "b|1000|n".
Proof. reflexivity. Qed.
End signing.

(** ** Concrete requests *)

Module GuardExample.
Definition platform : Platform :=
  mkPlatform empty_db [] [] [] [] [] [] (<["csrf:tok" := ("7", 4000)]> ∅) true None.
Definition at_time (t : Z) (p : Platform) : Env Platform := mkEnv p [] N.of_nat 100 t.
Definition post (path : string) (h : list (string * string)) (body : string) : Request :=
  mkRequest POST path None ((λ '(n, v), (n, Visible v)) <$> h) None (as_bytes body).
Definition created : Handler := λ _, ret (mkResponse CREATED [] (as_bytes "done")).

Definition buy := post "/intents" [("idempotency-key", "k1"); ("x-user-id", "7")]%string "buy".
Definition sell := post "/intents" [("idempotency-key", "k1"); ("x-user-id", "7")]%string "sell".
Definition after_buy := snd (Idempotency.call created buy (at_time 50 platform)).

Definition with_token := post "/intents" [("x-csrf-token", "tok"); ("x-user-id", "7")]%string "buy".
Definition after_token := snd (Csrf.call probe with_token (at_time 50 platform)).

(** A MAC that hides nothing: the message itself, as a number. *)
Definition mac (key message : list Z) : list Z := message.
Definition number (l : list Z) : string := print_uint (Z.pos (encode l)).
Lemma number_inj l l' : number l = number l' → l = l'.
Proof.
  unfold number, print_uint. intros E. apply (inj encode).
  assert (∀ p, DecimalString.NilZero.uint_of_string
    (DecimalString.NilZero.string_of_uint (N.to_uint (Z.to_N (Z.pos p)))) = Some (N.to_uint (N.pos p))) as Hp.
  { intros p. apply DecimalString.NilZero.usu. apply DecimalPos.Unsigned.to_uint_nonnil. }
  apply (f_equal DecimalString.NilZero.uint_of_string) in E. rewrite !Hp in E. apply (inj Some) in E.
  apply (f_equal N.of_uint) in E. rewrite !DecimalN.Unsigned.of_to in E. by injection E.
Qed.
(** Dated thirty seconds ahead. *)
Definition signed : Request :=
  post "/x" [("x-signature", Signing.compute_signature mac number "s" "POST" "/x" (as_bytes "b") 1030 "n");
             ("x-timestamp", "1030"); ("x-nonce", "n")]%string "b".
Definition after_signed := snd (Signing.call mac number "s" probe signed (at_time 1000 platform)).
End GuardExample.
Import GuardExample.


Lemma csrf_token_is_spent_witness :
  lets_through Csrf.call with_token (at_time 50 platform) ∧
  ¬ lets_through Csrf.call with_token (at_time 51 (env_db after_token)).
Proof.
  assert (lets_through Csrf.call with_token (at_time 50 platform)) as H1 by (by vm_compute).
  split; [done|].
  apply (csrf_token_is_spent with_token with_token "tok" (at_time 50 platform)); done.
Defined.

