(* ===== verification/AccessCorrect.v ===== *)
(** * What gets through to a protected route: the layers together

    Proofs about the stacks of [Guards] and the tokens of [Users]: which
    requests reach a handler when the gateway, the platform and the handlers
    that issue tokens work together. *)
From Stdlib Require Import Ascii.
From stdpp Require Import gmap relations.
From S2P Require Import Prelude Monad Triples Model Settlement Bytes Text Strings Access Http Rbac ApiKeys Jwt.
From S2P Require Import JwtCorrect Users Guards GuardsCorrect.
Open Scope Z_scope.

Definition ran : Panic := Panicked "the handler ran".

(** ** Layers in front of a handler that is never reached *)

Section blocked.
Implicit Types (inner : Handler).

Lemma csrf_validate_Ok {E} token e : ∃ o e', Csrf.validate_token (E := E) token e = (Ok o, e').
Proof.
  unfold Csrf.validate_token, bind, attempt, now, ret. destruct (query _ e) as [[[uid|]|x] e1]; eauto.
  destruct (exec _ e1); eauto.
Qed.
Lemma csrf_blocked inner req : (∀ e, fst (inner req e) ≠ Err ran) → ∀ e, fst (Csrf.call inner req e) ≠ Err ran.
Proof.
  intros Hinner e. unfold Csrf.call. destruct (Csrf.is_safe _); [apply Hinner|].
  destruct (header Csrf.CSRF_HEADER req) as [token|]; [|done].
  destruct (match Csrf.cookie_token req with Some _ => _ | None => _ end); [done|].
  unfold bind. destruct (csrf_validate_Ok (E := Panic) token e) as ([uid|] & e1 & ->); [|done].
  destruct (match header _ req with Some _ => _ | None => _ end); [done|apply Hinner].
Qed.
Lemma idempotency_blocked inner req :
  (∀ e, fst (inner req e) ≠ Err ran) → ∀ e, fst (Idempotency.call inner req e) ≠ Err ran.
Proof.
  intros Hinner e. unfold Idempotency.call. destruct (negb _); [apply Hinner|].
  destruct (header _ _) as [key|]; [|apply Hinner].
  unfold Idempotency.lookup, bind, attempt, ret at 1. destruct (query _ e) as [[[c|]|x] e1]; simpl.
  1: by destruct (negb _).
  all: specialize (Hinner e1); destruct (inner req e1) as [[r|x'] e2]; [|exact Hinner];
    unfold attempt, ret; by destruct (Idempotency.store _ _ _ _ _ e2).
Qed.
Lemma require_perm_blocked permission inner req c e : rq_claims req = Some c →
  RbacMiddleware.has_permission (cl_permissions c) permission = false →
  fst (RbacMiddleware.require_perm permission inner req e) ≠ Err ran.
Proof.
  intros Hc Hp. unfold RbacMiddleware.require_perm, RbacMiddleware.extract_permissions.
  rewrite Hc, Hp. by destruct (cl_permissions c).
Qed.
End blocked.

(** ** A login opens nothing *)

Section login.
Context `{JwtLaws} `{SqlxDisplay} `{UuidText} `{Unicode} `{Bcrypt}.
Context (random_bytes : nat → nat → bytes) (hex_encode : bytes → string) (jwt_secret : string).

Lemma try_secrets_claims t tok secrets s c c' :
  jwt_encode s c = Ok tok → Jwt.try_secrets t tok secrets = Ok c' → c' = c.
Proof.
  intros Htok. induction secrets as [|s' secrets IH]; [done|]. simpl.
  destruct (decide (s' = s)) as [->|Hne].
  - rewrite (decode_own _ _ _ t Htok). by destruct (_ <? _); [|intros [= <-]].
  - by rewrite (decode_other _ s' _ _ t Htok Hne).
Qed.
Lemma validated_claims tok s c e c' e' : jwt_encode s c = Ok tok →
  Jwt.validate_token jwt_secret tok e = (Ok c', e') → c' = c.
Proof.
  intros Htok Hrun. unfold Jwt.validate_token, Jwt.of_result in Hrun.
  apply bind_Ok in Hrun as (secrets & e1 & _ & Hrun). apply bind_Ok in Hrun as (t & e2 & _ & Hrun).
  destruct (Jwt.try_secrets t tok secrets) as [c2|] eqn:Ht; [|by apply throw_Ok in Hrun].
  apply ret_Ok in Hrun as [-> _]. by eapply try_secrets_claims.
Qed.

Lemma create_token_Ok u em ps e tok e' :
  Jwt.create_token random_bytes hex_encode jwt_secret u em ps e = (Ok tok, e') →
  ∃ s c, jwt_encode s c = Ok tok ∧ cl_permissions c = ps ∧ cl_sub c = u.
Proof.
  intros Hrun. unfold Jwt.create_token in Hrun. apply bind_Ok in Hrun as (s & e1 & _ & Hrun).
  apply bind_Ok in Hrun as (t & e2 & _ & Hrun). destruct (jwt_encode _ _) as [tok'|] eqn:Htok.
  - apply ret_Ok in Hrun as [-> _]. by eexists _, _.
  - by apply throw_Ok in Hrun.
Qed.

Lemma set_core_same p : set_core (core p) p = p.
Proof. by destruct p. Qed.

Lemma login_Ok req resp e e' :
  AuthHandlers.login random_bytes hex_encode jwt_secret req e = (Ok resp, e') →
  ∃ u names s c, u ∈ users (core (env_db e)) ∧ u_email u = UserService.cd_email req ∧
    (names = [] ∨ names = ro_name <$> RbacService.roles_of (u_id u) (env_db e)) ∧
    cl_permissions c = names ∧ jwt_encode s c = Ok (AuthHandlers.to_token resp).
Proof.
  intros Hrun. unfold AuthHandlers.login in Hrun.
  apply bind_Ok in Hrun as (auth & e1 & Hauth%map_err_Ok & Hrun).
  unfold on_core in Hauth. destruct (UserService.login req _) as [r e0] eqn:Hlogin.
  injection Hauth as -> <-. unfold UserService.login, UserService.find_by_email in Hlogin.
  apply bind_Ok in Hlogin as (found & e2 & (_ & -> & ->)%map_err_Ok%query_Ok & Hlogin).
  apply bind_Ok in Hlogin as (u & e3 & [Hu ->]%of_option_Ok & Hlogin). cbn in Hu.
  apply sql_one_Some in Hu as [Hu Hem%String.eqb_eq].
  destruct (bcrypt_verify _ _) as [[]|]; cbn in Hlogin; [|by apply throw_Ok in Hlogin..].
  apply ret_Ok in Hlogin as [-> ->]. cbn in Hrun. rewrite set_core_same in Hrun.
  apply bind_Ok in Hrun as (names & e4 & Hnames%attempt_Ok & Hrun).
  unfold AuthHandlers.token_response in Hrun.
  apply bind_Ok in Hrun as (tok & e5 & Htok%map_err_Ok & [-> _]%ret_Ok).
  apply create_token_Ok in Htok as (s & c & Henc & Hperms & _).
  exists u, (match names with Ok l => l | Err _ => [] end), s, c. split_and!; [done|done| |done|done].
  unfold RbacService.get_user_role_names, map_err, query, stmt in Hnames.
  destruct (faulty _) in Hnames; injection Hnames as <- _; [by left|by right].
Qed.

(** A login opens no protected route.  The token it hands out carries the
    names of the user's roles and none of their permissions, and a name opens a
    route only when it is admin: whoever else logs in is stopped by the layers
    in front of every route that requires a resource and an action, through any
    later state of the platform; only the token of the registration itself
    carries permissions (a flaw). *)
Theorem login_tokens_open_nothing req resp e e1 resource action request e2 :
  AuthHandlers.login random_bytes hex_encode jwt_secret req e = (Ok resp, e1) →
  (∀ r, r ∈ roles (env_db e) → has_char ":" (ro_name r) = false) →
  (∀ u r, u ∈ users (core (env_db e)) → u_email u = UserService.cd_email req →
     r ∈ RbacService.roles_of (u_id u) (env_db e) → ro_name r ≠ "admin"%string) →
  has_char ":" resource = false → action ≠ "*"%string →
  Auth.bearer request = Some (AuthHandlers.to_token resp) →
  ¬ lets_through (Stack.protected jwt_secret (resource +:+ ":" +:+ action)) request e2.
Proof.
  intros Hlogin Hcolon Hadmin Hr Ha Hbearer.
  apply login_Ok in Hlogin as (u & names & s & c & Hu & Hem & Hnames & Hperms & Htok).
  assert (RbacMiddleware.has_permission (cl_permissions c) (resource +:+ ":" +:+ action) = false) as Hno.
  { rewrite has_permission_texts, Hperms by done. destruct Hnames as [->| ->]; [done|].
    apply not_true_iff_false. intros (x & Hx & Hm)%existsb_exists.
    apply list_elem_of_In, list_elem_of_fmap in Hx as (r & -> & Hrole).
    assert (r ∈ roles (env_db e)) as Hin by (by apply elem_of_sql_select in Hrole as [? _]).
    rewrite matches_name in Hm by auto. apply String.eqb_eq in Hm. by eapply Hadmin. }
  unfold lets_through, Stack.protected, Auth.require_auth. rewrite Hbearer. fold ran.
  unfold bind, attempt. destruct (Jwt.validate_token _ _ e2) as [[c'|x] e3] eqn:Hv; [|by destruct x].
  apply (validated_claims _ s c) in Hv as ->; [|done].
  apply idempotency_blocked, csrf_blocked. intros e4. by apply (require_perm_blocked _ _ _ c).
Qed.
End login.

(** ** Nothing passes the gateway *)

Section gateway.
Context `{JwtLaws} `{UuidText} (jwt_secret signing_secret : string).
Context (hmac : bytes → bytes → bytes) (sha256 : bytes → bytes) (hex_encode : bytes → string).
Context (parse_header : string → option HeaderValue) (library_text : JwtErrorKind → string).
Context (reach : Response → option Response).

(** The platform signs with keys of its table, none of which is the secret of
    the settings; and every statement succeeds. *)
Definition rotating (e : Env Platform) : Prop :=
  env_faults e = [] ∧ key_service (env_db e) = true ∧
  ∀ k, k ∈ jwt_keys (env_db e) → jk_key_secret k ≠ jwt_secret.

Definition stays_rotating (e e' : Env Platform) : Prop := rotating e → rotating e'.
#[local] Instance stays_rotating_preorder : PreOrder stays_rotating.
Proof. unfold stays_rotating. split; [by intros e He|]. intros e1 e2 e3. auto. Qed.

Lemma stays_pop e : stays_rotating e (pop_fault e).
Proof. intros (Hf & Hs & Hk). split_and!; [cbn; by rewrite Hf|done..]. Qed.
Lemma stays_db e d : key_service d = key_service (env_db e) → jwt_keys d = jwt_keys (env_db e) →
  stays_rotating e (with_db d (pop_fault e)).
Proof.
  intros Hs Hk (Hf & Hs0 & Hk0). split_and!; cbn; [by rewrite Hf|by rewrite Hs|by rewrite Hk].
Qed.

(** Computations that keep the platform so, and do not run the handler. *)
Definition quiet {A} (m : M Platform A Panic) : Prop :=
  ∀ e, rotating e → rotating (snd (m e)) ∧ fst (m e) ≠ Err ran.

Lemma quiet_ret {A} (a : A) : quiet (ret a).
Proof. intros e He. split; [done|discriminate]. Qed.
Lemma quiet_now : quiet now.
Proof. intros e He. split; [done|discriminate]. Qed.
Lemma quiet_run {A B} (m : M Platform A Panic) (k : A → M Platform B Panic) :
  quiet m → (∀ e a e', m e = (Ok a, e') → quiet (k a)) → quiet (bind m k).
Proof.
  intros Hm Hk e He. destruct (Hm e He) as [He1 Hx]. unfold bind.
  destruct (m e) as [[a|x] e1] eqn:E; simpl in *; [by eapply Hk|]. split; [done|]. by intros [= ->].
Qed.
Lemma quiet_bind {A B} (m : M Platform A Panic) (k : A → M Platform B Panic) :
  quiet m → (∀ a, quiet (k a)) → quiet (bind m k).
Proof. intros Hm Hk. by apply quiet_run. Qed.
Lemma quiet_attempt {A E} (m : M Platform A E) : respects stays_rotating m → quiet (attempt m).
Proof.
  intros Hm e He. specialize (Hm e He). unfold attempt. destruct (m e) as [r e1]. split; [done|discriminate].
Qed.
Lemma quiet_steps {A} (m : M Platform A Panic) : respects stays_rotating m → (∀ e x, fst (m e) ≠ Err x) → quiet m.
Proof. intros Hm Hx e He. split; [by apply Hm|apply Hx]. Qed.

Lemma quiet_insert_text name text req : quiet (Gateway.insert_text parse_header name text req).
Proof. unfold Gateway.insert_text. destruct (parse_header text); intros e He; (split; [done|discriminate]). Qed.

(** The identity a request claims does not change on its way. *)
Lemma header_value_filter (p : string → bool) name h : p name = true →
  header_value name (List.filter (λ '(n, _), p n) h) = header_value name h.
Proof.
  intros Hp. induction h as [|[n v] h IH]; [done|]. simpl. destruct (String.eqb_spec n name) as [->|Hne].
  - rewrite Hp. simpl. by rewrite String.eqb_refl.
  - destruct (p n); simpl; [|done]. by destruct (String.eqb_spec n name).
Qed.
Lemma header_value_app name h h' :
  header_value name (h ++ h') =
    match header_value name h with Some v => Some v | None => header_value name h' end.
Proof. induction h as [|[n v] h IH]; [done|]. simpl. by destruct (String.eqb n name). Qed.

Lemma bearer_with_headers req req' :
  header_value "authorization" (rq_headers req') = header_value "authorization" (rq_headers req) →
  Auth.bearer req' = Auth.bearer req.
Proof. intros E. unfold Auth.bearer, header. by rewrite E. Qed.

Lemma insert_text_bearer name text req e req' e' : name ≠ "authorization"%string →
  Gateway.insert_text parse_header name text req e = (Ok req', e') → Auth.bearer req' = Auth.bearer req.
Proof.
  intros Hne. unfold Gateway.insert_text. destruct (parse_header text); [|by intros ?%throw_Ok].
  intros [-> _]%ret_Ok. by apply bearer_with_headers, header_value_insert_ne.
Qed.

(** A request without a token, or with one of the gateway's, gets no further
    than the platform's first layer. *)
Definition gateway_only (req : Request) : Prop :=
  ∀ tok, Auth.bearer req = Some tok → ∃ t c, jwt_decode jwt_secret t tok = Ok c.

Lemma try_secrets_gateway_only t tok secrets : (∃ t c, jwt_decode jwt_secret t tok = Ok c) →
  jwt_secret ∉ secrets → ∀ c, Jwt.try_secrets t tok secrets ≠ Ok c.
Proof.
  intros (t0 & c0 & Hdec) Hnot c. induction secrets as [|s secrets IH]; [done|]. simpl.
  apply not_elem_of_cons in Hnot as [Hne Hnot].
  destruct (jwt_decode s t tok) as [c'|[]] eqn:E; auto; try done.
  exfalso. apply Hne. exact (decode_one_secret _ _ _ _ _ _ _ E Hdec).
Qed.

Lemma validate_token_stays tok : respects stays_rotating (Jwt.validate_token jwt_secret tok).
Proof.
  unfold Jwt.validate_token, Jwt.get_validation_secrets, KeyRotation.get_validation_keys, Jwt.of_result.
  respects; apply respects_query, stays_pop.
Qed.

Lemma require_auth_quiet inner req : gateway_only req → quiet (Auth.require_auth jwt_secret inner req).
Proof.
  intros Hreq. unfold Auth.require_auth. destruct (Auth.bearer req) as [tok|] eqn:Hb; [|apply quiet_ret].
  intros e He. pose proof (validate_token_stays tok e He) as He1. unfold bind, attempt.
  destruct (Jwt.validate_token jwt_secret tok e) as [[c|x] e1] eqn:Hv; [|by destruct x]. exfalso.
  destruct He as (Hf & Hs & Hk). apply (f_equal fst) in Hv. rewrite validate_run in Hv; [|done|unfold faulty; by rewrite Hf].
  revert Hv. apply try_secrets_gateway_only; [by apply Hreq|].
  intros (k & Hin & _ & Hsec)%elem_of_valid_secrets. by apply (Hk k).
Qed.

Lemma signing_quiet inner req : (∀ req', Auth.bearer req' = Auth.bearer req → quiet (inner req')) →
  quiet (Signing.call hmac hex_encode signing_secret inner req).
Proof.
  intros Hinner. unfold Signing.call. destruct (header Signing.HEADER_SIGNATURE req) as [sig|]; [|apply quiet_ret].
  destruct (header Signing.HEADER_TIMESTAMP req) as [text|]; [|apply quiet_ret].
  destruct (header Signing.HEADER_NONCE req) as [nonce|]; [|apply quiet_ret].
  destruct (parse_i64 text) as [ts|]; [|apply quiet_ret].
  apply quiet_bind; [apply quiet_now|]. intros t. destruct (_ <? _); [apply quiet_ret|].
  apply quiet_bind; [apply quiet_attempt, respects_query, stays_pop|].
  intros b. destruct (match b with Ok _ => _ | Err _ => _ end); [apply quiet_ret|].
  apply quiet_bind; [apply quiet_attempt, respects_exec; [apply stays_pop|intros e; by apply stays_db]|].
  intros _. cbv zeta. destruct (negb _); [apply quiet_ret|]. by apply Hinner.
Qed.

Lemma platform_quiet production permission handler req : gateway_only req →
  quiet (Stack.platform signing_secret hmac hex_encode production
           (Stack.protected jwt_secret permission handler) req).
Proof.
  intros Hreq. unfold Stack.platform, Stack.protected.
  destruct production; [apply signing_quiet; intros req' E|]; apply require_auth_quiet; [|done].
  unfold gateway_only. by rewrite E.
Qed.

Lemma proxy_quiet upstream req :
  (∀ req', Auth.bearer req' = Auth.bearer req → quiet (upstream req')) →
  quiet (Gateway.proxy_handler signing_secret hmac hex_encode
           (λ req, bind (upstream req) (λ r, ret (reach r))) req).
Proof.
  intros Hup. unfold Gateway.proxy_handler. destruct (to_bytes _) as [body|]; [|apply quiet_ret].
  apply quiet_bind; [intros e He; split; [done|discriminate]|]. intros [[sig ts] nonce]. apply quiet_bind.
  - apply quiet_bind; [|intros r; apply quiet_ret]. apply Hup, bearer_with_headers. cbn [rq_headers].
    rewrite header_value_app.
    rewrite (header_value_filter (λ n, negb (String.eqb n "host" || Gateway.hop n))) by done.
    by destruct (header_value _ _).
  - intros [r|]; apply quiet_ret.
Qed.

Lemma validate_key_stays k : respects stays_rotating (ApiKeyService.validate_key hex_encode sha256 k).
Proof.
  unfold ApiKeyService.validate_key, ApiKeyService.hash_key, ApiKeyService.lift.
  respects; [apply respects_query, stays_pop|].
  apply respects_exec; [apply stays_pop|]. intros e. by apply stays_db.
Qed.
Lemma validate_token_sync_stays tok :
  respects stays_rotating (Jwt.validate_token_sync jwt_secret library_text tok).
Proof. unfold Jwt.validate_token_sync. respects. Qed.

(** The gateway passes a request on with the identity it had. *)
Lemma passed_on (next : Handler) req n1 t1 n2 t2 : n1 ≠ "authorization"%string → n2 ≠ "authorization"%string →
  (∀ req', Auth.bearer req' = Auth.bearer req → quiet (next req')) →
  quiet (bind (Gateway.insert_text parse_header n1 t1 req)
           (λ req, bind (Gateway.insert_text parse_header n2 t2 req) next)).
Proof.
  intros Hn1 Hn2 Hnext. apply quiet_run; [apply quiet_insert_text|]. intros e req1 e1 R1.
  apply quiet_run; [apply quiet_insert_text|]. intros e' req2 e2 R2. apply Hnext.
  apply insert_text_bearer in R1, R2; [|done..]. by rewrite R2.
Qed.

Lemma validate_auth_quiet (next : Handler) req :
  (∀ req', gateway_only req' → quiet (next req')) →
  quiet (Gateway.validate_auth jwt_secret sha256 hex_encode parse_header library_text next req).
Proof.
  intros Hnext. unfold Gateway.validate_auth. destruct (Auth.bearer req) as [tok|] eqn:Hb.
  - apply quiet_run; [apply quiet_attempt, validate_token_sync_stays|]. intros e [c|x] e' Hv.
    + apply passed_on; [done..|]. intros req' Hb'. apply Hnext. intros tok' E.
      apply attempt_Ok in Hv. unfold Jwt.validate_token_sync in Hv. apply bind_Ok in Hv as (t & e2 & _ & Hv).
      exists t. assert (tok' = tok) as -> by congruence.
      destruct (jwt_decode _ _ _) as [c'|[]]; [by exists c'|by run_inv..].
    + destruct x; apply quiet_ret.
  - destruct (header _ _) as [raw_key|]; [|apply quiet_ret].
    apply quiet_bind; [apply quiet_attempt, validate_key_stays|].
    intros [k|[]]; try apply quiet_ret. apply passed_on; [done..|]. intros req' Hb'. apply Hnext. intros tok' E. congruence.
Qed.

End gateway.

(** ** Bob registers, logs in, and goes through the gateway *)

Module AccessExample.
Definition trader_permissions : list string :=
  ["balance:deposit"; "balance:read"; "balance:withdraw"; "balances:deposit"; "balances:read";
   "balances:withdraw"; "intent:create"; "intent:read"; "intents:cancel"; "intents:create"; "intents:read";
   "market:read"; "markets:read"; "trade:read"; "trader"; "trades:read"]%string.
Definition registered_claims : Claims := mkClaims 101 "bob@x.io" trader_permissions 87400 1000 None.
Definition login_claims : Claims := mkClaims 101 "bob@x.io" ["trader"%string] 87500 1100 None.
Definition gateway_claims : Claims := mkClaims 10 "t@x.io" ["admin"%string] 87400 1000 None.
#[export] Instance lib : JwtLib := ToyJwt.lib [registered_claims; login_claims; gateway_claims].
#[export] Instance laws : JwtLaws := ToyJwt.laws [registered_claims; login_claims; gateway_claims].
#[export] Existing Instances DecimalUuid.instance UserExample.display UserExample.ascii_only UserExample.bcrypt.

Definition platform : Platform :=
  set_jwt_keys [mkJwtKey 1 "key" true 0] SeededTables.platform.
Definition at_time (t : Z) (p : Platform) : Env Platform := mkEnv p [] N.of_nat 100 t.
Definition bob : UserService.Credentials := UserService.mkCredentials "bob@x.io" "C0mpl3x!Pass#".
Definition random_bytes := KeyExample.random_bytes.
Definition hex_encode := KeyExample.hex_encode.

Definition registration := AuthHandlers.register random_bytes hex_encode "config" bob (at_time 1000 platform).
Definition later : Env Platform := at_time 1100 (env_db (snd registration)).
Abbreviation logged_in := (AuthHandlers.login random_bytes hex_encode "config" bob later).

Definition request (token : string) : Request :=
  mkRequest GET "/intents" None [("authorization", Visible ("Bearer " +:+ token))] None [].
Abbreviation route := (Stack.protected "config" ("intent" +:+ ":" +:+ "read")).
Definition parse_header (s : string) : option HeaderValue := Some (Visible s).
End AccessExample.
Import AccessExample.

Lemma no_colon_in_roles :
  forallb (λ r, negb (has_char ":" (ro_name r))) (roles (env_db later)) = true.
Proof. by vm_compute. Qed.

Lemma bob_is_no_administrator :
  forallb (λ u, negb (String.eqb (u_email u) "bob@x.io")
            || forallb (λ r, negb (String.eqb (ro_name r) "admin")) (RbacService.roles_of (u_id u) (env_db later)))
    (users (core (env_db later))) = true.
Proof. by vm_compute. Qed.

Lemma bob_logs_in : ∃ resp e1, logged_in = (Ok resp, e1) ∧ AuthHandlers.to_token resp = "1/key"%string.
Proof. eexists _, _. split; [vm_compute; reflexivity|vm_compute; reflexivity]. Qed.

(** The token of the registration opens the route, the one of the login does
    not. *)
Lemma login_tokens_open_nothing_witness :
  match fst registration with
  | Ok (_, r) => lets_through route (request (AuthHandlers.to_token r)) later | Err _ => False end ∧
  ∃ resp e1, logged_in = (Ok resp, e1) ∧ ¬ lets_through route (request (AuthHandlers.to_token resp)) later.
Proof.
  split; [by vm_compute|]. destruct bob_logs_in as (resp & e1 & Hrun & Htok). exists resp, e1. split; [exact Hrun|].
  apply (login_tokens_open_nothing random_bytes hex_encode "config" bob resp later e1 "intent" "read").
  - exact Hrun.
  - intros r Hr. by apply negb_true_iff, (elem_of_forallb _ _ no_colon_in_roles).
  - intros u r Hu Hem Hr Hname. pose proof (elem_of_forallb _ _ bob_is_no_administrator _ Hu) as Hx.
    cbv beta in Hx. rewrite Hem, String.eqb_refl, orb_false_l in Hx.
    pose proof (elem_of_forallb _ _ Hx _ Hr) as Hy. cbv beta in Hy. by rewrite Hname in Hy.
  - reflexivity.
  - discriminate.
  - rewrite Htok. reflexivity.
Defined.


(** ** A rejection is replayed

    The idempotency layer is around the one for CSRF: it keeps the 403 of a
    request without a token, and answers the repetition that has one with it. *)
Module ReplayExample.
Definition key_headers : list (string * HeaderValue) :=
  [("authorization", Visible "Bearer 0/key"); ("idempotency-key", Visible "k")]%string.
Definition without_token : Request := mkRequest POST "/intents" None key_headers None [].
Definition with_token : Request :=
  mkRequest POST "/intents" None (("x-csrf-token", Visible "tok")%string :: key_headers) None [].
Definition create : Handler → Handler := Stack.protected "config" "intent:create".
Definition ready : Env Platform := at_time 1000 (set_redis (<["csrf:tok" := ("101", 4000)]> ∅) platform).
Definition after_rejection : Env Platform := snd (create GuardExample.created without_token ready).
End ReplayExample.
Import ReplayExample.

Theorem rejection_is_replayed :
  lets_through create with_token ready ∧
  fst (create GuardExample.created with_token after_rejection) =
    Ok (Idempotency.build_cached_response
          (mkCachedResponse "k" "" "POST:/intents:" FORBIDDEN "Missing X-CSRF-Token header")) ∧
  ¬ lets_through create with_token after_rejection.
Proof. by vm_compute. Qed.
