(* ===== verification/Verify.v ===== *)
(** * The invariant checker: [src/src/chaos/verify.rs]

    The checks the platform runs over its own tables after a chaos test.  Each
    is one or two queries, whose rows become lines of a report.  The order in
    which a query without ORDER BY returns its rows is the table's, that of
    GROUP BY the order of the first rows of the groups; no theorem depends on
    it.  The platform itself never runs them: [chaos/engine.rs] calls the
    checker only with a pool, and [run] passes none. *)
From stdpp Require Import gmap.
From S2P Require Import Prelude Monad Float64 Model Ledger Settlement Bytes Text Strings.
Open Scope Z_scope.

Record Violation := mkViolation { vi_check : string; vi_detail : string }.
Definition violation_text (v : Violation) : string := ("[" +:+ vi_check v +:+ "] " +:+ vi_detail v)%string.

Record InvariantReport := mkReport { violations : list Violation; checks_run : Z; checks_passed : Z }.

Module InvariantReport.
Definition new : InvariantReport := mkReport [] 0 0.
Definition record_pass (r : InvariantReport) : InvariantReport :=
  mkReport (violations r) (u32 (checks_run r + 1)) (u32 (checks_passed r + 1)).
Definition record_fail (check detail : string) (r : InvariantReport) : InvariantReport :=
  mkReport (violations r ++ [mkViolation check detail]) (u32 (checks_run r + 1)) (checks_passed r).
Definition passed (r : InvariantReport) : bool := match violations r with [] => true | _ => false end.
End InvariantReport.

(** The labels of the enums of migrations 009, 015, 016, 038 and 039, as [::text]
    prints them. *)
Definition intent_label (s : IntentStatus) : string :=
  match s with
  | IOpen => "open" | IBidding => "bidding" | IMatched => "matched" | IPartiallyFilled => "partiallyfilled"
  | IExecuting => "executing" | ICompleted => "completed" | IFailed => "failed" | ICancelled => "cancelled"
  | IExpired => "expired"
  end.
Definition leg_label (s : LegStatus) : string :=
  match s with
  | LPending => "pending" | LEscrowed => "escrowed" | LExecuting => "executing" | LConfirmed => "confirmed"
  | LFailed => "failed" | LRefunded => "refunded"
  end.
Definition htlc_label (s : HtlcStatus) : string :=
  match s with
  | HCreated => "created" | HSourceLocked => "source_locked" | HDestClaimed => "dest_claimed"
  | HSourceUnlocked => "source_unlocked" | HRefunded => "refunded" | HExpired => "expired" | HFailed => "failed"
  end.

Module InvariantChecker.
Import InvariantReport.

Section checker.
Context `{SqlxDisplay} `{NumericDecode} `{UuidText} (sha256 : bytes → bytes).

(** [Ok(bad) if bad.is_empty() => pass, Ok(bad) => one failure for each row,
    Err(e) => a failure]. *)
Definition report_rows {R} (check : string) (detail : R → string) (rows : result (list R) SqlxError)
    (report : InvariantReport) : InvariantReport :=
  match rows with
  | Ok [] => record_pass report
  | Ok bad => foldl (λ report r, record_fail check (detail r) report) report bad
  | Err e => record_fail check ("query error: " +:+ sqlx_text e) report
  end.

(** [fetch_all] of rows with a NUMERIC in an [i64] column. *)
Definition decode_rows {A E} (rows : list (A * Z)) (of_sqlx : SqlxError → E) : M CoreDb (list (A * Z)) E :=
  of_option (of_sqlx (SqlProtocol "ColumnDecode"))
    (mapM (λ '(k, n), (λ z, (k, z)) <$> numeric_as_i64 n) rows).

(** *** 1. No negative balances *)

Definition is_negative (b : Balance) : bool := (b_available_balance b <? 0) || (b_locked_balance b <? 0).
Definition check_no_negative_balances {E} (report : InvariantReport) : M CoreDb InvariantReport E :=
  let* rows := attempt (query (λ d, sql_select is_negative (balances d))) in
  ret (report_rows "no_negative_balances" (λ b,
    "account=" +:+ uuid_text (b_account_id b) +:+ " asset=" +:+ Engine.asset_text (b_asset b)
    +:+ " available=" +:+ print_int (b_available_balance b) +:+ " locked=" +:+ print_int (b_locked_balance b))
    rows report).

(** *** 2. Balance sum constant *)

(** [available_balance + locked_balance], a BIGINT. *)
Definition total (b : Balance) : Z := b_available_balance b + b_locked_balance b.
(** [CASE WHEN entry_type = 'CREDIT' THEN amount ELSE -amount END] *)
Definition net (e : LedgerEntry) : Z :=
  match l_entry_type e with CREDIT => l_amount e | DEBIT => - l_amount e end.

(** SELECT asset, SUM(w) .. GROUP BY asset; a summand out of range is refused. *)
Definition sums_by_asset {R} (asset : R → Asset) (w : R → Z) (rows : list R) : option (list (Asset * Z)) :=
  if forallb (λ r, in_i64b (w r)) rows
  then Some ((λ a, (a, sum_by w (sql_select (λ r, bool_decide (asset r = a)) rows)))
               <$> remove_dups (asset <$> rows))
  else None.
Definition fetch_sums {R} (rows : CoreDb → list R) (asset : R → Asset) (w : R → Z)
  : M CoreDb (list (Asset * Z)) SqlxError :=
  let* sums := stmt (λ d, (λ s, (s, d)) <$> sums_by_asset asset w (rows d)) in
  decode_rows sums id.

Fixpoint lookup_sum (a : Asset) (l : list (Asset * Z)) : option Z :=
  match l with
  | [] => None
  | (a', n) :: r => if decide (a' = a) then Some n else lookup_sum a r
  end.

Definition sum_mismatch (ledger : list (Asset * Z)) '((asset, balance_total) : Asset * Z) : option string :=
  let ledger_net := default 0 (lookup_sum asset ledger) in
  if balance_total =? ledger_net then None
  else Some ("asset=" +:+ Engine.asset_text asset +:+ " balance_sum=" +:+ print_int balance_total +:+ " ledger_net="
             +:+ print_int ledger_net +:+ " diff=" +:+ print_int (i64 (balance_total - ledger_net)))%string.

Definition check_balance_sum_constant {E} (report : InvariantReport) : M CoreDb InvariantReport E :=
  let* balance_sums := attempt (fetch_sums balances b_asset total) in
  let* ledger_sums := attempt (fetch_sums ledger_entries l_asset net) in
  ret (match balance_sums, ledger_sums with
       | Ok balances, Ok ledger =>
           report_rows "balance_sum_constant" id (Ok (omap (sum_mismatch ledger) balances)) report
       | Err e, _ | Ok _, Err e => record_fail "balance_sum_constant" ("query error: " +:+ sqlx_text e) report
       end).

(** *** 3. No orphan locked funds *)

Definition is_unfinished (s : IntentStatus) : bool :=
  match s with IOpen | IBidding | IMatched | IExecuting => true | _ => false end.
Definition has_active_intent (d : CoreDb) (account_id : Uuid) : bool :=
  existsb (λ i, is_unfinished (i_status i) &&
    existsb (λ a, String.eqb (uuid_text (a_user_id a)) (i_user_id i) && (a_id a =? account_id)%N) (accounts d))
    (intents d).
Definition is_orphan (d : CoreDb) (b : Balance) : bool :=
  (0 <? b_locked_balance b) && negb (has_active_intent d (b_account_id b)).
Definition check_no_orphan_locked_funds {E} (report : InvariantReport) : M CoreDb InvariantReport E :=
  let* orphans := attempt (query (λ d, sql_select (is_orphan d) (balances d))) in
  ret (report_rows "no_orphan_locked_funds" (λ b,
    "account=" +:+ uuid_text (b_account_id b) +:+ " asset=" +:+ Engine.asset_text (b_asset b)
    +:+ " locked=" +:+ print_int (b_locked_balance b) +:+ " (no active intent)") orphans report).

(** *** 4. No double settlement *)

(** SELECT key, COUNT( * ) .. GROUP BY key HAVING p(COUNT( * )) *)
Definition groups {R} (key : R → Uuid) (p : Z → bool) (rows : list R) : list (Uuid * Z) :=
  sql_select (λ '(_, n), p n)
    ((λ k, (k, Z.of_nat (rows_affected (λ r, (key r =? k)%N) rows))) <$> remove_dups (key <$> rows)).
Definition check_no_double_settlement {E} (report : InvariantReport) : M CoreDb InvariantReport E :=
  let* doubles := attempt (query (λ d, groups f_intent_id (λ n, 1 <? n) (sql_select f_settled (fills d)))) in
  ret (report_rows "no_double_settlement" (λ '(intent_id, count),
    "intent_id=" +:+ uuid_text intent_id +:+ " settled_fills=" +:+ print_int count) doubles report).

(** *** 5. HTLC terminal states *)

Definition is_resolved (s : HtlcStatus) : bool :=
  match s with HSourceUnlocked | HRefunded | HExpired | HFailed => true | _ => false end.
Definition is_stuck (t : Z) (s : HtlcSwap) : bool :=
  negb (is_resolved (sw_status s)) && (sw_source_timelock s <? t).
(** An arrow in UTF-8. *)
Definition arrow : string := text_of [226; 134; 146].
Definition check_htlc_terminal_states {E} (report : InvariantReport) : M CoreDb InvariantReport E :=
  let* t := now in
  let* stuck := attempt (query (λ d, sql_select (is_stuck t) (htlc_swaps d))) in
  ret (report_rows "htlc_terminal_states" (λ s,
    "swap=" +:+ uuid_text (sw_id s) +:+ " status=" +:+ htlc_label (sw_status s) +:+ " route=" +:+ sw_source_chain s
    +:+ arrow +:+ sw_dest_chain s +:+ " (past timelock, not resolved)") stuck report).

(** *** 6. HTLC secret integrity *)

Definition has_revealed (s : HtlcSwap) : bool :=
  match sw_secret s, sw_status s with Some _, (HDestClaimed | HSourceUnlocked) => true | _, _ => false end.
Definition secret_violation (s : HtlcSwap) : option string :=
  let secret := default [] (sw_secret s) in
  if negb (Z.of_nat (length secret) =? 32)
  then Some ("swap=" +:+ uuid_text (sw_id s) +:+ " secret length=" +:+ print_uint (Z.of_nat (length secret))
             +:+ " (expected 32)")%string
  else if negb (bool_decide (sha256 secret = sw_secret_hash s))
  then Some ("swap=" +:+ uuid_text (sw_id s) +:+ " SHA256(secret) != stored hash (preimage mismatch)")%string
  else None.
Definition check_htlc_secret_integrity {E} (report : InvariantReport) : M CoreDb InvariantReport E :=
  let* swaps := attempt (query (λ d, sql_select has_revealed (htlc_swaps d))) in
  ret (match swaps with
       | Ok rows => report_rows "htlc_secret_integrity" id (Ok (omap secret_violation rows)) report
       | Err e => record_fail "htlc_secret_integrity" ("query error: " +:+ sqlx_text e) report
       end).

(** *** 7. Cross-chain leg consistency *)

Definition leg_at (i : Z) (l : CrossChainLeg) : bool := lg_leg_index l =? i.
Definition is_confirmed (l : CrossChainLeg) : bool := bool_decide (lg_status l = LConfirmed).
(** The rows of the join of confirmed source legs, whose destination is
    confirmed too, with intents that are not completed. *)
Definition unfinalized (d : CoreDb) : list (CrossChainLeg * Intent) :=
  l ← sql_select (λ l, leg_at 0 l && is_confirmed l
        && existsb (λ l2, (lg_fill_id l2 =? lg_fill_id l)%N && leg_at 1 l2 && is_confirmed l2)
             (cross_chain_legs d)) (cross_chain_legs d);
  i ← sql_select (λ i, (i_id i =? lg_intent_id l)%N && negb (bool_decide (i_status i = ICompleted))) (intents d);
  [(l, i)].

Definition is_settled_leg (s : LegStatus) : bool := match s with LRefunded | LFailed | LConfirmed => true | _ => false end.
Definition refund_mismatch (src dest : CrossChainLeg) : bool :=
  (bool_decide (lg_status src = LRefunded) && negb (is_settled_leg (lg_status dest)))
  || (bool_decide (lg_status dest = LRefunded) && negb (is_settled_leg (lg_status src))).
Definition mismatched_refunds (d : CoreDb) : list (CrossChainLeg * CrossChainLeg) :=
  src ← sql_select (leg_at 0) (cross_chain_legs d);
  dest ← sql_select (λ dest, (lg_fill_id dest =? lg_fill_id src)%N && leg_at 1 dest && refund_mismatch src dest)
           (cross_chain_legs d);
  [(src, dest)].

Definition check_cross_chain_leg_consistency {E} (report : InvariantReport) : M CoreDb InvariantReport E :=
  let* wrong_count := attempt (query (λ d, groups lg_fill_id (λ n, negb (n =? 2)) (cross_chain_legs d))) in
  let report := report_rows "cross_chain_leg_count" (λ '(fill_id, count),
    "fill_id=" +:+ uuid_text fill_id +:+ " has " +:+ print_int count +:+ " legs (expected 2)")
    wrong_count report in
  let* rows := attempt (query unfinalized) in
  let report := report_rows "cross_chain_unfinalized" (λ '(l, i),
    "fill=" +:+ uuid_text (lg_fill_id l) +:+ " intent=" +:+ uuid_text (lg_intent_id l)
    +:+ " both legs confirmed but intent status=" +:+ intent_label (i_status i)) rows report in
  let* mismatched := attempt (query mismatched_refunds) in
  ret (report_rows "cross_chain_refund_mismatch" (λ '(src, dest),
    "fill=" +:+ uuid_text (lg_fill_id src) +:+ " source=" +:+ leg_label (lg_status src) +:+ " dest="
    +:+ leg_label (lg_status dest) +:+ " (refund not cascaded)") mismatched report).

(** *** 8. Ledger debits equal credits *)

Definition ledger_net (d : CoreDb) (b : Balance) : Z :=
  sum_by net (sql_select (λ e, (l_account_id e =? b_account_id b)%N && bool_decide (l_asset e = b_asset b))
                (ledger_entries d)).
(** The sums are computed for every group, before the WHERE. *)
Definition mismatches (d : CoreDb) : option (list (Balance * Z)) :=
  if forallb (λ e, in_i64b (net e)) (ledger_entries d) && forallb (λ b, in_i64b (total b)) (balances d)
  then Some (sql_select (λ '(b, n), negb (total b =? n)) ((λ b, (b, ledger_net d b)) <$> balances d))
  else None.
Definition check_ledger_debits_equal_credits {E} (report : InvariantReport) : M CoreDb InvariantReport E :=
  let* rows := attempt (
    let* rows := stmt (λ d, (λ s, (s, d)) <$> mismatches d) in
    decode_rows rows id) in
  ret (report_rows "ledger_balance_match" (λ '(b, n),
    "account=" +:+ uuid_text (b_account_id b) +:+ " asset=" +:+ Engine.asset_text (b_asset b) +:+ " balance="
    +:+ print_int (total b) +:+ " ledger=" +:+ print_int n +:+ " diff=" +:+ print_int (i64 (total b - n)))
    rows report).

Definition run_all {E} : M CoreDb InvariantReport E :=
  let* report := check_no_negative_balances new in
  let* report := check_balance_sum_constant report in
  let* report := check_no_orphan_locked_funds report in
  let* report := check_no_double_settlement report in
  let* report := check_htlc_terminal_states report in
  let* report := check_htlc_secret_integrity report in
  let* report := check_cross_chain_leg_consistency report in
  check_ledger_debits_equal_credits report.
End checker.
End InvariantChecker.
