(* ===== verification/VerifyCorrect.v ===== *)
(** * What the invariant checker checks

    Its verdict is a specification of the platform's tables; that of a
    platform whose ledger is kept the way the ledger service keeps it is never
    the good one. *)
From stdpp Require Import gmap.
From S2P Require Import Prelude Monad Float64 Model Ledger Balances Settlement Bytes Text Verify.
Import InvariantReport InvariantChecker.
Open Scope Z_scope.

(** ** Reports *)

Lemma passed_record_pass r : passed (record_pass r) = passed r.
Proof. done. Qed.
Lemma passed_record_fail c s r : passed (record_fail c s r) = false.
Proof. unfold passed, record_fail. simpl. by destruct (violations r). Qed.
Lemma passed_fold {R} c (detail : R → string) l r :
  passed (foldl (λ r x, record_fail c (detail x) r) r l) = passed r && bool_decide (l = []).
Proof.
  revert r. induction l as [|x l IH]; intros r; simpl; [by rewrite andb_true_r|].
  by rewrite IH, passed_record_fail, andb_false_r.
Qed.

Definition clean {R} (rows : result (list R) SqlxError) : bool :=
  match rows with Ok [] => true | _ => false end.
Lemma passed_report_rows `{SqlxDisplay} {R} c (detail : R → string) rows r :
  passed (report_rows c detail rows r) = passed r && clean rows.
Proof.
  destruct rows as [[|x l]|e]; simpl.
  - by rewrite andb_true_r.
  - by rewrite passed_fold, passed_record_fail, andb_false_r.
  - by rewrite passed_record_fail, andb_false_r.
Qed.

(** A computation of the checker, whatever fails: it leaves the tables alone,
    and the report it hands on is clean only if the one it got was. *)
Definition checks {E} (m : InvariantReport → M CoreDb InvariantReport E) : Prop :=
  ∀ r e, ∃ r' e', m r e = (Ok r', e') ∧ env_db e' = env_db e ∧ (passed r' = true → passed r = true).

(** What the rows with an asset add up to. *)
Definition sum_of {R} (asset : R → Asset) (w : R → Z) (a : Asset) (rows : list R) : Z :=
  sum_by w (sql_select (λ r, bool_decide (asset r = a)) rows).

(** No sum of amounts is out of the range of a BIGINT. *)
Record readable (d : CoreDb) : Prop := {
  totals_fit b : b ∈ balances d → in_i64 (total b);
  nets_fit l : l ∈ ledger_entries d → in_i64 (net l);
  supplies_fit a : in_i64 (sum_of b_asset total a (balances d));
  bookings_fit a : in_i64 (sum_of l_asset net a (ledger_entries d));
}.

(** A check whose queries are answered and whose sums fit: its verdict on the
    tables. *)
Definition verdict {E} (m : InvariantReport → M CoreDb InvariantReport E) (c : Env CoreDb → bool) : Prop :=
  ∀ r e, env_faults e = [] → readable (env_db e) → ∃ r', m r e = (Ok r', e) ∧ passed r' = passed r && c e.

Lemma answered {T A} (f : T → A) (e : Env T) : env_faults e = [] → query f e = (Ok (f (env_db e)), e).
Proof. intros Hf. unfold query, stmt, faulty, pop_fault. rewrite Hf. simpl. destruct e. by simpl in *; subst. Qed.
Lemma answered_stmt {T A} (f : T → option A) (e : Env T) : env_faults e = [] →
  stmt (λ d, (λ s, (s, d)) <$> f d) e =
    (match f (env_db e) with Some a => Ok a | None => Err SqlDatabase end, e).
Proof.
  intros Hf. unfold stmt, faulty, pop_fault. rewrite Hf. simpl. destruct e. simpl in *; subst.
  by destruct (f _).
Qed.

Section verdicts.
Context {E : Type}.

Lemma verdict_rows `{SqlxDisplay} {R} c (detail : R → string) (q : CoreDb → list R) :
  verdict (E := E) (λ r, let* rows := attempt (query q) in ret (report_rows c detail rows r))
    (λ e, bool_decide (q (env_db e) = [])).
Proof.
  intros r e Hf _. unfold bind, attempt. rewrite answered by done. eexists. split; [done|].
  rewrite passed_report_rows. simpl. by destruct (q _).
Qed.

Lemma verdict_bind (m1 m2 : InvariantReport → M CoreDb InvariantReport E) c1 c2 :
  verdict m1 c1 → verdict m2 c2 → verdict (λ r, let* r := m1 r in m2 r) (λ e, c1 e && c2 e).
Proof.
  intros Hm1 Hm2 r e Hf Hr. destruct (Hm1 r e Hf Hr) as (r1 & E1 & P1). destruct (Hm2 r1 e Hf Hr) as (r2 & E2 & P2).
  exists r2. unfold bind. rewrite E1, E2. split; [done|]. by rewrite P2, P1, andb_assoc.
Qed.
End verdicts.

(** ** Queries without rows *)

Lemma sql_select_nil {R} (p : R → bool) t : sql_select p t = [] ↔ ∀ x, x ∈ t → p x = false.
Proof.
  unfold sql_select. induction t as [|x t IH]; simpl; [by split; [intros _ y ?%elem_of_nil|]|].
  destruct (p x) eqn:Hp.
  - split; [done|]. intros H. by rewrite H in Hp by left.
  - rewrite IH. split; [|naive_solver (eauto using list_elem_of_further)].
    intros H y [->|Hy]%elem_of_cons; auto.
Qed.
Lemma omap_nil {A B} (f : A → option B) l : omap f l = [] ↔ ∀ x, x ∈ l → f x = None.
Proof.
  induction l as [|x l IH]; simpl; [by split; [intros _ y ?%elem_of_nil|]|].
  destruct (f x) eqn:Hf.
  - split; [done|]. intros H. by rewrite H in Hf by left.
  - rewrite IH. split; [|naive_solver (eauto using list_elem_of_further)].
    intros H y [->|Hy]%elem_of_cons; auto.
Qed.
Lemma sql_select_select {R} (p q : R → bool) t :
  sql_select p (sql_select q t) = sql_select (λ x, q x && p x) t.
Proof.
  unfold sql_select. induction t as [|x t IH]; simpl; [done|]. destruct (q x); simpl; [|done].
  by rewrite IH.
Qed.
Lemma groups_nil {R} (key : R → Uuid) (p : Z → bool) rows :
  groups key p rows = [] ↔
  ∀ x, x ∈ rows → p (Z.of_nat (rows_affected (λ r, (key r =? key x)%N) rows)) = false.
Proof.
  unfold groups. rewrite sql_select_nil. split.
  - intros H x Hx. apply (H (key x, _)). apply list_elem_of_fmap. eexists. split; [done|].
    by apply elem_of_remove_dups, list_elem_of_fmap_2.
  - intros H [k n] (k' & [= -> ->] & Hk)%list_elem_of_fmap.
    apply elem_of_remove_dups, list_elem_of_fmap in Hk as (x & -> & Hx). auto.
Qed.
Lemma list_bind_nil {A B} (f : A → list B) l : l ≫= f = [] ↔ ∀ x, x ∈ l → f x = [].
Proof.
  induction l as [|x l IH]; simpl; [by split; [intros _ y ?%elem_of_nil|]|].
  split.
  - intros [H1 H2]%app_nil y [->|Hy]%elem_of_cons; [done|]. by apply IH.
  - intros H. rewrite H by left. simpl. apply IH. eauto using list_elem_of_further.
Qed.

(** ** Sums *)

Lemma lookup_sum_of keys (g : Asset → Z) a : (a ∉ keys → g a = 0) →
  default 0 (lookup_sum a ((λ a, (a, g a)) <$> keys)) = g a.
Proof.
  induction keys as [|k keys IH]; intros H; simpl; [by rewrite H by apply not_elem_of_nil|].
  case_decide as Hk; [by subst|]. apply IH. intros Hn. apply H. by rewrite not_elem_of_cons.
Qed.
Lemma sum_of_absent {R} (asset : R → Asset) w a rows : a ∉ asset <$> rows → sum_of asset w a rows = 0.
Proof.
  intros H. unfold sum_of. rewrite (proj2 (sql_select_nil _ _)); [done|].
  intros r Hr. apply bool_decide_eq_false. intros <-. apply H. by apply list_elem_of_fmap_2.
Qed.

Section sums.
Context `{NumericDecode}.
(** A driver that reads a NUMERIC into an [i64] when it fits. *)
Hypothesis (decodes : ∀ n, numeric_as_i64 n = bigint n).

Lemma decode_rows_run {A} (l : list (A * Z)) (e : Env CoreDb) :
  (∀ k n, (k, n) ∈ l → in_i64 n) → decode_rows l (λ x : SqlxError, x) e = (Ok l, e).
Proof.
  intros Hl. unfold decode_rows. rewrite (mapM_Some_2 _ l l); [done|].
  apply Forall_Forall2_diag, Forall_forall. intros [k n] Hkn. rewrite decodes. unfold bigint.
  by rewrite (proj2 (in_i64b_spec n)) by eauto.
Qed.

Lemma fetch_sums_run {R} (rows : CoreDb → list R) asset w e : env_faults e = [] →
  (∀ r, r ∈ rows (env_db e) → in_i64 (w r)) → (∀ a, in_i64 (sum_of asset w a (rows (env_db e)))) →
  fetch_sums rows asset w e =
    (Ok ((λ a, (a, sum_of asset w a (rows (env_db e)))) <$> remove_dups (asset <$> rows (env_db e))), e).
Proof.
  intros Hf Hw Hs. unfold fetch_sums, bind. rewrite answered_stmt by done. unfold sums_by_asset.
  rewrite (proj2 (forallb_forall _ _)).
  2:{ intros r Hr%list_elem_of_In. by apply in_i64b_spec, Hw. }
  apply decode_rows_run. intros k n (a & [= -> ->] & _)%list_elem_of_fmap. apply Hs.
Qed.
End sums.

(** ** The specification *)

Section specification.
Context `{SqlxDisplay} `{NumericDecode} `{UuidText} (sha256 : bytes → bytes) {E : Type}.

(** What the checker is after, at the time [t]. *)
Record consistent (d : CoreDb) (t : Z) : Prop := {
  balances_solvent : solvent (balances d);
  supply_booked a : (∃ b, b ∈ balances d ∧ b_asset b = a) →
    sum_of b_asset total a (balances d) = sum_of l_asset net a (ledger_entries d);
  locks_backed b : b ∈ balances d → 0 < b_locked_balance b →
    ∃ i x, i ∈ intents d ∧ is_unfinished (i_status i) = true ∧
      x ∈ accounts d ∧ uuid_text (a_user_id x) = i_user_id i ∧ a_id x = b_account_id b;
  settled_once f : f ∈ fills d → f_settled f = true →
    (rows_affected (λ g, f_settled g && (f_intent_id g =? f_intent_id f)%N) (fills d) ≤ 1)%nat;
  swaps_resolved s : s ∈ htlc_swaps d → is_resolved (sw_status s) = true ∨ t ≤ sw_source_timelock s;
  secrets_open s x : s ∈ htlc_swaps d → sw_secret s = Some x →
    sw_status s = HDestClaimed ∨ sw_status s = HSourceUnlocked →
    length x = 32%nat ∧ sha256 x = sw_secret_hash s;
  legs_paired l : l ∈ cross_chain_legs d →
    rows_affected (λ l', (lg_fill_id l' =? lg_fill_id l)%N) (cross_chain_legs d) = 2%nat;
  confirmed_completes l l' i : l ∈ cross_chain_legs d → l' ∈ cross_chain_legs d →
    lg_leg_index l = 0 → lg_leg_index l' = 1 → lg_fill_id l' = lg_fill_id l →
    lg_status l = LConfirmed → lg_status l' = LConfirmed →
    i ∈ intents d → i_id i = lg_intent_id l → i_status i = ICompleted;
  refunds_cascade l l' : l ∈ cross_chain_legs d → l' ∈ cross_chain_legs d →
    lg_leg_index l = 0 → lg_leg_index l' = 1 → lg_fill_id l' = lg_fill_id l →
    (lg_status l = LRefunded → is_settled_leg (lg_status l') = true) ∧
    (lg_status l' = LRefunded → is_settled_leg (lg_status l) = true);
  ledger_matches b : b ∈ balances d → total b = ledger_net d b;
}.

Lemma no_negative_spec d : sql_select is_negative (balances d) = [] ↔ solvent (balances d).
Proof.
  rewrite sql_select_nil. unfold solvent. split; intros Hs b Hb; specialize (Hs b Hb).
  - unfold is_negative in Hs. apply orb_false_iff in Hs as [?%Z.ltb_ge ?%Z.ltb_ge]. lia.
  - unfold is_negative. apply orb_false_iff. rewrite !Z.ltb_ge. lia.
Qed.

Lemma active_intent_spec d acc : has_active_intent d acc = true ↔
  ∃ i x, i ∈ intents d ∧ is_unfinished (i_status i) = true ∧
    x ∈ accounts d ∧ uuid_text (a_user_id x) = i_user_id i ∧ a_id x = acc.
Proof.
  unfold has_active_intent. rewrite existsb_exists. setoid_rewrite andb_true_iff.
  setoid_rewrite existsb_exists. setoid_rewrite andb_true_iff. setoid_rewrite String.eqb_eq.
  setoid_rewrite N.eqb_eq. setoid_rewrite <- list_elem_of_In. naive_solver.
Qed.
Lemma orphans_spec d : sql_select (is_orphan d) (balances d) = [] ↔
  ∀ b, b ∈ balances d → 0 < b_locked_balance b → has_active_intent d (b_account_id b) = true.
Proof.
  rewrite sql_select_nil. unfold is_orphan. apply forall_proper; intros b.
  destruct (Z.ltb_spec 0 (b_locked_balance b)); destruct (has_active_intent _ _); simpl; naive_solver lia.
Qed.

Lemma doubles_spec d : groups f_intent_id (λ n, 1 <? n) (sql_select f_settled (fills d)) = [] ↔
  ∀ f, f ∈ fills d → f_settled f = true →
    (rows_affected (λ g, f_settled g && (f_intent_id g =? f_intent_id f)%N) (fills d) ≤ 1)%nat.
Proof.
  rewrite groups_nil. unfold rows_affected. setoid_rewrite sql_select_select.
  setoid_rewrite elem_of_sql_select. split.
  - intros Hs f Hf Hset. specialize (Hs f (conj Hf Hset)). apply Z.ltb_ge in Hs. lia.
  - intros Hs f [Hf Hset]. specialize (Hs f Hf Hset). apply Z.ltb_ge. lia.
Qed.

Lemma stuck_spec d t : sql_select (is_stuck t) (htlc_swaps d) = [] ↔
  ∀ s, s ∈ htlc_swaps d → is_resolved (sw_status s) = true ∨ t ≤ sw_source_timelock s.
Proof.
  rewrite sql_select_nil. apply forall_proper; intros s. unfold is_stuck.
  destruct (is_resolved _), (Z.ltb_spec (sw_source_timelock s) t); simpl; naive_solver lia.
Qed.

Lemma secrets_spec d : omap (secret_violation sha256) (sql_select has_revealed (htlc_swaps d)) = [] ↔
  ∀ s x, s ∈ htlc_swaps d → sw_secret s = Some x →
    sw_status s = HDestClaimed ∨ sw_status s = HSourceUnlocked →
    length x = 32%nat ∧ sha256 x = sw_secret_hash s.
Proof.
  rewrite omap_nil. setoid_rewrite elem_of_sql_select. split.
  - intros Hs s x Hin Hx Hst. assert (has_revealed s = true) as Hr.
    { unfold has_revealed. rewrite Hx. by destruct Hst as [-> | ->]. }
    specialize (Hs s (conj Hin Hr)). unfold secret_violation in Hs. rewrite Hx in Hs. simpl in Hs.
    destruct (Z.eqb_spec (Z.of_nat (length x)) 32); [|done]. simpl in Hs.
    case_bool_decide; [|done]. split; [lia|done].
  - intros Hs s [Hin Hr]. unfold has_revealed in Hr. destruct (sw_secret s) as [x|] eqn:Hx; [|done].
    destruct (Hs s x Hin Hx) as [Hl Hh]; [destruct (sw_status s); auto; done|].
    unfold secret_violation. rewrite Hx. simpl. rewrite Hl. simpl. by rewrite bool_decide_eq_true_2.
Qed.

Lemma leg_counts_spec d : groups lg_fill_id (λ n, negb (n =? 2)) (cross_chain_legs d) = [] ↔
  ∀ l, l ∈ cross_chain_legs d →
    rows_affected (λ l', (lg_fill_id l' =? lg_fill_id l)%N) (cross_chain_legs d) = 2%nat.
Proof.
  rewrite groups_nil. apply forall_proper; intros l. rewrite negb_false_iff, Z.eqb_eq. naive_solver lia.
Qed.

Lemma leg_at_spec i l : leg_at i l = true ↔ lg_leg_index l = i.
Proof. apply Z.eqb_eq. Qed.
Lemma is_confirmed_spec l : is_confirmed l = true ↔ lg_status l = LConfirmed.
Proof. apply bool_decide_eq_true. Qed.

Lemma unfinalized_spec d : unfinalized d = [] ↔
  ∀ l l' i, l ∈ cross_chain_legs d → l' ∈ cross_chain_legs d →
    lg_leg_index l = 0 → lg_leg_index l' = 1 → lg_fill_id l' = lg_fill_id l →
    lg_status l = LConfirmed → lg_status l' = LConfirmed →
    i ∈ intents d → i_id i = lg_intent_id l → i_status i = ICompleted.
Proof.
  unfold unfinalized. rewrite list_bind_nil. setoid_rewrite elem_of_sql_select.
  setoid_rewrite list_bind_nil. setoid_rewrite elem_of_sql_select. split.
  - intros Hs l l' i Hl Hl' Hi0 Hi1 Hfill Hc Hc' Hi Hid. destruct (decide (i_status i = ICompleted)) as [|Hne]; [done|].
    assert ([(l, i)] = []); [|done]. apply (Hs l).
    + split; [done|]. rewrite (proj2 (leg_at_spec _ _) Hi0), (proj2 (is_confirmed_spec _) Hc). simpl.
      apply existsb_exists. exists l'. rewrite <- list_elem_of_In. split; [done|].
      by rewrite Hfill, N.eqb_refl, (proj2 (leg_at_spec _ _) Hi1), (proj2 (is_confirmed_spec _) Hc').
    + split; [done|]. by rewrite Hid, N.eqb_refl, bool_decide_eq_false_2.
  - intros Hs l [Hl Hcond] i [Hi Hic]. apply andb_true_iff in Hcond as [Hcond (l' & Hl' & Hcond')%existsb_exists].
    apply andb_true_iff in Hcond as [Hi0%leg_at_spec Hc%is_confirmed_spec].
    apply andb_true_iff in Hcond' as [Hcond' Hc'%is_confirmed_spec].
    apply andb_true_iff in Hcond' as [Hfill%N.eqb_eq Hi1%leg_at_spec].
    apply andb_true_iff in Hic as [Hid%N.eqb_eq Hne%negb_true_iff%bool_decide_eq_false].
    apply list_elem_of_In in Hl'. destruct Hne. by apply (Hs l l' i).
Qed.

Lemma refund_mismatch_spec l l' : refund_mismatch l l' = false ↔
  (lg_status l = LRefunded → is_settled_leg (lg_status l') = true) ∧
  (lg_status l' = LRefunded → is_settled_leg (lg_status l) = true).
Proof. unfold refund_mismatch. destruct (lg_status l), (lg_status l'); simpl; naive_solver. Qed.

Lemma refunds_spec d : mismatched_refunds d = [] ↔
  ∀ l l', l ∈ cross_chain_legs d → l' ∈ cross_chain_legs d →
    lg_leg_index l = 0 → lg_leg_index l' = 1 → lg_fill_id l' = lg_fill_id l →
    (lg_status l = LRefunded → is_settled_leg (lg_status l') = true) ∧
    (lg_status l' = LRefunded → is_settled_leg (lg_status l) = true).
Proof.
  unfold mismatched_refunds. rewrite list_bind_nil. setoid_rewrite elem_of_sql_select.
  setoid_rewrite list_bind_nil. setoid_rewrite elem_of_sql_select.
  setoid_rewrite <- refund_mismatch_spec. split.
  - intros Hs l l' Hl Hl' Hi0 Hi1 Hfill. apply not_true_iff_false. intros Hm.
    assert ([(l, l')] = []); [|done]. apply (Hs l); [by rewrite leg_at_spec|].
    split; [done|]. by rewrite Hfill, N.eqb_refl, (proj2 (leg_at_spec _ _) Hi1), Hm.
  - intros Hs l [Hl Hi0%leg_at_spec] l' [Hl' Hc]. apply andb_true_iff in Hc as [Hc Hm].
    apply andb_true_iff in Hc as [Hfill%N.eqb_eq Hi1%leg_at_spec]. by rewrite Hs in Hm.
Qed.

(** The two queries that compare sums. *)
Definition unbooked (d : CoreDb) : list string :=
  omap (sum_mismatch ((λ a, (a, sum_of l_asset net a (ledger_entries d)))
                        <$> remove_dups (l_asset <$> ledger_entries d)))
       ((λ a, (a, sum_of b_asset total a (balances d))) <$> remove_dups (b_asset <$> balances d)).
Lemma unbooked_spec d : unbooked d = [] ↔ ∀ a, (∃ b, b ∈ balances d ∧ b_asset b = a) →
  sum_of b_asset total a (balances d) = sum_of l_asset net a (ledger_entries d).
Proof.
  unfold unbooked. rewrite omap_nil. unfold sum_mismatch.
  assert (∀ a, default 0 (lookup_sum a ((λ a, (a, sum_of l_asset net a (ledger_entries d)))
            <$> remove_dups (l_asset <$> ledger_entries d))) = sum_of l_asset net a (ledger_entries d)) as Hl.
  { intros a. apply lookup_sum_of. rewrite elem_of_remove_dups. apply sum_of_absent. }
  split.
  - intros Hs a (b & Hb & <-). specialize (Hs (b_asset b, sum_of b_asset total (b_asset b) (balances d))).
    simpl in Hs. rewrite Hl in Hs. destruct (Z.eqb_spec (sum_of b_asset total (b_asset b) (balances d))
      (sum_of l_asset net (b_asset b) (ledger_entries d))) as [|Hne]; [done|].
    exfalso. assert (∀ s : string, Some s ≠ None) as Hd by done. eapply Hd, Hs.
    apply list_elem_of_fmap. eexists. split; [done|].
    by apply elem_of_remove_dups, list_elem_of_fmap_2.
  - intros Hs [a n] (a' & [= -> ->] & Ha)%list_elem_of_fmap.
    apply elem_of_remove_dups, list_elem_of_fmap in Ha as (b & -> & Hb). rewrite Hl, Hs by eauto.
    by rewrite Z.eqb_refl.
Qed.

Definition unmatched (d : CoreDb) : list (Balance * Z) :=
  sql_select (λ '(b, n), negb (total b =? n)) ((λ b, (b, ledger_net d b)) <$> balances d).
Lemma unmatched_spec d : unmatched d = [] ↔ ∀ b, b ∈ balances d → total b = ledger_net d b.
Proof.
  unfold unmatched. rewrite sql_select_nil. split.
  - intros Hs b Hb. specialize (Hs (b, ledger_net d b) (list_elem_of_fmap_2 _ _ _ Hb)). simpl in Hs.
    by apply negb_false_iff, Z.eqb_eq in Hs.
  - intros Hs x (b & -> & Hb)%list_elem_of_fmap. by rewrite Hs, Z.eqb_refl.
Qed.

(** ** The verdict of each check *)

Lemma check_secrets_verdict : verdict (E := E) (check_htlc_secret_integrity sha256)
  (λ e, bool_decide (omap (secret_violation sha256) (sql_select has_revealed (htlc_swaps (env_db e))) = [])).
Proof.
  intros r e Hf _. unfold check_htlc_secret_integrity, bind, attempt. rewrite answered by done.
  eexists. split; [done|]. rewrite passed_report_rows. simpl. by destruct (omap _ _).
Qed.

Lemma check_legs_verdict : verdict (E := E) check_cross_chain_leg_consistency
  (λ e, bool_decide (groups lg_fill_id (λ n, negb (n =? 2)) (cross_chain_legs (env_db e)) = [])
        && (bool_decide (unfinalized (env_db e) = []) && bool_decide (mismatched_refunds (env_db e) = []))).
Proof.
  intros r e Hf _. unfold check_cross_chain_leg_consistency, bind, attempt. rewrite !answered by done.
  eexists. split; [done|]. rewrite !passed_report_rows, <- !andb_assoc. simpl.
  by destruct (groups _ _ _), (unfinalized _), (mismatched_refunds _).
Qed.

(** [run_all], from any report. *)
Definition run_from (r : InvariantReport) : M CoreDb InvariantReport E :=
  let* report := check_no_negative_balances r in
  let* report := check_balance_sum_constant report in
  let* report := check_no_orphan_locked_funds report in
  let* report := check_no_double_settlement report in
  let* report := check_htlc_terminal_states report in
  let* report := check_htlc_secret_integrity sha256 report in
  let* report := check_cross_chain_leg_consistency report in
  check_ledger_debits_equal_credits report.

Section readable.
Hypothesis (decodes : ∀ n, numeric_as_i64 n = bigint n).

Lemma check_sums_verdict : verdict (E := E) check_balance_sum_constant
  (λ e, bool_decide (unbooked (env_db e) = [])).
Proof.
  intros r e Hf Hr. unfold check_balance_sum_constant, bind, attempt.
  rewrite (fetch_sums_run decodes balances), (fetch_sums_run decodes ledger_entries) by (done || apply Hr).
  eexists. split; [done|]. rewrite passed_report_rows. unfold unbooked. simpl. by destruct (omap _ _).
Qed.

Lemma check_ledger_verdict : verdict (E := E) check_ledger_debits_equal_credits
  (λ e, bool_decide (unmatched (env_db e) = [])).
Proof.
  intros r e Hf Hr. unfold check_ledger_debits_equal_credits, bind, attempt. rewrite answered_stmt by done.
  unfold mismatches.
  rewrite (proj2 (forallb_forall _ (ledger_entries _))), (proj2 (forallb_forall _ (balances _))).
  2, 3: intros x Hx%list_elem_of_In; apply in_i64b_spec; by apply Hr.
  simpl. fold (unmatched (env_db e)). unfold decode_rows.
  destruct (unmatched (env_db e)) as [|x l] eqn:Hu.
  - eexists. split; [done|]. by rewrite passed_report_rows.
  - destruct (mapM _ _) as [[|y l']|] eqn:Hm; (eexists; split; [done|]).
    + apply length_mapM in Hm. discriminate.
    + by rewrite passed_report_rows.
    + by rewrite passed_report_rows.
Qed.

Lemma run_all_verdict : verdict run_from (λ e,
  let d := env_db e in
  bool_decide (sql_select is_negative (balances d) = [])
  && (bool_decide (unbooked d = [])
  && (bool_decide (sql_select (is_orphan d) (balances d) = [])
  && (bool_decide (groups f_intent_id (λ n, 1 <? n) (sql_select f_settled (fills d)) = [])
  && (bool_decide (sql_select (is_stuck (env_now e)) (htlc_swaps d) = [])
  && (bool_decide (omap (secret_violation sha256) (sql_select has_revealed (htlc_swaps d)) = [])
  && ((bool_decide (groups lg_fill_id (λ n, negb (n =? 2)) (cross_chain_legs d) = [])
       && (bool_decide (unfinalized d = []) && bool_decide (mismatched_refunds d = [])))
  && bool_decide (unmatched d = [])))))))).
Proof.
  apply verdict_bind; [apply verdict_rows|]. apply verdict_bind; [apply check_sums_verdict|].
  apply verdict_bind; [apply verdict_rows|]. apply verdict_bind; [apply verdict_rows|].
  apply verdict_bind.
  { intros r e Hf Hr. eapply (verdict_rows _ _ (λ d, sql_select (is_stuck (env_now e)) (htlc_swaps d))); done. }
  apply verdict_bind; [apply check_secrets_verdict|].
  apply verdict_bind; [apply check_legs_verdict|apply check_ledger_verdict].
Qed.

End readable.

(** ** Whatever fails *)

Lemma checks_ret (f : InvariantReport → InvariantReport) : (∀ r, passed (f r) = true → passed r = true) →
  checks (E := E) (λ r, ret (f r)).
Proof. intros Hf r e. exists (f r), e. auto. Qed.
Lemma checks_after (f : InvariantReport → InvariantReport) (k : InvariantReport → M CoreDb InvariantReport E) :
  (∀ r, passed (f r) = true → passed r = true) → checks k → checks (λ r, k (f r)).
Proof. intros Hf Hk r e. destruct (Hk (f r) e) as (r' & e' & ? & ? & ?). exists r', e'. auto. Qed.
Lemma checks_attempt {A} (m : M CoreDb A SqlxError) (k : result A SqlxError → InvariantReport → M CoreDb InvariantReport E) :
  keeps id m → (∀ rows, checks (k rows)) → checks (λ r, let* rows := attempt m in k rows r).
Proof.
  intros Hm Hk r e. unfold bind, attempt. specialize (Hm e). destruct (m e) as [rows e1]. simpl in Hm.
  destruct (Hk rows r e1) as (r' & e' & ? & Hdb & ?). exists r', e'. by rewrite Hdb.
Qed.
Lemma checks_bind (m1 m2 : InvariantReport → M CoreDb InvariantReport E) :
  checks m1 → checks m2 → checks (λ r, let* r := m1 r in m2 r).
Proof.
  intros Hm1 Hm2 r e. destruct (Hm1 r e) as (r1 & e1 & E1 & D1 & P1). destruct (Hm2 r1 e1) as (r2 & e2 & E2 & D2 & P2).
  exists r2, e2. unfold bind. rewrite E1, E2, D2, D1. auto.
Qed.
Lemma report_rows_mono {R} c (detail : R → string) rows r : passed (report_rows c detail rows r) = true → passed r = true.
Proof. rewrite passed_report_rows. by intros [? _]%andb_true_iff. Qed.
Lemma record_fail_mono c x r : passed (record_fail c x r) = true → passed r = true.
Proof. by rewrite passed_record_fail. Qed.
Hint Resolve report_rows_mono record_fail_mono : core.

Lemma checks_rows {R} c (detail : R → string) (q : CoreDb → list R) :
  checks (E := E) (λ r, let* rows := attempt (query q) in ret (report_rows c detail rows r)).
Proof. apply checks_attempt; [apply keeps_query|]. intros rows. apply checks_ret. eauto. Qed.

Lemma keeps_fetch_sums {R} (rows : CoreDb → list R) asset w : keeps id (fetch_sums rows asset w).
Proof.
  unfold fetch_sums, decode_rows. apply keeps_bind; [|intros; auto with keeps].
  apply keeps_stmt. intros d x d' Hs. destruct (sums_by_asset _ _ _); [|done]. by injection Hs as _ <-.
Qed.

Lemma checks_sums : checks (E := E) check_balance_sum_constant.
Proof.
  apply checks_attempt; [apply keeps_fetch_sums|]. intros bs.
  apply checks_attempt; [apply keeps_fetch_sums|]. intros ls. apply checks_ret. intros r.
  destruct bs, ls; eauto.
Qed.
Lemma checks_terminal : checks (E := E) check_htlc_terminal_states.
Proof. intros r e. apply (checks_rows _ _ (λ d, sql_select (is_stuck (env_now e)) (htlc_swaps d))). Qed.
Lemma checks_secrets : checks (E := E) (check_htlc_secret_integrity sha256).
Proof.
  apply checks_attempt; [apply keeps_query|]. intros rows. apply checks_ret. intros r. destruct rows; eauto.
Qed.
Lemma checks_legs : checks (E := E) check_cross_chain_leg_consistency.
Proof.
  apply checks_attempt; [apply keeps_query|]. intros rows1.
  apply (checks_after (report_rows _ _ rows1) (λ r,
    let* rows := attempt (query unfinalized) in
    let report := report_rows "cross_chain_unfinalized" _ rows r in
    let* mismatched := attempt (query mismatched_refunds) in
    ret (report_rows "cross_chain_refund_mismatch" _ mismatched report))); [eauto|].
  apply checks_attempt; [apply keeps_query|]. intros rows2.
  apply (checks_after (report_rows _ _ rows2) (λ r,
    let* mismatched := attempt (query mismatched_refunds) in
    ret (report_rows "cross_chain_refund_mismatch" _ mismatched r))); [eauto|].
  apply checks_rows.
Qed.

(** A check that reports every platform with a defect. *)
Definition flags (m : InvariantReport → M CoreDb InvariantReport E) (defect : CoreDb → Prop) : Prop :=
  ∀ r e, defect (env_db e) → ∃ r' e', m r e = (Ok r', e') ∧ passed r' = false.
Lemma flags_later (m1 m2 : InvariantReport → M CoreDb InvariantReport E) defect :
  checks m1 → flags m2 defect → flags (λ r, let* r := m1 r in m2 r) defect.
Proof.
  intros Hm1 Hm2 r e Hd. destruct (Hm1 r e) as (r1 & e1 & E1 & D1 & _).
  destruct (Hm2 r1 e1) as (r2 & e2 & E2 & P2); [by rewrite D1|].
  exists r2, e2. unfold bind. by rewrite E1, E2.
Qed.

(** A mismatch is reported, or the query fails, which is reported too. *)
Lemma ledger_mismatch_reported :
  flags check_ledger_debits_equal_credits (λ d, ∃ b, b ∈ balances d ∧ total b ≠ ledger_net d b).
Proof.
  intros r e (b & Hb & Hne). unfold check_ledger_debits_equal_credits, bind, attempt, stmt.
  destruct (faulty e); [eexists _, _; split; [done|]; by rewrite passed_report_rows, andb_false_r|].
  unfold mismatches. destruct (_ && _).
  2:{ eexists _, _. split; [done|]. by rewrite passed_report_rows, andb_false_r. }
  fold (unmatched (env_db e)). simpl. unfold decode_rows.
  destruct (mapM _ _) as [l|] eqn:Hm; (eexists _, _; split; [done|]; rewrite passed_report_rows; simpl).
  2: by rewrite andb_false_r.
  destruct l; [|by rewrite andb_false_r]. exfalso. apply length_mapM in Hm.
  destruct (unmatched (env_db e)) eqn:Hu; [|done]. by eapply unmatched_spec in Hu.
Qed.

(** The checker counts a credit as money in, the ledger service a debit. *)
Lemma ledger_net_opposite d b :
  ledger_net d b = - LedgerRepository.ledger_sum (b_account_id b) (b_asset b) (ledger_entries d).
Proof.
  unfold ledger_net, LedgerRepository.ledger_sum. induction (sql_select _ _) as [|x l IH]; simpl; [done|].
  rewrite IH. unfold net, LedgerRepository.signed_amount. destruct (l_entry_type x); lia.
Qed.

Lemma run_flags : flags run_from (λ d, ∃ b, b ∈ balances d ∧ total b ≠ ledger_net d b).
Proof.
  apply flags_later; [apply checks_rows|]. apply flags_later; [apply checks_sums|].
  apply flags_later; [apply checks_rows|]. apply flags_later; [apply checks_rows|].
  apply flags_later; [apply checks_terminal|]. apply flags_later; [apply checks_secrets|].
  apply flags_later; [apply checks_legs|apply ledger_mismatch_reported].
Qed.

(** The checker reports every platform that is in order.  It nets credits
    less debits where the ledger service books a deposit as a debit: as soon as
    one account holds anything, a platform whose balances are what its ledger
    adds up to gets a report with violations, whatever the queries return (a
    flaw). *)
Theorem reconciled_funds_are_reported e b : reconciled (env_db e) → wf_balances (balances (env_db e)) →
  b ∈ balances (env_db e) → total b ≠ 0 →
  ∃ report e', run_all sha256 (E := E) e = (Ok report, e') ∧ passed report = false.
Proof.
  intros Hrec Hwf Hb Ht. apply (run_flags new e). exists b. split; [done|]. rewrite ledger_net_opposite.
  pose proof (Hrec (b_key b)) as Hk. rewrite available_row, locked_row in Hk by done.
  unfold total in *. simpl in Hk. lia.
Qed.
End specification.

(** ** A platform that passes, and one in order that does not *)

Module VerifyExample.
#[export] Instance display : SqlxDisplay := {| sqlx_text := λ _, "error"%string |}.
#[export] Instance integers : NumericDecode := {| numeric_as_i64 := bigint |}.
#[export] Existing Instance DecimalUuid.instance.
Lemma integers_decode n : numeric_as_i64 n = bigint n.
Proof. done. Qed.
Definition sha256 (b : bytes) : bytes := b.
Definition secret : bytes := replicate 32 7.

Definition leg (index : Z) : CrossChainLeg :=
  mkLeg (N.of_nat (Z.to_nat index)) 4 5 index "ethereum" "a" "b" None 10 None LConfirmed None 900 100 None.
Definition swap : HtlcSwap :=
  mkSwap 1 5 4 secret (Some secret) "ethereum" "a" "b" None 10 None None 500 "solana" "c" "d" None 10 None None
    HDestClaimed "solver" None 100 None None None.
(** One account holds ten, booked as a credit, with an intent that completed. *)
Definition platform : CoreDb :=
  set_balances [mkBalance 1 2 USDC 4 6 100]
    (set_ledger_entries [mkLedgerEntry 1 2 USDC 10 CREDIT DEPOSIT 9 100]
    (set_accounts [mkAccount 2 3 Spot 100]
    (set_intents [mkIntent 4 "3" "USDC" "ETH" 10 1 900 ICompleted 100 Market None None None None "ethereum"
                    "solana" true;
                  mkIntent 6 "3" "USDC" "ETH" 6 1 900 IOpen 100 Market None None None None "ethereum"
                    "ethereum" false]
    (set_fills [mkFill 5 4 "solver" 1 10 10 "" 100 true (Some 100)]
    (set_cross_chain_legs [leg 0; leg 1] (set_htlc_swaps [swap] empty_db)))))).
Definition env (d : CoreDb) : Env CoreDb := mkEnv d [] N.of_nat 0 400.
End VerifyExample.
Import VerifyExample.

Lemma platform_readable : readable platform.
Proof.
  split.
  - intros b Hb%list_elem_of_singleton. by subst.
  - intros b Hb%list_elem_of_singleton. by subst.
  - by intros [].
  - by intros [].
Qed.


Lemma reconciled_funds_are_reported_witness :
  ∃ report e', run_all sha256 (E := unit) sample_env = (Ok report, e') ∧ passed report = false.
Proof.
  apply (reconciled_funds_are_reported sha256 sample_env (mkBalance 100 alice USDC 500 100 0)).
  - apply sample_reconciled.
  - apply sample_inv.
  - by vm_compute; left.
  - done.
Defined.
