(* ===== verification/Streams.v ===== *)
(** * Redis streams: [src/src/db/stream_bus.rs]

    The event bus with consumer groups: the replies of Redis and how they are
    parsed, the commands the bus sends, and the consumer loop.  A stream keeps
    all it ever was given; [st_trimmed] of its oldest entries are gone.  What
    Redis does with a command is its documentation's: XADD appends under a new
    id and may drop entries beyond the length it is given, XREADGROUP with [>]
    hands a group the entries it was not handed yet and keeps them pending until
    XACK. *)
From stdpp Require Import gmap.
From S2P Require Import Prelude Monad Model Bytes Text Strings.
Open Scope Z_scope.

Definition STREAM_INTENT_CREATED : string := "stream:intent.created".
Definition STREAM_BID_SUBMITTED : string := "stream:bid.submitted".
Definition STREAM_AUCTION_ENDED : string := "stream:auction.ended".
Definition STREAM_TRADE_EXECUTED : string := "stream:trade.executed".
Definition STREAM_TRADE_SETTLED : string := "stream:trade.settled".
Definition STREAM_BALANCE_UPDATED : string := "stream:balance.updated".
Definition STREAM_MARKET_TRADE : string := "stream:market.trade".
Definition STREAM_EXECUTION_COMPLETED : string := "stream:execution.completed".
Definition STREAM_INTENT_SETTLED : string := "stream:intent.settled".
Definition ALL_STREAMS : list string :=
  [STREAM_INTENT_CREATED; STREAM_BID_SUBMITTED; STREAM_AUCTION_ENDED; STREAM_TRADE_EXECUTED;
   STREAM_TRADE_SETTLED; STREAM_BALANCE_UPDATED; STREAM_MARKET_TRADE; STREAM_EXECUTION_COMPLETED;
   STREAM_INTENT_SETTLED].

Record StreamEvent := mkStreamEvent {
  se_event_type : string; se_payload : string; se_event_id : string; se_timestamp : Z;
}.
#[export] Instance stream_event_eq_dec : EqDecision StreamEvent.
Proof. solve_decision. Defined.

Definition MAX_STREAM_LEN : nat := Z.to_nat 10000.

(** ** Replies *)

(** [redis::Value] *)
Inductive Value := Nil | Int (n : Z) | BulkString (b : bytes) | Array (l : list Value) | OtherValue.

Definition bulk (s : string) : Value := BulkString (as_bytes s).
Definition as_text (v : Value) : option string :=
  match v with BulkString b => Some (from_utf8_lossy b) | _ => None end.

Fixpoint collect_pairs (map : gmap string string) (arr : list Value) : gmap string string :=
  match arr with
  | k :: v :: rest =>
      collect_pairs (match as_text k, as_text v with
                     | Some key, Some val => <[key := val]> map
                     | _, _ => map
                     end) rest
  | _ => map
  end.
Definition parse_field_pairs (arr : list Value) : gmap string string := collect_pairs ∅ arr.

Definition fields_to_event (fields : gmap string string) : option StreamEvent :=
  event_type ← fields !! "event_type"%string;
  payload ← fields !! "payload"%string;
  Some (mkStreamEvent event_type payload (default ""%string (fields !! "event_id"%string))
          (default 0 (fields !! "timestamp"%string ≫= parse_i64))).

(** The fields of a message that is an array of two. *)
Definition message_event (fields : Value) : option StreamEvent :=
  match fields with Array arr => fields_to_event (parse_field_pairs arr) | _ => None end.

Definition parse_message (msg : Value) : option (string * StreamEvent) :=
  match msg with
  | Array [id; fields] =>
      redis_id ← as_text id;
      event ← message_event fields;
      Some (redis_id, event)
  | _ => None
  end.
Definition parse_stream_entry (stream_entry : Value) : option (string * list (string * StreamEvent)) :=
  match stream_entry with
  | Array [name; messages] =>
      stream_name ← as_text name;
      match messages with Array messages => Some (stream_name, omap parse_message messages) | _ => None end
  | _ => None
  end.
Definition parse_xreadgroup_result (value : Value) : list (string * list (string * StreamEvent)) :=
  match value with Array streams => omap parse_stream_entry streams | _ => [] end.

Definition parse_xrange_message (msg : Value) : option StreamEvent :=
  match msg with Array [_; fields] => message_event fields | _ => None end.
Definition parse_xrange_result (value : Value) : list StreamEvent :=
  match value with Array messages => omap parse_xrange_message messages | _ => [] end.

(** ** Redis *)

Definition Entry : Type := string * list (string * string).
Record Group := mkGroup { g_delivered : nat; g_pending : list string }.
Record Stream := mkStream { st_entries : list Entry; st_trimmed : nat; st_groups : gmap string Group }.
Definition no_stream : Stream := mkStream [] 0 ∅.

(** The streams, and the events the consumer has handled so far. *)
Record World := mkWorld { streams : gmap string Stream; handled : list StreamEvent }.
Definition stream_at (w : World) (s : string) : Stream := default no_stream (streams w !! s).
Definition set_stream (s : string) (st : Stream) (w : World) : World :=
  mkWorld (<[s := st]> (streams w)) (handled w).

Inductive StreamError := ConnectionFailed | Refused (message : string) | SerializationFailed (e : string).

Section redis.
(** How many of the oldest entries the server has dropped when a stream of this
    length is added to with MAXLEN ~ 10000; the id of the nth entry. *)
Context (trim : nat → nat) (entry_id : nat → string).

Definition xadd (s : string) (maxlen : bool) (fields : list (string * string)) (w : World) : string * World :=
  let st := stream_at w s in
  let id := entry_id (length (st_entries st)) in
  let all := st_entries st ++ [(id, fields)] in
  (id, set_stream s (mkStream all
         (if maxlen then Nat.max (st_trimmed st) (trim (length all)) else st_trimmed st) (st_groups st)) w).

(** XGROUP CREATE s g 0 MKSTREAM *)
Definition xgroup_create (s g : string) (w : World) : result World string :=
  let st := stream_at w s in
  match st_groups st !! g with
  | Some _ => Err "BUSYGROUP Consumer Group name already exists"%string
  | None => Ok (set_stream s (mkStream (st_entries st) (st_trimmed st) (<[g := mkGroup 0 []]> (st_groups st))) w)
  end.

Definition start (st : Stream) (grp : Group) : nat := Nat.max (g_delivered grp) (st_trimmed st).
Definition batch (count : nat) (st : Stream) (grp : Group) : list Entry :=
  take count (drop (start st grp) (st_entries st)).
Definition deliver (count : nat) (s g : string) (w : World) : option (list Entry * World) :=
  let st := stream_at w s in
  grp ← st_groups st !! g;
  let b := batch count st grp in
  Some (b, set_stream s (mkStream (st_entries st) (st_trimmed st)
             (<[g := mkGroup (start st grp + length b) (g_pending grp ++ (fst <$> b))]> (st_groups st))) w).

Definition entry_value (en : Entry) : Value :=
  Array [bulk (fst en); Array ((snd en) ≫= λ '(k, v), [bulk k; bulk v])].
Definition stream_value '((s, b) : string * list Entry) : Value := Array [bulk s; Array (entry_value <$> b)].

(** XREADGROUP .. COUNT count STREAMS ss > .. >: the streams with news, or nil. *)
Fixpoint read_streams (count : nat) (g : string) (ss : list string) (w : World)
  : option (list (string * list Entry) * World) :=
  match ss with
  | [] => Some ([], w)
  | s :: rest =>
      '(b, w1) ← deliver count s g w;
      '(l, w2) ← read_streams count g rest w1;
      Some (if b is [] then l else (s, b) :: l, w2)
  end.
Definition reply (l : list (string * list Entry)) : Value :=
  match l with [] => Nil | _ => Array (stream_value <$> l) end.

Definition xack (s g id : string) (w : World) : Z * World :=
  let st := stream_at w s in
  match st_groups st !! g with
  | Some grp =>
      (1, set_stream s (mkStream (st_entries st) (st_trimmed st)
            (<[g := mkGroup (g_delivered grp) (List.filter (λ x, negb (String.eqb x id)) (g_pending grp))]>
               (st_groups st))) w)
  | None => (0, w)
  end.

Definition xrevrange (s : string) (count : nat) (w : World) : Value :=
  let st := stream_at w s in
  Array (entry_value <$> take count (rev (drop (st_trimmed st) (st_entries st)))).

(** ** The bus *)

Definition command {A} (f : World → A * World) : M World A StreamError :=
  map_err (λ _, ConnectionFailed) (stmt (λ w, Some (f w))).

Section bus.
Context `{UuidText} (error_text : StreamError → string).

(** [json] is what serde_json makes of the payload. *)
Definition publish (stream : string) (json : result string string) : M World string StreamError :=
  match json with
  | Err e => throw (SerializationFailed e)
  | Ok json =>
      let* id := new_v4 in
      let event_id := uuid_text id in
      let* ts := now in
      command (xadd stream true
        [("event_type", stream); ("payload", json); ("event_id", event_id); ("timestamp", print_int ts)]%string)
  end.

Definition ensure_group (stream group : string) : M World unit StreamError :=
  let* exists_ := command (λ w, (match streams w !! stream with Some _ => true | None => false end, w)) in
  (if negb exists_ then command (xadd stream false [("_init", "1")]%string) ;;; ret tt else ret tt) ;;;
  let* result := attempt (
    let* created := command (λ w, match xgroup_create stream group w with
                                  | Ok w' => (Ok tt, w')
                                  | Err e => (Err e, w)
                                  end) in
    match created with Ok _ => ret tt | Err e => throw (Refused e) end) in
  match result with
  | Ok _ => ret tt
  | Err e => if contains "BUSYGROUP" (error_text e) then ret tt else throw e
  end.

Definition BATCH : nat := 10.

(** [conn.xreadgroup(..)]; a group that is not there is an error. *)
Definition read_group (group : string) (streams : list string) : M World Value StreamError :=
  let* r := command (λ w, match read_streams BATCH group streams w with
                          | Some (l, w') => (Ok (reply l), w')
                          | None => (Err "NOGROUP"%string, w)
                          end) in
  match r with Ok v => ret v | Err e => throw (Refused e) end.

(** What the loop does with an event: the handler, then XACK, whose failure
    counts as 0. *)
Definition process (handler : StreamEvent → World → World) (group stream_name : string)
    '((redis_id, event) : string * StreamEvent) : M World unit StreamError :=
  modify (handler event) ;;;
  attempt (command (xack stream_name group redis_id)) ;;;
  ret tt.

(** One turn of the loop. *)
Definition read_round (streams : list string) (group : string) (handler : StreamEvent → World → World)
  : M World unit StreamError :=
  let* result := read_group group streams in
  mfor (parse_xreadgroup_result result) (λ '(stream_name, events), mfor events (process handler group stream_name)).

(** The loop never ends by itself: [n] of its turns. *)
Fixpoint rounds (n : nat) (streams : list string) (group : string) (handler : StreamEvent → World → World)
  : M World unit StreamError :=
  match n with
  | O => ret tt
  | S n => read_round streams group handler ;;; rounds n streams group handler
  end.
Definition subscribe (n : nat) (streams : list string) (group : string) (handler : StreamEvent → World → World)
  : M World unit StreamError :=
  mfor streams (λ stream, ensure_group stream group) ;;;
  rounds n streams group handler.

Definition read_recent (stream : string) (count : nat) : M World (list StreamEvent) StreamError :=
  let* result := command (λ w, (xrevrange stream count w, w)) in
  ret (parse_xrange_result result).
End bus.
End redis.
