(* ===== verification/StreamsCorrect.v ===== *)
(** * What a consumer of the event bus gets to see

    Over histories in which anyone adds to the streams, the consumer reads and
    handles, and its process may die between two events. *)
From Stdlib Require Import Relations.
From stdpp Require Import gmap relations.
From S2P Require Import Prelude Monad Model Bytes Text Strings Streams.
Open Scope Z_scope.

(** The event in an entry, as the consumer parses it. *)
Definition event_of (en : Entry) : option StreamEvent := snd <$> parse_message (entry_value en).

(** ** A published event is the event that is read *)

Section roundtrip.
Context `{UuidText} (trim : nat → nat) (entry_id : nat → string).

Lemma as_text_bulk s : is_text s → as_text (bulk s) = Some s.
Proof. intros Hs. unfold as_text, bulk. by rewrite from_utf8_as_bytes. Qed.

Lemma collect_pairs_text m fields : Forall (λ '(k, v), is_text k ∧ is_text v) fields →
  collect_pairs m (fields ≫= λ '(k, v), [bulk k; bulk v]) = foldl (λ m '(k, v), <[k := v]> m) m fields.
Proof.
  intros Hf. revert m. induction Hf as [|[k v] fields [Hk Hv] Hf IH]; intros m; [done|].
  cbn [mbind list_bind app collect_pairs foldl]. rewrite !as_text_bulk by done. apply IH.
Qed.
Hypothesis (ids_are_text : ∀ n, is_text (entry_id n)).
Hypothesis (uuids_are_text : ∀ u, is_text (uuid_text u)).

Lemma command_Ok {A} (f : World → A * World) e a e' : command f e = (Ok a, e') →
  env_now e' = env_now e ∧ (a, env_db e') = f (env_db e).
Proof.
  unfold command. intros Hr. run_inv. destruct (f (env_db e)) as [a' w] eqn:Hf. by simplify_eq.
Qed.

(** What is published is read.  A published event becomes one entry at the
    end of its stream, under the id the server returns, and a consumer parses
    that entry to the same event: the stream as type, the payload byte for
    byte, the id the bus drew, and the time of publication. *)
Theorem published_events_are_read stream json e id e' :
  is_text stream → is_text json → in_i64 (env_now e) →
  publish trim entry_id stream (Ok json) e = (Ok id, e') →
  ∃ en, st_entries (stream_at (env_db e') stream) = st_entries (stream_at (env_db e) stream) ++ [en] ∧
    parse_message (entry_value en) =
      Some (id, mkStreamEvent stream json (uuid_text (env_uuid e (env_drawn e))) (env_now e)).
Proof.
  intros Hs Hj Hnow Hrun. unfold publish in Hrun. apply bind_Ok in Hrun as (u & e1 & [= <- <-] & Hrun).
  apply bind_Ok in Hrun as (t & e2 & [-> ->]%now_Ok & Hrun). apply command_Ok in Hrun as [_ Hrun].
  simpl in Hrun. injection Hrun as -> ->. unfold stream_at, set_stream. simpl. rewrite lookup_insert_eq. simpl.
  eexists. split; [done|]. unfold entry_value, parse_message. cbn [fst snd].
  rewrite from_utf8_as_bytes by done. unfold parse_field_pairs. rewrite collect_pairs_text.
  2:{ repeat constructor; (apply ids_are_text || apply uuids_are_text || apply print_int_text || done). }
  simpl. unfold fields_to_event.
  repeat (rewrite lookup_insert_eq || rewrite lookup_insert_ne by done). simpl. by rewrite parse_print_int.
Qed.
End roundtrip.

(** ** One consumer of one stream *)

Section consumer.
Context (s g : string).

(** How far the group was handed the stream. *)
Definition delivered (w : World) : option nat := g_delivered <$> st_groups (stream_at w s) !! g.
Definition entries (w : World) : list Entry := st_entries (stream_at w s).

(** What may happen between two reads of the consumer: entries are added and
    trimmed, and none of it moves the group. *)
Record evolves (w w' : World) : Prop := {
  ev_entries : entries w `prefix_of` entries w';
  ev_trimmed : (st_trimmed (stream_at w s) ≤ st_trimmed (stream_at w' s))%nat;
  ev_delivered : delivered w' = delivered w;
}.
#[local] Instance evolves_preorder : PreOrder evolves.
Proof.
  split.
  - intros w. by split.
  - intros w1 w2 w3 [He1 Ht1 Hd1] [He2 Ht2 Hd2]. split; [by etrans|lia|congruence].
Qed.

Lemma stream_at_set s' st w : stream_at (set_stream s' st w) s = if decide (s' = s) then st else stream_at w s.
Proof.
  unfold stream_at, set_stream. simpl. case_decide; [subst; by rewrite lookup_insert_eq|].
  by rewrite lookup_insert_ne.
Qed.
Lemma evolves_set s' st w :
  (s' = s → entries w `prefix_of` st_entries st ∧ (st_trimmed (stream_at w s) ≤ st_trimmed st)%nat ∧
    g_delivered <$> st_groups st !! g = delivered w) → evolves w (set_stream s' st w).
Proof.
  intros Hs. split; unfold delivered, entries; rewrite stream_at_set; case_decide; try done; by apply Hs.
Qed.

Lemma evolves_xadd trim entry_id s' m fields w : evolves w (snd (xadd trim entry_id s' m fields w)).
Proof.
  apply evolves_set. intros ->. unfold entries. simpl. split_and!; [by eexists|destruct m; lia|done].
Qed.
Lemma evolves_xack s' g' id w : evolves w (snd (xack s' g' id w)).
Proof.
  unfold xack. destruct (st_groups _ !! g') as [grp|] eqn:Hg; [|done].
  apply evolves_set. intros ->. split_and!; [done|done|]. simpl. unfold delivered.
  destruct (decide (g' = g)) as [->|Hne]; [rewrite lookup_insert_eq, Hg; reflexivity|by rewrite lookup_insert_ne].
Qed.
Lemma handled_xack s' g' id w : handled (snd (xack s' g' id w)) = handled w.
Proof. unfold xack. by destruct (st_groups _ !! g'). Qed.

(** A handler: it is told of one event and may publish others. *)
Context (handler : StreamEvent → World → World).
Hypothesis (handler_handles : ∀ ev w, handled (handler ev w) = handled w ++ [ev]).
Hypothesis (handler_publishes : ∀ ev w, evolves w (handler ev w)).

Lemma process_run s' id ev e : ∃ e', process handler g s' (id, ev) e = (Ok tt, e') ∧
  evolves (env_db e) (env_db e') ∧ handled (env_db e') = handled (env_db e) ++ [ev] ∧
  (env_faults e = [] → env_faults e' = []).
Proof.
  unfold process, bind, modify, attempt, command, map_err, stmt. cbv beta iota.
  destruct (faulty (with_db (handler ev (env_db e)) e)).
  { eexists. split; [reflexivity|]. split_and!; [apply handler_publishes|apply handler_handles|].
    simpl. by intros ->. }
  pose proof (evolves_xack s' g id (handler ev (env_db e))) as Hv.
  pose proof (handled_xack s' g id (handler ev (env_db e))) as Hh.
  simpl. destruct (xack s' g id (handler ev (env_db e))) as [n w]. simpl in *.
  eexists. split; [reflexivity|]. simpl. rewrite Hh. split_and!; [|apply handler_handles|by intros ->].
  etrans; [apply handler_publishes|done].
Qed.
Lemma process_events s' evs e : ∃ e', mfor evs (process handler g s') e = (Ok tt, e') ∧
  evolves (env_db e) (env_db e') ∧ handled (env_db e') = handled (env_db e) ++ (snd <$> evs) ∧
  (env_faults e = [] → env_faults e' = []).
Proof.
  revert e. induction evs as [|[id ev] evs IH]; intros e; cbn [mfor].
  - exists e. simpl. by rewrite app_nil_r.
  - destruct (process_run s' id ev e) as (e1 & E1 & V1 & H1 & F1). destruct (IH e1) as (e2 & E2 & V2 & H2 & F2).
    exists e2. unfold bind. rewrite E1, E2. split; [done|]. split_and!; [by etrans| |auto].
    by rewrite H2, H1, <- app_assoc.
Qed.

(** What a read hands over: nothing when it fails, or else the next entries
    that are still there, at most ten. *)
Definition next_batch (d : nat) (w : World) : list Entry :=
  take BATCH (drop (Nat.max d (st_trimmed (stream_at w s))) (entries w)).
Definition after_batch (d : nat) (w : World) : nat :=
  Nat.max d (st_trimmed (stream_at w s)) + length (next_batch d w).

Lemma parse_messages (b : list Entry) : snd <$> omap parse_message (entry_value <$> b) = omap event_of b.
Proof.
  induction b as [|en b IH]; [done|]. unfold event_of in *. cbn [fmap list_fmap omap list_omap].
  rewrite <- IH. by destruct (parse_message (entry_value en)).
Qed.

Record handed (d : nat) (v : Value) (w w1 : World) : Prop := {
  hd_before : delivered w = Some d;
  hd_messages : ∃ name, parse_xreadgroup_result v =
    if next_batch d w is [] then [] else [(name, omap parse_message (entry_value <$> next_batch d w))];
  hd_entries : entries w1 = entries w;
  hd_handled : handled w1 = handled w;
  hd_trimmed : st_trimmed (stream_at w1 s) = st_trimmed (stream_at w s);
  hd_after : delivered w1 = Some (after_batch d w);
}.

Lemma read_group_run e r e1 : read_group g [s] e = (r, e1) →
  match r with
  | Err _ => env_db e1 = env_db e
  | Ok v => ∃ d, handed d v (env_db e) (env_db e1)
  end ∧ (env_faults e = [] → delivered (env_db e) ≠ None → is_ok r = true ∧ env_faults e1 = []).
Proof.
  unfold read_group, command, bind, map_err, stmt. destruct (faulty e) eqn:Hf.
  { intros [= <- <-]. split; [done|]. intros Hno. unfold faulty in Hf. by rewrite Hno in Hf. }
  cbn [read_streams]. unfold deliver, delivered.
  destruct (st_groups (stream_at (env_db e) s) !! g) as [grp|] eqn:Hg; cbn -[batch].
  2:{ intros [= <- <-]. split; [done|]. by intros _ []. }
  intros [= <- <-]. split.
  - exists (g_delivered grp).
    split; unfold entries, delivered; cbn -[batch next_batch after_batch]; rewrite ?stream_at_set, ?decide_True by done;
      cbn -[batch next_batch after_batch].
    + by rewrite Hg.
    + exists (from_utf8_lossy (as_bytes s)).
      change (batch BATCH (stream_at (env_db e) s) grp) with (next_batch (g_delivered grp) (env_db e)).
      destruct (next_batch (g_delivered grp) (env_db e)); reflexivity.
    + done.
    + done.
    + done.
    + by rewrite lookup_insert_eq.
  - intros Hno _. split; [done|]. simpl. by rewrite Hno.
Qed.

(** A turn of the loop that the process leaves after [k] events. *)
Definition cut_round (k : nat) : M World unit StreamError :=
  let* result := read_group g [s] in
  mfor (parse_xreadgroup_result result) (λ '(name, events), mfor (take k events) (process handler g name)).

(** A turn, cut short or not: the events it handles. *)
Definition turned (d : nat) (handles : list StreamEvent → list StreamEvent) (w w' : World) : Prop :=
  ∃ w1 v, handed d v w w1 ∧ evolves w1 w' ∧
    handled w' = handled w ++ handles (omap event_of (next_batch d w)).

Lemma turn_run (cut_pairs : list (string * StreamEvent) → list (string * StreamEvent)) cut
    (body : string → list (string * StreamEvent) → M World unit StreamError) e r e' :
  (∀ l, snd <$> cut_pairs l = cut (snd <$> l)) → cut [] = [] →
  (∀ name evs, body name evs = mfor (cut_pairs evs) (process handler g name)) →
  (let* result := read_group g [s] in
   mfor (parse_xreadgroup_result result) (λ '(name, events), body name events)) e = (r, e') →
  (env_db e' = env_db e ∧ ¬ (env_faults e = [] ∧ delivered (env_db e) ≠ None)) ∨
  (r = Ok tt ∧ (env_faults e = [] → env_faults e' = []) ∧ ∃ d, turned d cut (env_db e) (env_db e')).
Proof.
  intros Hmap Hnil Hbody Hrun. apply bind_cases in Hrun as [(x & Hrun)|(v & e1 & Hread & Hrun)].
  { left. apply read_group_run in Hrun as [Hrun Hok]. split; [done|]. intros [Hf Hd]. by destruct (Hok Hf Hd). }
  right. pose proof Hread as Hfaults. apply read_group_run in Hread as [(d & Hh) Hok].
  assert (env_faults e = [] → env_faults e1 = []) as Hf.
  { intros Hf. apply Hok; [done|]. by rewrite (hd_before _ _ _ _ Hh). }
  destruct (hd_messages _ _ _ _ Hh) as (name & Hm). rewrite Hm in Hrun. unfold turned.
  destruct (next_batch d (env_db e)) as [|en b] eqn:Hb.
  - injection Hrun as <- <-. split_and!; [done|done|]. exists d, (env_db e1), v. split_and!; [done|done|].
    rewrite Hb. simpl. by rewrite Hnil, app_nil_r, (hd_handled _ _ _ _ Hh).
  - cbn [mfor] in Hrun. rewrite Hbody in Hrun.
    destruct (process_events name (cut_pairs (omap parse_message (entry_value <$> en :: b))) e1)
      as (e2 & E2 & V2 & H2 & F2).
    unfold bind in Hrun. rewrite E2 in Hrun. injection Hrun as <- <-. split_and!; [done|auto|].
    exists d, (env_db e1), v. split_and!; [done|done|].
    by rewrite H2, Hmap, parse_messages, Hb, (hd_handled _ _ _ _ Hh).
Qed.

Lemma round_run e r e' : read_round [s] g handler e = (r, e') →
  (env_db e' = env_db e ∧ ¬ (env_faults e = [] ∧ delivered (env_db e) ≠ None)) ∨
  (r = Ok tt ∧ (env_faults e = [] → env_faults e' = []) ∧ ∃ d, turned d id (env_db e) (env_db e')).
Proof. by apply (turn_run id). Qed.
Lemma cut_run k e r e' : cut_round k e = (r, e') →
  (env_db e' = env_db e ∧ ¬ (env_faults e = [] ∧ delivered (env_db e) ≠ None)) ∨
  (r = Ok tt ∧ (env_faults e = [] → env_faults e' = []) ∧ ∃ d, turned d (take k) (env_db e) (env_db e')).
Proof. apply (turn_run (take k)); [intros; apply fmap_take|apply take_nil|done]. Qed.

(** ** Histories *)

(** Others do what others may do; the consumer reads and handles, to the end
    of a turn or not. *)
Inductive step (w w' : World) : Prop :=
| step_others : evolves w w' → handled w' = handled w → step w w'
| step_round e r e' : env_db e = w → env_db e' = w' → read_round [s] g handler e = (r, e') → step w w'
| step_crash k e r e' : env_db e = w → env_db e' = w' → cut_round k e = (r, e') → step w w'.

(** What a history adds to the log of the consumer. *)
Definition segment (d d' : nat) (es : list Entry) : list StreamEvent := omap event_of (drop d (take d' es)).
Definition advance (w w' : World) : Prop :=
  entries w `prefix_of` entries w' ∧
  ∃ later, handled w' = handled w ++ later ∧
    match delivered w, delivered w' with
    | Some d, Some d' => (d ≤ d')%nat ∧ later `sublist_of` segment d d' (entries w')
    | None, None => later = []
    | _, _ => False
    end.

Lemma segment_app d d' d'' es : (d ≤ d' ≤ d'')%nat → segment d d' es ++ segment d' d'' es = segment d d'' es.
Proof.
  intros Hd. unfold segment. rewrite <- omap_app. f_equal.
  assert (take d'' es = take d' es ++ drop d' (take d'' es)) as E.
  { rewrite <- (take_drop d' (take d'' es)) at 1. by rewrite take_take, Nat.min_l by lia. }
  rewrite E at 2. rewrite (drop_app (take d' es)). f_equal. destruct (decide (d' ≤ length es)%nat).
  - rewrite length_take, Nat.min_l by lia. by replace (d - d')%nat with 0%nat by lia.
  - rewrite (drop_ge (take d'' es)) by (rewrite length_take; lia). by rewrite drop_nil.
Qed.
Lemma segment_mono d d' es es' : es `prefix_of` es' → segment d d' es `sublist_of` segment d d' es'.
Proof.
  intros [more ->]. unfold segment. rewrite take_app, drop_app, omap_app. apply sublist_inserts_r. done.
Qed.
#[local] Instance advance_preorder : PreOrder advance.
Proof.
  split.
  - intros w. split; [done|]. exists []. rewrite app_nil_r. split; [done|].
    destruct (delivered w); [|done]. split; [done|]. apply sublist_nil_l.
  - intros w1 w2 w3 [P1 (l1 & H1 & D1)] [P2 (l2 & H2 & D2)]. split; [by etrans|].
    exists (l1 ++ l2). rewrite H2, H1, app_assoc. split; [done|].
    destruct (delivered w1), (delivered w2), (delivered w3); try done; [|naive_solver].
    destruct D1 as [? D1], D2 as [? D2]. split; [lia|]. rewrite <- (segment_app _ n0) by lia.
    apply sublist_app; [|done]. etrans; [exact D1|]. by apply segment_mono.
Qed.

Lemma omap_sublist {A B} (f : A → option B) l k : l `sublist_of` k → omap f l `sublist_of` omap f k.
Proof.
  induction 1 as [|x l k _ IH|x l k _ IH]; simpl; [done|..]; destruct (f x); try done.
  - by apply sublist_skip.
  - by apply sublist_cons.
Qed.

(** The batch after [d] entries, as a segment of the stream. *)
Lemma take_drop_segment {A} (n D : nat) (es more : list A) :
  take n (drop D es) = drop D (take (D + length (take n (drop D es))) (es ++ more)).
Proof.
  rewrite length_take, length_drop. destruct (decide (D ≤ length es)%nat).
  - rewrite take_app_le by lia. rewrite <- take_drop_commute.
    destruct (decide (n ≤ length es - D)%nat); [by rewrite Nat.min_l|].
    rewrite Nat.min_r, !take_ge by (rewrite ?length_drop; lia). done.
  - rewrite (drop_ge es), take_nil by lia. symmetry. apply drop_ge. rewrite length_take. lia.
Qed.
Lemma batch_is_segment d w es' : entries w `prefix_of` es' →
  omap event_of (next_batch d w) =
    segment (Nat.max d (st_trimmed (stream_at w s))) (after_batch d w) es'.
Proof. intros [more ->]. unfold segment, after_batch, next_batch. by rewrite <- take_drop_segment. Qed.

Lemma segment_later d D d' es : (d ≤ D)%nat → segment D d' es `sublist_of` segment d d' es.
Proof.
  intros Hd. apply omap_sublist. replace D with (d + (D - d))%nat by lia. rewrite <- drop_drop. apply sublist_drop.
Qed.

Lemma turned_advance d handles w w' : (∀ l, handles l `sublist_of` l) → turned d handles w w' → advance w w'.
Proof.
  intros Hsub (w1 & v & Hh & Hev & Hlog). split.
  - rewrite <- (hd_entries _ _ _ _ Hh). apply Hev.
  - eexists. split; [exact Hlog|]. rewrite (hd_before _ _ _ _ Hh), (ev_delivered _ _ Hev), (hd_after _ _ _ _ Hh).
    split; [unfold after_batch; lia|]. etrans; [apply Hsub|].
    rewrite (batch_is_segment d w (entries w')).
    + apply segment_later. lia.
    + rewrite <- (hd_entries _ _ _ _ Hh). apply Hev.
Qed.

Lemma step_advance w w' : step w w' → advance w w'.
Proof.
  intros [[Hp _ Hd] Hh|e r e' <- <- [[Heq _]|(_ & _ & d & Ht)]%round_run|k e r e' <- <- [[Heq _]|(_ & _ & d & Ht)]%cut_run].
  - split; [done|]. exists []. rewrite app_nil_r, Hd. split; [done|].
    destruct (delivered w); [|done]. split; [done|]. apply sublist_nil_l.
  - by rewrite Heq.
  - by apply (turned_advance d id).
  - by rewrite Heq.
  - apply (turned_advance d (take k)); [intros; apply sublist_take|done].
Qed.
Lemma history_advance w w' : rtc step w w' → advance w w'.
Proof. induction 1 as [|w w1 w' H%step_advance _ IH]; [done|by etrans]. Qed.

Lemma events_are_handled_between w w' d : rtc step w w' → delivered w = Some d →
  ∃ later d', handled w' = handled w ++ later ∧ delivered w' = Some d' ∧ (d ≤ d')%nat ∧
    later `sublist_of` segment d d' (entries w').
Proof.
  intros [_ (later & Hlog & Hd)]%history_advance Hw. rewrite Hw in Hd.
  destruct (delivered w') as [d'|]; [|done]. exists later, d'. naive_solver.
Qed.

(** C30: At most once, in order.  Over any history in which others add to the
    streams and the consumer reads and handles, even one whose process dies
    between two events and starts again, the events the handler sees are some of
    those of the entries the group was handed in the meantime, in their order,
    none of them twice. *)
Theorem events_are_handled_at_most_once w w' d : rtc step w w' → delivered w = Some d →
  ∃ later d', handled w' = handled w ++ later ∧ delivered w' = Some d' ∧ (d ≤ d')%nat ∧
    later `sublist_of` segment d d' (entries w').
Proof. apply events_are_handled_between. Qed.

(** A crash loses events.  When the process dies after [k] of the events it
    was handed, no later history makes up for the others: the group is past
    them, the loop asks only for new entries and never looks at the pending
    ones, so all that is ever handled afterwards lies behind the whole batch (a
    flaw of a bus that keeps pending entries for this case). *)
Theorem a_crash_loses_events k e r e' w' d : cut_round k e = (r, e') → env_faults e = [] →
  delivered (env_db e) = Some d → rtc step (env_db e') w' →
  ∃ later d', handled w' =
      handled (env_db e) ++ take k (omap event_of (next_batch d (env_db e))) ++ later ∧
    delivered w' = Some d' ∧
    later `sublist_of` segment (after_batch d (env_db e)) d' (entries w').
Proof.
  intros Hcut Hf Hd Hhist. apply cut_run in Hcut as [[_ []]|(_ & _ & d0 & w1 & v & Hh & Hev & Hlog)];
    [by rewrite Hd|].
  assert (d0 = d) as -> by (pose proof (hd_before _ _ _ _ Hh); congruence).
  apply (events_are_handled_between _ _ (after_batch d (env_db e))) in Hhist
    as (later & d' & Hl & Hd' & _ & Hsub).
  - exists later, d'. by rewrite Hl, Hlog, app_assoc.
  - by rewrite (ev_delivered _ _ Hev), (hd_after _ _ _ _ Hh).
Qed.
(** ** Without crashes *)

Definition grows (w w' : World) : Prop :=
  entries w `prefix_of` entries w' ∧ (st_trimmed (stream_at w s) ≤ st_trimmed (stream_at w' s))%nat.
#[local] Instance grows_preorder : PreOrder grows.
Proof. split; [done|]. intros w1 w2 w3 [? ?] [? ?]. split; [by etrans|lia]. Qed.
Lemma turned_grows d handles w w' : turned d handles w w' → grows w w'.
Proof.
  intros (w1 & v & Hh & [He Ht _] & _). split; [by rewrite <- (hd_entries _ _ _ _ Hh)|].
  by rewrite <- (hd_trimmed _ _ _ _ Hh).
Qed.
Lemma rounds_grow n e r e' : rounds n [s] g handler e = (r, e') → grows (env_db e) (env_db e').
Proof.
  revert e. induction n as [|n IH]; intros e; [by intros [= <- <-]|]. cbn [rounds].
  intros [(x & Hr)|(u & e1 & Hr & Hn)]%bind_cases.
  - apply round_run in Hr as [[-> _]|(_ & _ & d & Ht)]; [done|by eapply turned_grows].
  - etrans; [|by apply IH]. apply round_run in Hr as [[-> _]|(_ & _ & d & Ht)]; [done|by eapply turned_grows].
Qed.

(** C29: Everything is handled.  As long as Redis answers and drops no entry the
    group still lacks, turns of the loop handle the entries of the stream one
    after the other, each exactly once, whatever the handler itself publishes:
    ten more with every turn, until all that was there is done. *)
Theorem rounds_handle_everything n e d r e' : env_faults e = [] → delivered (env_db e) = Some d →
  rounds n [s] g handler e = (r, e') → (st_trimmed (stream_at (env_db e') s) ≤ d)%nat →
  r = Ok tt ∧ ∃ d', delivered (env_db e') = Some d' ∧ (d ≤ d')%nat ∧
    handled (env_db e') = handled (env_db e) ++ segment d d' (entries (env_db e')) ∧
    (Nat.min (length (entries (env_db e))) (d + n * BATCH) ≤ d')%nat.
Proof.
  revert e d. induction n as [|n IH]; intros e d Hf Hd Hrun Htrim.
  { injection Hrun as <- <-. split; [done|]. exists d. split_and!; [done|done| |lia].
    unfold segment. by rewrite drop_ge, app_nil_r by (rewrite length_take; lia). }
  cbn [rounds] in Hrun. apply bind_cases in Hrun as Hcases.
  destruct Hcases as [(x & Hr)|(u & e1 & Hr & Hn)].
  { apply round_run in Hr as [[_ []]|[? _]]; [by rewrite Hd|done]. }
  pose proof (rounds_grow _ _ _ _ Hn) as [Hpre Hle].
  apply round_run in Hr as [[_ []]|(_ & Hf1 & d0 & Ht)]; [by rewrite Hd|].
  pose proof (turned_grows _ _ _ _ Ht) as [Hpre1 Hle1]. destruct Ht as (w1 & v & Hh & Hev & Hlog).
  assert (d0 = d) as -> by (pose proof (hd_before _ _ _ _ Hh); congruence).
  assert (Nat.max d (st_trimmed (stream_at (env_db e) s)) = d) as Hmax by lia.
  assert (length (next_batch d (env_db e)) = Nat.min BATCH (length (entries (env_db e)) - d)) as Hlen.
  { unfold next_batch. by rewrite length_take, length_drop, Hmax. }
  assert (after_batch d (env_db e) = d + length (next_batch d (env_db e)))%nat as Hafter
    by (unfold after_batch; lia).
  destruct (IH e1 (after_batch d (env_db e))) as (-> & d' & Hd' & Hle' & Hh' & Hmin); [auto| |done|lia|].
  { by rewrite (ev_delivered _ _ Hev), (hd_after _ _ _ _ Hh). }
  split; [done|]. exists d'. pose proof (prefix_length _ _ Hpre1). split_and!; [done|lia| |lia].
  unfold id in Hlog. rewrite Hh', Hlog, (batch_is_segment _ _ (entries (env_db e'))) by (by etrans).
  by rewrite Hmax, <- app_assoc, segment_app by lia.
Qed.
End consumer.

(** ** The stream of the settlement worker *)

Module StreamExample.
#[export] Existing Instance DecimalUuid.instance.
Definition trim (n : nat) : nat := n - MAX_STREAM_LEN.
Definition entry_id (n : nat) : string := print_uint (Z.of_nat n).
Definition error_text (e : StreamError) : string :=
  match e with ConnectionFailed => "broken pipe" | Refused m | SerializationFailed m => m end.
Definition group : string := "settlement-worker".
Definition log (ev : StreamEvent) (w : World) : World := mkWorld (streams w) (handled w ++ [ev]).
Definition stream : string := STREAM_EXECUTION_COMPLETED.

(** The stream is made for the group, with its first entry, and gets three
    events. *)
Definition created : Env World :=
  snd (ensure_group trim entry_id error_text stream group (mkEnv (mkWorld ∅ []) [] N.of_nat 0 100)).
Definition publish_payload (json : string) (e : Env World) : Env World :=
  snd (publish trim entry_id stream (Ok json) e).
Definition filled : Env World := publish_payload "c" (publish_payload "b" (publish_payload "a" created)).
Definition payloads (w : World) : list string := se_payload <$> handled w.
Definition after_round : Env World := snd (read_round [stream] group log filled).
Definition after_crash : Env World := snd (cut_round stream group log 2 filled).
Definition restarted : Env World := snd (read_round [stream] group log (publish_payload "d" after_crash)).

Lemma ids_are_text n : is_text (entry_id n).
Proof.
  apply is_ascii_text, forallb_forall. intros b Hb%list_elem_of_In%print_uint_bytes. apply Z.ltb_lt. lia.
Qed.
Lemma uuids_are_text u : is_text (uuid_text u).
Proof.
  change (is_text (DecimalUuid.to_text u)). unfold DecimalUuid.to_text. rewrite <- (N2Z.id u).
  apply is_ascii_text, forallb_forall. intros b Hb%list_elem_of_In%print_uint_bytes. apply Z.ltb_lt. lia.
Qed.
Lemma log_handles ev w : handled (log ev w) = handled w ++ [ev].
Proof. done. Qed.
Lemma log_publishes ev w : evolves stream group w (log ev w).
Proof. by split. Qed.
Lemma restarts : rtc (step stream group log) (env_db after_crash) (env_db restarted).
Proof.
  apply rtc_l with (env_db (publish_payload "d" after_crash)).
  - apply step_others; [|by vm_compute].
    assert (env_db (publish_payload "d" after_crash) = snd (xadd trim entry_id stream true
      [("event_type", stream); ("payload", "d"); ("event_id", "3"); ("timestamp", "100")]%string
      (env_db after_crash))) as -> by (vm_compute; reflexivity).
    apply evolves_xadd.
  - apply rtc_once. eapply step_round; [reflexivity..|apply surjective_pairing].
Qed.
End StreamExample.
Import StreamExample.

Lemma published_events_are_read_witness :
  ∃ en, st_entries (stream_at (env_db (publish_payload "a" created)) stream) =
      st_entries (stream_at (env_db created) stream) ++ [en] ∧
    parse_message (entry_value en) = Some ("1"%string, mkStreamEvent stream "a" "0" 100).
Proof.
  apply (published_events_are_read trim entry_id ids_are_text uuids_are_text stream "a" created).
  - by vm_compute.
  - by vm_compute.
  - by vm_compute.
  - by vm_compute.
Defined.

Lemma rounds_handle_everything_witness :
  fst (rounds 1 [stream] group log filled) = Ok tt ∧ payloads (env_db after_round) = ["a"; "b"; "c"]%string ∧
  ∃ d', delivered stream group (env_db (snd (rounds 1 [stream] group log filled))) = Some d' ∧ (4 ≤ d')%nat.
Proof.
  destruct (rounds_handle_everything stream group log log_handles log_publishes 1 filled 0
    (fst (rounds 1 [stream] group log filled)) (snd (rounds 1 [stream] group log filled)))
    as (Hok & d' & Hd & _ & _ & Hmin).
  - done.
  - by vm_compute.
  - apply surjective_pairing.
  - vm_compute. lia.
  - split; [done|]. split; [by vm_compute|]. exists d'. split; [done|]. etrans; [|exact Hmin]. vm_compute. lia.
Defined.

Lemma events_are_handled_at_most_once_witness :
  ∃ later d', handled (env_db after_round) = handled (env_db filled) ++ later ∧
    delivered stream group (env_db after_round) = Some d' ∧ (0 ≤ d')%nat ∧
    later `sublist_of` segment 0 d' (entries stream (env_db after_round)).
Proof.
  apply (events_are_handled_at_most_once stream group log log_handles log_publishes (env_db filled)).
  - apply rtc_once. eapply step_round; [reflexivity..|apply surjective_pairing].
  - by vm_compute.
Defined.

(** The process dies after two of the four entries: the third event is not
    handled after the restart, the fourth is. *)
Lemma a_crash_loses_events_witness :
  payloads (env_db restarted) = ["a"; "b"; "d"]%string ∧
  ∃ later d', handled (env_db restarted) =
      handled (env_db filled) ++ take 2 (omap event_of (next_batch stream 0 (env_db filled))) ++ later ∧
    delivered stream group (env_db restarted) = Some d' ∧
    later `sublist_of` segment (after_batch stream 0 (env_db filled)) d' (entries stream (env_db restarted)).
Proof.
  split; [by vm_compute|].
  apply (a_crash_loses_events stream group log log_handles log_publishes 2 filled
    (fst (cut_round stream group log 2 filled)) after_crash).
  - apply surjective_pairing.
  - done.
  - by vm_compute.
  - apply restarts.
Defined.
