(* ===== verification/MarketData.v ===== *)
(** * Market data: [src/src/market_data]

    The table of market trades and what is read from it: the latest trades, an
    order book and candles.  Nothing in the program calls [record_trade], so in
    a deployment the table is empty.  Times are seconds and the database's time
    zone is UTC; between trades of one second the order is the table's. *)
From stdpp Require Import gmap.
From S2P Require Import Prelude Monad Float64 Model Settlement Text Http.
Open Scope Z_scope.

Record MarketTrade := mkMarketTrade {
  mt_id : Uuid; mt_market_id : Uuid; mt_buyer_account_id : Uuid; mt_seller_account_id : Uuid;
  mt_price : Z; mt_qty : Z; mt_fee : Z; mt_created_at : Z;
}.
Record PriceLevel := mkPriceLevel { pl_price : Z; pl_qty : Z }.
Record OrderBookSnapshot := mkSnapshot {
  ob_market_id : Uuid; ob_bids : list PriceLevel; ob_asks : list PriceLevel; ob_timestamp : Z;
}.
Record Candle := mkCandle {
  ca_market_id : Uuid; ca_open : Z; ca_high : Z; ca_low : Z; ca_close : Z; ca_volume : Z;
  ca_trade_count : Z; ca_bucket : Z;
}.

(** The table [market_trades]. *)
Definition MarketDb : Type := list MarketTrade.

Module MarketDataRepository.

(** PRIMARY KEY (id, created_at), migration 022. *)
Definition insert_trade (trade : MarketTrade) : M MarketDb unit SqlxError :=
  stmt (λ d, if existsb (λ r, (mt_id r =? mt_id trade)%N && (mt_created_at r =? mt_created_at trade)) d
             then None else Some (tt, d ++ [trade])).

Definition of_market (market_id : Uuid) (t : MarketTrade) : bool := (mt_market_id t =? market_id)%N.
Definition latest_first (x y : MarketTrade) : bool := mt_created_at y <=? mt_created_at x.
Definition oldest_first (x y : MarketTrade) : bool := mt_created_at x <=? mt_created_at y.

Definition get_trades (market_id : Uuid) (limit : Z) : M MarketDb (list MarketTrade) SqlxError :=
  query (λ d, take (Z.to_nat limit) (sort_by latest_first (sql_select (of_market market_id) d))).

(** SELECT price, SUM(qty)::BIGINT .. GROUP BY price *)
Definition at_price (price : Z) (t : MarketTrade) : bool := mt_price t =? price.
Definition level (rows : list MarketTrade) (price : Z) : option PriceLevel :=
  mkPriceLevel price <$> bigint (sum_by mt_qty (sql_select (at_price price) rows)).
Definition levels (before : Z → Z → bool) (market_id : Uuid) (d : MarketDb) : option (list PriceLevel) :=
  let rows := sql_select (of_market market_id) d in
  take 50 <$> mapM (level rows) (sort_by before (remove_dups (mt_price <$> rows))).
Definition get_levels (before : Z → Z → bool) (market_id : Uuid) : M MarketDb (list PriceLevel) SqlxError :=
  stmt (λ d, (λ l, (l, d)) <$> levels before market_id d).
Definition get_bids : Uuid → M MarketDb (list PriceLevel) SqlxError := get_levels (λ x y, y <=? x).
Definition get_asks : Uuid → M MarketDb (list PriceLevel) SqlxError := get_levels (λ x y, x <=? y).

(** date_trunc(unit, created_at) for a unit of [secs] seconds *)
Definition date_trunc (secs t : Z) : Z := t - t `mod` secs.
(** EXTRACT(minute FROM created_at) *)
Definition minute_of (t : Z) : Z := (t / 60) `mod` 60.
Definition minutes_of (interval : string) : Z :=
  if String.eqb interval "1m" then 1 else if String.eqb interval "5m" then 5
  else if String.eqb interval "15m" then 15 else 1.
Definition bucket (interval : string) (t : Z) : Z :=
  if String.eqb interval "1h" || String.eqb interval "4h" then date_trunc 3600 t
  else if String.eqb interval "1d" then date_trunc 86400 t
  else date_trunc 60 t - (minute_of t `mod` minutes_of interval) * 60.

Definition first_price (l : list MarketTrade) : Z := default 0 (mt_price <$> head l).
Definition max_price (l : list MarketTrade) : Z := foldr (λ t, Z.max (mt_price t)) (first_price l) l.
Definition min_price (l : list MarketTrade) : Z := foldr (λ t, Z.min (mt_price t)) (first_price l) l.
Definition candle (market_id : Uuid) (b : Z) (rows : list MarketTrade) : option Candle :=
  (λ volume, mkCandle market_id (first_price (sort_by oldest_first rows)) (max_price rows) (min_price rows)
               (first_price (sort_by latest_first rows)) volume (Z.of_nat (length rows)) b)
    <$> bigint (sum_by mt_qty rows).

Definition in_window (market_id : Uuid) (since : Z) (t : MarketTrade) : bool :=
  of_market market_id t && (since <=? mt_created_at t).
Definition in_bucket (interval : string) (b : Z) (t : MarketTrade) : bool :=
  bucket interval (mt_created_at t) =? b.
Definition candles (market_id : Uuid) (interval : string) (since : Z) (d : MarketDb) : option (list Candle) :=
  let rows := sql_select (in_window market_id since) d in
  mapM (λ b, candle market_id b (sql_select (in_bucket interval b) rows))
    (sort_by Z.leb (remove_dups ((λ t, bucket interval (mt_created_at t)) <$> rows))).
Definition get_candles (market_id : Uuid) (interval : string) (since : Z) : M MarketDb (list Candle) SqlxError :=
  stmt (λ d, (λ l, (l, d)) <$> candles market_id interval since d).
End MarketDataRepository.

Module MarketDataService.
Import MarketDataRepository.

Inductive MarketDataError := InvalidInterval (i : string) | MarketDbError (e : SqlxError).
Definition market_data_error_text `{SqlxDisplay} (e : MarketDataError) : string :=
  match e with
  | InvalidInterval i => "Invalid interval: " +:+ i
  | MarketDbError e => "Database error: " +:+ sqlx_text e
  end.

Definition record_trade (trade : MarketTrade) : M MarketDb unit MarketDataError :=
  map_err MarketDbError (insert_trade trade).

(** [i64::clamp] *)
Definition clamp (lo hi n : Z) : Z := if n <? lo then lo else if hi <? n then hi else n.
Definition get_trades (market_id : Uuid) (limit : Z) : M MarketDb (list MarketTrade) MarketDataError :=
  map_err MarketDbError (MarketDataRepository.get_trades market_id (clamp 1 1000 limit)).

Definition get_orderbook_snapshot (market_id : Uuid) : M MarketDb OrderBookSnapshot MarketDataError :=
  let* bids := map_err MarketDbError (get_bids market_id) in
  let* asks := map_err MarketDbError (get_asks market_id) in
  let* t := now in
  ret (mkSnapshot market_id bids asks t).

Definition hours (n : Z) : Z := n * 3600.
Definition days (n : Z) : Z := n * 86400.
Definition lookback (interval : string) : option Z :=
  if String.eqb interval "1m" then Some (hours 6)
  else if String.eqb interval "5m" then Some (hours 24)
  else if String.eqb interval "15m" then Some (days 3)
  else if String.eqb interval "1h" then Some (days 7)
  else if String.eqb interval "4h" then Some (days 30)
  else if String.eqb interval "1d" then Some (days 90)
  else None.
Definition generate_candles (market_id : Uuid) (interval : string) : M MarketDb (list Candle) MarketDataError :=
  match lookback interval with
  | None => throw (InvalidInterval interval)
  | Some l =>
      let* t := now in
      map_err MarketDbError (get_candles market_id interval (t - l))
  end.
End MarketDataService.

(** [handler.rs]; an absent parameter has its default. *)
Module MarketDataHandlers.
Import MarketDataService.
Definition default_limit : Z := 100.
Definition default_interval : string := "1m".

Section handlers.
Context `{SqlxDisplay}.
Definition map_error (e : MarketDataError) : Z * string :=
  match e with
  | InvalidInterval _ => (BAD_REQUEST, market_data_error_text e)
  | MarketDbError _ => (INTERNAL_SERVER_ERROR, market_data_error_text e)
  end.
Definition get_trades_handler (market_id : Uuid) (limit : option Z) : M MarketDb (list MarketTrade) (Z * string) :=
  map_err map_error (get_trades market_id (default default_limit limit)).
Definition get_orderbook_handler (market_id : Uuid) : M MarketDb OrderBookSnapshot (Z * string) :=
  map_err map_error (get_orderbook_snapshot market_id).
Definition get_candles_handler (market_id : Uuid) (interval : option string)
  : M MarketDb (list Candle) (Z * string) :=
  map_err map_error (generate_candles market_id (default default_interval interval)).
End handlers.
End MarketDataHandlers.

(** ** Candles

    A candle says of the trades in its bucket what it should; the candles of a
    window have distinct buckets, in order, and leave out no trade. *)
Import MarketDataRepository MarketDataService.

Section grouping.
Context {R : Type} (key : R → Z) (w : R → Z).

Lemma sum_by_indicator (g : Z → Z) k v (ks : list Z) : NoDup ks → k ∈ ks →
  sum_by (λ x, (if k =? x then v else 0) + g x) ks = v + sum_by g ks.
Proof.
  assert (∀ ks, k ∉ ks → sum_by (λ x, (if k =? x then v else 0) + g x) ks = sum_by g ks) as Hout.
  { clear ks. intros ks. induction ks as [|x ks IH]; simpl; [done|]. intros [Hx Hks]%not_elem_of_cons.
    rewrite IH by done. destruct (Z.eqb_spec k x); [congruence|lia]. }
  induction 1 as [|x ks' Hx Hnd IH]; simpl; [by intros []%not_elem_of_nil|].
  intros [<-|Hk]%elem_of_cons; [rewrite Z.eqb_refl, Hout by done; lia|].
  destruct (Z.eqb_spec k x); [by subst|]. rewrite IH by done. lia.
Qed.

(** Sums by group add up to the sum. *)
Lemma sum_by_groups (ks : list Z) l : NoDup ks → (∀ r, r ∈ l → key r ∈ ks) →
  sum_by (λ k, sum_by w (sql_select (λ r, key r =? k) l)) ks = sum_by w l.
Proof.
  intros Hnd. induction l as [|r l IH]; intros Hin.
  { clear Hin Hnd. simpl. by induction ks. }
  simpl. rewrite <- IH by (intros r' Hr'; apply Hin; by right).
  rewrite <- (sum_by_indicator (λ k, sum_by w (sql_select (λ r, key r =? k) l)) (key r) (w r) ks);
    [|done|apply Hin; by left].
  clear. induction ks as [|k ks IH]; simpl; [done|]. rewrite IH. clear. destruct (key r =? k); simpl; lia.
Qed.
End grouping.

Lemma sum_by_mapM {A B} (f : A → option B) (v : A → Z) (w : B → Z) l l' :
  (∀ a b, f a = Some b → w b = v a) → mapM f l = Some l' → sum_by w l' = sum_by v l.
Proof. intros H Hm%mapM_Some_1. induction Hm; simpl; [done|]. erewrite H by done. lia. Qed.
Lemma sum_by_permutation {A} (w : A → Z) (l l' : list A) : l ≡ₚ l' → sum_by w l = sum_by w l'.
Proof. induction 1; simpl; lia. Qed.
Lemma sum_by_one {A} (l : list A) : sum_by (λ _, 1) l = Z.of_nat (length l).
Proof. induction l; simpl; lia. Qed.

Section extremes.
Context {R : Type} (le : R → R → bool).
Context (le_total : ∀ x y, le x y = false → le y x = true)
        (le_trans : ∀ x y z, le x y = true → le y z = true → le x z = true).

Lemma sort_by_head l t : t ∈ l → ∃ x, x ∈ l ∧ head (sort_by le l) = Some x ∧ ∀ y, y ∈ l → le x y = true.
Proof.
  intros Ht. pose proof (sort_by_perm le l) as Hp. pose proof (sort_by_sorted le l le_total) as Hs.
  apply Sorted_StronglySorted in Hs; [|by intros x y z; apply le_trans].
  destruct (sort_by le l) as [|x l']; [apply Permutation_nil in Hp; subst; by apply not_elem_of_nil in Ht|].
  exists x. split; [rewrite <- Hp; by left|]. split; [done|].
  intros y. rewrite <- Hp. intros [->|Hy]%elem_of_cons.
  - destruct (le x x) eqn:E; [done|]. by rewrite (le_total _ _ E) in E.
  - inversion Hs as [|? ? _ Hall]; subst. by rewrite Forall_forall in Hall; apply Hall.
Qed.
End extremes.

Lemma first_price_earliest l t : t ∈ l →
  ∃ x, x ∈ l ∧ mt_price x = first_price (sort_by oldest_first l) ∧ ∀ y, y ∈ l → mt_created_at x ≤ mt_created_at y.
Proof.
  intros Ht. destruct (sort_by_head oldest_first) with (l := l) (t := t) as (x & Hx & Hh & Hy); try done;
    unfold oldest_first in *; intros; try lia.
  exists x. split; [done|]. unfold first_price. rewrite Hh. split; [done|]. intros y Hin. specialize (Hy y Hin). lia.
Qed.
Lemma first_price_latest l t : t ∈ l →
  ∃ x, x ∈ l ∧ mt_price x = first_price (sort_by latest_first l) ∧ ∀ y, y ∈ l → mt_created_at y ≤ mt_created_at x.
Proof.
  intros Ht. destruct (sort_by_head latest_first) with (l := l) (t := t) as (x & Hx & Hh & Hy); try done;
    unfold latest_first in *; intros; try lia.
  exists x. split; [done|]. unfold first_price. rewrite Hh. split; [done|]. intros y Hin. specialize (Hy y Hin). lia.
Qed.

Lemma max_from z (l : list MarketTrade) : let m := foldr (λ t, Z.max (mt_price t)) z l in
  (∀ y, y ∈ l → mt_price y ≤ m) ∧ z ≤ m ∧ (m = z ∨ ∃ x, x ∈ l ∧ mt_price x = m).
Proof.
  induction l as [|t l (Hle & Hz & Hm)]; simpl.
  { split; [by intros y []%not_elem_of_nil|]. split; [lia|by left]. }
  split; [intros y [->|Hy]%elem_of_cons; [lia|]; specialize (Hle y Hy); lia|]. split; [lia|].
  destruct (Z.max_spec (mt_price t) (foldr (λ t, Z.max (mt_price t)) z l)) as [[_ ->]|[_ ->]].
  - destruct Hm as [->|(x & Hx & <-)]; [by left|]. right. exists x. split; [by right|done].
  - right. exists t. split; [by left|done].
Qed.
Lemma min_from z (l : list MarketTrade) : let m := foldr (λ t, Z.min (mt_price t)) z l in
  (∀ y, y ∈ l → m ≤ mt_price y) ∧ m ≤ z ∧ (m = z ∨ ∃ x, x ∈ l ∧ mt_price x = m).
Proof.
  induction l as [|t l (Hle & Hz & Hm)]; simpl.
  { split; [by intros y []%not_elem_of_nil|]. split; [lia|by left]. }
  split; [intros y [->|Hy]%elem_of_cons; [lia|]; specialize (Hle y Hy); lia|]. split; [lia|].
  destruct (Z.min_spec (mt_price t) (foldr (λ t, Z.min (mt_price t)) z l)) as [[_ ->]|[_ ->]].
  - right. exists t. split; [by left|done].
  - destruct Hm as [->|(x & Hx & <-)]; [by left|]. right. exists x. split; [by right|done].
Qed.
Lemma first_price_elem l t : t ∈ l → ∃ x, x ∈ l ∧ mt_price x = first_price l.
Proof. destruct l as [|x l]; [by intros []%not_elem_of_nil|]. intros _. exists x. split; [by left|done]. Qed.

(** What a candle says of the trades in its bucket. *)
Record describes (rows : list MarketTrade) (c : Candle) : Prop := {
  de_some : rows ≠ [];
  de_count : ca_trade_count c = Z.of_nat (length rows);
  de_volume : ca_volume c = sum_by mt_qty rows;
  de_range : ∀ t, t ∈ rows → ca_low c ≤ mt_price t ≤ ca_high c;
  de_high : ∃ t, t ∈ rows ∧ mt_price t = ca_high c;
  de_low : ∃ t, t ∈ rows ∧ mt_price t = ca_low c;
  de_open : ∃ t, t ∈ rows ∧ mt_price t = ca_open c ∧ ∀ u, u ∈ rows → mt_created_at t ≤ mt_created_at u;
  de_close : ∃ t, t ∈ rows ∧ mt_price t = ca_close c ∧ ∀ u, u ∈ rows → mt_created_at u ≤ mt_created_at t;
}.

Lemma candle_describes market b rows c : rows ≠ [] → candle market b rows = Some c →
  describes rows c ∧ ca_bucket c = b.
Proof.
  intros Hne. destruct rows as [|t rows']; [done|]. set (rows := t :: rows') in *.
  assert (t ∈ rows) as Ht by (by left). unfold candle. destruct (bigint _) as [v|] eqn:Hv; [|done].
  simpl. intros [= <-]. apply bigint_Some in Hv as [_ ->].
  destruct (max_from (first_price rows) rows) as (Hmax & _ & Hmax').
  destruct (min_from (first_price rows) rows) as (Hmin & _ & Hmin').
  destruct (first_price_elem rows t Ht) as (f & Hf & Ef).
  split; [|done]. constructor; simpl; try done.
  - intros u Hu. split; [by apply Hmin|by apply Hmax].
  - destruct Hmax' as [E|?]; [|done]. exists f. split; [done|]. unfold max_price. by rewrite E.
  - destruct Hmin' as [E|?]; [|done]. exists f. split; [done|]. unfold min_price. by rewrite E.
  - by eapply first_price_earliest.
  - by eapply first_price_latest.
Qed.

Definition buckets (interval : string) (rows : list MarketTrade) : list Z :=
  sort_by Z.leb (remove_dups ((λ t, bucket interval (mt_created_at t)) <$> rows)).
Lemma elem_of_buckets interval rows b :
  b ∈ buckets interval rows ↔ ∃ t, t ∈ rows ∧ bucket interval (mt_created_at t) = b.
Proof. unfold buckets. rewrite elem_of_sort_by, elem_of_remove_dups, list_elem_of_fmap. naive_solver. Qed.
Lemma NoDup_buckets interval rows : NoDup (buckets interval rows).
Proof. unfold buckets. rewrite sort_by_perm. apply NoDup_remove_dups. Qed.
Lemma sorted_distinct (l : list Z) : StronglySorted (λ x y, (x <=? y) = true) l → NoDup l → StronglySorted Z.lt l.
Proof.
  induction 1 as [|x l Hl IH Hall]; intros Hnd; constructor; inversion Hnd as [|? ? Hx Hnd']; subst; [by apply IH|].
  rewrite Forall_forall in *. intros y Hy. specialize (Hall y Hy). assert (x ≠ y) by (by intros ->). lia.
Qed.
Lemma sort_by_leb_sorted (l : list Z) : StronglySorted (λ x y, (x <=? y) = true) (sort_by Z.leb l).
Proof. apply Sorted_StronglySorted; [intros x y z; lia|]. apply sort_by_sorted. intros. lia. Qed.

Section window.
Context (market : Uuid) (interval : string) (rows : list MarketTrade) (cs : list Candle).
Context (Hcs : mapM (λ b, candle market b (sql_select (in_bucket interval b) rows)) (buckets interval rows) = Some cs).

Lemma bucket_rows b : b ∈ buckets interval rows → sql_select (in_bucket interval b) rows ≠ [].
Proof.
  intros (t & Ht & Hb)%elem_of_buckets He. assert (t ∈ sql_select (in_bucket interval b) rows) as Hin.
  { apply elem_of_sql_select. split; [done|]. unfold in_bucket. lia. }
  rewrite He in Hin. by apply not_elem_of_nil in Hin.
Qed.

Lemma window_candles : Forall2 (λ b c, describes (sql_select (in_bucket interval b) rows) c ∧ ca_bucket c = b)
                         (buckets interval rows) cs.
Proof.
  apply mapM_Some_1 in Hcs. pose proof bucket_rows as Hne. revert Hne.
  induction Hcs as [|b c bs cs' Hc _ IH]; intros Hne; constructor.
  - apply (candle_describes market); [|done]. apply Hne. by left.
  - apply IH. intros b' Hb'. apply Hne. by right.
Qed.
Lemma window_buckets : ca_bucket <$> cs = buckets interval rows.
Proof.
  pose proof window_candles as Hw. clear Hcs. by induction Hw as [|b c bs cs' [_ <-] _ IH]; simpl; f_equal.
Qed.

Lemma window_total (w : MarketTrade → Z) (v : Candle → Z) :
  (∀ l c, describes l c → v c = sum_by w l) → sum_by v cs = sum_by w rows.
Proof.
  intros Hv. rewrite <- (sum_by_groups (λ t, bucket interval (mt_created_at t)) w (buckets interval rows)).
  - pose proof window_candles as Hw. clear Hcs.
    induction Hw as [|b c bs cs' [Hd _] _ IH]; simpl; [done|]. by rewrite IH, (Hv _ _ Hd).
  - apply NoDup_buckets.
  - intros t Ht. apply elem_of_buckets. eauto.
Qed.
End window.

(** C31: The candles the service generates are ordered by their bucket, no two
    have the same; each gives the first, last, highest and lowest price, the
    volume and the number of the trades in its bucket; every trade since the
    lookback is in the bucket of one of them, so the counts and the volumes add
    up to those of the window. *)
Theorem candles_partition_the_window market interval e cs e' :
  generate_candles market interval e = (Ok cs, e') →
  ∃ l, lookback interval = Some l ∧
    let rows := sql_select (in_window market (env_now e - l)) (env_db e) in
    StronglySorted Z.lt (ca_bucket <$> cs) ∧
    Forall (λ c, describes (sql_select (in_bucket interval (ca_bucket c)) rows) c) cs ∧
    (∀ t, t ∈ rows → ∃ c, c ∈ cs ∧ ca_bucket c = bucket interval (mt_created_at t)) ∧
    sum_by ca_trade_count cs = Z.of_nat (length rows) ∧ sum_by ca_volume cs = sum_by mt_qty rows.
Proof.
  unfold generate_candles, get_candles. destruct (lookback interval) as [l|]; [|done]. intros H. run_inv.
  exists l. split; [done|]. unfold candles in *.
  set (rows := sql_select (in_window market _) _) in *. fold (buckets interval rows) in *.
  destruct (mapM _ _) as [cs'|] eqn:Hcs; simplify_eq/=.
  pose proof (window_buckets _ _ _ _ Hcs) as Hb. pose proof (window_candles _ _ _ _ Hcs) as Hw.
  rewrite Hb. split; [apply sorted_distinct; [apply sort_by_leb_sorted|apply NoDup_buckets]|].
  split; [clear -Hw; induction Hw as [|b c bs cs' [Hd <-] _ IH]; by constructor|].
  split; [|split].
  - intros t Ht. assert (bucket interval (mt_created_at t) ∈ ca_bucket <$> cs) as Hin
      by (rewrite Hb; apply elem_of_buckets; eauto).
    apply list_elem_of_fmap in Hin. naive_solver.
  - rewrite <- sum_by_one. eapply window_total; [done|]. intros ? ? []. by rewrite sum_by_one.
  - eapply window_total; [done|]. by intros ? ? [].
Qed.

(** ** Widths of the candles *)

(** The length an interval's name says, in seconds. *)
Definition named_width (interval : string) : option Z :=
  if String.eqb interval "1m" then Some 60 else if String.eqb interval "5m" then Some 300
  else if String.eqb interval "15m" then Some 900 else if String.eqb interval "1h" then Some 3600
  else if String.eqb interval "4h" then Some 14400 else if String.eqb interval "1d" then Some 86400
  else None.
Lemma minutes_bucket t : bucket "5m" t = t - t `mod` 300 ∧ bucket "15m" t = t - t `mod` 900.
Proof.
  change (bucket "5m" t) with (date_trunc 60 t - (minute_of t `mod` 5) * 60).
  change (bucket "15m" t) with (date_trunc 60 t - (minute_of t `mod` 15) * 60).
  unfold date_trunc, minute_of.
  assert (∀ q, (q `mod` 60) `mod` 5 = q `mod` 5 ∧ (q `mod` 60) `mod` 15 = q `mod` 15) as Hmod
    by (intros q; split; Z.to_euclidean_division_equations; lia).
  destruct (Hmod (t / 60)) as [-> ->]. split; Z.to_euclidean_division_equations; lia.
Qed.

(** A trade falls in the candle that starts at the last multiple of the
    interval before it, the width of the candle being the one the interval
    names, for every interval but four hours: a four-hour candle covers one
    hour (a flaw), so that a request for them gets one candle for each hour of
    trade, the same as a request for hourly ones over the longer lookback. *)
Theorem candle_widths interval w t : named_width interval = Some w →
  bucket interval t = t - t `mod` (if String.eqb interval "4h" then 3600 else w).
Proof.
  unfold named_width.
  repeat match goal with |- context [String.eqb interval ?s] =>
           destruct (String.eqb_spec interval s); [subst interval|] end; intros [= <-]; try done.
  - change (bucket "1m" t) with (date_trunc 60 t - (minute_of t `mod` 1) * 60).
    rewrite Z.mod_1_r. unfold date_trunc. simpl. lia.
  - apply minutes_bucket.
  - apply minutes_bucket.
Qed.

(** ** The order book *)

Lemma elem_of_mapM {A B} (f : A → option B) l l' y :
  mapM f l = Some l' → y ∈ l' ↔ ∃ x, x ∈ l ∧ f x = Some y.
Proof.
  intros Hm%mapM_Some_1. induction Hm as [|x z l l' Hxz _ IH].
  - split; [by intros []%not_elem_of_nil|]. by intros (? & []%not_elem_of_nil & _).
  - rewrite elem_of_cons, IH. setoid_rewrite elem_of_cons. naive_solver.
Qed.

Lemma level_price rows p l : level rows p = Some l → pl_price l = p.
Proof. unfold level. destruct (bigint _); [|done]. by intros [= <-]. Qed.

Section levels.
Context (before : Z → Z → bool) (market : Uuid) (d : MarketDb) (ls : list PriceLevel).
Context (before_total : ∀ x y, before x y = false → before y x = true)
        (before_trans : ∀ x y z, before x y = true → before y z = true → before x z = true).
Context (Hls : levels before market d = Some ls).

Lemma best_level t : t ∈ sql_select (of_market market) d →
  ∃ l, head ls = Some l ∧ ∀ u, u ∈ sql_select (of_market market) d → before (pl_price l) (mt_price u) = true.
Proof.
  intros Ht. revert Hls. unfold levels. set (rows := sql_select _ _) in *.
  assert (∀ u, u ∈ rows → mt_price u ∈ remove_dups (mt_price <$> rows)) as Hin
    by (intros u Hu; apply elem_of_remove_dups, list_elem_of_fmap; eauto).
  destruct (sort_by_head before before_total before_trans _ _ (Hin t Ht)) as (p & _ & Hh & Hp).
  destruct (sort_by before _) as [|p' ps]; simplify_eq/=.
  unfold mbind, option_bind. destruct (level rows p) as [l|] eqn:El; [|done]. simpl. destruct (mapM _ _); [|done].
  intros [= <-]. exists l. split; [done|]. intros u Hu. rewrite (level_price _ _ _ El). auto.
Qed.

Lemma elem_of_levels l : (length (remove_dups (mt_price <$> sql_select (of_market market) d)) ≤ 50)%nat →
  l ∈ ls ↔ ∃ t, t ∈ sql_select (of_market market) d ∧
                level (sql_select (of_market market) d) (mt_price t) = Some l.
Proof.
  revert Hls. unfold levels. set (rows := sql_select _ _) in *. intros Hl Hlen.
  destruct (mapM _ _) as [ls'|] eqn:Hm; simplify_eq/=. rewrite take_ge.
  - rewrite (elem_of_mapM _ _ _ _ Hm). setoid_rewrite elem_of_sort_by.
    setoid_rewrite elem_of_remove_dups. setoid_rewrite list_elem_of_fmap. naive_solver.
  - apply length_mapM in Hm. rewrite <- Hm, length_sort_by. lia.
Qed.
End levels.

Lemma best_bid market d ls t :
  levels (λ x y, y <=? x) market d = Some ls → t ∈ sql_select (of_market market) d →
  ∃ l, head ls = Some l ∧ mt_price t ≤ pl_price l.
Proof.
  intros Hls Ht. destruct (best_level (λ x y, y <=? x) market d ls) with (t := t) as (l & Hl & Hall);
    [intros; lia..|done|done|].
  exists l. split; [done|]. specialize (Hall t Ht). simpl in Hall. lia.
Qed.
Lemma best_ask market d ls t :
  levels Z.leb market d = Some ls → t ∈ sql_select (of_market market) d →
  ∃ l, head ls = Some l ∧ pl_price l ≤ mt_price t.
Proof.
  intros Hls Ht. destruct (best_level Z.leb market d ls) with (t := t) as (l & Hl & Hall);
    [intros; lia..|done|done|].
  exists l. split; [done|]. specialize (Hall t Ht). simpl in Hall. lia.
Qed.

(** The order book is made of trades that happened: whenever a market has
    traded, its best bid is at or above its best ask, and as long as there were
    no more than fifty prices every level is on both sides (a flaw: orders
    that rest in the market do not show at all). *)
Theorem order_book_is_crossed market e s e' t :
  get_orderbook_snapshot market e = (Ok s, e') → t ∈ sql_select (of_market market) (env_db e) →
  (∃ b a, head (ob_bids s) = Some b ∧ head (ob_asks s) = Some a ∧ pl_price a ≤ pl_price b) ∧
  ((length (remove_dups (mt_price <$> sql_select (of_market market) (env_db e))) ≤ 50)%nat →
     ∀ l, l ∈ ob_bids s ↔ l ∈ ob_asks s).
Proof.
  unfold get_orderbook_snapshot, get_bids, get_asks, get_levels. intros H Ht. run_inv.
  repeat match goal with H : _ <$> levels _ _ _ = Some _ |- _ => apply fmap_Some in H as (? & ? & ?) end.
  simplify_eq/=. split; [|intros Hlen l; by rewrite !elem_of_levels by done].
  destruct (best_bid market (env_db e) x2 t) as (b & Eb & Hb); [done..|].
  destruct (best_ask market (env_db e) x1 t) as (a & Ea & Ha); [done..|].
  exists b, a. split; [done|]. split; [done|]. lia.
Qed.

(** ** The latest trades *)

Lemma StronglySorted_app_inv {A} (P : A → A → Prop) l1 l2 x y :
  StronglySorted P (l1 ++ l2) → x ∈ l1 → y ∈ l2 → P x y.
Proof.
  induction l1 as [|z l1 IH]; [by intros _ []%not_elem_of_nil|]. simpl.
  inversion 1 as [|? ? Hs Hall]; subst. rewrite Forall_forall in Hall.
  intros [->|Hx]%elem_of_cons Hy; [apply Hall, elem_of_app; by right|by apply IH].
Qed.
Lemma clamp_between lo hi n : lo ≤ hi → lo ≤ clamp lo hi n ≤ hi.
Proof. unfold clamp. destruct (Z.ltb_spec n lo), (Z.ltb_spec hi n); lia. Qed.

(** Whatever limit a client asks for, the trades it gets are at least one,
    at most a thousand and otherwise as many as it asked for, unless the market
    has fewer; they are trades of the market, and no trade left out is later
    than one of them. *)
Theorem trades_are_the_latest `{SqlxDisplay} market limit e ts e' :
  MarketDataHandlers.get_trades_handler market limit e = (Ok ts, e') →
  let all := sql_select (of_market market) (env_db e) in
  Z.of_nat (length ts) = Z.min (clamp 1 1000 (default 100 limit)) (Z.of_nat (length all)) ∧
  ∃ rest, ts ++ rest ≡ₚ all ∧ ∀ t u, t ∈ ts → u ∈ rest → mt_created_at u ≤ mt_created_at t.
Proof.
  unfold MarketDataHandlers.get_trades_handler, get_trades, MarketDataRepository.get_trades,
    MarketDataHandlers.default_limit. intros Hrun. run_inv.
  pose proof (clamp_between 1 1000 (default 100 limit)). set (n := clamp _ _ _) in *.
  set (all := sql_select _ _). set (s := sort_by latest_first all).
  assert (StronglySorted (λ x y, latest_first x y = true) s) as Hs.
  { apply Sorted_StronglySorted; [unfold latest_first; intros x y z; lia|].
    apply sort_by_sorted. unfold latest_first. intros. lia. }
  split; [rewrite length_take; unfold s; rewrite length_sort_by; lia|].
  exists (drop (Z.to_nat n) s). rewrite take_drop. split; [apply sort_by_perm|].
  intros t u Ht Hu. rewrite <- (take_drop (Z.to_nat n) s) in Hs.
  pose proof (StronglySorted_app_inv _ _ _ _ _ Hs Ht Hu) as Hle. unfold latest_first in Hle. lia.
Qed.

(** ** A market with four trades over two hours *)
Module MarketExample.
#[export] Instance display : SqlxDisplay := {| sqlx_text := λ _, "error"%string |}.
Definition trade (id : N) (price qty at_ : Z) : MarketTrade := mkMarketTrade id 7 1 2 price qty 0 at_.
Definition trades : MarketDb :=
  [trade 1 100 5 43200; trade 2 104 1 43210; trade 3 98 2 46860; trade 4 101 4 46900].
Definition env : Env MarketDb := mkEnv trades [] N.of_nat 0 50000.
End MarketExample.
Import MarketExample.

(** A request for four-hour candles gets two for trades within two hours. *)
Example four_hour_candles :
  fst (generate_candles 7 "4h" env) =
    Ok [mkCandle 7 100 104 100 104 6 2 43200; mkCandle 7 98 101 98 101 6 2 46800].
Proof. vm_compute. reflexivity. Qed.

Lemma candles_partition_the_window_witness :
  ∃ cs, StronglySorted Z.lt (ca_bucket <$> cs) ∧ sum_by ca_trade_count cs = 4 ∧ sum_by ca_volume cs = 12 ∧
        length cs = 2%nat.
Proof.
  destruct (candles_partition_the_window 7 "4h" env
    [mkCandle 7 100 104 100 104 6 2 43200; mkCandle 7 98 101 98 101 6 2 46800] env)
    as (l & Hl & Hs & _ & _ & Hn & Hv); [by vm_compute|].
  injection Hl as <-. eexists. split; [exact Hs|]. split; [by rewrite Hn|]. split; [by rewrite Hv|done].
Defined.

Lemma candle_widths_witness : bucket "15m" 46900 = 46800 ∧ bucket "4h" 46900 = 46800 ∧ bucket "1d" 46900 = 0.
Proof.
  split; [|split].
  - by rewrite (candle_widths "15m" 900).
  - by rewrite (candle_widths "4h" 14400).
  - by rewrite (candle_widths "1d" 86400).
Defined.

Lemma order_book_is_crossed_witness :
  ∃ s b a, fst (get_orderbook_snapshot 7 env) = Ok s ∧ head (ob_bids s) = Some b ∧ head (ob_asks s) = Some a ∧
    pl_price b = 104 ∧ pl_price a = 98 ∧ ∀ l, l ∈ ob_bids s ↔ l ∈ ob_asks s.
Proof.
  destruct (get_orderbook_snapshot 7 env) as [[s|] e'] eqn:E; [|by vm_compute in E].
  destruct (order_book_is_crossed 7 env s e' (trade 1 100 5 43200) E) as ((b & a & Hb & Ha & _) & Hall);
    [by vm_compute; left|].
  exists s, b, a. split; [done|]. split; [done|]. split; [done|].
  vm_compute in E. injection E as <- <-. simpl in Hb, Ha. simplify_eq. split; [done|]. split; [done|].
  apply Hall. vm_compute. lia.
Defined.

Lemma trades_are_the_latest_witness :
  ∃ ts e' (rest : list MarketTrade), MarketDataHandlers.get_trades_handler 7 (Some 2) env = (Ok ts, e') ∧ length ts = 2%nat ∧
    ∀ t u, t ∈ ts → u ∈ rest → mt_created_at u ≤ mt_created_at t.
Proof.
  destruct (MarketDataHandlers.get_trades_handler 7 (Some 2) env) as [[ts|] e'] eqn:E; [|by vm_compute in E].
  destruct (trades_are_the_latest 7 (Some 2) env ts e' E) as (Hn & rest & _ & Hr).
  exists ts, e', rest. split; [done|]. split; [|done]. vm_compute in E. by injection E as <- <-.
Defined.
