(* ===== verification/Guardian.v ===== *)
(** * The mock guardian network: [src/src/cross_chain/mock_guardian.rs]

    The server the bridge is tested against: its state, the two handlers with
    their injected failures, and the builder.  [build_vaa] and base64 are in
    [Wormhole].  hex is a parameter; the instants of the recorded requests are
    the clock's, delays are milliseconds. *)
From stdpp Require Import gmap.
From Stdlib Require Import Ascii.
From S2P Require Import Prelude Monad Float64 Model Text Bytes Breaker Wormhole Rpc Bridges Access Strings Http WormholeCorrect.
Open Scope Z_scope.

Inductive FailureMode :=
| ServerError (remaining : Z)
| Unavailable (remaining : Z)
| MalformedResponse (remaining : Z)
| InsufficientQuorum (num_sigs : Z)
| DuplicateGuardians
| Timeout (delay : Z).

Record RecordedRequest := mkRecorded { rr_path : string; rr_timestamp : Z }.

(** [VaaKey]: chain_id, emitter, sequence *)
Definition VaaKey : Type := Z * string * Z.

Record ServerState := mkServer {
  vaas : gmap VaaKey bytes;
  vaas_by_tx : gmap string bytes;
  num_guardians : Z;
  response_delay : Z;
  failure : option FailureMode;
  requests : list RecordedRequest;
  request_count : Z;
  auto_generate : bool;
  pending_count : Z;
  key_hits : gmap string Z;
}.

Definition set_vaas (x : gmap VaaKey bytes) (s : ServerState) : ServerState :=
  mkServer x (vaas_by_tx s) (num_guardians s) (response_delay s) (failure s) (requests s) (request_count s)
    (auto_generate s) (pending_count s) (key_hits s).
Definition set_vaas_by_tx (x : gmap string bytes) (s : ServerState) : ServerState :=
  mkServer (vaas s) x (num_guardians s) (response_delay s) (failure s) (requests s) (request_count s)
    (auto_generate s) (pending_count s) (key_hits s).
Definition set_failure (x : option FailureMode) (s : ServerState) : ServerState :=
  mkServer (vaas s) (vaas_by_tx s) (num_guardians s) (response_delay s) x (requests s) (request_count s)
    (auto_generate s) (pending_count s) (key_hits s).
Definition set_requests (x : list RecordedRequest) (n : Z) (s : ServerState) : ServerState :=
  mkServer (vaas s) (vaas_by_tx s) (num_guardians s) (response_delay s) (failure s) x n
    (auto_generate s) (pending_count s) (key_hits s).
Definition set_auto_generate (x : bool) (s : ServerState) : ServerState :=
  mkServer (vaas s) (vaas_by_tx s) (num_guardians s) (response_delay s) (failure s) (requests s) (request_count s)
    x (pending_count s) (key_hits s).
Definition set_pending (x : Z) (s : ServerState) : ServerState :=
  mkServer (vaas s) (vaas_by_tx s) (num_guardians s) (response_delay s) (failure s) (requests s) (request_count s)
    (auto_generate s) x (key_hits s).
Definition set_key_hits (x : gmap string Z) (s : ServerState) : ServerState :=
  mkServer (vaas s) (vaas_by_tx s) (num_guardians s) (response_delay s) (failure s) (requests s) (request_count s)
    (auto_generate s) (pending_count s) x.

(** [GuardianJsonResponse] with its status *)
Record GuardianData := mkGuardianData { vaa_bytes : option string }.
Record GuardianJsonResponse := mkJsonResponse {
  data : option GuardianData; message : option string; code : option Z;
}.
Definition Reply : Type := Z * GuardianJsonResponse.

Module ServerState.
Definition new (num_guardians response_delay : Z) : ServerState :=
  mkServer ∅ ∅ num_guardians response_delay None [] 0 true 0 ∅.
End ServerState.

Module MockGuardianBuilder.
Record MockGuardianBuilder := mkBuilder {
  b_num_guardians : Z; b_response_delay_ms : Z; b_auto_generate : bool; b_pending_count : Z;
}.
Definition builder : MockGuardianBuilder := mkBuilder 13 0 true 0.
Definition num_guardians (n : Z) (b : MockGuardianBuilder) : MockGuardianBuilder :=
  mkBuilder n (b_response_delay_ms b) (b_auto_generate b) (b_pending_count b).
Definition response_delay_ms (ms : Z) (b : MockGuardianBuilder) : MockGuardianBuilder :=
  mkBuilder (b_num_guardians b) ms (b_auto_generate b) (b_pending_count b).
Definition auto_generate (enable : bool) (b : MockGuardianBuilder) : MockGuardianBuilder :=
  mkBuilder (b_num_guardians b) (b_response_delay_ms b) enable (b_pending_count b).
Definition pending_count (n : Z) (b : MockGuardianBuilder) : MockGuardianBuilder :=
  mkBuilder (b_num_guardians b) (b_response_delay_ms b) (b_auto_generate b) n.
(** The state of the server that is built, which is not started yet. *)
Definition build (b : MockGuardianBuilder) : ServerState :=
  set_pending (b_pending_count b) (set_auto_generate (b_auto_generate b)
    (ServerState.new (b_num_guardians b) (b_response_delay_ms b))).
End MockGuardianBuilder.

Module GuardianServer.

Definition plain (status : Z) (text : string) : Reply := (status, mkJsonResponse None (Some text) (Some status)).
Definition signed (vaa : bytes) : Reply :=
  (200, mkJsonResponse (Some (mkGuardianData (Some (text_of (Base64.base64_encode vaa))))) None None).
Definition malformed : Reply :=
  (200, mkJsonResponse (Some (mkGuardianData (Some "!!!not-base64!!!"))) None None).
Definition not_yet : Reply := (200, mkJsonResponse (Some (mkGuardianData None)) (Some "not yet signed") None).
Definition not_found : Reply := plain 404 "VAA not found".

(** What is left of a failure that counts down. *)
Definition left_of (mode : Z → FailureMode) (remaining : Z) : option FailureMode :=
  if 1 <? remaining then Some (mode (remaining - 1)) else None.

(** The answer a failure forces, and the failure afterwards. *)
Definition injected (f : option FailureMode) : option (Reply * option FailureMode) :=
  match f with
  | Some (ServerError n) => Some (plain 500 "internal error", left_of ServerError n)
  | Some (Unavailable n) => Some (plain 503 "service unavailable", left_of Unavailable n)
  | Some (MalformedResponse n) => Some (malformed, left_of MalformedResponse n)
  | Some (Timeout d) => Some (plain 504 "timeout", Some (Timeout d))
  | _ => None
  end.
(** The handler of the transactions knows two of them. *)
Definition injected_by_tx (f : option FailureMode) : option (Reply * option FailureMode) :=
  match f with
  | Some (ServerError _) | Some (Unavailable _) => injected f
  | _ => None
  end.

(** The first critical section of a request, and what runs while it sleeps. *)
Definition record (path : string) (t : Z) (s : ServerState) : ServerState :=
  set_requests (requests s ++ [mkRecorded path t]) (u64 (request_count s + 1)) s.
Definition delayed (meanwhile : ServerState → ServerState) (s : ServerState) : ServerState :=
  if 0 <? response_delay s then meanwhile s else s.

Section hex.
Context (hex_decode : string → option bytes).

(** Left-padded to 32 bytes. *)
Definition pad_emitter (emitter_hex : string) : bytes :=
  let decoded := default [] (hex_decode emitter_hex) in
  let len := (length decoded `min` 32)%nat in
  replicate (32 - len) 0 ++ take len decoded.

Definition register_vaa (chain_id : Z) (emitter : string) (sequence : Z) (payload : bytes) (s : ServerState)
  : ServerState :=
  let emitter_hex := strip_0x emitter in
  let vaa := MockGuardian.build_vaa (num_guardians s) chain_id (pad_emitter emitter_hex) sequence payload in
  set_vaas (<[(chain_id, emitter_hex, sequence) := vaa]> (vaas s)) s.
Definition register_vaa_by_tx (tx_hash : string) (chain_id : Z) (emitter : string) (sequence : Z)
    (payload : bytes) (s : ServerState) : ServerState :=
  let vaa := MockGuardian.build_vaa (num_guardians s) chain_id (pad_emitter (strip_0x emitter)) sequence payload in
  set_vaas_by_tx (<[tx_hash := vaa]> (vaas_by_tx s)) s.
Definition inject_failure (mode : FailureMode) (s : ServerState) : ServerState := set_failure (Some mode) s.
Definition clear_failure (s : ServerState) : ServerState := set_failure None s.
Definition set_pending_count (count : Z) (s : ServerState) : ServerState := set_pending count s.

(** The VAA of a key nobody registered; failures of its signatures are one-shot. *)
Definition generate (chain_id : Z) (emitter_clean : string) (sequence : Z) (s : ServerState) : bytes * ServerState :=
  let num_sigs := match failure s with Some (InsufficientQuorum n) => n | _ => num_guardians s end in
  let vaa := MockGuardian.build_vaa num_sigs chain_id (pad_emitter emitter_clean) sequence (as_bytes "auto") in
  match failure s with
  | Some DuplicateGuardians =>
      ((if (72 <? length vaa)%nat then <[72%nat := nth 6 vaa 0]> vaa else vaa), set_failure None s)
  | Some (InsufficientQuorum _) => (vaa, set_failure None s)
  | _ => (vaa, s)
  end.

(** The second critical section of [handle_signed_vaa]. *)
Definition answer_key (chain_id : Z) (emitter_clean : string) (sequence : Z) (s : ServerState)
  : Reply * ServerState :=
  let hit_key := (print_uint chain_id +:+ "/" +:+ emitter_clean +:+ "/" +:+ print_uint sequence)%string in
  let hits := u32 (default 0 (key_hits s !! hit_key) + 1) in
  let s := set_key_hits (<[hit_key := hits]> (key_hits s)) s in
  if hits <=? pending_count s then (not_yet, s)
  else match vaas s !! (chain_id, emitter_clean, sequence) with
       | Some vaa => (signed vaa, s)
       | None =>
           if auto_generate s then
             let '(vaa, s) := generate chain_id emitter_clean sequence s in (signed vaa, s)
           else (not_found, s)
       end.
Definition answer_signed_vaa (chain_id_str emitter sequence_str : string) (s : ServerState) : Reply * ServerState :=
  match injected (failure s) with
  | Some (r, f) => (r, set_failure f s)
  | None =>
      match parse_uint (2 ^ 16 - 1) chain_id_str with
      | None => (plain 400 "invalid chain_id", s)
      | Some chain_id =>
          match parse_uint u64_max sequence_str with
          | None => (plain 400 "invalid sequence", s)
          | Some sequence => answer_key chain_id (strip_0x emitter) sequence s
          end
      end
  end.
Definition answer_by_tx (tx_hash : string) (s : ServerState) : Reply * ServerState :=
  match injected_by_tx (failure s) with
  | Some (r, f) => (r, set_failure f s)
  | None => (match vaas_by_tx s !! tx_hash with Some vaa => signed vaa | None => not_found end, s)
  end.

Definition handle_signed_vaa (t : Z) (meanwhile : ServerState → ServerState)
    (chain_id_str emitter sequence_str : string) (s : ServerState) : Reply * ServerState :=
  let path := ("/v1/signed_vaa/" +:+ chain_id_str +:+ "/" +:+ emitter +:+ "/" +:+ sequence_str)%string in
  answer_signed_vaa chain_id_str emitter sequence_str (delayed meanwhile (record path t s)).
Definition handle_signed_vaa_by_tx (t : Z) (meanwhile : ServerState → ServerState) (tx_hash : string)
    (s : ServerState) : Reply * ServerState :=
  answer_by_tx tx_hash (delayed meanwhile (record ("/v1/signed_vaa_by_tx/" +:+ tx_hash) t s)).

End hex.
End GuardianServer.

(** * Proofs: What the mock guardian network answers

    Its failures count down, the VAAs it makes pass or fail the check of the
    bridge as they should, and a bridge that polls it gets its message. *)

Import GuardianServer.

Inductive GRequest := ByKey (chain_id emitter sequence : string) | ByTx (tx_hash : string).

(** ** Base64 text *)
Lemma as_bytes_text_of l : all_bytes l → as_bytes (text_of l) = l.
Proof.
  unfold as_bytes. induction 1 as [|b l Hb _ IH]; [done|]. simpl. f_equal; [|exact IH].
  unfold chr. rewrite Ascii.nat_ascii_embedding by (unfold is_byte in Hb; lia). unfold is_byte in Hb. lia.
Qed.
Lemma symbol_byte i : is_byte (Base64.symbol i).
Proof.
  unfold Base64.symbol. assert (all_bytes Base64.TABLE) as Ht.
  { apply Forall_forall. intros b Hb. assert (forallb (λ b, (0 <=? b) && (b <? 256)) Base64.TABLE = true) as Hall
      by (by vm_compute). rewrite forallb_forall in Hall. specialize (Hall b ltac:(by apply list_elem_of_In)).
    unfold is_byte. lia. }
  generalize (Z.to_nat i). intros n. destruct (nth_in_or_default n Base64.TABLE 0) as [Hin| ->]; [|unfold is_byte; lia].
  unfold all_bytes in Ht. rewrite Forall_forall in Ht. by apply Ht, list_elem_of_In.
Qed.
Lemma base64_bytes data : all_bytes (Base64.base64_encode data).
Proof.
  induction data as [data IH] using (induction_ltof1 _ (@length Z)). unfold ltof in IH.
  assert (is_byte 61) by (unfold is_byte; lia).
  destruct data as [|b0 [|b1 [|b2 rest]]]; cbn [Base64.base64_encode];
    repeat (constructor; [done || apply symbol_byte|]); [constructor..|]. apply IH. simpl. lia.
Qed.
Lemma base64_text data : all_bytes data →
  Base64.base64_decode (as_bytes (text_of (Base64.base64_encode data))) = Ok data.
Proof. intros H. rewrite as_bytes_text_of by apply base64_bytes. by apply base64_roundtrip. Qed.

Section server.
Context (hex_encode : bytes → string) (hex_decode : string → option bytes).
Context (hex_decode_bytes : ∀ s b, hex_decode s = Some b → all_bytes b).

(** One request after the other, without delay. *)
Definition serve (t : Z) (r : GRequest) (s : ServerState) : Reply * ServerState :=
  match r with
  | ByKey c m q => handle_signed_vaa hex_decode t id c m q s
  | ByTx h => handle_signed_vaa_by_tx t id h s
  end.
Fixpoint serve_all (t : Z) (rs : list GRequest) (s : ServerState) : list Reply * ServerState :=
  match rs with
  | [] => ([], s)
  | r :: rs => let '(a, s) := serve t r s in let '(l, s) := serve_all t rs s in (a :: l, s)
  end.

(** A reply that a bridge accepts as the message [q] of [emitter] on [c]. *)
Definition carries (r : Reply) (c : Z) (emitter : bytes) (q : Z) (p : bytes) : Prop :=
  ∃ b64 b vaa, r = (200, mkJsonResponse (Some (mkGuardianData (Some b64))) None None) ∧
    Base64.base64_decode (as_bytes b64) = Ok b ∧ Wormhole.parse_vaa hex_encode b = Ok vaa ∧
    Wormhole.verify_vaa vaa = Some (Ok tt) ∧
    Wormhole.emitter_chain vaa = c ∧ Wormhole.emitter_address vaa = hex_encode emitter ∧
    Wormhole.sequence vaa = q ∧ Wormhole.payload vaa = p.

Lemma length_pad_emitter x : length (pad_emitter hex_decode x) = 32%nat.
Proof. unfold pad_emitter. rewrite length_app, length_replicate, length_take. lia. Qed.
Lemma pad_emitter_bytes x : all_bytes (pad_emitter hex_decode x).
Proof.
  unfold pad_emitter. apply Forall_app. split; [apply Forall_replicate; unfold is_byte; lia|].
  apply Forall_take. destruct (hex_decode x) eqn:E; [by eapply hex_decode_bytes|constructor].
Qed.

Lemma signed_carries n c x q p : 13 ≤ n ≤ 19 → 0 ≤ c < 2 ^ 16 → in_u64 q → all_bytes p →
  carries (signed (MockGuardian.build_vaa n c (pad_emitter hex_decode x) q p)) c (pad_emitter hex_decode x) q p.
Proof.
  intros Hn Hc Hq Hp.
  set (a := pad_emitter hex_decode x).
  destruct (guardian_vaa_roundtrip hex_encode n c a q p) as (_ & Hv & Hok);
    [unfold is_byte; lia|done|apply pad_emitter_bytes|apply length_pad_emitter|done|done|].
  eexists _, _, _. split; [done|]. split; [apply base64_text, build_vaa_bytes|].
  - unfold is_byte. lia.
  - apply pad_emitter_bytes.
  - done.
  - split; [exact Hv|]. split; [by apply Hok|done].
Qed.

(** *** Failures *)

(** The failures that count down, with the answer they force on which requests. *)
Definition forces (mode : Z → FailureMode) (r : Reply) (p : GRequest → Prop) : Prop :=
  (∀ n s q, failure s = Some (mode n) → p q →
     ∀ t, ∃ s', serve t q s = (r, s') ∧ failure s' = left_of mode n ∧ vaas s' = vaas s ∧
       vaas_by_tx s' = vaas_by_tx s ∧ key_hits s' = key_hits s).
Definition by_key (r : GRequest) : Prop := match r with ByKey _ _ _ => True | _ => False end.
Ltac strike Hf :=
  simpl; unfold handle_signed_vaa, handle_signed_vaa_by_tx, answer_signed_vaa, answer_by_tx, delayed, id;
  destruct (0 <? _); simpl; rewrite Hf; simpl; eexists; by split_and!.
Lemma server_error_forces : forces ServerError (plain 500 "internal error") (λ _, True).
Proof. intros n s q Hf _ t. destruct q; strike Hf. Qed.
Lemma unavailable_forces : forces Unavailable (plain 503 "service unavailable") (λ _, True).
Proof. intros n s q Hf _ t. destruct q; strike Hf. Qed.
Lemma malformed_forces : forces MalformedResponse malformed by_key.
Proof. intros n s q Hf Hq t. destruct q; [strike Hf|done]. Qed.

Lemma forced_run mode r p : forces mode r p →
  ∀ k n s rs t, length rs = k → Z.of_nat k = Z.max 1 n → failure s = Some (mode n) → Forall p rs →
  ∃ s', serve_all t rs s = (replicate k r, s') ∧ failure s' = None ∧ vaas s' = vaas s ∧
    vaas_by_tx s' = vaas_by_tx s ∧ key_hits s' = key_hits s.
Proof.
  intros Hforce. induction k as [|k IH]; intros n s rs t Hl Hk Hf Hp; [lia|].
  destruct rs as [|q rs]; [done|]. inversion Hp; subst. injection Hl as Hl. cbn [serve_all replicate].
  destruct (Hforce n s q Hf ltac:(done) t) as (s1 & -> & Hf1 & Hv1 & Ht1 & Hh1).
  unfold left_of in Hf1. destruct (Z.ltb_spec 1 n).
  - destruct (IH (n - 1) s1 rs t) as (s' & -> & Hs'); [done|lia|done|done|].
    exists s'. by rewrite Hv1, Ht1, Hh1 in Hs'.
  - assert (k = 0)%nat as -> by lia. destruct rs; [|done]. by exists s1.
Qed.

(** C32: An injected failure that counts down forces its answer on as many
    requests as it was given, but on one if it was given none (a flaw: the next
    zero requests are one), and is gone then, while the registered messages and
    the counts of the keys are as they were.  Server errors and unavailability
    strike both handlers, malformed answers only the one for messages. *)
Theorem injected_failures_count_down t n s rs :
  Z.of_nat (length rs) = Z.max 1 n →
  let passes r := ∃ s', serve_all t rs s = (replicate (length rs) r, s') ∧ failure s' = None ∧
                    vaas s' = vaas s ∧ vaas_by_tx s' = vaas_by_tx s ∧ key_hits s' = key_hits s in
  (failure s = Some (ServerError n) → passes (plain 500 "internal error")) ∧
  (failure s = Some (Unavailable n) → passes (plain 503 "service unavailable")) ∧
  (failure s = Some (MalformedResponse n) → Forall by_key rs → passes malformed).
Proof.
  intros Hl passes. split_and!; intros Hf.
  - eapply forced_run; [apply server_error_forces|done|done|done|by apply Forall_true].
  - eapply forced_run; [apply unavailable_forces|done|done|done|by apply Forall_true].
  - intros Hp. by eapply forced_run; [apply malformed_forces|..].
Qed.

(** *** Signatures *)

(** What the check of the bridge says of a reply. *)
Definition checked (r : Reply) (verdict : result unit BridgeError) : Prop :=
  ∃ b64 b vaa, r = (200, mkJsonResponse (Some (mkGuardianData (Some b64))) None None) ∧
    Base64.base64_decode (as_bytes b64) = Ok b ∧ Wormhole.parse_vaa hex_encode b = Ok vaa ∧
    Wormhole.verify_vaa vaa = Some verdict.

Lemma few_signers n c a q p : 0 ≤ n < 13 → 0 ≤ c < 2 ^ 16 → length a = 32%nat → all_bytes a → in_u64 q →
  all_bytes p →
  checked (signed (MockGuardian.build_vaa n c a q p)) (Err (VerificationFailed "Insufficient signatures")).
Proof.
  intros Hn Hc Hl Ha Hq Hp. assert (is_byte n) by (unfold is_byte; lia).
  eexists _, _, _. split; [done|]. split; [by apply base64_text, build_vaa_bytes|].
  split; [by apply build_vaa_parses|]. unfold Wormhole.verify_vaa, Wormhole.GUARDIAN_QUORUM.
  cbn [Wormhole.num_signatures]. by rewrite (proj2 (Nat.ltb_lt _ _)) by lia.
Qed.

Lemma nth_insert_ne i j (x d : Z) l : i ≠ j → nth j (<[i := x]> l) d = nth j l d.
Proof. intros H. by rewrite !nth_lookup, list_lookup_insert_ne. Qed.

Lemma second_signer_doubled n c a q p : 13 ≤ n ≤ 19 → 0 ≤ c < 2 ^ 16 → length a = 32%nat → all_bytes a →
  in_u64 q → all_bytes p →
  checked (signed (<[72%nat := 0]> (MockGuardian.build_vaa n c a q p)))
    (Err (VerificationFailed "Duplicate guardian index")).
Proof.
  intros Hn Hc Hl Ha Hq Hp. assert (is_byte n) as Hb by (unfold is_byte; lia).
  set (b := MockGuardian.build_vaa n c a q p). pose proof (build_vaa_bytes n c a q p Hb Ha Hp) as Hbytes. fold b in Hbytes.
  pose proof (build_vaa_parses hex_encode n c a q p Hb Hc Hl Hq) as Hv. fold b in Hv.
  assert (length b = length (<[72%nat := 0]> b)) as Hlen by (symmetry; apply length_insert).
  assert (b !! 6%nat = Some 0) as H0 by (apply (build_vaa_guardian n c a q p 0); lia).
  assert (is_Some (b !! 72%nat)) as H1 by (exists 1; apply (build_vaa_guardian n c a q p 1); lia).
  apply lookup_lt_is_Some in H1.
  eexists _, _, _. split; [done|]. split; [apply base64_text, Forall_insert; [done|unfold is_byte; lia]|].
  unfold Wormhole.parse_vaa in *. rewrite <- Hlen, !nth_insert_ne by lia.
  destruct (_ <? 57)%nat; [done|]. destruct (negb _); [done|]. cbv zeta in *.
  replace (nth 5 b 0) with n in * by done. destruct (_ <? _)%nat; [done|]. split; [done|].
  unfold Wormhole.verify_vaa, Wormhole.GUARDIAN_QUORUM. cbn [Wormhole.num_signatures Wormhole.vaa_bytes].
  rewrite (proj2 (Nat.ltb_ge _ _)) by lia. destruct (Z.to_nat n) as [|[|k]] eqn:En; [lia..|].
  cbn [Wormhole.check_signatures]. change (6 + 0 * 66)%nat with 6%nat. change (6 + 1 * 66)%nat with 72%nat.
  rewrite (list_lookup_insert_ne b 72 6 0) by lia. rewrite H0. cbn -[insert lookup].
  rewrite list_lookup_insert_eq by done. done.
Qed.

(** A key nobody registered, asked for without delay of the signatures. *)
Record unknown (c : Z) (m : string) (q : Z) (s : ServerState) : Prop := {
  un_chain : 0 ≤ c < 2 ^ 16;
  un_sequence : in_u64 q;
  un_key : vaas s !! (c, strip_0x m, q) = None;
  un_auto : auto_generate s = true;
  un_pending : pending_count s = 0;
  un_hits : 0 ≤ default 0 (key_hits s !! (print_uint c +:+ "/" +:+ strip_0x m +:+ "/" +:+ print_uint q)%string) < 2 ^ 32 - 1;
}.

Lemma serve_unknown t c m q s : unknown c m q s → injected (failure s) = None →
  ∃ s0, serve t (ByKey (print_uint c) m (print_uint q)) s =
    (let '(vaa, s') := generate hex_decode c (strip_0x m) q s0 in (signed vaa, s')) ∧
    failure s0 = failure s ∧ num_guardians s0 = num_guardians s.
Proof.
  intros [Hc Hq Hk Ha Hp Hh] Hf. unfold in_u64, u64_max in Hq.
  eexists. split; [|split]; cycle 1.
  - instantiate (1 := set_key_hits _ (record _ t s)). done.
  - done.
  - simpl. unfold handle_signed_vaa, delayed, id. destruct (0 <? _);
      unfold answer_signed_vaa; simpl failure; rewrite Hf; rewrite !parse_print by (unfold u64_max; lia);
      unfold answer_key; simpl key_hits; simpl pending_count; simpl vaas; simpl auto_generate;
      rewrite Hk, Ha, Hp, (proj2 (Z.leb_gt _ _))
        by (unfold u32, wrap_u; rewrite Z.mod_small; lia); done.
Qed.

(** The failures of signatures do what the check of the bridge is tested
    with: a message nobody registered is made up and accepted while nothing is
    injected; with fewer signatures than a quorum, or with one guardian signing
    twice, it is made up all the same and the check refuses it for that very
    reason, once. *)
Theorem signature_failures_are_caught t c m q s r s' : unknown c m q s → 13 ≤ num_guardians s ≤ 19 →
  serve t (ByKey (print_uint c) m (print_uint q)) s = (r, s') →
  (failure s = None → carries r c (pad_emitter hex_decode (strip_0x m)) q (as_bytes "auto")) ∧
  (∀ n, 0 ≤ n < 13 → failure s = Some (InsufficientQuorum n) →
     checked r (Err (VerificationFailed "Insufficient signatures")) ∧ failure s' = None) ∧
  (failure s = Some DuplicateGuardians →
     checked r (Err (VerificationFailed "Duplicate guardian index")) ∧ failure s' = None).
Proof.
  intros Hu Hn Hr. assert (all_bytes (as_bytes "auto")) as Hauto by (repeat constructor; unfold is_byte; lia).
  pose proof (pad_emitter_bytes (strip_0x m)) as Hb. pose proof (length_pad_emitter (strip_0x m)) as Hl.
  pose proof (un_chain _ _ _ _ Hu). pose proof (un_sequence _ _ _ _ Hu).
  split_and!; [intros Hf|intros n Hlt Hf|intros Hf];
    (destruct (serve_unknown t c m q s Hu) as (s0 & Hs & Hf0 & Hn0); [by rewrite Hf|]);
    rewrite Hr in Hs; unfold generate in Hs; rewrite Hf0, Hf, ?Hn0 in Hs.
  - injection Hs as -> _. by apply signed_carries.
  - injection Hs as -> ->. split; [by apply few_signers|done].
  - set (b := MockGuardian.build_vaa (num_guardians s) c _ q _) in Hs.
    assert (72 < length b)%nat as Hlt by (eapply lookup_lt_Some, (build_vaa_guardian _ c _ q _ 1); lia).
    assert (nth 6 b 0 = 0) as H6.
    { rewrite nth_lookup. unfold b. by rewrite (build_vaa_guardian _ c _ q _ 0) by lia. }
    rewrite (proj2 (Nat.ltb_lt _ _) Hlt), H6 in Hs. apply pair_equal_spec in Hs as [-> ->].
    split; [by apply second_signer_doubled|done].
Qed.

(** *** A bridge that polls *)

(** The server behind the network, asked for one message: [σ] is its state in
    the surroundings of the bridge, [print] the JSON of a response; its clock is
    its own. *)
Record serves (net : Network) (api : string) (print : GuardianJsonResponse → string)
    (parse : string → result WormholeAdapter.GuardianResponse string) (σ : Env CoreDb → ServerState)
    (c m q : string) : Prop := {
  sv_get e : let url := (api +:+ WormholeAdapter.VAA_PATH +:+ "/" +:+ c +:+ "/" +:+ m +:+ "/" +:+ q)%string in
    ∃ t e', get_url net url e = (Ok ((serve t (ByKey c m q) (σ e)).1.1, print (serve t (ByKey c m q) (σ e)).1.2), e') ∧
      σ e' = (serve t (ByKey c m q) (σ e)).2 ∧ env_db e' = env_db e;
  sv_print r : parse (print r) = Ok (WormholeAdapter.mkGuardianResponse (vaa_bytes <$> data r));
  sv_sleep ms e : σ (sleep net ms e) = σ e ∧ env_db (sleep net ms e) = env_db e;
  sv_random e : σ (snd (random net e)) = σ e ∧ env_db (snd (random net e)) = env_db e;
  sv_db d e : σ (with_db d e) = σ e;
}.

Section polling.
Context (net : Network) (self : Bridge) (print : GuardianJsonResponse → string)
        (parse : string → result WormholeAdapter.GuardianResponse string) (σ : Env CoreDb → ServerState).
Context (c : Z) (m : string) (q : Z) (p : bytes).
Context (Hserves : serves net (api self) print parse σ (print_uint c) m (print_uint q)).
Context (Hc : 0 ≤ c < 2 ^ 16) (Hq : in_u64 q) (Hp : all_bytes p).

Definition hit_key : string := (print_uint c +:+ "/" +:+ strip_0x m +:+ "/" +:+ print_uint q)%string.
Definition hits (s : ServerState) : Z := default 0 (key_hits s !! hit_key).
(** The message is registered and no failure is in the way. *)
Record ready (s : ServerState) : Prop := {
  rd_failure : failure s = None;
  rd_signers : 13 ≤ num_guardians s ≤ 19;
  rd_vaa : vaas s !! (c, strip_0x m, q) =
           Some (MockGuardian.build_vaa (num_guardians s) c (pad_emitter hex_decode (strip_0x m)) q p);
  rd_hits : 0 ≤ hits s < 2 ^ 32 - 1;
}.

Definition url : string :=
  (api self +:+ WormholeAdapter.VAA_PATH +:+ "/" +:+ print_uint c +:+ "/" +:+ m +:+ "/" +:+ print_uint q)%string.
Definition closed (e : Env CoreDb) : Prop :=
  cb_state (CircuitBreaker.inner_of (cfg_name (api_breaker self)) (env_db e)) = BClosed.

Lemma serve_ready t s : ready s → serve t (ByKey (print_uint c) m (print_uint q)) s =
  let s' := set_key_hits (<[hit_key := hits s + 1]> (key_hits s))
              (record ("/v1/signed_vaa/" +:+ print_uint c +:+ "/" +:+ m +:+ "/" +:+ print_uint q) t s) in
  (if hits s + 1 <=? pending_count s then not_yet
   else signed (MockGuardian.build_vaa (num_guardians s) c (pad_emitter hex_decode (strip_0x m)) q p), s').
Proof.
  intros [Hf Hn Hv Hh]. unfold in_u64, u64_max in Hq. simpl. unfold handle_signed_vaa, delayed, id.
  destruct (0 <? _); unfold answer_signed_vaa; simpl failure; rewrite Hf; simpl injected; cbv iota;
    rewrite !parse_print by (unfold u64_max; lia); unfold answer_key; simpl key_hits; simpl pending_count;
    simpl vaas; fold hit_key; fold (hits s);
    replace (u32 (hits s + 1)) with (hits s + 1) by (unfold u32, wrap_u; rewrite Z.mod_small; lia);
    rewrite Hv; by destruct (_ <=? _).
Qed.

Lemma serve_ready_after t s : ready s → hits s + 1 < 2 ^ 32 - 1 →
  ready (serve t (ByKey (print_uint c) m (print_uint q)) s).2 ∧
  hits (serve t (ByKey (print_uint c) m (print_uint q)) s).2 = hits s + 1 ∧
  pending_count (serve t (ByKey (print_uint c) m (print_uint q)) s).2 = pending_count s ∧
  num_guardians (serve t (ByKey (print_uint c) m (print_uint q)) s).2 = num_guardians s.
Proof.
  intros Hr Hlt. rewrite serve_ready by done. destruct Hr as [Hf Hn Hv Hh]. cbn [snd].
  assert (hits (set_key_hits (<[hit_key:=hits s + 1]> (key_hits s))
     (record ("/v1/signed_vaa/" +:+ print_uint c +:+ "/" +:+ m +:+ "/" +:+ print_uint q) t s)) = hits s + 1) as Hhits
    by (unfold hits; simpl; by rewrite lookup_insert_eq).
  split_and!; [|done|done|done]. constructor; [done..|]. rewrite Hhits. lia.
Qed.

(** A request through a breaker that is closed. *)
Lemma fetch_closed e : closed e →
  ∃ t e', let a := serve t (ByKey (print_uint c) m (print_uint q)) (σ e) in
    Monad.attempt (E := CircuitError BridgeError) (F := BridgeError) (fetch net self "read body: " url) e =
      (Ok (Ok (a.1.1, print a.1.2)), e') ∧ σ e' = a.2 ∧ closed e'.
Proof.
  intros Hcl. unfold closed in *. unfold Monad.attempt, fetch, CircuitBreaker.call, bind, now, reads, modify, ret.
  unfold CircuitBreaker.check_open. rewrite Hcl.
  set (e1 := with_db _ e). destruct (sv_get _ _ _ _ _ _ _ _ Hserves e1) as (t & e' & Hget & Hσ & Hdb).
  assert (σ e1 = σ e) as Hσ1 by apply (sv_db _ _ _ _ _ _ _ _ Hserves).
  unfold map_err, Monad.attempt. fold url in Hget. rewrite Hget. rewrite Hσ1 in *.
  exists t. eexists. split; [done|]. split; [by rewrite (sv_db _ _ _ _ _ _ _ _ Hserves), Hσ|].
  simpl. unfold CircuitBreaker.inner_of, CircuitBreaker.set_inner. simpl. rewrite lookup_insert_eq. simpl.
  rewrite Hdb. unfold e1. simpl. unfold CircuitBreaker.set_inner. simpl. rewrite lookup_insert_eq. simpl.
  unfold CircuitBreaker.record_success, CircuitBreaker.inner_of in *. by rewrite Hcl.
Qed.

Lemma backoff_quiet (E : Type) k a b e : ∃ e', backoff (E := E) net k a b e = (Ok tt, e') ∧ σ e' = σ e ∧ env_db e' = env_db e.
Proof.
  unfold backoff, bind, random_u64, sleep_ms. pose proof (sv_random _ _ _ _ _ _ _ _ Hserves e) as [Hσ Hdb].
  destruct (random net e) as [r e1]. simpl in *. eexists. split; [done|].
  destruct (sv_sleep _ _ _ _ _ _ _ _ Hserves (Wormhole.backoff_delay r k a b) e1) as [-> ->]. done.
Qed.

(** The message as the server signs it, and as the bridge reads it. *)
Definition message_bytes (s : ServerState) : bytes :=
  MockGuardian.build_vaa (num_guardians s) c (pad_emitter hex_decode (strip_0x m)) q p.
Definition message_vaa (s : ServerState) : Wormhole.Vaa :=
  Wormhole.mkVaa (message_bytes s) 1 (Z.to_nat (num_guardians s)) c
    (hex_encode (pad_emitter hex_decode (strip_0x m))) q p.

Lemma decode_message s e : ready s →
  WormholeAdapter.decode_vaa hex_encode (text_of (Base64.base64_encode (message_bytes s))) e = (Ok (message_vaa s), e) ∧
  Wormhole.verify_vaa (message_vaa s) = Some (Ok tt).
Proof.
  intros [_ Hn _ _]. set (a := pad_emitter hex_decode (strip_0x m)).
  destruct (guardian_vaa_roundtrip hex_encode (num_guardians s) c a q p) as (_ & Hv & Hok);
    [unfold is_byte; lia|done|apply pad_emitter_bytes|apply length_pad_emitter|done|done|].
  split; [|by apply Hok]. unfold WormholeAdapter.decode_vaa, bind.
  rewrite base64_text by (apply build_vaa_bytes; [unfold is_byte; lia|apply pad_emitter_bytes|done]).
  simpl. unfold message_bytes. fold a. by rewrite Hv.
Qed.

Lemma polling n : ∀ k l e, closed e → ready (σ e) →
  hits (σ e) ≤ pending_count (σ e) → hits (σ e) + Z.of_nat n < 2 ^ 32 - 1 →
  ∃ e', WormholeAdapter.fetch_loop hex_encode parse net self n k url l e =
    ((if pending_count (σ e) - hits (σ e) <? Z.of_nat n then Ok (message_vaa (σ e))
      else Err (VerificationFailed ("VAA not available after 30 attempts: " +:+ l))), e').
Proof.
  induction n as [|n IH]; intros k l e Hcl Hr Hle Hlt.
  { rewrite (proj2 (Z.ltb_ge _ _)) by lia. by eexists. }
  destruct (fetch_closed e Hcl) as (t & e1 & Hf & Hσ & Hcl1).
  destruct (serve_ready_after t (σ e) Hr) as (Hr1 & Hh1 & Hp1 & Hn1); [lia|].
  pose proof (serve_ready t (σ e) Hr) as Hs.
  cbn [WormholeAdapter.fetch_loop]. unfold bind at 1. rewrite Hf, Hs. clear Hf Hs. cbv zeta. cbn [fst].
  rewrite <- Hσ in Hr1, Hh1, Hp1, Hn1.
  destruct (Z.leb_spec (hits (σ e) + 1) (pending_count (σ e))) as [Hmore|Hdone]; cbn [fst snd not_yet signed success].
  - rewrite (sv_print _ _ _ _ _ _ _ _ Hserves). cbn.
    destruct (backoff_quiet BridgeError k WormholeAdapter.VAA_POLL_INITIAL_DELAY_MS
                WormholeAdapter.VAA_POLL_MAX_DELAY_MS e1) as (e2 & Hb & Hσ2 & Hdb).
    unfold bind at 1. rewrite Hb. rewrite <- Hσ2 in Hr1, Hh1, Hp1, Hn1.
    destruct (IH (k + 1) l e2) as (e3 & ->); [by unfold closed; rewrite Hdb|done|lia|lia|].
    exists e3. f_equal. rewrite Hh1, Hp1. unfold message_vaa, message_bytes. rewrite Hn1.
    replace (pending_count (σ e) - (hits (σ e) + 1) <? Z.of_nat n)
      with (pending_count (σ e) - hits (σ e) <? Z.of_nat (S n)); [done|].
    apply eq_true_iff_eq. rewrite !Z.ltb_lt. lia.
  - rewrite (proj2 (Z.ltb_lt _ _)) by lia. rewrite (sv_print _ _ _ _ _ _ _ _ Hserves).
    cbn -[WormholeAdapter.decode_vaa Base64.base64_encode MockGuardian.build_vaa].
    destruct (decode_message (σ e) e1 Hr) as [Hd _]. unfold message_bytes in Hd. rewrite Hd. by eexists.
Qed.

(** A bridge that asks the mock network for a registered message polls it
    as long as the network says it is not signed yet.  If the network says so
    fewer than thirty times, the bridge gets the message, with the chain, the
    emitter, the number and the payload it was registered with, and its check of
    the signatures accepts it; otherwise the bridge gives up. *)
Theorem pending_messages_arrive e : closed e → ready (σ e) →
  hits (σ e) ≤ pending_count (σ e) → hits (σ e) < 2 ^ 31 →
  ∃ e', WormholeAdapter.fetch_vaa hex_encode parse net self c m q e =
    ((if pending_count (σ e) - hits (σ e) <? 30 then Ok (message_vaa (σ e))
      else Err (VerificationFailed "VAA not available after 30 attempts: VAA not available")), e') ∧
    Wormhole.verify_vaa (message_vaa (σ e)) = Some (Ok tt).
Proof.
  intros Hcl Hr Hle Hh. destruct (polling 30 0 "VAA not available" e) as (e' & Hf); [done..|lia|].
  exists e'. split; [exact Hf|]. by apply (decode_message (σ e) e).
Qed.
End polling.
End server.

(** A message that was just registered is ready. *)
Lemma register_ready hex_decode c m q p s : failure s = None → 13 ≤ num_guardians s ≤ 19 →
  0 ≤ hits c m q s < 2 ^ 32 - 1 → ready hex_decode c m q p (register_vaa hex_decode c m q p s).
Proof.
  intros Hf Hn Hh. constructor; [done|done| |done].
  unfold register_vaa, set_vaas. simpl. by rewrite lookup_insert_eq.
Qed.

(** ** A network of fifteen guardians that needs two polls *)
Module GuardianExample.
Definition hex_decode (s : string) : option bytes := Some [171; 205].
Definition server : ServerState :=
  register_vaa hex_decode 2 "0xabcd" 42 [7; 8]
    (MockGuardianBuilder.build (MockGuardianBuilder.pending_count 2
       (MockGuardianBuilder.num_guardians 15 MockGuardianBuilder.builder))).
Definition request : GRequest := ByKey "2" "0xabcd" "42".
Definition print (r : GuardianJsonResponse) : string :=
  match data r with
  | Some (mkGuardianData (Some b64)) => String "S"%char b64
  | Some (mkGuardianData None) => "P"
  | None => "N"
  end.
Definition parse (s : string) : result WormholeAdapter.GuardianResponse string :=
  match s with
  | String "S"%char b64 => Ok (WormholeAdapter.mkGuardianResponse (Some (Some b64)))
  | String "P"%char _ => Ok (WormholeAdapter.mkGuardianResponse (Some None))
  | _ => Ok (WormholeAdapter.mkGuardianResponse None)
  end.
(** The server has answered as often as the counter of the surroundings says. *)
Definition state (e : Env CoreDb) : ServerState :=
  Nat.iter (env_drawn e) (λ s, (serve hex_decode 0 request s).2) server.
Definition net : Network :=
  mkNetwork (λ _ _ _, throw (SendFailed "no node"))
    (λ _ e, let a := serve hex_decode 0 request (state e) in
            (Ok (a.1.1, print a.1.2), mkEnv (env_db e) (env_faults e) (env_uuid e) (S (env_drawn e)) (env_now e)))
    (λ ms e, mkEnv (env_db e) (env_faults e) (env_uuid e) (env_drawn e) (env_now e + ms))
    (λ e, (1, e)) (λ _, "").
Definition bridge : Bridge := WormholeAdapter.new "http://g".
Definition origin : Env CoreDb := mkEnv empty_db [] N.of_nat 0 50.

Lemma net_serves : serves hex_decode net (api bridge) print parse state "2" "0xabcd" "42".
Proof.
  split; try done.
  - intros e. by eexists 0, _.
  - intros [[[[b64|]]|] msg cd]; done.
Qed.
End GuardianExample.
Import GuardianExample.

Lemma hex_bytes_example s b : hex_decode s = Some b → all_bytes b.
Proof. intros [= <-]. repeat constructor; unfold is_byte; lia. Qed.

Lemma pending_messages_arrive_witness :
  ∃ vaa e', WormholeAdapter.fetch_vaa toy_hex parse net bridge 2 "0xabcd" 42 origin = (Ok vaa, e') ∧
    Wormhole.verify_vaa vaa = Some (Ok tt) ∧ Wormhole.payload vaa = [7; 8].
Proof.
  destruct (pending_messages_arrive toy_hex hex_decode hex_bytes_example net bridge print parse state
    2 "0xabcd" 42 [7; 8]) with (e := origin) as (e' & Hf & Hv).
  - apply net_serves.
  - lia.
  - unfold in_u64, u64_max. lia.
  - repeat constructor; unfold is_byte; lia.
  - done.
  - apply register_ready; [done| |]; vm_compute; split; congruence.
  - vm_compute. congruence.
  - vm_compute. congruence.
  - eexists _, e'. split; [exact Hf|]. split; [exact Hv|done].
Defined.

Lemma injected_failures_count_down_witness :
  ∃ s', serve_all hex_decode 5 [request; ByTx "0x1"; request] (inject_failure (ServerError 3) server) =
          (replicate 3 (plain 500 "internal error"), s') ∧ failure s' = None ∧ vaas s' = vaas server.
Proof.
  destruct (injected_failures_count_down hex_decode 5 3 (inject_failure (ServerError 3) server)
    [request; ByTx "0x1"; request] eq_refl) as (H & _).
  destruct (H eq_refl) as (s' & Hs & Hf & Hv & _). exists s'. split; [exact Hs|]. split; [exact Hf|exact Hv].
Defined.

Lemma signature_failures_are_caught_witness :
  let s := inject_failure DuplicateGuardians (MockGuardianBuilder.build MockGuardianBuilder.builder) in
  ∃ r s', serve hex_decode 5 (ByKey "2" "ab" "1") s = (r, s') ∧
    checked toy_hex r (Err (VerificationFailed "Duplicate guardian index")) ∧ failure s' = None.
Proof.
  intros s. destruct (serve hex_decode 5 (ByKey "2" "ab" "1") s) as [r s'] eqn:E. exists r, s'. split; [done|].
  apply (signature_failures_are_caught toy_hex hex_decode hex_bytes_example 5 2 "ab" 1 s r s').
  - constructor; (done || by vm_compute).
  - vm_compute. split; congruence.
  - exact E.
  - done.
Defined.
