(* ===== verification/Feed.v ===== *)
(** * The WebSocket feeds: [src/src/ws/{feed,handler,server}.rs]

    The market channels and the tasks of one client's connection, as a machine
    whose tasks take turns in any order ([act]), and the relay of Redis events.
    What tokio and the sockets do is their documentation's: a broadcast channel
    keeps its last messages and tells a receiver that fell behind, a bounded
    queue makes its senders wait, a sent message reaches the client.  JSON is a
    parameter; the answers to pings are left out. *)
From stdpp Require Import gmap.
From S2P Require Import Prelude Monad Model MarketData.
Open Scope Z_scope.

Inductive WsFeedEvent :=
| Trade (t : MarketTrade)
| OrderBook (s : OrderBookSnapshot)
| AuctionResult (intent_id : Uuid) (winner_solver_id : string) (amount_out fee : Z)
| Subscribed (market_id : Uuid)
| Unsubscribed (market_id : Uuid)
| Pong.

Inductive ClientMessage := Subscribe (market_id : Uuid) | Unsubscribe (market_id : Uuid) | Ping.

(** ** [tokio::sync::broadcast] *)

(** A channel is all that was ever sent on it; a receiver is a position. *)
Inductive Received := Empty | Got (m : string) | Lagged (oldest : nat).
Definition recv (capacity : nat) (log : list string) (pos : nat) : Received :=
  if (pos + capacity <? length log)%nat then Lagged (length log - capacity)
  else match log !! pos with Some m => Got m | None => Empty end.

Definition FEED_CAPACITY : nat := 512.
Definition INTERNAL_CAPACITY : nat := 256.

(** ** [feed.rs] *)

Record WsFeed := mkFeed { channels : gmap Uuid (list string); global_log : list string }.

Module WsFeed.
Definition new : WsFeed := mkFeed ∅ [].
Definition log_of (market_id : Uuid) (f : WsFeed) : list string := default [] (channels f !! market_id).
Definition get_or_create_channel (market_id : Uuid) (f : WsFeed) : WsFeed :=
  match channels f !! market_id with
  | Some _ => f
  | None => mkFeed (<[market_id := []]> (channels f)) (global_log f)
  end.
(** The feed, and where the new receiver stands. *)
Definition subscribe_market (market_id : Uuid) (f : WsFeed) : WsFeed * nat :=
  let f := get_or_create_channel market_id f in (f, length (log_of market_id f)).
Definition send (market_id : Uuid) (json : string) (f : WsFeed) : WsFeed :=
  let f := get_or_create_channel market_id f in
  mkFeed (<[market_id := log_of market_id f ++ [json]]> (channels f)) (global_log f).

Section json.
Context (to_json : WsFeedEvent → option string).
Definition broadcast_trade (trade : MarketTrade) (f : WsFeed) : WsFeed :=
  match to_json (Trade trade) with Some json => send (mt_market_id trade) json f | None => f end.
Definition broadcast_orderbook (snapshot : OrderBookSnapshot) (f : WsFeed) : WsFeed :=
  match to_json (OrderBook snapshot) with Some json => send (ob_market_id snapshot) json f | None => f end.
End json.
Definition broadcast_global (message : string) (f : WsFeed) : WsFeed :=
  mkFeed (channels f) (global_log f ++ [message]).
Definition subscribe_global (f : WsFeed) : nat := length (global_log f).
End WsFeed.

(** ** [handler.rs]: one connection *)

(** A forwarder: its market, its receiver, and the message it is passing on. *)
Record Forwarder := mkForwarder { fw_market : Uuid; fw_pos : nat; fw_hand : option string }.

Record Connection := mkConnection {
  feed : WsFeed;
  subscriptions : gset Uuid;
  forwarders : list Forwarder;
  ack : option string;      (** the answer the reading task is putting into the queue *)
  queue : list string;      (** [internal_rx] *)
  global_pos : nat;         (** [global_rx] *)
  sent : list string;       (** what went to the client *)
  reading : bool;           (** [recv_task] runs *)
  writing : bool;           (** [send_task] runs *)
}.
Definition set_feed (x : WsFeed) (c : Connection) : Connection :=
  mkConnection x (subscriptions c) (forwarders c) (ack c) (queue c) (global_pos c) (sent c) (reading c) (writing c).
Definition set_session (x : gset Uuid) (a : option string) (c : Connection) : Connection :=
  mkConnection (feed c) x (forwarders c) a (queue c) (global_pos c) (sent c) (reading c) (writing c).
Definition set_forwarders (x : list Forwarder) (c : Connection) : Connection :=
  mkConnection (feed c) (subscriptions c) x (ack c) (queue c) (global_pos c) (sent c) (reading c) (writing c).
Definition set_ack (x : option string) (c : Connection) : Connection :=
  mkConnection (feed c) (subscriptions c) (forwarders c) x (queue c) (global_pos c) (sent c) (reading c) (writing c).
Definition set_queue (x : list string) (c : Connection) : Connection :=
  mkConnection (feed c) (subscriptions c) (forwarders c) (ack c) x (global_pos c) (sent c) (reading c) (writing c).
Definition set_global (x : nat) (c : Connection) : Connection :=
  mkConnection (feed c) (subscriptions c) (forwarders c) (ack c) (queue c) x (sent c) (reading c) (writing c).
Definition set_sent (x : list string) (c : Connection) : Connection :=
  mkConnection (feed c) (subscriptions c) (forwarders c) (ack c) (queue c) (global_pos c) x (reading c) (writing c).
Definition set_tasks (r w : bool) (c : Connection) : Connection :=
  mkConnection (feed c) (subscriptions c) (forwarders c) (ack c) (queue c) (global_pos c) (sent c) r w.

(** [axum::extract::ws::Message] *)
Inductive Message := Text (s : string) | PongFrame | Close | OtherFrame.

Section handler.
Context (to_json : WsFeedEvent → option string) (from_json : string → option ClientMessage).

Definition connect (f : WsFeed) : Connection :=
  mkConnection f ∅ [] None [] (WsFeed.subscribe_global f) [] true true.

Definition on_client_message (m : ClientMessage) (c : Connection) : Connection :=
  match m with
  | Subscribe market_id =>
      let a := to_json (Subscribed market_id) in
      if decide (market_id ∈ subscriptions c) then set_ack a c
      else
        let '(f, pos) := WsFeed.subscribe_market market_id (feed c) in
        set_session ({[market_id]} ∪ subscriptions c) a
          (set_forwarders (forwarders c ++ [mkForwarder market_id pos None]) (set_feed f c))
  | Unsubscribe market_id =>
      set_session (subscriptions c ∖ {[market_id]}) (to_json (Unsubscribed market_id)) c
  | Ping => set_ack (to_json Pong) c
  end.
Definition on_message (m : Message) (c : Connection) : Connection :=
  match m with
  | Text s => match from_json s with Some m => on_client_message m c | None => c end
  | Close => set_tasks false (writing c) c
  | PongFrame | OtherFrame => c
  end.

(** A turn of a task, or of the world around the connection. *)
Inductive Turn :=
| ClientSends (m : Message)       (** [ws_receiver.next()] *)
| ClientGone                      (** .. is at its end *)
| Acknowledge                     (** [internal_tx.send(json)] *)
| ForwarderReceives (i : nat)     (** [rx.recv()] *)
| ForwarderSends (i : nat)        (** [tx.send(msg)] *)
| SendQueued                      (** the first branch of the sending task *)
| SendGlobal                      (** the second *)
| SendFails                       (** [ws_sender.send(..)] is an error *)
| MarketTurn (market_id : Uuid) (json : string)
| GlobalTurn (message : string).

(** A message goes into the queue: it waits for room, and is lost when nobody
    reads the queue any more. *)
Definition enqueue (m : string) (c : Connection) : option Connection :=
  if writing c then
    if (length (queue c) <? INTERNAL_CAPACITY)%nat then Some (set_queue (queue c ++ [m]) c) else None
  else Some c.

Definition drop_at (i : nat) (l : list Forwarder) : list Forwarder := take i l ++ drop (S i) l.

Definition act (t : Turn) (c : Connection) : option Connection :=
  match t with
  | ClientSends m =>
      if reading c && bool_decide (ack c = None) then Some (on_message m c) else None
  | ClientGone => if reading c && bool_decide (ack c = None) then Some (set_tasks false (writing c) c) else None
  | Acknowledge => a ← ack c; set_ack None <$> enqueue a c
  | ForwarderReceives i =>
      f ← forwarders c !! i;
      match fw_hand f, recv FEED_CAPACITY (WsFeed.log_of (fw_market f) (feed c)) (fw_pos f) with
      | None, Got m => Some (set_forwarders (<[i := mkForwarder (fw_market f) (S (fw_pos f)) (Some m)]> (forwarders c)) c)
      | None, Lagged _ => Some (set_forwarders (drop_at i (forwarders c)) c)
      | _, _ => None
      end
  | ForwarderSends i =>
      f ← forwarders c !! i;
      m ← fw_hand f;
      if writing c then
        set_forwarders (<[i := mkForwarder (fw_market f) (fw_pos f) None]> (forwarders c)) <$> enqueue m c
      else Some (set_forwarders (drop_at i (forwarders c)) c)
  | SendQueued =>
      if writing c then
        match queue c with
        | m :: q => Some (set_sent (sent c ++ [m]) (set_queue q c))
        | [] => None
        end
      else None
  | SendGlobal =>
      if writing c then
        match recv FEED_CAPACITY (global_log (feed c)) (global_pos c) with
        | Empty => None
        | Got m => Some (set_sent (sent c ++ [m]) (set_global (S (global_pos c)) c))
        | Lagged oldest => Some (set_global oldest c)
        end
      else None
  | SendFails => if writing c then Some (set_tasks (reading c) false c) else None
  | MarketTurn market_id json => Some (set_feed (WsFeed.send market_id json (feed c)) c)
  | GlobalTurn message => Some (set_feed (WsFeed.broadcast_global message (feed c)) c)
  end.

Fixpoint run (ts : list Turn) (c : Connection) : option Connection :=
  match ts with
  | [] => Some c
  | t :: ts => c' ← act t c; run ts c'
  end.
End handler.

(** ** [server.rs]: the relay of Redis events *)

Module WsServer.
Definition CAPACITY : nat := 256.
Definition WS_CHANNELS : list string :=
  ["intent_created"; "bid_submitted"; "intent_matched"; "execution_started"; "execution_completed"]%string.

(** A client's socket: where it stands, and what it got; [sending] is false when
    the sending task has ended. *)
Record Socket := mkSocket { so_start : nat; so_pos : nat; so_sent : list string; so_sending : bool; so_receiving : bool }.

Section relay.
(** A payload as JSON of an [Event], and the message made of it. *)
Context (relayed : string → string → option string).

(** One message of the subscription; [None] is a payload that is no text. *)
Definition on_redis (channel : string) (payload : option string) (log : list string) : list string :=
  match payload ≫= relayed channel with
  | Some ws_message => log ++ [ws_message]
  | None => log
  end.
End relay.

Definition open (log : list string) : Socket := mkSocket (length log) (length log) [] true true.
(** A turn of the sending task. *)
Definition forward (log : list string) (s : Socket) : option Socket :=
  if so_sending s then
    match recv CAPACITY log (so_pos s) with
    | Empty => None
    | Got m => Some (mkSocket (so_start s) (S (so_pos s)) (so_sent s ++ [m]) true (so_receiving s))
    | Lagged _ => Some (mkSocket (so_start s) (so_pos s) (so_sent s) false (so_receiving s))
    end
  else None.

Inductive SocketTurn := Broadcast (m : string) | Forward | SocketError | Disconnect.
Definition turn (t : SocketTurn) '((log, s) : list string * Socket) : option (list string * Socket) :=
  match t with
  | Broadcast m => Some (log ++ [m], s)
  | Forward => (λ s, (log, s)) <$> forward log s
  | SocketError => Some (log, mkSocket (so_start s) (so_pos s) (so_sent s) false (so_receiving s))
  | Disconnect => Some (log, mkSocket (so_start s) (so_pos s) (so_sent s) (so_sending s) false)
  end.
Fixpoint turns (ts : list SocketTurn) (w : list string * Socket) : option (list string * Socket) :=
  match ts with
  | [] => Some w
  | t :: ts => w' ← turn t w; turns ts w'
  end.
End WsServer.

(** ** A client gets only what it asked for *)

Section connection.
Context (to_json : WsFeedEvent → option string) (from_json : string → option ClientMessage).
Abbreviation act := (act to_json from_json).
Abbreviation run := (run to_json from_json).

Definition tells (t : Turn) (m : ClientMessage) : Prop := ∃ s, t = ClientSends (Text s) ∧ from_json s = Some m.

(** Where a message for the client can come from; [subs] are the markets it
    asked for. *)
Definition answers (x : string) : Prop :=
  to_json Pong = Some x ∨ ∃ m, to_json (Subscribed m) = Some x ∨ to_json (Unsubscribed m) = Some x.
Definition origin (subs : Uuid → Prop) (f : WsFeed) (x : string) : Prop :=
  answers x ∨ x ∈ global_log f ∨ ∃ m, subs m ∧ x ∈ WsFeed.log_of m f.

Record served (subs : Uuid → Prop) (c : Connection) : Prop := {
  se_session m : m ∈ subscriptions c → subs m;
  se_forwarders f : f ∈ forwarders c →
    subs (fw_market f) ∧ ∀ x, fw_hand f = Some x → x ∈ WsFeed.log_of (fw_market f) (feed c);
  se_ack x : ack c = Some x → answers x;
  se_queue x : x ∈ queue c → origin subs (feed c) x;
  se_sent x : x ∈ sent c → origin subs (feed c) x;
}.

Lemma log_of_create m m' f : WsFeed.log_of m (WsFeed.get_or_create_channel m' f) = WsFeed.log_of m f.
Proof.
  unfold WsFeed.get_or_create_channel, WsFeed.log_of. destruct (channels f !! m') eqn:E; [done|]. simpl.
  destruct (decide (m = m')) as [->|]; [by rewrite lookup_insert_eq, E|by rewrite lookup_insert_ne].
Qed.
Lemma log_of_send m m' j f :
  WsFeed.log_of m (WsFeed.send m' j f) = WsFeed.log_of m f ++ (if decide (m = m') then [j] else []).
Proof.
  unfold WsFeed.send. unfold WsFeed.log_of at 1. simpl. destruct (decide (m = m')) as [->|].
  - rewrite lookup_insert_eq. simpl. by rewrite log_of_create.
  - rewrite lookup_insert_ne by done. rewrite app_nil_r. by rewrite <- (log_of_create m m' f).
Qed.
Lemma global_create m f : global_log (WsFeed.get_or_create_channel m f) = global_log f.
Proof. unfold WsFeed.get_or_create_channel. by destruct (channels f !! m). Qed.

(** Channels only grow. *)
Definition grows (f f' : WsFeed) : Prop :=
  (∀ x, x ∈ global_log f → x ∈ global_log f') ∧ ∀ m x, x ∈ WsFeed.log_of m f → x ∈ WsFeed.log_of m f'.
Lemma grows_refl f : grows f f.
Proof. done. Qed.
Lemma grows_create m f : grows f (WsFeed.get_or_create_channel m f).
Proof. split; intros; [by rewrite global_create|by rewrite log_of_create]. Qed.
Lemma grows_send m j f : grows f (WsFeed.send m j f).
Proof.
  split; intros; [simpl; by rewrite global_create|]. rewrite log_of_send. apply elem_of_app. by left.
Qed.
Lemma grows_global j f : grows f (WsFeed.broadcast_global j f).
Proof. split; intros; [|done]. simpl. apply elem_of_app. by left. Qed.
#[local] Hint Resolve grows_refl grows_create grows_send grows_global : core.

Lemma origin_grows subs subs' f f' x : (∀ m, subs m → subs' m) → grows f f' →
  origin subs f x → origin subs' f' x.
Proof. intros Hs [Hg Hm] [?|[?|(m & ? & ?)]]; [by left|right; left; auto|right; right; eauto]. Qed.

(** A change of the feed and of the markets asked for alone. *)
Lemma served_grows subs subs' f c : (∀ m, subs m → subs' m) → grows (feed c) f → served subs c →
  served subs' (set_feed f c).
Proof.
  intros Hs Hg [H1 H2 H3 H4 H5]. assert (grows (feed c) (feed (set_feed f c))) as Hg' by done.
  destruct Hg as [_ Hm]. split; simpl; eauto using origin_grows.
  intros fw Hfw. destruct (H2 fw Hfw). eauto.
Qed.

Lemma recv_Got n log p x : recv n log p = Got x → x ∈ log.
Proof.
  unfold recv. destruct (_ <? _)%nat; [done|]. destruct (log !! p) eqn:E; [|done].
  intros [= <-]. by eapply list_elem_of_lookup_2.
Qed.
Lemma elem_of_drop_at f i l : f ∈ drop_at i l → f ∈ l.
Proof.
  unfold drop_at. rewrite elem_of_app. intros [H|H].
  - eapply subseteq_take, H.
  - eapply subseteq_drop, H.
Qed.
Lemma elem_of_insert_at f g i (l : list Forwarder) : f ∈ <[i := g]> l → f = g ∨ f ∈ l.
Proof. intros (j & Hj)%list_elem_of_lookup. apply list_lookup_insert_Some in Hj. naive_solver eauto using list_elem_of_lookup_2. Qed.

Lemma enqueue_served subs x c c' : served subs c → origin subs (feed c) x → enqueue x c = Some c' → served subs c'.
Proof.
  intros [H1 H2 H3 H4 H5] Hx. unfold enqueue. destruct (writing c); [|by intros [= <-]].
  destruct (_ <? _)%nat; [|done]. intros [= <-]. split; simpl; auto.
  intros y. rewrite elem_of_app. intros [Hy| ->%list_elem_of_singleton]; [auto|exact Hx].
Qed.

Lemma on_message_served subs m c : served subs c → ack c = None →
  served (λ m', subs m' ∨ ∃ s, m = Text s ∧ from_json s = Some (Subscribe m')) (on_message to_json from_json m c).
Proof.
  intros Hs Ha. set (subs' := λ m', _).
  assert (served subs' c) as Hs' by (destruct c; refine (served_grows subs subs' _ _ _ _ Hs); [by left|apply grows_refl]).
  destruct m as [s| | |]; simpl; [|done|by destruct Hs'; split|done].
  destruct (from_json s) as [m|] eqn:Em; [|done].
  assert (∀ m x, to_json (Subscribed m) = Some x → answers x) as Hsub by (unfold answers; eauto).
  assert (∀ m x, to_json (Unsubscribed m) = Some x → answers x) as Hunsub by (unfold answers; eauto).
  assert (∀ x, to_json Pong = Some x → answers x) as Hpong by (unfold answers; eauto).
  destruct m as [m|m|]; simpl.
  - destruct (decide _); [destruct Hs'; split; simpl; eauto|].
    unfold WsFeed.subscribe_market.
    assert (served subs' (set_feed (WsFeed.get_or_create_channel m (feed c)) c)) as [H1 H2 H3 H4 H5]
      by (eapply served_grows; [|apply grows_create|exact Hs']; done).
    split; simpl in *; eauto.
    + intros m'. rewrite elem_of_union, elem_of_singleton. intros [->|?]; [right; eauto|auto].
    + intros f. rewrite elem_of_app, list_elem_of_singleton. intros [?| ->]; [auto|].
      split; [right; eauto|done].
  - destruct Hs'. split; simpl; eauto. intros m'. rewrite elem_of_difference. naive_solver.
  - destruct Hs'. split; simpl; eauto.
Qed.

Lemma act_served subs t c c' : served subs c → act t c = Some c' →
  served (λ m, subs m ∨ tells t (Subscribe m)) c'.
Proof.
  intros Hs. assert (∀ c', served subs c' → served (λ m, subs m ∨ tells t (Subscribe m)) c') as Hweak.
  { intros c0 H0. destruct c0; refine (served_grows _ _ _ _ _ _ H0); [by left|apply grows_refl]. }
  destruct Hs as [H1 H2 H3 H4 H5] eqn:E. clear E. destruct t as [m| | |i|i| | | |m j|j]; simpl.
  - destruct (reading c && _) eqn:Hr; [|done]. intros [= <-].
    apply andb_prop in Hr as [_ Hn%bool_decide_eq_true].
    pose proof (on_message_served subs m c Hs Hn) as Hm.
    destruct (on_message _ _ m c) eqn:Ec. refine (served_grows _ _ _ _ _ _ Hm); [|apply grows_refl].
    intros m' [?|(s & -> & ?)]; [by left|right; by exists s].
  - destruct (reading c && _); [|done]. intros [= <-]. apply Hweak. by split.
  - unfold mbind, option_bind. destruct (ack c) as [a|] eqn:Ea; [|done].
    destruct (enqueue a c) as [c1|] eqn:Eq; [|done]. intros [= <-]. apply Hweak.
    assert (served subs c1) as [] by (eapply enqueue_served; [exact Hs|left; auto|exact Eq]). by split.
  - unfold mbind, option_bind. destruct (forwarders c !! i) as [f|] eqn:Ef; [|done].
    apply list_elem_of_lookup_2 in Ef as Hf. destruct (H2 f Hf) as [Hsub _].
    destruct (fw_hand f); [by destruct (recv FEED_CAPACITY (WsFeed.log_of (fw_market f) (feed c)) (fw_pos f))|].
    destruct (recv _ _ _) as [|x|] eqn:Er; [done| |]; intros [= <-]; apply Hweak; split; simpl; auto; intros f'.
    + intros [->|?]%elem_of_insert_at; [|auto]. simpl. split; [done|]. intros y [= <-]. by eapply recv_Got.
    + intros ?%elem_of_drop_at. auto.
  - unfold mbind, option_bind. destruct (forwarders c !! i) as [f|] eqn:Ef; [|done].
    apply list_elem_of_lookup_2 in Ef as Hf. destruct (H2 f Hf) as [Hsub Hh].
    destruct (fw_hand f) as [x|]; [|done]. destruct (writing c).
    + destruct (enqueue x c) as [c1|] eqn:Eq; [|done]. intros [= <-]. apply Hweak.
      assert (forwarders c1 = forwarders c ∧ feed c1 = feed c) as [Hfw Hfd].
      { unfold enqueue in Eq. destruct (writing c); [destruct (_ <? _)%nat; [|done]|]; by injection Eq as <-. }
      assert (served subs c1) as [H1' H2' H3' H4' H5']
        by (eapply enqueue_served; [exact Hs| |exact Eq]; right; right; eauto).
      split; simpl; auto. intros f' [->|?]%elem_of_insert_at; [simpl; split; [done|by intros]|].
      apply H2'. by rewrite Hfw.
    + intros [= <-]. apply Hweak. split; simpl; auto. intros f' ?%elem_of_drop_at. auto.
  - destruct (writing c); [|done]. destruct (queue c) as [|x q] eqn:Eq; [done|]. intros [= <-]. apply Hweak.
    split; simpl; auto; intros y.
    + intros Hy. apply H4. by right.
    + rewrite elem_of_app, list_elem_of_singleton. intros [?| ->]; [auto|]. apply H4. by left.
  - destruct (writing c); [|done]. destruct (recv _ _ _) as [|x|] eqn:Er; [done| |]; intros [= <-]; apply Hweak;
      split; simpl; auto.
    intros y. rewrite elem_of_app, list_elem_of_singleton. intros [?| ->]; [auto|].
    right; left. by eapply recv_Got.
  - destruct (writing c); [|done]. intros [= <-]. apply Hweak. by split.
  - intros [= <-]. eapply served_grows; [by left|apply grows_send|exact Hs].
  - intros [= <-]. eapply served_grows; [by left|apply grows_global|exact Hs].
Qed.

(** Whatever turns the tasks of a connection and the rest of the program
    take, everything that reaches the client is an answer to one of its
    messages, an event for everybody, or a message of a market the client
    asked for. *)
Theorem clients_get_what_they_asked_for f ts c x : run ts (connect f) = Some c → x ∈ sent c →
  origin (λ m, ∃ t, t ∈ ts ∧ tells t (Subscribe m)) (feed c) x.
Proof.
  intros Hrun. enough (served (λ m, ∃ t, t ∈ ts ∧ tells t (Subscribe m)) c) as Hs by apply (se_sent _ _ Hs).
  assert (∀ ts subs c0, served subs c0 → run ts c0 = Some c →
    served (λ m, subs m ∨ ∃ t, t ∈ ts ∧ tells t (Subscribe m)) c) as Hgen.
  { clear. induction ts as [|t ts IH]; intros subs c0 Hs Hrun; simpl in Hrun.
    - injection Hrun as ->. destruct c; refine (served_grows _ _ _ _ _ _ Hs); [by left|apply grows_refl].
    - destruct (Feed.act to_json from_json t c0) as [c1|] eqn:Ea; [|done]. simpl in Hrun.
      pose proof (IH _ c1 (act_served _ _ _ _ Hs Ea) Hrun) as H.
      destruct c; refine (served_grows _ _ _ _ _ _ H); [|apply grows_refl].
      intros m [[?|?]|(t' & ? & ?)]; [by left| |]; right; eexists; (split; [|done]); [by left|by right]. }
  assert (served (λ _, False) (connect f)) as H0.
  { split; simpl; [set_solver| |done| |]; by intros ? ?%not_elem_of_nil. }
  pose proof (Hgen ts _ _ H0 Hrun) as H. destruct c; refine (served_grows _ _ _ _ _ _ H); [|apply grows_refl].
  by intros m [[]|?].
Qed.

(** ** A subscription whose forwarder fell behind *)

(** The session counts the market as subscribed, and nothing forwards it. *)
Definition dead (m : Uuid) (c : Connection) : Prop :=
  m ∈ subscriptions c ∧ ∀ f, f ∈ forwarders c → fw_market f ≠ m.

Lemma dead_same m c c' : subscriptions c' = subscriptions c → forwarders c' = forwarders c → dead m c → dead m c'.
Proof. unfold dead. by intros -> ->. Qed.
Lemma enqueue_same x c c' : enqueue x c = Some c' →
  subscriptions c' = subscriptions c ∧ forwarders c' = forwarders c.
Proof. unfold enqueue. destruct (writing c); [destruct (_ <? _)%nat; [|done]|]; by intros [= <-]. Qed.

Lemma message_dead m msg c : ¬ (∃ s, msg = Text s ∧ from_json s = Some (Unsubscribe m)) →
  dead m c → dead m (on_message to_json from_json msg c).
Proof.
  intros Hun [Hs Hf]. destruct msg as [s| | |]; simpl; [|done|by split|done].
  destruct (from_json s) as [[m'|m'|]|] eqn:Em; simpl; [| |done..].
  - destruct (decide _) as [|Hn]; [by split|]. unfold WsFeed.subscribe_market. split; simpl; [set_solver|].
    intros f. rewrite elem_of_app, list_elem_of_singleton. intros [?| ->]; [auto|]. simpl. by intros ->.
  - split; simpl; [|done]. assert (m' ≠ m) by (intros ->; apply Hun; eauto). set_solver.
Qed.
Lemma act_dead m t c c' : ¬ tells t (Unsubscribe m) → act t c = Some c' → dead m c → dead m c'.
Proof.
  intros Hun Ha [Hs Hf]. assert (dead m c) as Hd by by split.
  destruct t as [msg| | |i|i| | | |m' j|j]; simpl in Ha.
  - destruct (reading c && _); [|done]. injection Ha as <-. apply message_dead; [|done].
    intros (s & -> & ?). apply Hun. by exists s.
  - destruct (reading c && _); [|done]. by injection Ha as <-.
  - unfold mbind, option_bind in Ha. destruct (ack c); [|done]. destruct (enqueue _ c) as [c1|] eqn:Eq; [|done].
    injection Ha as <-. apply enqueue_same in Eq as [E1 E2]. by apply (dead_same _ c).
  - unfold mbind, option_bind in Ha. destruct (forwarders c !! i) as [f|] eqn:Ef; [|done].
    apply list_elem_of_lookup_2 in Ef.
    destruct (fw_hand f); [by destruct (recv FEED_CAPACITY (WsFeed.log_of (fw_market f) (feed c)) (fw_pos f))|].
    destruct (recv _ _ _); [done| |]; injection Ha as <-; (split; [done|]); simpl; intros f'.
    + intros [->|?]%elem_of_insert_at; [|by apply Hf]. simpl. by apply Hf.
    + intros ?%elem_of_drop_at. by apply Hf.
  - unfold mbind, option_bind in Ha. destruct (forwarders c !! i) as [f|] eqn:Ef; [|done].
    apply list_elem_of_lookup_2 in Ef. destruct (fw_hand f); [|done]. destruct (writing c).
    + destruct (enqueue _ c) as [c1|] eqn:Eq; [|done]. injection Ha as <-. apply enqueue_same in Eq as [E1 E2].
      split; simpl; [by rewrite E1|]. intros f' [->|?]%elem_of_insert_at; simpl; by apply Hf.
    + injection Ha as <-. split; [done|]. simpl. intros f' ?%elem_of_drop_at. by apply Hf.
  - destruct (writing c); [|done]. destruct (queue c); [done|]. by injection Ha as <-.
  - destruct (writing c); [|done]. destruct (recv _ _ _); [done| |]; by injection Ha as <-.
  - destruct (writing c); [|done]. by injection Ha as <-.
  - by injection Ha as <-.
  - by injection Ha as <-.
Qed.

(** A forwarder that falls more than 512 messages behind its market ends,
    and the session goes on counting the market as subscribed: whatever the
    client sends and however the tasks take turns, until it unsubscribes no
    forwarder for the market runs again, although each of its requests to
    subscribe is acknowledged (a flaw). *)
Theorem a_lagged_subscription_is_dead i f c ts c' :
  forwarders c !! i = Some f → fw_hand f = None → fw_market f ∈ subscriptions c →
  (∀ j g, forwarders c !! j = Some g → fw_market g = fw_market f → j = i) →
  (fw_pos f + 512 < length (WsFeed.log_of (fw_market f) (feed c)))%nat →
  Forall (λ t, ¬ tells t (Unsubscribe (fw_market f))) ts →
  run (ForwarderReceives i :: ts) c = Some c' → dead (fw_market f) c'.
Proof.
  intros Hi Hh Hs Hone Hlag Hts Hrun. simpl in Hrun. rewrite Hi in Hrun. simpl in Hrun. rewrite Hh in Hrun.
  unfold recv in Hrun. rewrite (proj2 (Nat.ltb_lt _ _)) in Hrun by exact Hlag. simpl in Hrun.
  assert (dead (fw_market f) (set_forwarders (drop_at i (forwarders c)) c)) as Hd.
  { split; [done|]. simpl. intros g Hg Hm. unfold drop_at in Hg. apply elem_of_app in Hg as [Hg|Hg].
    - apply list_elem_of_lookup in Hg as [j Hj]. apply lookup_take_Some in Hj as [Hj ?].
      by specialize (Hone j g Hj Hm); lia.
    - apply list_elem_of_lookup in Hg as [j Hj]. rewrite lookup_drop in Hj.
      by specialize (Hone _ g Hj Hm); lia. }
  revert Hd Hrun. generalize (set_forwarders (drop_at i (forwarders c)) c) as c1. intros c1 Hd Hrun.
  revert c1 Hd Hrun. induction Hts as [|t ts Ht _ IH]; intros c1 Hd Hrun; simpl in Hrun; [by injection Hrun as <-|].
  destruct (Feed.act to_json from_json t c1) as [c2|] eqn:E; [|done]. simpl in Hrun.
  eapply IH; [|exact Hrun]. by eapply act_dead.
Qed.

(** ** Subscribing again *)

Section again.
Context (market : Uuid) (subscribe unsubscribe a1 a2 : string).
Context (Hsub : from_json subscribe = Some (Subscribe market)) (Hunsub : from_json unsubscribe = Some (Unsubscribe market)).
Context (Ha1 : to_json (Subscribed market) = Some a1) (Ha2 : to_json (Unsubscribed market) = Some a2).

Definition told (s : string) : list Turn := [ClientSends (Text s); Acknowledge; SendQueued].
Definition back_and_forth (k : nat) : list Turn := concat (replicate k (told subscribe ++ told unsubscribe)).
Definition delivered (i : nat) : list Turn := [ForwarderReceives i; ForwarderSends i; SendQueued].

Lemma run_app ts1 ts2 c : run (ts1 ++ ts2) c = (c' ← run ts1 c; run ts2 c').
Proof.
  revert c. induction ts1 as [|t ts1 IH]; intros c; [done|]. simpl. unfold mbind, option_bind in *.
  destruct (Feed.act to_json from_json t c); [apply IH|done].
Qed.

(** A quiet connection that is subscribed to nothing. *)
Definition quiet (f : WsFeed) (fws : list Forwarder) (g : nat) (out : list string) : Connection :=
  mkConnection f ∅ fws None [] g out true true.

(** A client message whose answer goes straight through the empty queue. *)
Lemma told_run s m c a f subs fws : from_json s = Some m →
  on_client_message to_json m c = mkConnection f subs fws (Some a) [] (global_pos c) (sent c) true true →
  reading c = true → ack c = None →
  run (told s) c = Some (mkConnection f subs fws None [] (global_pos c) (sent c ++ [a]) true true).
Proof.
  intros Hm Hc Hr Ha. unfold told. cbn [Feed.run Feed.act on_message]. rewrite Hr, Ha, Hm, Hc.
  rewrite bool_decide_eq_true_2 by done. cbn [andb mbind option_bind ack]. unfold enqueue.
  cbn [writing queue length]. rewrite (proj2 (Nat.ltb_lt _ _)) by (unfold INTERNAL_CAPACITY; lia). done.
Qed.
Lemma told_subscribe f fws g out :
  run (told subscribe) (quiet f fws g out) =
    Some (mkConnection (WsFeed.get_or_create_channel market f) {[market]}
            (fws ++ [mkForwarder market (length (WsFeed.log_of market f)) None]) None [] g (out ++ [a1]) true true).
Proof.
  refine (told_run _ _ (quiet f fws g out) a1 _ _ _ Hsub _ eq_refl eq_refl). unfold on_client_message, quiet.
  cbn [subscriptions]. rewrite decide_False by apply not_elem_of_empty. unfold WsFeed.subscribe_market.
  rewrite Ha1, log_of_create, (right_id_L ∅ (∪)). done.
Qed.
Lemma told_unsubscribe f fws g out :
  run (told unsubscribe) (mkConnection f {[market]} fws None [] g out true true) = Some (quiet f fws g (out ++ [a2])).
Proof.
  refine (told_run _ _ (mkConnection f {[market]} fws None [] g out true true) a2 f ∅ fws Hunsub _ eq_refl eq_refl).
  unfold on_client_message. cbn [subscriptions]. by rewrite Ha2, difference_diag_L.
Qed.
Lemma back_and_forth_once f fws g out :
  run (told subscribe ++ told unsubscribe) (quiet f fws g out) =
    Some (quiet (WsFeed.get_or_create_channel market f)
            (fws ++ [mkForwarder market (length (WsFeed.log_of market f)) None]) g (out ++ [a1; a2])).
Proof.
  rewrite run_app, told_subscribe. cbn [mbind option_bind]. by rewrite told_unsubscribe, <- app_assoc.
Qed.
Lemma back_and_forth_many k : ∀ f fws g out,
  ∃ f', run (back_and_forth k) (quiet f fws g out) =
    Some (quiet f' (fws ++ replicate k (mkForwarder market (length (WsFeed.log_of market f)) None)) g
            (out ++ concat (replicate k [a1; a2]))) ∧
    WsFeed.log_of market f' = WsFeed.log_of market f.
Proof.
  induction k as [|k IH]; intros f fws g out.
  { exists f. simpl. by rewrite !app_nil_r. }
  unfold back_and_forth. cbn [replicate concat]. rewrite run_app, back_and_forth_once. cbn [mbind option_bind].
  destruct (IH (WsFeed.get_or_create_channel market f)
    (fws ++ [mkForwarder market (length (WsFeed.log_of market f)) None]) g (out ++ [a1; a2])) as (f' & Hr & Hl).
  exists f'. fold (back_and_forth k). rewrite Hr, Hl, log_of_create, <- !app_assoc. done.
Qed.

Lemma insert_middle {A} (l1 l2 : list A) x y : <[length l1 := y]> (l1 ++ x :: l2) = l1 ++ y :: l2.
Proof. by rewrite insert_app_r_alt, Nat.sub_diag by done. Qed.
Lemma delivered_run f p j g old rest out :
  WsFeed.log_of market f !! p = Some j → length (WsFeed.log_of market f) = S p →
  run (delivered (length old)) (quiet f (old ++ mkForwarder market p None :: rest) g out) =
    Some (quiet f (old ++ mkForwarder market (S p) None :: rest) g (out ++ [j])).
Proof.
  intros Hj Hl. unfold delivered, quiet. cbn [Feed.run Feed.act forwarders].
  rewrite list_lookup_middle by done. cbn [mbind option_bind fw_hand fw_market fw_pos feed].
  unfold recv. rewrite (proj2 (Nat.ltb_ge _ _)), Hj by (unfold FEED_CAPACITY; lia).
  rewrite insert_middle. unfold set_forwarders.
  cbn [mbind option_bind forwarders feed subscriptions ack queue global_pos sent reading writing].
  rewrite list_lookup_middle by done. cbn [mbind option_bind fw_hand fw_market fw_pos]. rewrite insert_middle.
  unfold enqueue. cbn [writing queue length]. rewrite (proj2 (Nat.ltb_lt _ _)) by (unfold INTERNAL_CAPACITY; lia).
  done.
Qed.

Lemma deliver_all f p j g r : WsFeed.log_of market f !! p = Some j → length (WsFeed.log_of market f) = S p →
  ∀ i out,
  run (concat (delivered <$> seq i r))
      (quiet f (replicate i (mkForwarder market (S p) None) ++ replicate r (mkForwarder market p None)) g out) =
    Some (quiet f (replicate (i + r) (mkForwarder market (S p) None)) g (out ++ replicate r j)).
Proof.
  intros Hj Hl. induction r as [|r IH]; intros i out.
  { simpl. by rewrite !app_nil_r, Nat.add_0_r. }
  cbn [seq fmap list_fmap concat replicate]. rewrite run_app.
  set (old := replicate i (mkForwarder market (S p) None)).
  replace (delivered i) with (delivered (length old)) by (unfold old; by rewrite length_replicate).
  rewrite (delivered_run f p j g) by done. cbn [mbind option_bind].
  replace (old ++ mkForwarder market (S p) None :: replicate r (mkForwarder market p None))
    with (replicate (S i) (mkForwarder market (S p) None) ++ replicate r (mkForwarder market p None))
    by (unfold old; by rewrite replicate_S_end, <- app_assoc).
  rewrite IH, <- app_assoc. by replace (S i + r)%nat with (i + S r)%nat by lia.
Qed.

(** Unsubscribing stops no forwarder: a client that subscribed to a market
    and unsubscribed again, any number of times, is subscribed to nothing by its
    session and still gets the next message of the market once for every time
    (a flaw). *)
Theorem unsubscribing_stops_nothing f k j :
  let ts := back_and_forth k ++ [MarketTurn market j] ++ concat (delivered <$> seq 0 k) in
  ∃ c, run ts (connect f) = Some c ∧ subscriptions c = ∅ ∧
    sent c = concat (replicate k [a1; a2]) ++ replicate k j.
Proof.
  intros ts. unfold ts. rewrite run_app.
  destruct (back_and_forth_many k f [] (WsFeed.subscribe_global f) []) as (f' & Hr & Hl).
  change (connect f) with (quiet f [] (WsFeed.subscribe_global f) []). rewrite Hr. cbn [mbind option_bind app].
  cbn [Feed.run Feed.act mbind option_bind]. unfold quiet at 1, set_feed.
  cbn [feed subscriptions forwarders ack queue global_pos sent reading writing]. fold (quiet (WsFeed.send market j f')
    (replicate k (mkForwarder market (length (WsFeed.log_of market f)) None)) (WsFeed.subscribe_global f)
    (concat (replicate k [a1; a2]))).
  set (f1 := WsFeed.send market j f').
  assert (WsFeed.log_of market f1 = WsFeed.log_of market f ++ [j]) as Hlog.
  { unfold f1. by rewrite log_of_send, decide_True, Hl. }
  pose proof (deliver_all f1 (length (WsFeed.log_of market f)) j (WsFeed.subscribe_global f) k) as Hd.
  eexists. split; [apply (Hd ltac:(rewrite Hlog; by rewrite list_lookup_middle)
                             ltac:(rewrite Hlog, length_app; simpl; lia) 0%nat)|].
  done.
Qed.
End again.
End connection.

(** ** The relay *)

Section socket.
Import WsServer.

(** What a socket sent is what was broadcast from its start to its position. *)
Record in_step (log : list string) (s : Socket) : Prop := {
  is_sent : so_sent s = take (so_pos s - so_start s) (drop (so_start s) log);
  is_order : (so_start s ≤ so_pos s ≤ length log)%nat;
}.

Lemma forward_in_step log s s' : in_step log s → forward log s = Some s' → in_step log s' ∧ so_start s' = so_start s.
Proof.
  intros [Hs Ho]. unfold forward, recv. destruct (so_sending s); [|done].
  destruct (_ <? _)%nat; [intros [= <-]; split; [by split|done]|].
  destruct (log !! so_pos s) as [m|] eqn:Hm; [|done]. intros [= <-]. simpl. split; [|done].
  apply lookup_lt_Some in Hm as Hlt. split; simpl; [|lia].
  replace (S (so_pos s) - so_start s)%nat with (S (so_pos s - so_start s)) by lia.
  rewrite (take_S_r _ _ m).
  - by rewrite Hs.
  - rewrite lookup_drop. by replace (so_start s + (so_pos s - so_start s))%nat with (so_pos s) by lia.
Qed.
Lemma turn_in_step t log s log' s' : in_step log s → turn t (log, s) = Some (log', s') →
  in_step log' s' ∧ so_start s' = so_start s.
Proof.
  intros Hi. destruct t as [m| | |]; simpl.
  - intros [= <- <-]. split; [|done]. destruct Hi as [Hs Ho]. split; [|rewrite length_app; simpl; lia].
    rewrite Hs, drop_app_le, take_app_le by (rewrite ?length_drop; lia). done.
  - destruct (forward log s) as [s1|] eqn:E; [|done]. intros [= <- <-]. by eapply forward_in_step.
  - intros [= <- <-]. split; [by destruct Hi|done].
  - intros [= <- <-]. split; [by destruct Hi|done].
Qed.
Lemma turns_cons t ts w w' : turns (t :: ts) w = Some w' → ∃ log s, turn t w = Some (log, s) ∧ turns ts (log, s) = Some w'.
Proof. cbn [turns]. destruct (turn t w) as [[log s]|]; [|done]. intros H. by exists log, s. Qed.
Lemma ended_stays ts : ∀ log s log' s', so_sending s = false → turns ts (log, s) = Some (log', s') →
  so_sent s' = so_sent s ∧ so_sending s' = false ∧ (Disconnect ∉ ts → so_receiving s' = so_receiving s).
Proof.
  induction ts as [|t ts IH]; intros log s log' s' He Hr; [by injection Hr as <- <-|].
  apply turns_cons in Hr as (log1 & s1 & Et & Hr).
  assert (so_sent s1 = so_sent s ∧ so_sending s1 = false ∧ (t ≠ Disconnect → so_receiving s1 = so_receiving s)) as (E1 & E2 & E3).
  { destruct t; simpl in Et; unfold forward in Et; rewrite ?He in Et; simplify_eq/=; done. }
  destruct (IH _ _ _ _ E2 Hr) as (F1 & F2 & F3). rewrite F1, E1. split; [done|]. split; [done|].
  intros [Hn Hts]%not_elem_of_cons. rewrite F3 by done. apply E3. by intros ->.
Qed.

(** A socket of the event relay sends what was broadcast since it opened, in
    order and without a gap, up to where it stands.  When it falls more than 256
    events behind, its sending task ends and it gets no event any more, while
    its reading task goes on and keeps the connection open (a flaw: the comment
    has each task abort the other). *)
Theorem sockets_get_a_segment log0 ts log s : turns ts (log0, open log0) = Some (log, s) →
  so_sent s = take (so_pos s - length log0) (drop (length log0) log) ∧
  (so_sending s = true → (so_pos s + 256 < length log)%nat → ∀ ts' log' s',
     turns (Forward :: ts') (log, s) = Some (log', s') →
     so_sent s' = so_sent s ∧ (Disconnect ∉ ts' → so_receiving s' = so_receiving s)).
Proof.
  intros Hr. split.
  - assert (∀ ts log s log' s', in_step log s → turns ts (log, s) = Some (log', s') →
      in_step log' s' ∧ so_start s' = so_start s) as Hgen.
    { clear. induction ts as [|t ts IH]; intros log s log' s' Hi Hr; [by injection Hr as <- <-|].
      apply turns_cons in Hr as (log1 & s1 & Et & Hr).
      apply turn_in_step in Et as [Hi1 E1]; [|done]. destruct (IH _ _ _ _ Hi1 Hr) as [? ->]. done. }
    assert (in_step log0 (open log0)) as H0 by (split; simpl; [by rewrite Nat.sub_diag|lia]).
    destruct (Hgen ts _ _ _ _ H0 Hr) as [[Hs _] E].
    by rewrite Hs, E.
  - intros Hsend Hlag ts' log' s' Hr'. simpl in Hr'. unfold forward, recv in Hr'. rewrite Hsend in Hr'.
    rewrite (proj2 (Nat.ltb_lt _ _)) in Hr' by exact Hlag. simpl in Hr'.
    by destruct (ended_stays ts' _ (mkSocket (so_start s) (so_pos s) (so_sent s) false (so_receiving s)) _ _ eq_refl Hr')
      as (E1 & _ & E3).
Qed.
End socket.

(** ** One client *)
Module FeedExample.
Definition to_json (e : WsFeedEvent) : option string :=
  match e with
  | Trade _ => Some "trade" | OrderBook _ => Some "book" | AuctionResult _ _ _ _ => Some "auction"
  | Subscribed _ => Some "subscribed" | Unsubscribed _ => Some "unsubscribed" | Pong => Some "pong"
  end%string.
Definition from_json (s : string) : option ClientMessage :=
  if String.eqb s "+" then Some (Subscribe 7) else if String.eqb s "-" then Some (Unsubscribe 7)
  else if String.eqb s "ping" then Some Ping else None.
(** It subscribed, and six hundred trades passed by. *)
Definition behind : Connection :=
  set_feed (Nat.iter 600 (WsFeed.send 7 "trade") WsFeed.new)
    (set_session {[7%N]} None (set_forwarders [mkForwarder 7 0 None] (connect WsFeed.new))).
End FeedExample.
Import FeedExample.

Lemma clients_get_what_they_asked_for_witness :
  ∃ c, run to_json from_json (told "+" ++ [MarketTurn 7 "trade"] ++ delivered 0) (connect WsFeed.new) = Some c ∧
    "trade"%string ∈ sent c ∧ (answers to_json "trade" ∨ "trade"%string ∈ WsFeed.log_of 7 (feed c)).
Proof.
  destruct (run to_json from_json (told "+" ++ [MarketTurn 7 "trade"] ++ delivered 0) (connect WsFeed.new)) as [c|] eqn:E;
    [|by vm_compute in E].
  assert ("trade"%string ∈ sent c) as Hs by (vm_compute in E; injection E as <-; simpl; right; left).
  exists c. split; [done|]. split; [done|].
  destruct (clients_get_what_they_asked_for _ _ _ _ _ _ E Hs) as [Ha|[Hg|(m & (t & Ht & s & -> & Hm) & Hin)]].
  - by left.
  - vm_compute in E. injection E as <-. by apply not_elem_of_nil in Hg.
  - right. enough (m = 7%N) as <- by done.
    unfold from_json in Hm. destruct (String.eqb s "+"); [by injection Hm as <-|].
    destruct (String.eqb s "-"); [done|]. by destruct (String.eqb s "ping").
Defined.

Lemma a_lagged_subscription_is_dead_witness :
  ∃ c, run to_json from_json (ForwarderReceives 0 :: told "+" ++ [MarketTurn 7 "trade"]) behind = Some c ∧ dead 7 c.
Proof.
  destruct (run to_json from_json (ForwarderReceives 0 :: told "+" ++ [MarketTurn 7 "trade"]) behind) as [c|] eqn:E;
    [|by vm_compute in E].
  exists c. split; [done|].
  refine (a_lagged_subscription_is_dead to_json from_json 0 (mkForwarder 7 0 None) behind
    (told "+" ++ [MarketTurn 7 "trade"]) c _ _ _ _ _ _ E).
  - reflexivity.
  - reflexivity.
  - change (7%N ∈ ({[7%N]} : gset Uuid)). set_solver.
  - intros [|j] g Hg _; [done|]. change (([] : list Forwarder) !! j = Some g) in Hg. by rewrite lookup_nil in Hg.
  - apply Nat.ltb_lt. by vm_compute.
  - unfold told. cbn [app]. repeat apply Forall_cons_2; [..|apply Forall_nil_2]; intros (s & Hs & Hm); [|discriminate..].
    injection Hs as <-. cbn in Hm. discriminate.
Defined.

Lemma unsubscribing_stops_nothing_witness :
  ∃ c, run to_json from_json (back_and_forth "+" "-" 2 ++ [MarketTurn 7 "trade"] ++ concat (delivered <$> seq 0 2))
         (connect WsFeed.new) = Some c ∧ subscriptions c = ∅ ∧
    sent c = ["subscribed"; "unsubscribed"; "subscribed"; "unsubscribed"; "trade"; "trade"]%string.
Proof.
  destruct (unsubscribing_stops_nothing to_json from_json 7 "+" "-" "subscribed" "unsubscribed" eq_refl eq_refl eq_refl
    eq_refl WsFeed.new 2 "trade") as (c & Hr & Hsub & Hsent).
  exists c. split; [exact Hr|]. split; [exact Hsub|]. rewrite Hsent. reflexivity.
Defined.

Lemma sockets_get_a_segment_witness :
  ∃ log s, WsServer.turns [WsServer.Broadcast "a"; WsServer.Forward; WsServer.Broadcast "b"] (["x"], WsServer.open ["x"])
    = Some (log, s) ∧ WsServer.so_sent s = ["a"]%string.
Proof.
  eexists _, _. split; [by vm_compute|].
  by destruct (sockets_get_a_segment ["x"] [WsServer.Broadcast "a"; WsServer.Forward; WsServer.Broadcast "b"]
    ["x"; "a"; "b"] _ eq_refl) as [-> _].
Defined.
