(* ===== verification/Api.v ===== *)
(** * The HTTP interface: [src/src/api/*.rs], the [handler.rs] and the routers of
      the services, and the table of routes of [src/src/main.rs]

    A handler takes what axum extracted from the request and returns a value
    to be sent as JSON, or a status and a text.  The extractors with their
    rejections, the JSON texts and the matching of paths are parameters; the
    tables of routes are data, as the source builds them. *)
From Stdlib Require Import Ascii.
From stdpp Require Import gmap.
From S2P Require Import Prelude Monad Float64 Model Ledger Balances Fees Solvers Settlement Storage Markets.
From S2P Require Import Oracle Risk Auction Intents Bytes Text Strings Twap Chain Wallet.
From S2P Require Import Access Http Rbac ApiKeys Jwt JwtCorrect Users Guards.
Open Scope Z_scope.

(** ** [api/intents.rs] *)
Module IntentsApi.
Record CreateIntentRequest := mkCreateIntent {
  ci_user_id : string; ci_account_id : Uuid; ci_token_in : string; ci_token_out : string;
  ci_amount_in : Z; ci_min_amount_out : Z; ci_deadline : Z;
}.
Record AmendIntentRequest := mkAmendIntent {
  am_account_id : Uuid; am_amount_in : option Z; am_min_amount_out : option Z; am_limit_price : option Z;
}.

Section handlers.
(** [impl Display for redis::RedisError] *)
Context `{SqlxDisplay, F64Display} (redis_text : RedisError → string) (config : Settings) (has_cache : bool).

(** [impl Display for IntentError] *)
Definition intent_error_text (e : Intents.IntentError) : string :=
  match e with
  | Intents.InsufficientBalance => "Insufficient balance"
  | InvalidAsset a => "Invalid asset: " +:+ a
  | IntentNotFound => "Intent not found"
  | NotAmendable s => "Intent cannot be amended: " +:+ s
  | RedisFailed e => "Redis error: " +:+ redis_text e
  | Intents.RiskRejected e => "Risk rejected: " +:+ e
  | BalanceFailed e => "Balance error: " +:+ e
  | StorageError e => "Storage error: " +:+ e
  end.
Definition map_error (e : Intents.IntentError) : Z * string :=
  (match e with
   | Intents.InsufficientBalance => BAD_REQUEST
   | InvalidAsset _ => UNPROCESSABLE_ENTITY
   | RiskRejected _ => FORBIDDEN
   | IntentNotFound => NOT_FOUND
   | NotAmendable _ => CONFLICT
   | StorageError _ | RedisFailed _ | BalanceFailed _ => INTERNAL_SERVER_ERROR
   end, intent_error_text e).

Definition create_intent (req : CreateIntentRequest) : M CoreDb (Z * Intent) (Z * string) :=
  let* intent := map_err map_error
    (IntentService.create_intent config has_cache (ci_user_id req) (ci_account_id req) (ci_token_in req)
       (ci_token_out req) (ci_amount_in req) (ci_min_amount_out req) (ci_deadline req)) in
  ret (CREATED, intent).
Definition amend_intent (id : Uuid) (req : AmendIntentRequest) : M CoreDb Intent (Z * string) :=
  map_err map_error
    (IntentService.amend_intent id (am_account_id req) (am_amount_in req) (am_min_amount_out req)
       (am_limit_price req)).
(** The services behind these two pass the call on to the storage. *)
Definition list_intents : M CoreDb (list Intent) (Z * string) := Storage.list_intents.
Definition get_intent (id : Uuid) : M CoreDb Intent Z :=
  let* o := Storage.get_intent id in
  of_option NOT_FOUND o.
End handlers.
End IntentsApi.

(** ** [api/bids.rs] and [api/orderbook.rs] *)
Module BidsApi.
Record SubmitBidRequest := mkSubmitBid {
  sb_intent_id : Uuid; sb_solver_id : string; sb_amount_out : Z; sb_fee : Z;
}.

Section handlers.
Context `{F64Display} (redis_text : RedisError → string) (config : Settings) (has_cache : bool).

(** [impl Display for BidError] *)
Definition bid_error_text (e : BidError) : string :=
  match e with
  | BidRedisError e => "Redis error: " +:+ redis_text e
  | BidRiskRejected e => "Bid rejected: " +:+ e
  | BidIntentNotFound => "Intent not found"
  end.
Definition map_error (e : BidError) : Z * string :=
  match e with
  | BidRiskRejected _ => (FORBIDDEN, bid_error_text e)
  | BidIntentNotFound => (NOT_FOUND, bid_error_text e)
  | BidRedisError _ => (INTERNAL_SERVER_ERROR, bid_error_text e)
  end.

Definition submit_bid (req : SubmitBidRequest) : M CoreDb (Z * SolverBid) (Z * string) :=
  let* bid := map_err map_error
    (BidService.submit_bid config has_cache (sb_intent_id req) (sb_solver_id req) (sb_amount_out req)
       (sb_fee req)) in
  ret (CREATED, bid).
Definition get_orderbook (intent_id : Uuid) : M CoreDb (list SolverBid) (Z * string) :=
  BidService.build_orderbook intent_id.
End handlers.
End BidsApi.

(** ** [balances/handler.rs] *)
Module BalancesApi.
Record DepositRequest := mkDeposit { dp_account_id : Uuid; dp_asset : Asset; dp_amount : Z }.
Record WithdrawRequest := mkWithdraw { wd_account_id : Uuid; wd_asset : Asset; wd_amount : Z }.

Section handlers.
Context `{SqlxDisplay} (has_cache : bool).

(** [impl Display for LedgerError] and [impl Display for BalanceError] *)
Definition ledger_error_text (e : LedgerService.LedgerError) : string :=
  match e with LedgerService.DbError e => "Database error: " +:+ sqlx_text e end.
Definition balance_error_text (e : Balances.BalanceError) : string :=
  match e with
  | Balances.InsufficientBalance => "Insufficient available balance"
  | Balances.InsufficientLockedBalance => "Insufficient locked balance"
  | Balances.InvalidAmount => "Amount must be positive"
  | Balances.DbError e => "Database error: " +:+ sqlx_text e
  | Balances.LedgerError e => "Ledger error: " +:+ ledger_error_text e
  end.
Definition map_error (e : Balances.BalanceError) : Z * string :=
  match e with
  | Balances.InsufficientBalance | Balances.InsufficientLockedBalance => (BAD_REQUEST, balance_error_text e)
  | Balances.InvalidAmount => (UNPROCESSABLE_ENTITY, balance_error_text e)
  | Balances.DbError _ | Balances.LedgerError _ => (INTERNAL_SERVER_ERROR, balance_error_text e)
  end.

Definition deposit (req : DepositRequest) : M CoreDb Balance (Z * string) :=
  map_err map_error (BalanceService.deposit has_cache (dp_account_id req) (dp_asset req) (dp_amount req)).
Definition withdraw (req : WithdrawRequest) : M CoreDb Balance (Z * string) :=
  map_err map_error (BalanceService.withdraw has_cache (wd_account_id req) (wd_asset req) (wd_amount req)).
Definition get_balances (account_id : Uuid) : M CoreDb (list Balance) (Z * string) :=
  map_err map_error (BalanceService.get_balances has_cache account_id).
End handlers.
End BalancesApi.

(** ** [ledger/handler.rs] *)
Module LedgerApi.
Record LedgerBalance := mkLedgerBalance { lb_account_id : Uuid; lb_asset : Asset; lb_net_balance : Z }.

Section handlers.
Context `{SqlxDisplay, NumericDecode}.
Definition internal (e : LedgerService.LedgerError) : Z * string :=
  (INTERNAL_SERVER_ERROR, BalancesApi.ledger_error_text e).
Definition get_entries (account_id : Uuid) : M CoreDb (list LedgerEntry) (Z * string) :=
  map_err internal (LedgerService.get_entries account_id).
Definition get_entries_by_reference (reference_id : Uuid) : M CoreDb (list LedgerEntry) (Z * string) :=
  map_err internal (LedgerService.get_entries_by_reference reference_id).
Definition get_balance (account_id : Uuid) (asset : Asset) : M CoreDb LedgerBalance (Z * string) :=
  let* net_balance := map_err internal (LedgerService.get_balance account_id asset) in
  ret (mkLedgerBalance account_id asset net_balance).
End handlers.
End LedgerApi.

(** ** [markets/handler.rs] *)
Module MarketsApi.
Section handlers.
Context `{SqlxDisplay} (has_cache : bool).

(** [impl Display for MarketError] *)
Definition market_error_text (e : MarketError) : string :=
  match e with
  | MarketNotFound => "Market not found"
  | MarketDbError e => "Database error: " +:+ sqlx_text e
  end.
Definition map_error (e : MarketError) : Z * string :=
  match e with
  | MarketNotFound => (NOT_FOUND, market_error_text e)
  | MarketDbError _ => (INTERNAL_SERVER_ERROR, market_error_text e)
  end.

Definition create_market (req : CreateMarketRequest) : M CoreDb (Z * MarketRow) (Z * string) :=
  let* m := map_err map_error (MarketService.create_market has_cache req) in
  ret (CREATED, m).
Definition get_market (market_id : Uuid) : M CoreDb MarketRow (Z * string) :=
  map_err map_error (MarketService.get_market has_cache market_id).
Definition list_markets : M CoreDb (list MarketRow) (Z * string) :=
  map_err map_error (MarketService.list_markets has_cache).
End handlers.
End MarketsApi.

(** ** [settlement/handler.rs] *)
Module SettlementApi.
Record SettleIntentRequest := mkSettleIntent {
  si_buyer_account_id : Uuid; si_seller_account_id : Uuid; si_asset_in : string; si_asset_out : string;
  si_fee_rate : f64;
}.
Record SettleIntentResponse := mkSettleIntentResponse { sr_intent_id : Uuid; sr_status : string }.

Section handlers.
Context `{UuidText, NumericDecode, SqlxDisplay}.
(** [str::to_uppercase] beyond ASCII *)
Context (unicode_to_uppercase : string → string).

Definition map_error (e : Settlement.SettlementError) : Z * string :=
  match e with
  | Settlement.TradeNotFound | Settlement.FillNotFound => (NOT_FOUND, error_text e)
  | Settlement.AlreadySettled => (CONFLICT, error_text e)
  | Settlement.InsufficientBalance => (BAD_REQUEST, error_text e)
  | Settlement.UnsupportedChain _ => (BAD_REQUEST, error_text e)
  | Settlement.FeeError _ | Settlement.ChainError _ | Settlement.DbError _ =>
      (INTERNAL_SERVER_ERROR, error_text e)
  end.

Definition uppercase (s : string) : string := if is_ascii s then Engine.upper s else unicode_to_uppercase s.
Definition parse_asset (s : string) : result Asset string :=
  let other := uppercase s in
  if String.eqb other "USDC" then Ok USDC
  else if String.eqb other "ETH" then Ok ETH
  else if String.eqb other "BTC" then Ok BTC
  else if String.eqb other "SOL" then Ok SOL
  else Err ("Unknown asset: " +:+ other)%string.
Definition asset_of (s : string) : M CoreDb Asset (Z * string) :=
  match parse_asset s with Ok a => ret a | Err e => throw (BAD_REQUEST, e) end.

Definition create_trade (req : Engine.CreateTradeRequest) : M CoreDb (Z * Trade) (Z * string) :=
  let* t := map_err map_error (Engine.create_trade req) in
  ret (CREATED, t).
Definition settle_trade (trade_id : Uuid) : M CoreDb Trade (Z * string) :=
  map_err map_error (Engine.settle_trade trade_id).
Definition settle_intent (latency_ms : Z) (intent_id : Uuid) (req : SettleIntentRequest)
  : M CoreDb SettleIntentResponse (Z * string) :=
  let* asset_in := asset_of (si_asset_in req) in
  let* asset_out := asset_of (si_asset_out req) in
  let* status := map_err map_error
    (Engine.settle_intent_fills latency_ms intent_id (si_buyer_account_id req) (si_seller_account_id req)
       asset_in asset_out (si_fee_rate req)) in
  ret (mkSettleIntentResponse intent_id (Worker.status_text status)).
Definition get_trade (trade_id : Uuid) : M CoreDb Trade (Z * string) :=
  let* o := map_err map_error (Engine.get_trade trade_id) in
  of_option (NOT_FOUND, "Trade not found"%string) o.
End handlers.
End SettlementApi.

(** ** [solver_reputation/handler.rs] *)
Module SolversApi.
Record RegisterSolverRequest := mkRegisterSolver {
  rg_name : string; rg_email : option string; rg_webhook_url : option string;
}.
Record RegisterSolverResponse := mkRegistered { rd_solver_id : Uuid; rd_api_key : string; rd_name : string }.
Record UpdateSolverRequest := mkUpdateSolver {
  us_name : option string; us_email : option string; us_webhook_url : option string;
}.
Definition default_limit : Z := 10.

Section handlers.
Context `{SqlxDisplay, SolverReputationService.Libm} (has_cache : bool).

(** [impl Display for SolverError] *)
Definition solver_error_text (e : SolverReputationService.SolverError) : string :=
  match e with
  | SolverReputationService.NotFound => "Solver not found"
  | SolverReputationService.NameTaken => "Solver name already taken"
  | SolverReputationService.DbError e => "Database error: " +:+ sqlx_text e
  end.
Definition map_error (e : SolverReputationService.SolverError) : Z * string :=
  match e with
  | SolverReputationService.NotFound => (NOT_FOUND, solver_error_text e)
  | SolverReputationService.NameTaken => (CONFLICT, solver_error_text e)
  | SolverReputationService.DbError _ => (INTERNAL_SERVER_ERROR, solver_error_text e)
  end.

(** [api_key] is what the service draws. *)
Definition register_solver (api_key : string) (req : RegisterSolverRequest)
  : M CoreDb (Z * RegisterSolverResponse) (Z * string) :=
  let name := trim (rg_name req) in
  if String.eqb name "" || (64 <? Z.of_nat (String.length name))
  then throw (BAD_REQUEST, "Name must be 1-64 characters"%string) else
  let* (solver, api_key) := map_err map_error
    (SolverReputationService.register api_key name (rg_email req) (rg_webhook_url req)) in
  ret (CREATED, mkRegistered (so_id solver) api_key (so_name solver)).

Definition get_solver (id : Uuid) : M CoreDb Solver (Z * string) :=
  let* s := map_err map_error (SolverReputationService.get_solver id) in
  ret (SolverReputationService.public s).
Definition update_solver (id : Uuid) (req : UpdateSolverRequest) : M CoreDb Solver (Z * string) :=
  let* solver := map_err map_error
    (SolverReputationService.update_profile id (us_name req) (us_email req) (us_webhook_url req)) in
  ret (SolverReputationService.public solver).
Definition deactivate_solver (id : Uuid) : M CoreDb Z (Z * string) :=
  map_err map_error (SolverReputationService.deactivate has_cache id) ;;;
  ret NO_CONTENT.
Definition get_dashboard (id : Uuid) : M CoreDb SolverReputationService.SolverDashboard (Z * string) :=
  map_err map_error (SolverReputationService.get_dashboard id).
Definition get_top_solvers (limit : option Z) : M CoreDb (list Solver) (Z * string) :=
  let* solvers := map_err map_error
    (SolverReputationService.get_top_solvers has_cache (default default_limit limit)) in
  ret (SolverReputationService.public <$> solvers).
Definition get_solver_stats (id : Uuid) : M CoreDb Stats.SolverStats (Z * string) :=
  map_err map_error (SolverReputationService.get_solver_stats id).
Definition get_leaderboard (limit : option Z) : M CoreDb (list Stats.LeaderboardEntry) (Z * string) :=
  map_err map_error (SolverReputationService.get_leaderboard (default default_limit limit)).
End handlers.
End SolversApi.

(** ** [oracle/mod.rs] *)
Module OracleApi.
Definition default_window : Z := 300.

Section handlers.
Context `{OracleService.NumericAverage}.
Definition handler_list_prices : M CoreDb (list MarketPrice) (Z * string) := OracleService.get_all_prices.
Definition handler_get_price (market_id : Uuid) : M CoreDb MarketPrice Z :=
  let* o := OracleService.get_price market_id in
  of_option NOT_FOUND o.
Definition handler_twap (market_id : Uuid) (window : option Z) : M CoreDb OracleService.TwapPrice Z :=
  let window := Z.max 10 (Z.min (default default_window window) 86400) in
  let* o := OracleService.get_twap market_id window in
  of_option NOT_FOUND o.
End handlers.
End OracleApi.

(** ** [twap/mod.rs] *)
Module TwapApi.
Section handlers.
Context `{SqlxDisplay} (add_seconds : Z → Z → option Z).

(** [impl Display for TwapError] *)
Definition twap_error_text (e : TwapService.TwapError) : string :=
  match e with
  | TwapService.InvalidParams e => "Invalid params: " +:+ e
  | TwapService.NotFound => "TWAP intent not found"
  | TwapService.AlreadyCancelled => "TWAP already cancelled"
  | TwapService.DbError e => "Database error: " +:+ sqlx_text e
  | TwapService.IntentError e => "Intent error: " +:+ e
  end.
Definition map_error (e : TwapService.TwapError) : Z * string :=
  match e with
  | TwapService.InvalidParams _ => (BAD_REQUEST, twap_error_text e)
  | TwapService.NotFound => (NOT_FOUND, twap_error_text e)
  | TwapService.AlreadyCancelled => (CONFLICT, twap_error_text e)
  | TwapService.DbError _ | TwapService.IntentError _ => (INTERNAL_SERVER_ERROR, twap_error_text e)
  end.
(** A panic of the service is one of the handler. *)
Definition map_unwinding (u : TwapService.unwinding TwapService.TwapError) : TwapService.unwinding (Z * string) :=
  match u with
  | TwapService.Panics => TwapService.Panics
  | TwapService.Raises e => TwapService.Raises (map_error e)
  end.

Definition create_twap (req : CreateTwapRequest) : M CoreDb (Z * TwapIntent) (TwapService.unwinding (Z * string)) :=
  let* t := map_err map_unwinding (TwapService.create_twap add_seconds req) in
  ret (CREATED, t).
Definition cancel_twap (twap_id : Uuid) : M CoreDb TwapIntent (Z * string) :=
  map_err map_error (TwapService.cancel_handler twap_id).
Definition get_progress (twap_id : Uuid) : M CoreDb TwapProgress (Z * string) :=
  map_err map_error (TwapService.get_progress twap_id).
End handlers.
End TwapApi.

(** ** [wallet/mod.rs] *)
Module WalletApi.
Section handlers.
Context `{SqlxDisplay} (generate_solana generate_evm : M CoreDb (bytes * string * bytes * bytes) WalletError).
Context (chains : ChainRegistry.Registry).

(** [impl Display for WalletError] *)
Definition wallet_error_text (e : WalletError) : string :=
  match e with
  | WalletNotFound => "Wallet not found"
  | SigningError e => "Signing error: " +:+ e
  | WalletRpcError e => "RPC error: " +:+ e
  | UnsupportedChain c => "Unsupported chain: " +:+ c
  | WalletDbError e => "Database error: " +:+ sqlx_text e
  end.
Definition internal (e : WalletError) : Z * string := (INTERNAL_SERVER_ERROR, wallet_error_text e).

Definition create_wallet (account_id : Uuid) (chain : string) : M CoreDb (Z * WalletPublic) (Z * string) :=
  let* wallet := map_err internal
    (WalletService.create_wallet generate_solana generate_evm chains account_id chain) in
  ret (CREATED, public_of wallet).
Definition get_wallet (id : Uuid) : M CoreDb WalletPublic (Z * string) :=
  let* o := map_err internal (WalletService.get_wallet id) in
  let* wallet := of_option (NOT_FOUND, "Wallet not found"%string) o in
  ret (public_of wallet).
Definition get_wallets_for_account (account_id : Uuid) : M CoreDb (list WalletPublic) (Z * string) :=
  let* wallets := map_err internal (WalletService.get_wallets_for_account account_id) in
  ret (public_of <$> wallets).
Definition get_transaction (id : Uuid) : M CoreDb TransactionRecord (Z * string) :=
  let* o := map_err internal (WalletService.get_transaction id) in
  of_option (NOT_FOUND, "Transaction not found"%string) o.
Definition get_transactions_for_fill (fill_id : Uuid) : M CoreDb (list TransactionRecord) (Z * string) :=
  map_err internal (WalletService.get_transactions_for_fill fill_id).
End handlers.
End WalletApi.

(** ** The tables of routes

    A router is the list of its routes; [.layer] and [.route_layer] put a
    layer in front of the routes that are there already, and [.merge] joins two
    routers.  A route names its handler by its path in the source. *)
Module Routes.
(** [x.f()] *)
#[local] Notation "x |> f" := (f x) (at level 50, left associativity, only parsing).
Inductive Layer := RequireAuth | Idempotent | CsrfGuard | RequirePerm (permission : string) | RequireRole (role : string).
(** [rt_layers]: the one that runs first is first. *)
Record Route := mkRoute { rt_method : Method; rt_path : string; rt_handler : string; rt_layers : list Layer }.
Abbreviation Router := (list Route) (only parsing).

Definition route (path : string) (m : Method) (handler : string) (r : Router) : Router := r ++ [mkRoute m path handler []].
Definition layer (l : Layer) (r : Router) : Router :=
  (λ rt, mkRoute (rt_method rt) (rt_path rt) (rt_handler rt) (l :: rt_layers rt)) <$> r.
Definition merge (other r : Router) : Router := r ++ other.

Definition api_router : Router :=
  let intent_write := []
    |> route "/intents" POST "api::intents::create_intent"
    |> route "/intents/{id}/amend" PUT "api::intents::amend_intent"
    |> layer (RequirePerm "intent:create") in
  let intent_read := []
    |> route "/intents" GET "api::intents::list_intents"
    |> route "/intents/{id}" GET "api::intents::get_intent"
    |> layer (RequirePerm "intent:read") in
  let bid_write := []
    |> route "/bids" POST "api::bids::submit_bid"
    |> layer (RequirePerm "bid:create") in
  let orderbook_read := []
    |> route "/orderbook/{intent_id}" GET "api::orderbook::get_orderbook"
    |> layer (RequirePerm "market:read") in
  intent_write |> merge intent_read |> merge bid_write |> merge orderbook_read.

Definition accounts_router : Router := []
  |> route "/accounts" POST "accounts::handler::create_account"
  |> route "/accounts/{user_id}" GET "accounts::handler::get_accounts".

Definition balances_router : Router :=
  let write := []
    |> route "/balances/deposit" POST "balances::handler::deposit"
    |> layer (RequirePerm "balance:deposit")
    |> route "/balances/withdraw" POST "balances::handler::withdraw"
    |> layer (RequirePerm "balance:withdraw") in
  let read := []
    |> route "/balances/{account_id}" GET "balances::handler::get_balances"
    |> layer (RequirePerm "balance:read") in
  write |> merge read.

Definition api_keys_router : Router := []
  |> route "/api-keys" POST "api_keys::create_key"
  |> route "/api-keys/{user_id}" GET "api_keys::list_keys"
  |> route "/api-keys/{key_id}/revoke" DELETE "api_keys::revoke_key".

Definition ledger_router : Router := []
  |> route "/ledger/{account_id}" GET "ledger::handler::get_entries"
  |> route "/ledger/reference/{reference_id}" GET "ledger::handler::get_entries_by_reference"
  |> route "/ledger/{account_id}/balance" GET "ledger::handler::get_balance".

Definition settlement_router : Router :=
  let write := []
    |> route "/trades" POST "settlement::handler::create_trade"
    |> route "/trades/{trade_id}/settle" POST "settlement::handler::settle_trade"
    |> route "/intents/{intent_id}/settle" POST "settlement::handler::settle_intent"
    |> layer (RequirePerm "trade:settle") in
  let read := []
    |> route "/trades/{trade_id}" GET "settlement::handler::get_trade"
    |> layer (RequirePerm "trade:read") in
  write |> merge read.

Definition twap_router : Router := []
  |> route "/twap" POST "twap::create_twap"
  |> route "/twap/{twap_id}" GET "twap::get_progress"
  |> route "/twap/{twap_id}/cancel" POST "twap::cancel_twap".

Definition solver_router : Router := []
  |> route "/solvers/register" POST "solver_reputation::handler::register_solver"
  |> route "/solvers/top" GET "solver_reputation::handler::get_top_solvers"
  |> route "/solvers/leaderboard" GET "solver_reputation::handler::get_leaderboard"
  |> route "/solvers/{id}" GET "solver_reputation::handler::get_solver"
  |> route "/solvers/{id}/dashboard" GET "solver_reputation::handler::get_dashboard"
  |> route "/solvers/{id}/stats" GET "solver_reputation::handler::get_solver_stats".
Definition solver_protected_router : Router := []
  |> route "/solvers/{id}" PUT "solver_reputation::handler::update_solver"
  |> route "/solvers/{id}/deactivate" DELETE "solver_reputation::handler::deactivate_solver".

Definition wallet_router : Router := []
  |> route "/wallets" POST "wallet::handler::create_wallet"
  |> route "/wallets/{id}" GET "wallet::handler::get_wallet"
  |> route "/wallets/account/{account_id}" GET "wallet::handler::get_wallets_for_account"
  |> route "/transactions/{id}" GET "wallet::handler::get_transaction"
  |> route "/transactions/fill/{fill_id}" GET "wallet::handler::get_transactions_for_fill".

Definition rbac_router : Router := []
  |> route "/admin/roles" GET "rbac::list_roles"
  |> route "/admin/roles/assign" POST "rbac::assign_role"
  |> route "/admin/users/{user_id}/roles" GET "rbac::get_user_roles".

(** The routers without layers of their own of [markets], [market_data],
    [users], [auth], [health], [ws], [metrics], [oracle] and [csrf] *)
Definition markets_router : Router := []
  |> route "/markets" POST "markets::handler::create_market"
  |> route "/markets" GET "markets::handler::list_markets"
  |> route "/markets/{market_id}" GET "markets::handler::get_market".
Definition market_data_router : Router := []
  |> route "/market-data/trades/{market_id}" GET "market_data::handler::get_trades"
  |> route "/orderbook/{market_id}" GET "market_data::handler::get_orderbook"
  |> route "/candles/{market_id}" GET "market_data::handler::get_candles".
Definition users_router : Router := []
  |> route "/users/register" POST "users::handler::register"
  |> route "/users/login" POST "users::handler::login"
  |> route "/users/{id}" GET "users::handler::get_user".
Definition auth_public_router : Router := []
  |> route "/auth/register" POST "auth::handler::register"
  |> route "/auth/login" POST "auth::handler::login".
Definition health_router : Router := []
  |> route "/health/live" GET "health::liveness"
  |> route "/health/ready" GET "health::readiness"
  |> route "/health/db" GET "health::check_db"
  |> route "/health/redis" GET "health::check_redis".
Definition ws_server_router : Router := [] |> route "/ws" GET "ws::server::ws_handler".
Definition ws_router : Router := [] |> route "/ws/feed" GET "ws::handler::ws_handler".
Definition metrics_router : Router := [] |> route "/metrics" GET "metrics::metrics_handler".
Definition oracle_router : Router := []
  |> route "/oracle/prices" GET "oracle::handler_list_prices"
  |> route "/oracle/prices/{market_id}" GET "oracle::handler_get_price"
  |> route "/oracle/twap/{market_id}" GET "oracle::handler_twap".
Definition csrf_router : Router := [] |> route "/csrf-token" GET "csrf::get_csrf_token".

(** [main]: the three groups of routes *)
Definition admin_routes : Router := rbac_router |> layer (RequireRole "admin") |> layer RequireAuth.
Definition protected : Router :=
  api_router
    |> merge accounts_router |> merge balances_router |> merge api_keys_router |> merge ledger_router
    |> merge settlement_router |> merge twap_router |> merge solver_protected_router |> merge wallet_router
    |> layer CsrfGuard |> layer Idempotent |> layer RequireAuth.
Definition public : Router :=
  auth_public_router
    |> merge health_router |> merge users_router |> merge markets_router |> merge market_data_router
    |> merge solver_router |> merge ws_server_router |> merge ws_router |> merge metrics_router
    |> merge oracle_router |> merge csrf_router.
Definition app : Router := admin_routes |> merge protected |> merge public.

Definition find_route (m : Method) (path : string) (r : Router) : option Route :=
  List.find (λ rt, bool_decide (rt_method rt = m) && String.eqb (rt_path rt) path) r.

(** axum panics when a route is added whose path is there already with the
    same method, or whose path conflicts with another path; when two paths do
    is up to its matcher. *)
Section building.
Context (conflict : string → string → bool).
Definition clash (a b : Route) : bool :=
  if String.eqb (rt_path a) (rt_path b) then bool_decide (rt_method a = rt_method b)
  else conflict (rt_path a) (rt_path b).
Fixpoint builds (r : Router) : bool :=
  match r with
  | [] => true
  | a :: r => negb (existsb (clash a) r) && builds r
  end.
End building.

(** Paths that differ in nothing but the names of their parameters *)
Definition is_parameter (segment : string) : bool := String.prefix "{" segment.
Fixpoint same_segments (p q : list string) : bool :=
  match p, q with
  | [], [] => true
  | a :: p, b :: q => (String.eqb a b || (is_parameter a && is_parameter b)) && same_segments p q
  | _, _ => false
  end.
Definition same_shape (p q : string) : bool := same_segments (split_on "/" p) (split_on "/" q).

(** ** Answering a request *)

(** axum's extractors, on the path of the route and the request, with the
    responses of their rejections; and [serde_json::to_vec] *)
Class FromRequest (A : Type) := from_request : string → Request → result A Response.
Class Serialize (A : Type) := to_json : A → bytes.

Definition json `{Serialize A} (status : Z) (a : A) : Response :=
  mkResponse status [("content-type", Visible "application/json")] (to_json a).

Definition endpoint `{FromRequest A} {B} (path : string) (h : A → M CoreDb B (Z * string)) (reply : B → Response)
  : Handler := λ req,
  match from_request path req with
  | Err rejection => ret rejection
  | Ok a =>
      let* r := attempt (on_core (h a)) in
      ret (match r with Ok b => reply b | Err (status, text) => respond status text end)
  end.

Section answer.
Context `{JwtLib} `{UuidText} (jwt_secret : string).

Definition guarded (l : Layer) (next : Handler) : Handler :=
  match l with
  | RequireAuth => Auth.require_auth jwt_secret next
  | Idempotent => Idempotency.call next
  | CsrfGuard => Csrf.call next
  | RequirePerm permission => RbacMiddleware.require_perm permission next
  | RequireRole role => RbacMiddleware.require_role role next
  end.
Definition answer (handlers : string → Handler) (rt : Route) : Handler :=
  foldr guarded (handlers (rt_handler rt)) (rt_layers rt).
End answer.

(** The handlers of the balances behind their extractors; [others] are those
    of the other services. *)
Section balances.
Context `{SqlxDisplay} (has_cache : bool).
Context `{FromRequest BalancesApi.DepositRequest} `{FromRequest BalancesApi.WithdrawRequest} `{FromRequest Uuid}.
Context `{Serialize Balance} `{Serialize (list Balance)}.

Definition handlers (others : string → Handler) (name : string) : Handler :=
  if String.eqb name "balances::handler::deposit"
  then endpoint "/balances/deposit" (BalancesApi.deposit has_cache) (json OK)
  else if String.eqb name "balances::handler::withdraw"
  then endpoint "/balances/withdraw" (BalancesApi.withdraw has_cache) (json OK)
  else if String.eqb name "balances::handler::get_balances"
  then endpoint "/balances/{account_id}" (BalancesApi.get_balances has_cache) (json OK)
  else others name.
End balances.
End Routes.

(** ** What the tables say *)

Import Routes.

Lemma clash_mono (c1 c2 : string → string → bool) a b :
  (∀ p q, p ≠ q → c1 p q = true → c2 p q = true) → clash c1 a b = true → clash c2 a b = true.
Proof. intros Hle. unfold clash. destruct (String.eqb_spec (rt_path a) (rt_path b)); auto. Qed.

Lemma builds_mono (c1 c2 : string → string → bool) r :
  (∀ p q, p ≠ q → c1 p q = true → c2 p q = true) → builds c2 r = true → builds c1 r = true.
Proof.
  intros Hle. induction r as [|a r IH]; [done|]. simpl.
  rewrite !andb_true_iff, !negb_true_iff. intros [Hno Hr]. split; [|auto].
  apply not_true_iff_false. intros (b & Hb & Hc)%existsb_exists.
  apply not_true_iff_false in Hno. apply Hno, existsb_exists. eauto using clash_mono.
Qed.

(** C26: the program does not start: whatever else the matcher of axum takes
    for a conflict, since paths that differ only in the name of a parameter are
    one, the merge of all routes panics, and it does because of the two order
    books alone. *)
Theorem the_routers_clash (conflict : string → string → bool) :
  (∀ p q, p ≠ q → same_shape p q = true → conflict p q = true) →
  builds conflict app = false ∧
  builds same_shape (List.filter (λ rt, negb (String.eqb (rt_path rt) "/orderbook/{market_id}")) app) = true.
Proof.
  intros Hc. split; [|by vm_compute].
  apply not_true_iff_false. intros H%(builds_mono same_shape); [|done].
  assert (builds same_shape app = false) as E by (by vm_compute). congruence.
Qed.

Definition is_write (rt : Route) : bool := negb (Csrf.is_safe (rt_method rt)).
Definition permission_of (l : Layer) : bool :=
  match l with RequirePerm _ | RequireRole _ => true | _ => false end.
Definition unguarded (rt : Route) : bool := is_write rt && negb (existsb permission_of (rt_layers rt)).
Definition needs_token (rt : Route) : bool := existsb (λ l, match l with RequireAuth => true | _ => false end) (rt_layers rt).

(** Of the requests that change something, those to these routes need
    nothing at all, and those to these a token but no permission; all others
    are behind a token and a permission. *)
Theorem unguarded_writes :
  rt_handler <$> List.filter (λ rt, unguarded rt && negb (needs_token rt)) app
    = ["auth::handler::register"; "auth::handler::login"; "users::handler::register"; "users::handler::login";
       "markets::handler::create_market"; "solver_reputation::handler::register_solver"]%string ∧
  rt_handler <$> List.filter (λ rt, unguarded rt && needs_token rt) app
    = ["accounts::handler::create_account"; "api_keys::create_key"; "api_keys::revoke_key"; "twap::create_twap";
       "twap::cancel_twap"; "solver_reputation::handler::update_solver";
       "solver_reputation::handler::deactivate_solver"; "wallet::handler::create_wallet"]%string ∧
  (∀ rt, rt ∈ app → is_write rt = true → unguarded rt = false → needs_token rt = true).
Proof.
  split_and!; [by vm_compute..|]. intros rt Hrt Hw Hu.
  assert (forallb (λ rt, negb (is_write rt) || unguarded rt || needs_token rt) app = true) as Hall by (by vm_compute).
  rewrite forallb_forall in Hall. specialize (Hall rt). rewrite Hw, Hu in Hall. apply Hall.
  by apply list_elem_of_In.
Qed.

(** ** What the layers of the routers of the services do *)

Section layers.
Context `{JwtLib} `{UuidText} (jwt_secret : string) (hs : string → Handler).

Definition granted (permission : string) (req : Request) : bool :=
  RbacMiddleware.has_permission (RbacMiddleware.extract_permissions req) permission.

Lemma no_permission_grants permission : RbacMiddleware.has_permission [] permission = false.
Proof. unfold RbacMiddleware.has_permission. by destruct (split_once_at ":" permission) as [[??]|]. Qed.
Lemma require_perm_granted permission next req e :
  granted permission req = true → RbacMiddleware.require_perm permission next req e = next req e.
Proof.
  unfold granted, RbacMiddleware.require_perm.
  destruct (RbacMiddleware.extract_permissions req) as [|p l]; [by rewrite no_permission_grants|by intros ->].
Qed.
Lemma require_perm_refused permission next req e :
  granted permission req = false → ∃ r, RbacMiddleware.require_perm permission next req e = (Ok r, e) ∧
    rs_status r = (if decide (RbacMiddleware.extract_permissions req = []) then UNAUTHORIZED else FORBIDDEN).
Proof.
  unfold granted, RbacMiddleware.require_perm.
  destruct (RbacMiddleware.extract_permissions req) as [|p l]; [intros _|intros ->]; eexists; (split; [done|]); done.
Qed.

(** C25: a deposit needs the right to withdraw: the route takes a request that
    has both permissions, and refuses one without the second, whatever else it
    may. *)
Theorem deposits_need_the_right_to_withdraw rt req e :
  find_route POST "/balances/deposit" balances_router = Some rt →
  (granted "balance:deposit" req = true → granted "balance:withdraw" req = true →
     answer jwt_secret hs rt req e = hs "balances::handler::deposit"%string req e) ∧
  (granted "balance:withdraw" req = false → ∃ r, answer jwt_secret hs rt req e = (Ok r, e) ∧
     rs_status r ∈ [UNAUTHORIZED; FORBIDDEN]).
Proof.
  intros [= <-]. unfold answer. simpl. split.
  - intros Hd Hw. by rewrite !require_perm_granted.
  - intros Hw. destruct (require_perm_refused _ (RbacMiddleware.require_perm "balance:deposit"
      (hs "balances::handler::deposit"%string)) _ e Hw) as (r & -> & Hs).
    exists r. split; [done|]. rewrite Hs. case_decide; set_solver.
Qed.
End layers.

(** ** Withdrawing over HTTP *)

(** The environment of the services' tables *)
Definition core_env (e : Env Platform) : Env CoreDb :=
  mkEnv (core (env_db e)) (env_faults e) (env_uuid e) (env_drawn e) (env_now e).

(** The status of a request to withdraw, by the table of balances *)
Definition withdraw_status (w : BalancesApi.WithdrawRequest) (t : list Balance) : Z :=
  if BalancesApi.wd_amount w <=? 0 then UNPROCESSABLE_ENTITY
  else if available t (BalancesApi.wd_account_id w, BalancesApi.wd_asset w) <? BalancesApi.wd_amount w
  then BAD_REQUEST else OK.
Definition withdraw_postings (w : BalancesApi.WithdrawRequest) (t : list Balance) : list Posting :=
  if withdraw_status w t =? OK
  then op_postings (Withdraw (BalancesApi.wd_account_id w) (BalancesApi.wd_asset w) (BalancesApi.wd_amount w))
  else [].

Section withdraw.
Context `{SqlxDisplay} (c : bool).
Implicit Types e : Env CoreDb.

(** What the handler does when nothing fails from outside. *)
Lemma withdraw_handler_outcome w e :
  ready e → balances_inv (balances (env_db e)) → has_account (BalancesApi.wd_account_id w) (env_db e) →
  ∃ r e', BalancesApi.withdraw c w e = (r, e') ∧
    posts (withdraw_postings w (balances (env_db e))) (balances (env_db e)) (balances (env_db e')) ∧
    match r with
    | Ok _ => withdraw_status w (balances (env_db e)) = OK
    | Err (status, _) => status = withdraw_status w (balances (env_db e)) ∧ status ≠ OK
    end.
Proof.
  destruct w as [acc asset n]. intros Hready Hinv Hacc. pose proof (inv_wf _ Hinv) as Hwf.
  pose proof (λ H, balance_op_succeeds c (Withdraw acc asset n) e Hready Hinv H) as Hgo.
  unfold BalancesApi.withdraw, withdraw_postings, withdraw_status. simpl in *.
  destruct (Z.leb_spec n 0) as [Hn|Hn].
  { unfold BalanceService.withdraw. rewrite (proj2 (Z.leb_le n 0)) by done. do 2 eexists. split; [done|].
    split; [apply posts_nil|done]. }
  destruct (Z.ltb_spec (available (balances (env_db e)) (acc, asset)) n) as [Hlow|Hcov].
  - unfold BalanceService.withdraw. rewrite (proj2 (Z.leb_gt n 0)) by done.
    destruct (row_succeeds acc asset e Hready Hwf Hacc) as (b & e1 & Hrow & _ & _ & Hav & _).
    cbv [bind map_err]. rewrite Hrow. cbv beta iota. rewrite Hav, (proj2 (Z.ltb_lt _ _)) by done.
    do 2 eexists. split; [done|]. simpl. split; [|done].
    by apply find_or_create_effect in Hrow as ([P _ _] & _).
  - destruct Hgo as [e' Hrun]; [by intros ? ->%list_elem_of_singleton|lia|].
    pose proof (run_op_effect c (Withdraw acc asset n) _ _ Hrun Hinv I) as (_ & es & [P _ _] & _).
    apply bind_Ok in Hrun as (b & e1 & Hrun & [_ ->]%ret_Ok).
    do 2 eexists. unfold map_err. rewrite Hrun. split; [done|]. by split.
Qed.
End withdraw.

Section over_http.
Context `{JwtLib} `{UuidText} `{SqlxDisplay} (jwt_secret : string) (has_cache : bool) (others : string → Handler).
Context `{FromRequest BalancesApi.DepositRequest} `{FromRequest BalancesApi.WithdrawRequest} `{FromRequest Uuid}.
Context `{Serialize Balance} `{Serialize (list Balance)}.

(** C19: who has the permission to withdraw withdraws from any account: the
    request is answered 422, 400 or 200 by its amount and by what is available
    there, the balances change by its postings, and who sent it, or whose the
    account is, plays no part. *)
Theorem the_permission_withdraws_from_any_account rt claims req w e :
  find_route POST "/balances/withdraw" balances_router = Some rt →
  rq_claims req = Some claims → RbacMiddleware.has_permission (cl_permissions claims) "balance:withdraw" = true →
  from_request "/balances/withdraw"%string req = Ok w →
  ready (core_env e) → balances_inv (balances (core (env_db e))) →
  has_account (BalancesApi.wd_account_id w) (core (env_db e)) →
  ∃ r e', answer jwt_secret (handlers has_cache others) rt req e = (Ok r, e') ∧
    rs_status r = withdraw_status w (balances (core (env_db e))) ∧
    posts (withdraw_postings w (balances (core (env_db e)))) (balances (core (env_db e))) (balances (core (env_db e'))).
Proof.
  intros [= <-] Hclaims Hperm Hw Hready Hinv Hacc. unfold answer. simpl.
  rewrite require_perm_granted by (unfold granted, RbacMiddleware.extract_permissions; by rewrite Hclaims).
  unfold handlers. simpl. unfold endpoint. rewrite Hw.
  destruct (withdraw_handler_outcome has_cache w (core_env e) Hready Hinv Hacc) as (r & e1 & Hrun & Hp & Hs).
  cbv [bind attempt on_core]. unfold core_env in Hrun. rewrite Hrun. cbv beta iota.
  destruct r as [b|[status text]]; do 2 eexists; (split; [done|]); simpl in *.
  - by split.
  - destruct Hs as [-> _]. by split.
Qed.
End over_http.

(** ** A trader and the account of somebody else *)

Module HttpExample.
#[export] Instance lib : JwtLib := ToyJwt.lib [].
#[export] Existing Instances DecimalUuid.instance UserExample.display.
(** A body of three bytes: the account, an asset, the amount. *)
Definition decode_body (body : bytes) : option (Uuid * Asset * Z) :=
  match body with
  | [acc; a; n] => Some (Z.to_N acc, if a =? 0 then USDC else ETH, n)
  | _ => None
  end.
#[export] Instance withdraw_body : FromRequest BalancesApi.WithdrawRequest := λ _ req,
  match decode_body (rq_body req) with
  | Some (acc, a, n) => Ok (BalancesApi.mkWithdraw acc a n)
  | None => Err (respond UNPROCESSABLE_ENTITY "body")
  end.
#[export] Instance deposit_body : FromRequest BalancesApi.DepositRequest := λ _ req,
  match decode_body (rq_body req) with
  | Some (acc, a, n) => Ok (BalancesApi.mkDeposit acc a n)
  | None => Err (respond UNPROCESSABLE_ENTITY "body")
  end.
#[export] Instance uuid_path : FromRequest Uuid := λ _ _, Ok 0%N.
#[export] Instance balance_json : Serialize Balance := λ b, [b_available_balance b].
#[export] Instance balances_json : Serialize (list Balance) := map b_available_balance.

Definition trader (permissions : list string) : Claims := mkClaims 77 "t@x.io" permissions 9999 0 None.
Definition request (path : string) (permissions : list string) (body : bytes) : Request :=
  mkRequest POST path None [] (Some (trader permissions)) body.
Definition env : Env Platform :=
  mkEnv (set_core sample_db SeededTables.platform) [] (env_uuid sample_env) (env_drawn sample_env) (env_now sample_env).
Definition no_handler : string → Handler := λ _ _, ret (respond NOT_FOUND "").
Definition from_alice (n : Z) : Request := request "/balances/withdraw" ["balance:withdraw"%string] [10; 0; n].
End HttpExample.
Import HttpExample.

Lemma the_routers_clash_witness : builds same_shape app = false.
Proof. apply (the_routers_clash same_shape). auto. Defined.

Lemma deposits_need_the_right_to_withdraw_witness :
  match find_route POST "/balances/deposit" balances_router with
  | Some rt =>
      ∃ r, answer "secret" (handlers true no_handler) rt
             (request "/balances/deposit" ["balance:deposit"; "balance:read"]%string [10; 0; 5]) env = (Ok r, env) ∧
           rs_status r ∈ [UNAUTHORIZED; FORBIDDEN]
  | None => False
  end.
Proof. apply (deposits_need_the_right_to_withdraw "secret" (handlers true no_handler)); reflexivity. Defined.

(** User 77 takes 100 from the account of Alice, who has 600, then finds 500
    too little for 600. *)
Lemma the_permission_withdraws_from_any_account_witness :
  match find_route POST "/balances/withdraw" balances_router with
  | Some rt =>
      (∃ r e', answer "secret" (handlers true no_handler) rt (from_alice 100) env = (Ok r, e') ∧
        rs_status r = OK ∧
        posts [mkPosting (alice, USDC) (-100) 0] (balances sample_db) (balances (core (env_db e')))) ∧
      (∃ r e', answer "secret" (handlers true no_handler) rt (from_alice 1000) env = (Ok r, e') ∧
        rs_status r = BAD_REQUEST ∧ posts [] (balances sample_db) (balances (core (env_db e'))))
  | None => False
  end.
Proof.
  cbv beta iota delta [find_route balances_router]. split.
  - apply (the_permission_withdraws_from_any_account "secret" true no_handler _
      (trader ["balance:withdraw"%string]) (from_alice 100) (BalancesApi.mkWithdraw alice USDC 100) env);
      [done..|exact sample_ready|exact sample_inv|]. exists (mkAccount alice 1 Spot 0). split; [set_solver|done].
  - apply (the_permission_withdraws_from_any_account "secret" true no_handler _
      (trader ["balance:withdraw"%string]) (from_alice 1000) (BalancesApi.mkWithdraw alice USDC 1000) env);
      [done..|exact sample_ready|exact sample_inv|]. exists (mkAccount alice 1 Spot 0). split; [set_solver|done].
Defined.
