(* ===== verification/Chaos.v ===== *)
(** * The chaos engine: [src/src/chaos/{faults,engine,report}.rs]

    Injectable faults, the task that switches them on at random and the tasks
    it spawns to switch them off.  The tasks interleave: the engine is a step
    relation.  The random numbers and the environment variable are parameters,
    instants and durations are whole seconds, logs are left out. *)
From Stdlib Require Import Ascii.
From stdpp Require Import gmap.
From S2P Require Import Prelude Monad Float64 Model Ledger Text Settlement Bytes Strings Verify.
Open Scope Z_scope.

(** ** [faults.rs] *)

Inductive FaultKind :=
| EthRpcTimeout | SolanaRpcFailure | RedisDisconnect | PostgresFailover
| BridgeFailure | TransactionDropped | ChainReorg | WorkerCrash.
#[export] Instance FaultKind_eq_dec : EqDecision FaultKind.
Proof. solve_decision. Defined.

Definition kind_text (k : FaultKind) : string :=
  match k with
  | EthRpcTimeout => "eth_rpc_timeout" | SolanaRpcFailure => "solana_rpc_failure"
  | RedisDisconnect => "redis_disconnect" | PostgresFailover => "postgres_failover"
  | BridgeFailure => "bridge_failure" | TransactionDropped => "transaction_dropped"
  | ChainReorg => "chain_reorg" | WorkerCrash => "worker_crash"
  end.

Record FaultConfig := mkFaultConfig {
  fc_kind : FaultKind; fc_probability : f64; fc_duration : Z; fc_target : option string;
}.
Record ActiveFault := mkActiveFault {
  af_kind : FaultKind; af_active : bool; af_triggered_count : Z; af_target : option string;
}.

Module ActiveFault.
Definition new (kind : FaultKind) (target : option string) : ActiveFault := mkActiveFault kind false 0 target.
Definition is_active (f : ActiveFault) : bool := af_active f.
Definition activate (f : ActiveFault) : ActiveFault :=
  mkActiveFault (af_kind f) true (u64 (af_triggered_count f + 1)) (af_target f).
Definition deactivate (f : ActiveFault) : ActiveFault :=
  mkActiveFault (af_kind f) false (af_triggered_count f) (af_target f).
Definition trigger_count (f : ActiveFault) : Z := af_triggered_count f.
End ActiveFault.

Record FaultRegistry := mkRegistry {
  eth_rpc_timeout : ActiveFault; solana_rpc_failure : ActiveFault; redis_disconnect : ActiveFault;
  postgres_failover : ActiveFault; bridge_failure : ActiveFault; transaction_dropped : ActiveFault;
  chain_reorg : ActiveFault; worker_crash : ActiveFault; enabled : bool;
}.

Module FaultRegistry.
Definition new : FaultRegistry :=
  let fault k := ActiveFault.new k None in
  mkRegistry (fault EthRpcTimeout) (fault SolanaRpcFailure) (fault RedisDisconnect) (fault PostgresFailover)
    (fault BridgeFailure) (fault TransactionDropped) (fault ChainReorg) (fault WorkerCrash) false.

Definition enable (r : FaultRegistry) : FaultRegistry :=
  mkRegistry (eth_rpc_timeout r) (solana_rpc_failure r) (redis_disconnect r) (postgres_failover r)
    (bridge_failure r) (transaction_dropped r) (chain_reorg r) (worker_crash r) true.
Definition is_enabled (r : FaultRegistry) : bool := enabled r.

Definition get_fault (kind : FaultKind) (r : FaultRegistry) : ActiveFault :=
  match kind with
  | EthRpcTimeout => eth_rpc_timeout r | SolanaRpcFailure => solana_rpc_failure r
  | RedisDisconnect => redis_disconnect r | PostgresFailover => postgres_failover r
  | BridgeFailure => bridge_failure r | TransactionDropped => transaction_dropped r
  | ChainReorg => chain_reorg r | WorkerCrash => worker_crash r
  end.
(** A store through the [Arc] that [get_fault] hands out *)
Definition alter (f : ActiveFault → ActiveFault) (kind : FaultKind) (r : FaultRegistry) : FaultRegistry :=
  let at_ k x := if decide (k = kind) then f x else x in
  mkRegistry (at_ EthRpcTimeout (eth_rpc_timeout r)) (at_ SolanaRpcFailure (solana_rpc_failure r))
    (at_ RedisDisconnect (redis_disconnect r)) (at_ PostgresFailover (postgres_failover r))
    (at_ BridgeFailure (bridge_failure r)) (at_ TransactionDropped (transaction_dropped r))
    (at_ ChainReorg (chain_reorg r)) (at_ WorkerCrash (worker_crash r)) (enabled r).

Definition should_fault (kind : FaultKind) (r : FaultRegistry) : bool :=
  if negb (is_enabled r) then false else
  match kind with
  | EthRpcTimeout => ActiveFault.is_active (eth_rpc_timeout r)
  | SolanaRpcFailure => ActiveFault.is_active (solana_rpc_failure r)
  | RedisDisconnect => ActiveFault.is_active (redis_disconnect r)
  | PostgresFailover => ActiveFault.is_active (postgres_failover r)
  | BridgeFailure => ActiveFault.is_active (bridge_failure r)
  | TransactionDropped => ActiveFault.is_active (transaction_dropped r)
  | ChainReorg => ActiveFault.is_active (chain_reorg r)
  | WorkerCrash => ActiveFault.is_active (worker_crash r)
  end.

Definition snapshot (r : FaultRegistry) : list (string * bool * Z) :=
  (λ k, let f := get_fault k r in (kind_text k, ActiveFault.is_active f, ActiveFault.trigger_count f)) <$>
    [EthRpcTimeout; SolanaRpcFailure; RedisDisconnect; PostgresFailover; BridgeFailure; TransactionDropped;
     ChainReorg; WorkerCrash].
End FaultRegistry.

(** ** [report.rs] *)
Module ChaosReport.
Abbreviation Report := (gmap string Z) (only parsing).
Definition new : Report := ∅.
Definition record_activation (kind : FaultKind) (r : Report) : Report :=
  <[kind_text kind := u64 (default 0 (r !! kind_text kind) + 1)]> r.
Definition total_injections (r : Report) : Z := u64 (map_fold (λ _ n acc, n + acc) 0 r).
End ChaosReport.

(** ** [engine.rs] *)

Definition default_schedule : list FaultConfig :=
  [mkFaultConfig EthRpcTimeout (f64_lit 5 100) 10 None;
   mkFaultConfig SolanaRpcFailure (f64_lit 5 100) 8 None;
   mkFaultConfig RedisDisconnect (f64_lit 3 100) 5 None;
   mkFaultConfig PostgresFailover (f64_lit 2 100) 15 None;
   mkFaultConfig BridgeFailure (f64_lit 5 100) 20 None;
   mkFaultConfig TransactionDropped (f64_lit 8 100) 0 None;
   mkFaultConfig ChainReorg (f64_lit 2 100) 0 None;
   mkFaultConfig WorkerCrash (f64_lit 3 100) 10 None].
Definition TICK_INTERVAL_SECS : Z := 5.

(** [std::env::var("CHAOS_ENABLED")] *)
Definition is_chaos_enabled (chaos_enabled : option string) : bool :=
  String.eqb (to_lowercase (default ""%string chaos_enabled)) "true".

Module ChaosEngine.
(** [en_tasks]: the sleeping tasks, each with the fault it will switch off and
    when; [en_drawn]: how many random numbers were drawn. *)
Record Engine := mkEngine {
  en_registry : FaultRegistry; en_report : gmap string Z; en_tasks : list (FaultKind * Z); en_drawn : nat;
  en_now : Z; en_running : bool;
}.
Definition with_registry (f : FaultRegistry → FaultRegistry) (e : Engine) : Engine :=
  mkEngine (f (en_registry e)) (en_report e) (en_tasks e) (en_drawn e) (en_now e) (en_running e).
Definition with_tasks (ts : list (FaultKind * Z)) (e : Engine) : Engine :=
  mkEngine (en_registry e) (en_report e) ts (en_drawn e) (en_now e) (en_running e).

(** [run_with_pool] up to its loop *)
Definition start (chaos_enabled : option string) (r : FaultRegistry) (t : Z) : Engine :=
  if negb (is_chaos_enabled chaos_enabled) then mkEngine r ChaosReport.new [] 0 t false
  else mkEngine (FaultRegistry.enable r) ChaosReport.new [] 0 t true.

Section engine.
Context (random : nat → f64) (schedule : list FaultConfig).

Definition activated (config : FaultConfig) (e : Engine) : Engine :=
  mkEngine (FaultRegistry.alter ActiveFault.activate (fc_kind config) (en_registry e))
    (ChaosReport.record_activation (fc_kind config) (en_report e)) (en_tasks e) (en_drawn e) (en_now e) (en_running e).

Definition consider (e : Engine) (config : FaultConfig) : Engine :=
  let fault := FaultRegistry.get_fault (fc_kind config) (en_registry e) in
  if ActiveFault.is_active fault then e else
  let roll := random (en_drawn e) in
  let e := mkEngine (en_registry e) (en_report e) (en_tasks e) (S (en_drawn e)) (en_now e) (en_running e) in
  if f64_gt (fc_probability config) roll then
    let e := activated config e in
    if 0 <? fc_duration config
    then with_tasks (en_tasks e ++ [(fc_kind config, en_now e + fc_duration config)]) e
    else with_registry (FaultRegistry.alter ActiveFault.deactivate (fc_kind config)) e
  else e.
Definition tick (e : Engine) : Engine := foldl consider e schedule.

(** The branch of the cancelled token *)
Definition shutdown (e : Engine) : Engine :=
  let e := with_registry (λ r,
    foldl (λ r config, FaultRegistry.alter ActiveFault.deactivate (fc_kind config) r) r schedule) e in
  mkEngine (en_registry e) (en_report e) (en_tasks e) (en_drawn e) (en_now e) false.
(** .. and the check of the tables after it, which [run] has no pool for *)
Definition verify_after `{SqlxDisplay} `{NumericDecode} `{UuidText} (sha256 : bytes → bytes)
    (pool : option (Env CoreDb)) : option InvariantReport :=
  db ← pool;
  match fst (InvariantChecker.run_all (E := SqlxError) sha256 db) with Ok r => Some r | Err _ => None end.

(** A tick of the loop, time passing, a task waking up, and the shutdown *)
Inductive step (e : Engine) : Engine → Prop :=
| step_tick : en_running e = true → step e (tick e)
| step_wait d : 0 ≤ d →
    step e (mkEngine (en_registry e) (en_report e) (en_tasks e) (en_drawn e) (en_now e + d) (en_running e))
| step_wake l1 kind deadline l2 : en_tasks e = l1 ++ (kind, deadline) :: l2 → deadline ≤ en_now e →
    step e (with_tasks (l1 ++ l2) (with_registry (FaultRegistry.alter ActiveFault.deactivate kind) e))
| step_shutdown : en_running e = true → step e (shutdown e).
End engine.
End ChaosEngine.

(** ** The tasks and the flags *)

Import FaultRegistry ChaosEngine.

Lemma get_alter f k k' r :
  get_fault k' (alter f k r) = if decide (k = k') then f (get_fault k' r) else get_fault k' r.
Proof. by destruct k, k'. Qed.

Lemma kind_text_inj k k' : kind_text k = kind_text k' → k = k'.
Proof. by destruct k, k'. Qed.

Definition active (k : FaultKind) (e : Engine) : bool := af_active (get_fault k (en_registry e)).
Definition tasks_of (k : FaultKind) (ts : list (FaultKind * Z)) : list (FaultKind * Z) :=
  filter (λ t, t.1 = k) ts.

Lemma should_fault_active k e : should_fault k (en_registry e) = enabled (en_registry e) && active k e.
Proof. unfold should_fault, is_enabled, active. destruct (enabled _); [|done]. by destruct k. Qed.

Section runs.
Context (random : nat → f64) (schedule : list FaultConfig).

(** A fault is on as long as one task sleeps that will switch it off; the
    report counts what the faults count. *)
Record chaos_inv (e : Engine) : Prop := {
  ci_tasks k : en_running e = true → length (tasks_of k (en_tasks e)) = if active k e then 1%nat else 0%nat;
  ci_stopped k : en_running e = false → active k e = false;
  ci_scheduled k : active k e = true → ∃ c, c ∈ schedule ∧ fc_kind c = k;
  ci_deadline k t : (k, t) ∈ en_tasks e →
    ∃ c, c ∈ schedule ∧ fc_kind c = k ∧ 0 < fc_duration c ∧ t ≤ en_now e + fc_duration c;
  ci_report k : af_triggered_count (get_fault k (en_registry e)) = default 0 (en_report e !! kind_text k);
}.

Lemma start_inv v t : chaos_inv (start v FaultRegistry.new t).
Proof.
  unfold start. destruct (is_chaos_enabled v); simpl; split; simpl; try done;
    try (by intros []); try (by intros [] ?); try (by intros ? ? ?%not_elem_of_nil).
Qed.

Lemma tasks_of_app k l1 l2 : tasks_of k (l1 ++ l2) = tasks_of k l1 ++ tasks_of k l2.
Proof. apply filter_app. Qed.
Lemma tasks_of_cons k k' t l : tasks_of k ((k', t) :: l) = if decide (k' = k) then (k', t) :: tasks_of k l else tasks_of k l.
Proof. unfold tasks_of. by rewrite filter_cons. Qed.

Lemma consider_inv e c : c ∈ schedule → en_running e = true → chaos_inv e →
  chaos_inv (consider random e c) ∧ en_running (consider random e c) = true.
Proof.
  intros Hc Hrun [T S D L R]. unfold consider, ActiveFault.is_active.
  destruct (af_active _) eqn:Hoff; [by split|].
  destruct (f64_gt _ _); [|split; [by split|done]].
  assert (∀ k, length (tasks_of k (en_tasks e)) = if active k e then 1%nat else 0%nat) as T' by auto.
  specialize (T' (fc_kind c)) as Tc. unfold active in Tc. rewrite Hoff in Tc.
  assert (∀ k, af_triggered_count (get_fault k (alter ActiveFault.activate (fc_kind c) (en_registry e)))
             = default 0 (ChaosReport.record_activation (fc_kind c) (en_report e) !! kind_text k)) as R'.
  { intros k. rewrite get_alter. unfold ChaosReport.record_activation. case_decide as Hk; subst.
    - rewrite lookup_insert_eq. simpl. by rewrite R.
    - rewrite lookup_insert_ne by (intros Heq%kind_text_inj; congruence). apply R. }
  destruct (Z.ltb_spec 0 (fc_duration c)).
  - split; [|done]. split; unfold active in *; simpl in *; try done.
    + intros k _. rewrite tasks_of_app, length_app, tasks_of_cons, get_alter, T'.
      case_decide as Hk; subst; simpl; [|by rewrite Nat.add_0_r]. by rewrite Hoff.
    + intros k. by rewrite Hrun.
    + intros k. rewrite get_alter. case_decide as Hk; subst; eauto.
    + intros k t [Hin|[= -> ->]%list_elem_of_singleton]%elem_of_app; [eauto|].
      exists c. split_and!; done.
  - split; [|done]. split; unfold active in *; simpl in *; try done.
    + intros k _. rewrite !get_alter, T'. case_decide as Hk; subst; simpl; [|done]. by rewrite Hoff.
    + intros k. by rewrite Hrun.
    + intros k. rewrite !get_alter. case_decide as Hk; subst; [done|eauto].
    + intros k. specialize (R' k). rewrite get_alter in R'. rewrite !get_alter. by case_decide.
Qed.

Lemma tick_inv e : en_running e = true → chaos_inv e → chaos_inv (tick random schedule e).
Proof.
  intros Hrun Hinv. unfold tick.
  assert (∀ l, l ⊆ schedule → ∀ e, en_running e = true → chaos_inv e → chaos_inv (foldl (consider random) e l)) as H.
  { induction l as [|c l IH]; [done|]. intros Hl e0 Hr Hi. simpl.
    destruct (consider_inv e0 c) as [? ?]; [set_solver|done..|]. apply IH; [set_solver|done..]. }
  by apply H.
Qed.

Lemma get_shutdown k r l :
  get_fault k (foldl (λ r config, alter ActiveFault.deactivate (fc_kind config) r) r l)
    = if decide (k ∈ fc_kind <$> l) then ActiveFault.deactivate (get_fault k r) else get_fault k r.
Proof.
  revert r. induction l as [|c l IH]; intros r; [done|]. simpl. rewrite IH, get_alter.
  repeat case_decide; subst; set_solver.
Qed.

Lemma shutdown_inv e : chaos_inv e → chaos_inv (shutdown schedule e).
Proof.
  intros [T S D L R]. split; unfold active in *; simpl; try done.
  - intros k _. rewrite get_shutdown. case_decide as Hk; [done|].
    destruct (af_active _) eqn:Ha; [|done]. apply D in Ha as (c & Hc & <-). destruct Hk. by apply list_elem_of_fmap_2.
  - intros k. rewrite get_shutdown. case_decide; [done|apply D].
  - intros k. rewrite get_shutdown. case_decide; apply R.
Qed.

Lemma chaos_step e e' : step random schedule e e' → chaos_inv e → chaos_inv e'.
Proof.
  intros Hstep Hinv. destruct Hstep as [Hr|d Hd|l1 k t l2 Hts Ht|Hr].
  - by apply tick_inv.
  - destruct Hinv as [T S D L R]. split; unfold active in *; simpl; try done.
    intros k t (c & ? & ? & ? & ?)%L. exists c. split_and!; [done..|lia].
  - destruct Hinv as [T S D L R]. split; unfold active in *; simpl; try done.
    + intros k' Hrun. rewrite get_alter. specialize (T k' Hrun).
      rewrite Hts, !tasks_of_app, !length_app, tasks_of_cons in *.
      case_decide as Hk; subst; simpl in *; [|done]. destruct (af_active _); lia.
    + intros k' Hrun. rewrite get_alter. case_decide; [done|auto].
    + intros k'. rewrite get_alter. case_decide; [done|auto].
    + intros k' t' Hin. apply L. rewrite Hts. set_solver.
    + intros k'. rewrite get_alter. case_decide; apply R.
  - by apply shutdown_inv.
Qed.

Lemma tick_running e : en_running (tick random schedule e) = en_running e.
Proof.
  unfold tick. generalize schedule. intros l. revert e. induction l as [|c l IH]; intros e; [done|]. simpl. rewrite IH.
  unfold consider. repeat case_match; done.
Qed.
Lemma running_before e e' : step random schedule e e' → en_running e' = true → en_running e = true.
Proof. by intros []. Qed.

Lemma reachable_chaos v t e : rtc (step random schedule) (start v FaultRegistry.new t) e →
  chaos_inv e ∧ (en_running e = true → is_chaos_enabled v = true).
Proof.
  intros Hreach.
  assert (en_running (start v FaultRegistry.new t) = true → is_chaos_enabled v = true) as H0.
  { unfold start. by destruct (is_chaos_enabled v). }
  pose proof (start_inv v t) as Hi. revert H0 Hi. induction Hreach as [e|e1 e2 e3 Hs _ IH]; [auto|].
  intros H0 Hi. apply IH; [eauto using running_before|by eapply chaos_step].
Qed.


(** A fault that the schedule gives no duration never fires: it is off
    again before the tick is over. *)
Theorem instant_faults_never_fire v t e k :
  rtc (step random schedule) (start v FaultRegistry.new t) e →
  (∀ c, c ∈ schedule → fc_kind c = k → fc_duration c ≤ 0) →
  should_fault k (en_registry e) = false.
Proof.
  intros [[T S D L R] _]%reachable_chaos Hinst. rewrite should_fault_active.
  destruct (active k e) eqn:Hact; [|apply andb_false_r].
  destruct (en_running e) eqn:Hrun; [|by rewrite S in Hact].
  specialize (T k eq_refl). rewrite Hact in T.
  destruct (tasks_of k (en_tasks e)) as [|[k' dl] l] eqn:Htk; [done|].
  assert ((k', dl) ∈ tasks_of k (en_tasks e)) as Hin by (rewrite Htk; set_solver).
  apply list_elem_of_filter in Hin as [Hk (c & Hc & Hck & Hpos & _)%L]. simpl in Hk. subst k'.
  specialize (Hinst c Hc Hck). lia.
Qed.
End runs.

(** ** The default schedule *)

Module ChaosExample.
(** The first number is below the probability of the first fault, the others
    below none. *)
Definition random (n : nat) : f64 := match n with O => f64_lit 1 100 | _ => f64_lit 1 2 end.
Definition begun : Engine := start (Some "TRUE"%string) FaultRegistry.new 100.
Definition after_tick : Engine := tick random default_schedule begun.
Lemma begun_ticks : rtc (step random default_schedule) begun after_tick.
Proof. apply rtc_once, step_tick. done. Qed.
End ChaosExample.
Import ChaosExample.


Lemma instant_faults_never_fire_witness :
  should_fault ChainReorg (en_registry after_tick) = false.
Proof.
  apply (instant_faults_never_fire random default_schedule (Some "TRUE"%string) 100); [exact begun_ticks|].
  intros c Hc. unfold default_schedule in Hc.
  repeat (apply elem_of_cons in Hc as [-> |Hc]; [done|]). by apply not_elem_of_nil in Hc.
Defined.
