(* ===== verification/Pipeline.v ===== *)
(** * The platform at work: the loops of [src/src/engine/*.rs],
      [src/src/workers/{intent_expiry,stop_order_monitor}.rs] and
      [src/src/settlement/{worker,retry}.rs] around the services

    The calls of users, the two engines that listen to the event bus, the tasks
    they spawn and the workers share the database and interleave in any order.
    A step is one call, one message, one half of an auction (the bids arrive
    between the two), one execution or one cycle of a worker; within a step the
    clock stands still, between steps time passes and any calls of the next
    steps can be made to fail.  Redis delivers the messages of a channel in
    order to a connected subscriber; JSON reads back what it wrote. *)
From stdpp Require Import gmap.
From S2P Require Import Prelude Monad Float64 Triples Model Ledger Balances Fees Solvers Settlement Storage Markets.
From S2P Require Import Oracle Risk Auction Intents RiskCorrect IntentsCorrect Workers SettlementCorrect WorkersCorrect.
Open Scope Z_scope.

(** What users and the TWAP scheduler ask of the services of intents and bids. *)
Inductive Call :=
| CallCreate (user_id : string) (account_id : Uuid) (token_in token_out : string) (amount_in min_amount_out deadline : Z)
| CallAmend (intent_id account_id : Uuid) (amount_in min_amount_out limit_price : option Z)
| CallCancel (intent_id account_id : Uuid)
| CallFail (intent_id account_id : Uuid)
| CallBid (intent_id : Uuid) (solver_id : string) (amount_out fee : Z).

Module Pipeline.
(** [w_auction_reader], [w_execution_reader]: how many messages of the bus the
    two engines have received; [w_started]: auctions spawned, [w_open]: auctions
    that wait for bids until a time, [w_matched]: executions spawned. *)
Record World := mkWorld {
  w_env : Env CoreDb;
  w_auction_reader : nat;
  w_execution_reader : nat;
  w_started : list Uuid;
  w_open : list (Uuid * Z);
  w_matched : list Uuid;
}.
Definition db (w : World) : CoreDb := env_db (w_env w).
Definition with_env (e : Env CoreDb) (w : World) : World :=
  mkWorld e (w_auction_reader w) (w_execution_reader w) (w_started w) (w_open w) (w_matched w).
Definition run {A E} (m : M CoreDb A E) (w : World) : World := with_env (snd (m (w_env w))) w.

Section pipeline.
Context `{SqlxDisplay, F64Display, UuidText, NumericDecode}.
Context (config : Settings) (has_cache : bool) (auction_duration_secs : Z).

Definition perform (c : Call) : M CoreDb unit unit :=
  match c with
  | CallCreate user_id account_id token_in token_out amount_in min_amount_out deadline =>
      attempt (IntentService.create_intent config has_cache user_id account_id token_in token_out amount_in
                 min_amount_out deadline) ;;; ret tt
  | CallAmend intent_id account_id amount_in min_amount_out limit_price =>
      attempt (IntentService.amend_intent intent_id account_id amount_in min_amount_out limit_price) ;;; ret tt
  | CallCancel intent_id account_id => attempt (IntentService.cancel_intent intent_id account_id) ;;; ret tt
  | CallFail intent_id account_id => attempt (IntentService.fail_intent intent_id account_id) ;;; ret tt
  | CallBid intent_id solver_id amount_out fee =>
      attempt (BidService.submit_bid config has_cache intent_id solver_id amount_out fee) ;;; ret tt
  end.

(** The loop of [AuctionEngine::start] takes the next message.  It subscribes to
    one channel: messages of the others pass it by. *)
Definition receive_auction (w : World) : option World :=
  match event_bus (db w) !! w_auction_reader w with
  | Some (IntentCreated intent) =>
      Some (mkWorld (w_env w) (S (w_auction_reader w)) (w_execution_reader w) (w_started w ++ [i_id intent]) (w_open w)
              (w_matched w))
  | Some _ =>
      Some (mkWorld (w_env w) (S (w_auction_reader w)) (w_execution_reader w) (w_started w) (w_open w) (w_matched w))
  | None => None
  end.
(** .. and so does that of [ExecutionEngine::start]. *)
Definition receive_execution (w : World) : option World :=
  match event_bus (db w) !! w_execution_reader w with
  | Some (IntentMatched intent _) =>
      Some (mkWorld (w_env w) (w_auction_reader w) (S (w_execution_reader w)) (w_started w) (w_open w)
              (w_matched w ++ [i_id intent]))
  | Some _ =>
      Some (mkWorld (w_env w) (w_auction_reader w) (S (w_execution_reader w)) (w_started w) (w_open w) (w_matched w))
  | None => None
  end.

(** The task of an auction up to its sleep: an error of Redis ends it. *)
Definition opened (rest : list Uuid) (intent_id : Uuid) (w : World) : World :=
  match Auction.open_auction intent_id (w_env w) with
  | (Ok _, e) =>
      mkWorld e (w_auction_reader w) (w_execution_reader w) rest
        (w_open w ++ [(intent_id, env_now e + auction_duration_secs)]) (w_matched w)
  | (Err _, e) => mkWorld e (w_auction_reader w) (w_execution_reader w) rest (w_open w) (w_matched w)
  end.
(** .. and after it; [get_bids] is for the metrics. *)
Definition closed (rest : list (Uuid * Z)) (intent_id : Uuid) (w : World) : World :=
  let w := run (Storage.get_bids (E := RedisError) intent_id ;;; Auction.close_auction intent_id) w in
  mkWorld (w_env w) (w_auction_reader w) (w_execution_reader w) (w_started w) rest (w_matched w).
Definition executed (rest : list Uuid) (intent_id : Uuid) (w : World) : World :=
  let w := run (ExecutionEngine.execute_fills intent_id) w in
  mkWorld (w_env w) (w_auction_reader w) (w_execution_reader w) (w_started w) (w_open w) rest.

(** One turn of the loops of the two timed workers; errors are logged. *)
Definition expiry_cycle : M CoreDb unit SqlxError := attempt IntentExpiry.expire_batch ;;; ret tt.
Definition stop_cycle : M CoreDb unit SqlxError := attempt StopOrderMonitor.check_stop_orders ;;; ret tt.

Inductive step (w : World) : World → Prop :=
| p_call c : step w (run (perform c) w)
| p_receive_auction w' : receive_auction w = Some w' → step w w'
| p_receive_execution w' : receive_execution w = Some w' → step w w'
| p_open l1 id l2 : w_started w = l1 ++ id :: l2 → step w (opened (l1 ++ l2) id w)
| p_close l1 id t l2 : w_open w = l1 ++ (id, t) :: l2 → t ≤ env_now (w_env w) → step w (closed (l1 ++ l2) id w)
| p_execute l1 id l2 : w_matched w = l1 ++ id :: l2 → step w (executed (l1 ++ l2) id w)
| p_expire : step w (run expiry_cycle w)
| p_stop : step w (run stop_cycle w)
| p_settle latency_ms event : StreamExecutionCompleted event ∈ stream_bus (db w) →
    step w (run (Worker.process_event (E := unit) latency_ms (Some event)) w)
| p_retry : step w (run RetryWorker.run_retry_cycle w)
| p_outside faults d : 0 ≤ d →
    step w (with_env (mkEnv (db w) faults (env_uuid (w_env w)) (env_drawn (w_env w)) (env_now (w_env w) + d)) w).
End pipeline.
End Pipeline.

(** ** What no step of the platform changes *)

(** The tables the statements below are about. *)
Record Rows := mkRows {
  ro_accounts : list Account; ro_balances : list Balance; ro_ledger : list LedgerEntry; ro_intents : list Intent;
  ro_bids : list SolverBid; ro_fills : list Fill; ro_executions : list Execution; ro_stream : list StreamMsg;
  ro_failed : list FailedSettlement;
}.
Definition rows (d : CoreDb) : Rows :=
  mkRows (accounts d) (balances d) (ledger_entries d) (intents d) (bids d) (fills d) (executions d) (stream_bus d)
    (failed_settlements d).

(** What every account has of every asset, available and locked together. *)
Definition holdings (bs : list Balance) : list (Uuid * Asset * Z) :=
  (λ b, (b_account_id b, b_asset b, b_available_balance b + b_locked_balance b)) <$> bs.
Definition ids (l : list Intent) : list Uuid := i_id <$> l.

(** Rows in good order: intents have ids of their own, and bids, fills and
    executions are of an intent that is there; a fill takes a positive quantity
    of its bid's at most. *)
Record well_formed (r : Rows) : Prop := {
  wf_ids : NoDup (ids (ro_intents r));
  wf_bids b : b ∈ ro_bids r → bid_intent_id b ∈ ids (ro_intents r);
  wf_fills f : f ∈ ro_fills r → f_intent_id f ∈ ids (ro_intents r) ∧ 0 < f_filled_qty f ≤ f_qty f;
  wf_executions x : x ∈ ro_executions r → x_intent_id x ∈ ids (ro_intents r);
}.
(** Nothing has been settled, and nothing is asked for that can be. *)
Record unsettled (r : Rows) : Prop := {
  us_fills f : f ∈ ro_fills r → f_settled f = false;
  us_accounts a : a ∈ ro_accounts r → a_id a ≠ nil_uuid;
  us_balances b : b ∈ ro_balances r → b_account_id b ≠ nil_uuid;
  us_requests ev : StreamExecutionCompleted ev ∈ ro_stream r → ev_seller_account_id ev = nil_uuid;
  us_failed s : s ∈ ro_failed r → is_Some (fs_fill_id s);
}.

(** [known] are ids of intents that are there: none is ever deleted. *)
Record good (known : list Uuid) (hs : list (Uuid * Asset * Z)) (ls : list LedgerEntry) (r : Rows) : Prop := {
  gd_wf : well_formed r;
  gd_unsettled : unsettled r;
  gd_holdings : holdings (ro_balances r) = hs;
  gd_ledger : ro_ledger r = ls;
  gd_known : known ⊆ ids (ro_intents r);
}.

Definition in_order (known : list Uuid) (hs : list (Uuid * Asset * Z)) (ls : list LedgerEntry) (d : CoreDb) : Prop :=
  good known hs ls (rows d).

Section statements.
Context (known : list Uuid) (hs : list (Uuid * Asset * Z)) (ls : list LedgerEntry).
#[local] Abbreviation P := (in_order known hs ls).

Lemma ids_update p f l : (∀ r, i_id (f r) = i_id r) → ids (sql_update p f l) = ids l.
Proof.
  intros Hf. unfold ids, sql_update. rewrite <- list_fmap_compose. apply list_fmap_ext. intros ? r _. simpl.
  by destruct (p r).
Qed.

(** The balances may shift between available and locked. *)
Lemma good_balances d bs :
  holdings bs = holdings (balances d) → P d → P (set_balances bs d).
Proof.
  intros Hb [W [F A B R S] Hh Hl K]. split; [by destruct W; split| |by simpl; rewrite Hb|done|done].
  split; simpl in *; try done. intros b Hin.
  assert (b_account_id b ∈ (fst ∘ fst) <$> holdings bs) as Ha.
  { apply list_elem_of_fmap. eexists. split; [|apply (list_elem_of_fmap_2 _ _ _ Hin)]. done. }
  rewrite Hb in Ha. apply list_elem_of_fmap in Ha as (? & -> & (b' & -> & Hb')%list_elem_of_fmap). by apply B.
Qed.

Lemma shift_holdings sel da dl t bs bs' :
  da + dl = 0 → sql_try_update sel (add_to_row da dl t) bs = Some bs' → holdings bs' = holdings bs.
Proof.
  intros Hz H. eapply sql_try_update_Some in H; [|apply add_to_row_Some]. subst bs'.
  unfold holdings, sql_update. rewrite <- list_fmap_compose. apply list_fmap_ext. intros ? r _. simpl.
  destruct (sel r); [|done]. simpl. f_equal. lia.
Qed.

Lemma shift_maintains {A} sel da dl t (a : A) :
  da + dl = 0 →
  maintains P (stmt (λ d, bs ← sql_try_update sel (add_to_row da dl t) (balances d); Some (a, set_balances bs d))).
Proof.
  intros Hz. apply triple_stmt. intros d x d' Hd (bs & Hbs & [= <- <-])%bind_Some. split; [|done].
  eapply good_balances; [|exact Hd]. by eapply shift_holdings.
Qed.

Lemma good_update_intents p f d : (∀ r, i_id (f r) = i_id r) → P d → P (set_intents (sql_update p f (intents d)) d).
Proof.
  intros Hf [[W1 W2 W3 W4] U Hh Hl K]. pose proof (ids_update p f (intents d) Hf) as E.
  split; [|by destruct U; split|done|done|simpl; by rewrite E].
  split; simpl; rewrite ?E; try done; intros r Hr; rewrite E; auto.
Qed.
Lemma update_intents_maintains p f : (∀ r, i_id (f r) = i_id r) →
  maintains P (exec (λ d, set_intents (sql_update p f (intents d)) d)).
Proof. intros Hf. apply triple_exec. intros d. by apply good_update_intents. Qed.

Lemma good_insert_intent i d : i_id i ∉ ids (intents d) → P d → P (set_intents (intents d ++ [i]) d).
Proof.
  intros Hi [[W1 W2 W3 W4] U Hh Hl K].
  assert (ids (intents d) ⊆ ids (intents d ++ [i])) as Hsub by (unfold ids; rewrite fmap_app; set_solver).
  split; [split; simpl in *|by destruct U; split|done|done|simpl in *; set_solver].
  - unfold ids in *. rewrite fmap_app. apply NoDup_app. split_and!; [done| |apply NoDup_singleton].
    intros u Hu ->%list_elem_of_singleton. done.
  - intros b Hb. by apply Hsub, W2.
  - intros f Hf. destruct (W3 f Hf). auto.
  - intros x Hx. by apply Hsub, W4.
Qed.
Lemma fresh_id (i : Intent) l : existsb (λ r, (i_id r =? i_id i)%N) l = false → i_id i ∉ ids l.
Proof.
  intros Hno (r & Heq & Hr)%list_elem_of_fmap. apply not_true_iff_false in Hno. apply Hno, existsb_exists.
  exists r. split; [by apply list_elem_of_In|]. rewrite Heq. apply N.eqb_refl.
Qed.

Lemma bus_maintains ev : maintains P (EventBus.publish ev).
Proof. apply triple_map_err, triple_exec. intros d Hd. exact Hd. Qed.

Lemma good_stream msg d :
  (∀ ev, msg = StreamExecutionCompleted ev → ev_seller_account_id ev = nil_uuid) →
  P d → P (set_stream_bus (stream_bus d ++ [msg]) d).
Proof.
  intros Hm [W [F A B R S] Hh Hl K]. split; [by destruct W; split| |done|done|done].
  split; simpl in *; try done. intros ev [Hin|Hin%list_elem_of_singleton]%elem_of_app; [by apply R|by apply Hm].
Qed.
Lemma stream_exec_maintains msg :
  (∀ ev, msg = StreamExecutionCompleted ev → ev_seller_account_id ev = nil_uuid) →
  maintains P (exec (λ d, set_stream_bus (stream_bus d ++ [msg]) d)).
Proof. intros Hm. apply triple_exec. intros d. by apply good_stream. Qed.
Lemma stream_maintains msg :
  (∀ ev, msg = StreamExecutionCompleted ev → ev_seller_account_id ev = nil_uuid) → maintains P (StreamBus.publish msg).
Proof. intros Hm. by apply triple_map_err, stream_exec_maintains. Qed.

Lemma insert_bid_maintains b : maintains P (Storage.insert_bid b).
Proof.
  apply triple_stmt. intros d a d' [[W1 W2 W3 W4] U Hh Hl K] Hd. split; [|done].
  destruct (existsb _ (bids d)); [done|]. destruct (existsb _ (intents d)) eqn:Hex; [|done]. injection Hd as <- <-.
  split; [split; simpl in *; try done|by destruct U; split|done|done|done].
  intros b' [Hb| ->%list_elem_of_singleton]%elem_of_app; [by apply W2|].
  apply existsb_exists in Hex as (i & Hi & Heq%N.eqb_eq). rewrite <- Heq.
  apply list_elem_of_fmap_2. by apply list_elem_of_In.
Qed.

Lemma insert_fill_maintains f :
  f_intent_id f ∈ known → 0 < f_filled_qty f ≤ f_qty f → f_settled f = false → maintains P (Storage.insert_fill f).
Proof.
  intros Hk Hq Hs. apply triple_exec. intros d [[W1 W2 W3 W4] [F A B R S] Hh Hl K].
  split; [split; simpl in *; try done|split; simpl in *; try done|done|done|done].
  - intros f' [Hf| ->%list_elem_of_singleton]%elem_of_app; [by apply W3|]. split; [by apply K|done].
  - intros f' [Hf| ->%list_elem_of_singleton]%elem_of_app; [by apply F|done].
Qed.

Lemma insert_execution_maintains x : x_intent_id x ∈ known → maintains P (Storage.insert_execution x).
Proof.
  intros Hk. apply triple_exec. intros d [[W1 W2 W3 W4] U Hh Hl K].
  split; [split; simpl in *; try done|by destruct U; split|done|done|done].
  intros x' [Hx| ->%list_elem_of_singleton]%elem_of_app; [by apply W4|by apply K].
Qed.
Lemma update_execution_maintains x : maintains P (Storage.update_execution x).
Proof.
  apply triple_exec. intros d [[W1 W2 W3 W4] U Hh Hl K].
  split; [split; simpl in *; try done|by destruct U; split|done|done|done].
  intros x' (r & Hr & ->)%elem_of_sql_update. specialize (W4 r Hr). by destruct (_ =? _)%N.
Qed.

Lemma good_failed ss d : (∀ s, s ∈ ss → is_Some (fs_fill_id s)) → P d → P (set_failed_settlements ss d).
Proof.
  intros Hs [W [F A B R S] Hh Hl K]. split; [by destruct W; split| |done|done|done]. by split; simpl in *.
Qed.

(** What touches none of the tables keeps them as they are. *)
Lemma keeps_rows_maintains {A E} (m : M CoreDb A E) : keeps rows m → maintains P m.
Proof. apply triple_keeps. unfold in_order. by intros d d' ->. Qed.
End statements.

#[export] Hint Resolve bus_maintains insert_bid_maintains update_execution_maintains : maintain.
#[export] Hint Extern 1 (triple _ _ (stmt _)) => apply shift_maintains; lia : maintain.
#[export] Hint Extern 1 (triple _ _ (exec _)) =>
  first [apply update_intents_maintains; done|apply stream_exec_maintains; done] : maintain.
#[export] Hint Extern 1 (triple _ _ (StreamBus.publish _)) => apply stream_maintains; by first [done|intros ? [= <-]] : maintain.

(** ** Every operation keeps the rows in order *)
Section operations.
Context `{SqlxDisplay, F64Display, UuidText, NumericDecode}.
Context (config : Settings) (has_cache : bool) (known : list Uuid) (hs : list (Uuid * Asset * Z)) (ls : list LedgerEntry).
#[local] Abbreviation P := (in_order known hs ls).
#[local] Abbreviation P' id := (in_order (id :: known) hs ls).

Lemma good_known id d : id ∈ ids (intents d) → P d → P' id d.
Proof. intros Hid [W U Hh Hl K]. split; [done..|]. simpl in *. set_solver. Qed.
Lemma good_unknown id d : P' id d → P d.
Proof. intros [W U Hh Hl K]. split; [done..|]. simpl in *. set_solver. Qed.

(** After an intent has been read, it is known to be there. *)
Lemma known_intent {B E} id (k : option Intent → M CoreDb B E) :
  maintains P (k None) → (∀ i, i_id i = id → maintains (P' id) (k (Some i))) →
  maintains P (bind (Storage.get_intent id) k).
Proof.
  intros HN HS e He. split; [|done]. unfold bind.
  destruct (Storage.get_intent id e) as [[o|x] e1] eqn:Hg.
  - apply get_intent_Ok in Hg as [Hdb Ho]. destruct o as [i|]; [|apply HN; by rewrite Hdb].
    destruct Ho as [Ho|]; [|done]. symmetry in Ho. apply sql_one_Some in Ho as [Hin Hid%N.eqb_eq].
    apply (good_unknown id). apply (HS i Hid). rewrite Hdb. apply good_known; [|done].
    rewrite <- Hid. by apply list_elem_of_fmap_2.
  - unfold Storage.get_intent, bind, attempt, query, stmt in Hg. by destruct (faulty e).
Qed.

Lemma validate_intent_maintains p : maintains P (RiskEngine.validate_intent config has_cache p).
Proof. apply keeps_rows_maintains, (keeps_via risk_frame _ rows); [done|apply validate_intent_keeps]. Qed.
Lemma record_accepted_maintains {E} uid n : maintains P (RiskEngine.record_accepted_intent (E := E) uid n).
Proof. apply keeps_rows_maintains, (keeps_via risk_frame _ rows); [done|apply record_accepted_keeps]. Qed.
Lemma validate_bid_maintains tin tout out fee n :
  maintains P (RiskEngine.validate_bid config has_cache tin tout out fee n).
Proof. apply keeps_rows_maintains, (keeps_via risk_frame _ rows); [done|apply validate_bid_keeps]. Qed.
Lemma get_bids_maintains {E} id : maintains P (Storage.get_bids (E := E) id).
Proof. apply keeps_rows_maintains. unfold Storage.get_bids. keeps. Qed.
Lemma get_intent_maintains {E} id : maintains P (Storage.get_intent (E := E) id).
Proof. apply keeps_rows_maintains. unfold Storage.get_intent. keeps. Qed.
Lemma move_maintains acc a n m t : n + m = 0 → maintains P (IntentService.move_balance acc a n m t).
Proof. intros Hz. by apply triple_map_err, shift_maintains. Qed.
Lemma insert_new_maintains i : maintains P (IntentService.insert_new i).
Proof.
  apply triple_map_err, triple_stmt. intros d u d' Hd Hs. split; [|done].
  destruct (existsb _ _) eqn:Hex; [done|]. injection Hs as <- <-. apply good_insert_intent; [|done].
  by apply fresh_id.
Qed.
#[local] Hint Resolve validate_intent_maintains record_accepted_maintains validate_bid_maintains get_bids_maintains
  get_intent_maintains insert_new_maintains : maintain.
#[local] Hint Extern 1 (triple _ _ (IntentService.move_balance _ _ _ _ _)) => apply move_maintains; lia : maintain.

Lemma create_maintains uid acc tin tout ain mout dl :
  maintains P (IntentService.create_intent config has_cache uid acc tin tout ain mout dl).
Proof.
  unfold IntentService.create_intent, IntentService.parse_asset, Intent_new, IntentService.create_tx,
    IntentService.available_for_update, IntentService.publish. maintain.
Qed.
Lemma amend_maintains id acc na nm nl : maintains P (IntentService.amend_intent id acc na nm nl).
Proof.
  unfold IntentService.amend_intent, IntentService.amend_tx, IntentService.parse_asset, IntentService.adjust_lock,
    IntentService.record_amendment, IntentService.available_for_update, IntentService.publish. maintain.
  all: apply keeps_rows_maintains; keeps.
Qed.
Lemma close_maintains status event id acc : maintains P (IntentService.close_intent status event id acc).
Proof.
  unfold IntentService.close_intent, IntentService.parse_asset, IntentService.set_status, IntentService.publish. maintain.
Qed.
Lemma bid_maintains id sid out fee : maintains P (BidService.submit_bid config has_cache id sid out fee).
Proof. unfold BidService.submit_bid, SolverBid_new. maintain. Qed.

Lemma perform_maintains c : maintains P (Pipeline.perform config has_cache c).
Proof.
  destruct c; apply triple_ignore; [apply create_maintains|apply amend_maintains|apply close_maintains..|].
  apply bid_maintains.
Qed.

Lemma open_maintains id : maintains P (Auction.open_auction id).
Proof. unfold Auction.open_auction, Storage.update_intent. maintain. Qed.

Lemma execution_of {E} id sid tx :
  triple P (λ x, x_intent_id x = id) (Execution_new (E := E) id sid tx).
Proof. by intros e He; split; [|intros x [= <-]]. Qed.
Lemma execute_fill_maintains i id buyer f :
  id ∈ known → maintains P (ExecutionEngine.execute_fill i id buyer f).
Proof.
  intros Hid. unfold ExecutionEngine.execute_fill. apply maintains_bind; [apply triple_new_v4|]. intros h.
  eapply triple_bind; [apply execution_of|]. intros x Hx. simpl in Hx.
  apply maintains_bind; [|intros _; maintain].
  apply maintains_attempt, insert_execution_maintains. by rewrite <- Hx in Hid.
Qed.

Lemma expire_maintains : maintains P IntentExpiry.expire_batch.
Proof.
  unfold IntentExpiry.expire_batch, IntentExpiry.expire_intent, IntentExpiry.expire_tx, IntentExpiry.unlock. maintain.
Qed.
Lemma stop_maintains : maintains P StopOrderMonitor.check_stop_orders.
Proof.
  unfold StopOrderMonitor.check_stop_orders, StopOrderMonitor.check_stop_order. maintain.
  apply triple_stmt. intros d n d' Hd [= <- <-]. split; [|done]. by apply good_update_intents.
Qed.

(** The fills of a matching are for its intent, positive and unsettled. *)
Definition fill_for (id : Uuid) (f : Fill) : Prop :=
  f_intent_id f = id ∧ 0 < f_filled_qty f ≤ f_qty f ∧ f_settled f = false.
Lemma fill_loop_fills {E} i r bs :
  triple P (λ fs, ∀ f, f ∈ fs → fill_for (i_id i) f) (Auction.fill_loop (E := E) i r bs).
Proof.
  revert r. induction bs as [|b bs IH]; intros r; simpl; [by apply triple_ret; intros ? ?%not_elem_of_nil|].
  destruct (Z.leb_spec r 0); [by apply triple_ret; intros ? ?%not_elem_of_nil|].
  destruct (Z.leb_spec (r `min` Auction.net_value b) 0) as [|Hpos]; [apply IH|].
  apply (triple_bind _ (fill_for (i_id i))).
  { intros e He. split; [done|]. intros f [= <-]. split_and!; simpl; [done|lia..|done]. }
  intros f Hf. eapply triple_bind; [apply IH|]. intros fs Hfs. apply triple_ret.
  intros f' [->|Hin]%elem_of_cons; [done|by apply Hfs].
Qed.
Lemma insert_fills_maintains {E} id fs :
  id ∈ known → (∀ f, f ∈ fs → fill_for id f) →
  maintains P (mfor fs (λ f, attempt (F := E) (Storage.insert_fill f) ;;; ret tt)).
Proof.
  intros Hid Hfs. apply triple_mfor. intros f Hin. destruct (Hfs f Hin) as (Hf & Hq & Hs).
  apply triple_ignore, insert_fill_maintains; [by rewrite Hf|done..].
Qed.
End operations.

(** Recording a failed fill is for the statistics alone. *)
Lemma failed_fill_frame sid : keeps (set_solver_stats []) (Stats.record_failed_fill sid).
Proof.
  apply keeps_stmt. intros d u d' Hd.
  destruct (existsb _ _); [|destruct (existsb _ _); [|done]]; apply bind_Some in Hd as (? & _ & Hd); by simplify_eq.
Qed.

Section engines.
Context `{SqlxDisplay, F64Display, UuidText, NumericDecode}.
Context (config : Settings) (has_cache : bool) (known : list Uuid) (hs : list (Uuid * Asset * Z)) (ls : list LedgerEntry).
#[local] Abbreviation P := (in_order known hs ls).
#[local] Hint Resolve get_bids_maintains get_intent_maintains : maintain.

Lemma close_auction_maintains id : maintains P (Auction.close_auction id).
Proof.
  unfold Auction.close_auction. apply known_intent; [maintain|]. intros i Hi.
  unfold Auction.sort_bids_by_price, Auction.generate_partial_fills, Storage.update_intent.
  apply maintains_bind; [maintain|]. intros bids. destruct (Auction.filter_bids_for_order_type i bids); [maintain|].
  eapply triple_bind; [apply fill_loop_fills|]. intros fs Hfs. rewrite Hi in Hfs. apply maintains_bind.
  - apply (insert_fills_maintains _ _ _ id); [by left|done].
  - intros _. maintain.
Qed.

Lemma execute_maintains id : maintains P (ExecutionEngine.execute_fills id).
Proof.
  unfold ExecutionEngine.execute_fills. apply maintains_bind; [unfold Storage.get_fills; maintain|]. intros [|f fs]; [maintain|].
  apply known_intent; [maintain|]. intros i Hi. unfold ExecutionEngine.resolve_account, Storage.update_intent.
  do 3 (apply maintains_bind; [maintain|intros ?]). apply triple_mfor. intros f' _.
  apply execute_fill_maintains. by left.
Qed.

(** A request of the execution engine settles nothing. *)
Lemma settle_nil_never (R : CoreDb → Prop) lat fid buyer ain aout rate :
  (∀ d, R d → no_nil_account d) → triple R (λ _, False) (Engine.settle_fill lat fid buyer nil_uuid ain aout rate).
Proof.
  intros HR e He. destruct (Engine.settle_fill _ _ _ _ _ _ _ e) as [[u|x] e1] eqn:Hs; simpl.
  - exfalso. apply settle_to_nil_fails in Hs; [done|]. by apply HR.
  - apply settle_fill_rolls_back in Hs. by rewrite Hs.
Qed.
Lemma in_order_no_nil d : P d → no_nil_account d.
Proof. intros [_ [_ A B _ _] _ _ _]. by split. Qed.
Lemma record_fill_failure_maintains fid msg : maintains P (Retry.record_fill_failure fid msg).
Proof.
  unfold Retry.record_fill_failure. maintain. apply triple_exec. intros d Hd. destruct (existsb _ _); [done|].
  apply good_failed; [|done]. destruct Hd as [_ [_ _ _ _ S] _ _ _].
  intros s [Hs| ->%list_elem_of_singleton]%elem_of_app; [by apply S|by eexists].
Qed.
Lemma failed_fill_maintains sid : maintains P (Stats.record_failed_fill sid).
Proof. apply keeps_rows_maintains, (keeps_via (set_solver_stats []) _ rows); [done|apply failed_fill_frame]. Qed.
#[local] Hint Resolve record_fill_failure_maintains failed_fill_maintains : maintain.

Lemma process_event_maintains {E} lat ev :
  ev_seller_account_id ev = nil_uuid → maintains P (Worker.process_event (E := E) lat (Some ev)).
Proof.
  intros Hn. unfold Worker.process_event. rewrite Hn.
  destruct (Worker.parse_asset (ev_token_in ev)), (Worker.parse_asset (ev_token_out ev)); [|maintain..].
  eapply triple_bind; [apply triple_attempt, settle_nil_never, in_order_no_nil|]. intros r Hr. simpl in Hr.
  destruct r as [u|x]; [by destruct (Hr u)|]. unfold Worker.update_intent_status. maintain.
Qed.

Lemma update_failed_maintains sel f :
  (∀ s, fs_fill_id (f s) = fs_fill_id s) →
  maintains P (exec (λ d, set_failed_settlements (sql_update sel f (failed_settlements d)) d)).
Proof.
  intros Hf. apply triple_exec. intros d Hd. apply good_failed; [|done]. destruct Hd as [_ [_ _ _ _ S] _ _ _].
  intros s (r & Hr & ->)%elem_of_sql_update. specialize (S r Hr). destruct (sel r); [by rewrite Hf|done].
Qed.
Lemma delete_failed_maintains id : maintains P (RetryWorker.delete_failed id).
Proof.
  apply triple_exec. intros d Hd. apply good_failed; [|done]. destruct Hd as [_ [_ _ _ _ S] _ _ _].
  intros s Hs. apply S. unfold sql_delete in Hs. apply list_elem_of_In, filter_In in Hs as [Hs _].
  by apply list_elem_of_In.
Qed.
#[local] Hint Resolve delete_failed_maintains : maintain.
Lemma retry_fill_maintains s fid n : maintains P (RetryWorker.retry_fill s fid n).
Proof.
  unfold RetryWorker.retry_fill, RetryWorker.handle_retry_failure, RetryWorker.update_failed. maintain.
  all: by apply update_failed_maintains.
Qed.
Lemma retry_maintains : maintains P RetryWorker.run_retry_cycle.
Proof.
  unfold RetryWorker.run_retry_cycle, RetryWorker.process_retries. apply triple_ignore, maintains_bind; [maintain|]. intros t.
  apply (triple_bind _ (λ l, ∀ s, s ∈ l → is_Some (fs_fill_id s))).
  - apply triple_query. intros d Hd s Hs. destruct Hd as [_ [_ _ _ _ S] _ _ _]. apply S.
    apply subseteq_take in Hs. rewrite sort_by_perm in Hs. by apply elem_of_sql_select in Hs as [? _].
  - intros l Hl. apply triple_mfor. intros s Hs. unfold RetryWorker.retry_entry.
    destruct (Hl s Hs) as [fid ->]. apply retry_fill_maintains.
Qed.

(** No step of the platform does anything else. *)
Lemma step_in_order secs w w' :
  Pipeline.step config has_cache secs w w' → P (Pipeline.db w) → P (Pipeline.db w').
Proof.
  intros Hs Hw. assert (∀ A E (m : M CoreDb A E), maintains P m → P (Pipeline.db (Pipeline.run m w))) as Hm.
  { intros A E m Hm. by apply (Hm (Pipeline.w_env w)). }
  destruct Hs as [c|w' Hr|w' Hr|l1 id l2 _|l1 id t l2 _ _|l1 id l2 _| | |lat ev Hev| |faults d _].
  - by apply Hm, perform_maintains.
  - unfold Pipeline.receive_auction in Hr. destruct (_ !! _) as [[]|]; by simplify_eq.
  - unfold Pipeline.receive_execution in Hr. destruct (_ !! _) as [[]|]; by simplify_eq.
  - unfold Pipeline.opened. destruct (open_maintains known hs ls id (Pipeline.w_env w) Hw) as [Ho _].
    by destruct (Auction.open_auction id _) as [[?|?] ?].
  - apply Hm. apply maintains_bind; [apply get_bids_maintains|]. intros _. apply close_auction_maintains.
  - apply Hm, execute_maintains.
  - apply Hm, triple_ignore, expire_maintains.
  - apply Hm, triple_ignore, stop_maintains.
  - apply Hm, process_event_maintains. destruct Hw as [_ [_ _ _ R _] _ _ _]. by apply R.
  - apply Hm, retry_maintains.
  - done.
Qed.
End engines.

(** An auction that starts makes its intent biddable again, whatever became of
    it in the meantime: one that was cancelled, whose funds have been released,
    can be cancelled once more. *)
Theorem auctions_revive_intents iid i e :
  env_faults e = [] → row_of iid (env_db e) = Some i →
  row_of iid (env_db (snd (Auction.open_auction iid e))) = Some (Engine.with_status IBidding i).
Proof.
  intros Hf Hi. destruct e as [d fl u n t]. simpl in *. subst fl.
  unfold Auction.open_auction, Storage.get_intent, bind, attempt, query, stmt, faulty. simpl.
  unfold row_of in Hi. rewrite Hi. simpl.
  unfold Storage.update_intent, EventBus.publish, map_err, exec, stmt, faulty. simpl. unfold row_of. simpl.
  pose proof (sql_one_Some _ _ _ Hi) as [_ Hid%N.eqb_eq]. unfold sql_update. rewrite sql_one_map.
  - rewrite Hi. simpl. by rewrite N.eqb_refl.
  - intros r. by destruct (i_id r =? i_id i)%N.
Qed.

(** ** The platform as a whole *)
Section platform.
Context `{SqlxDisplay, F64Display, UuidText, NumericDecode}.
Context (config : Settings) (has_cache : bool) (auction_duration_secs : Z).
#[local] Abbreviation steps := (rtc (Pipeline.step config has_cache auction_duration_secs)).

Lemma steps_in_order known hs ls w w' :
  steps w w' → in_order known hs ls (Pipeline.db w) → in_order known hs ls (Pipeline.db w').
Proof. induction 1; [done|]. eauto using step_in_order. Qed.

Lemma good_start r :
  well_formed r → unsettled r → good (ids (ro_intents r)) (holdings (ro_balances r)) (ro_ledger r) r.
Proof. by split. Qed.

(** C6: the rows of the trading tables stay well formed, in whatever order calls,
    auctions, executions and the cycles of the workers interleave and whichever
    calls of the database and of Redis fail: intents have ids of their own,
    every bid, fill and execution is of an intent that is there, every fill
    takes a positive quantity and at most what its bid offers; and no intent
    disappears.  The foreign keys give this for bids only. *)
Theorem rows_stay_well_formed w w' :
  steps w w' → well_formed (rows (Pipeline.db w)) → unsettled (rows (Pipeline.db w)) →
  well_formed (rows (Pipeline.db w')) ∧ ids (intents (Pipeline.db w)) ⊆ ids (intents (Pipeline.db w')).
Proof.
  intros Hs Hw Hu. pose proof (good_start _ Hw Hu) as Hg.
  destruct (steps_in_order _ _ _ _ _ Hs Hg) as [W _ _ _ K]. by split.
Qed.

(** C4: trading moves no money.  However far the platform runs from tables in which
    nothing has been settled, every fill it has made is still unsettled, the
    ledger is what it was, and every account has as much of every asset as it
    had, counting what is locked: the requests of the execution engine name the
    nil seller, the settlement of such a request rolls back, and retrying a
    fill only counts the attempt. *)
Theorem no_money_changes_hands w w' :
  steps w w' → well_formed (rows (Pipeline.db w)) → unsettled (rows (Pipeline.db w)) →
  holdings (balances (Pipeline.db w')) = holdings (balances (Pipeline.db w)) ∧
  ledger_entries (Pipeline.db w') = ledger_entries (Pipeline.db w) ∧
  ∀ f, f ∈ fills (Pipeline.db w') → f_settled f = false.
Proof.
  intros Hs Hw Hu. pose proof (good_start _ Hw Hu) as Hg.
  destruct (steps_in_order _ _ _ _ _ Hs Hg) as [_ [F _ _ _ _] Hh Hl _]. by split_and!.
Qed.
End platform.

(** ** A day of trading: one order, from its creation to the failed settlement *)
Module PipelineExample.
#[local] Existing Instances DecimalUuid.instance plain_errors plain_floats.
#[local] Instance bigints : NumericDecode := {| numeric_as_i64 := Some |}.
#[local] Abbreviation step := (Pipeline.step defaults true 10).

Definition opening : Pipeline.World := Pipeline.mkWorld trading_env 0 0 [] [] [].
Definition order : Call := CallCreate "7" alice "usdc" "ETH" 100 0 500.
Definition order_id : Uuid := i_id new_intent.
Definition offer : Call := CallBid order_id "s1" 60 2.
Definition wait (d : Z) (w : Pipeline.World) : Pipeline.World :=
  Pipeline.with_env (mkEnv (Pipeline.db w) [] (env_uuid (Pipeline.w_env w)) (env_drawn (Pipeline.w_env w))
    (env_now (Pipeline.w_env w) + d)) w.
Definition listen (f : Pipeline.World → option Pipeline.World) (w : Pipeline.World) : Pipeline.World := default w (f w).
Definition heard := listen Pipeline.receive_execution.

(** The worlds of the day, one after the other. *)
Definition created : Pipeline.World := Pipeline.run (Pipeline.perform defaults true order) opening.
Definition started : Pipeline.World := listen Pipeline.receive_auction created.
Definition bidding : Pipeline.World := Pipeline.opened 10 [] order_id started.
Definition offered : Pipeline.World := Pipeline.run (Pipeline.perform defaults true offer) bidding.
Definition auctioned : Pipeline.World := wait 10 offered.
Definition closed : Pipeline.World := Pipeline.closed [] order_id auctioned.
Definition matched : Pipeline.World := heard (heard (heard (heard closed))).
Definition after_execution : Pipeline.World := Pipeline.executed [] order_id matched.
Definition request : ExecutionCompletedEvent :=
  match last (stream_bus (Pipeline.db after_execution)) with
  | Some (StreamExecutionCompleted ev) => ev
  | _ => WorkersCorrect.request
  end.
Definition rejected : Pipeline.World :=
  wait 3600 (Pipeline.run (Worker.process_event (E := unit) 5 (Some request)) after_execution).
Definition closing : Pipeline.World := Pipeline.run RetryWorker.run_retry_cycle rejected.

Lemma opening_well_formed : well_formed (rows (Pipeline.db opening)).
Proof. split; [constructor|by intros ? ?%not_elem_of_nil..]. Qed.
Lemma opening_unsettled : unsettled (rows (Pipeline.db opening)).
Proof.
  split; simpl; try by intros ? ?%not_elem_of_nil.
  - intros a Ha. apply (elem_of_forallb (λ a, negb (a_id a =? nil_uuid)%N)) in Ha; [|reflexivity].
    by apply negb_true_iff, N.eqb_neq in Ha.
  - intros b Hb. apply (elem_of_forallb (λ b, negb (b_account_id b =? nil_uuid)%N)) in Hb; [|reflexivity].
    by apply negb_true_iff, N.eqb_neq in Hb.
Qed.

Lemma wait_step d w : (0 ≤ d)%Z → step w (wait d w).
Proof. apply Pipeline.p_outside. Qed.
Lemma heard_step w :
  (Pipeline.w_execution_reader w <? length (event_bus (Pipeline.db w)))%nat = true → step w (heard w).
Proof.
  intros [ev Hev]%Nat.ltb_lt%lookup_lt_is_Some_2. apply Pipeline.p_receive_execution.
  unfold heard, listen, Pipeline.receive_execution. rewrite Hev. by destruct ev.
Qed.

Lemma created_step : step opening created.
Proof. apply (Pipeline.p_call _ _ _ _ order). Qed.
Lemma started_step : step created started.
Proof. apply Pipeline.p_receive_auction. vm_compute. reflexivity. Qed.
Lemma bidding_step : step started bidding.
Proof. apply (Pipeline.p_open _ _ _ _ [] order_id []). vm_compute. reflexivity. Qed.
Lemma offered_step : step bidding offered.
Proof. apply (Pipeline.p_call _ _ _ _ offer). Qed.
Lemma auctioned_step : step offered auctioned.
Proof. by apply (wait_step 10). Qed.
Lemma closed_step : step auctioned closed.
Proof.
  apply (Pipeline.p_close _ _ _ _ [] order_id 17 []); [vm_compute; reflexivity|]. vm_compute. discriminate.
Qed.
Lemma matched_steps : rtc step closed matched.
Proof. unfold matched. do 4 (eapply rtc_l; [apply heard_step; vm_compute; reflexivity|]). apply rtc_refl. Qed.
Lemma execution_step : step matched after_execution.
Proof. apply (Pipeline.p_execute _ _ _ _ [] order_id []). vm_compute. reflexivity. Qed.
Lemma rejected_steps : rtc step after_execution rejected.
Proof.
  eapply rtc_l; [apply (Pipeline.p_settle _ _ _ _ 5 request)|by apply rtc_once, wait_step].
  vm_compute. apply list_elem_of_In. simpl. tauto.
Qed.
Lemma closing_step : step rejected closing.
Proof. exact (Pipeline.p_retry defaults true 10 rejected). Qed.

Lemma day_steps : rtc step opening closing.
Proof.
  eapply rtc_l; [exact created_step|]. eapply rtc_l; [exact started_step|]. eapply rtc_l; [exact bidding_step|].
  eapply rtc_l; [exact offered_step|]. eapply rtc_l; [exact auctioned_step|]. eapply rtc_l; [exact closed_step|].
  etrans; [exact matched_steps|]. eapply rtc_l; [exact execution_step|].
  etrans; [exact rejected_steps|]. apply rtc_once. exact closing_step.
Qed.

Lemma rows_stay_well_formed_witness :
  well_formed (rows (Pipeline.db closing)) ∧ map f_filled_qty (fills (Pipeline.db closing)) = [58%Z].
Proof.
  destruct (rows_stay_well_formed defaults true 10 opening closing) as [H _].
  - exact day_steps.
  - exact opening_well_formed.
  - exact opening_unsettled.
  - split; [exact H|vm_compute; reflexivity].
Defined.
Lemma no_money_changes_hands_witness :
  holdings (balances (Pipeline.db closing)) = holdings (balances trading_db) ∧
  map fs_retry_count (failed_settlements (Pipeline.db closing)) = [1%Z].
Proof.
  destruct (no_money_changes_hands defaults true 10 opening closing) as [H _].
  - exact day_steps.
  - exact opening_well_formed.
  - exact opening_unsettled.
  - split; [exact H|vm_compute; reflexivity].
Defined.
End PipelineExample.
