(* ===== verification/Tickets.v ===== *)
(** * What the auctions of the platform add up to

    The creation of an intent is its ticket to one auction.  The ticket is in
    the message on the event bus, then with the task of the auction, before and
    while it waits for bids; the auction that closes spends it.  From this the
    platform of [Pipeline] fills no intent beyond its amount, although closing
    an auction looks neither at earlier fills nor at the status. *)
From stdpp Require Import gmap.
From S2P Require Import Prelude Monad Float64 Triples Model Ledger Balances Settlement Storage Auction Intents.
From S2P Require Import Risk RiskCorrect IntentsCorrect Workers SettlementCorrect WorkersCorrect Pipeline.
Open Scope Z_scope.

(** What the fills take from an intent. *)
Definition filled (id : Uuid) (fs : list Fill) : Z := sum_by f_filled_qty (sql_select (λ f, (f_intent_id f =? id)%N) fs).

(** The intents whose creation a list of messages announces. *)
Definition created_ids (evs : list Event) : list Uuid :=
  omap (λ ev, match ev with IntentCreated i => Some (i_id i) | _ => None end) evs.

(** The tickets: those of [tasks] and those among the messages from the [n]th on. *)
Definition tickets (tasks : list Uuid) (n : nat) (d : CoreDb) : list Uuid := tasks ++ created_ids (drop n (event_bus d)).

Record ticketed (tasks : list Uuid) (n : nat) (d : CoreDb) : Prop := {
  tk_ids : NoDup (ids (intents d));
  tk_balances : wf_balances (balances d);
  tk_no_nil : no_nil_account d;
  tk_orders i : i ∈ intents d → i_order_type i ≠ Stop ∧ i_amount_in i ≤ i64_max;
  tk_reader : (n ≤ length (event_bus d))%nat;
  tk_once : NoDup (tickets tasks n d);
  tk_there id : id ∈ tickets tasks n d → id ∈ ids (intents d);
  tk_fills f : f ∈ fills d → f_intent_id f ∈ ids (intents d) ∧ f_intent_id f ∉ tickets tasks n d;
  tk_within i : i ∈ intents d → filled (i_id i) (fills d) ≤ 0 `max` i_amount_in i;
  tk_amendable i : i ∈ intents d → IntentService.is_amendable (i_status i) = true →
    ∀ f, f ∈ fills d → f_intent_id f ≠ i_id i;
}.
(** .. and the intents [un] are known to be without fills. *)
Definition ticketed_with (un : list Uuid) (tasks : list Uuid) (n : nat) (d : CoreDb) : Prop :=
  ticketed tasks n d ∧ ∀ f, f ∈ fills d → f_intent_id f ∉ un.

(** The tables the tickets are about. *)
Definition ticket_rows (d : CoreDb) : list Account * list Balance * list Intent * list Fill * list Event :=
  (accounts d, balances d, intents d, fills d, event_bus d).

Lemma filled_app id fs fs' : filled id (fs ++ fs') = filled id fs + filled id fs'.
Proof. unfold filled, sql_select. by rewrite List.filter_app, sum_by_app. Qed.
Lemma filled_none id fs : (∀ f, f ∈ fs → f_intent_id f ≠ id) → filled id fs = 0.
Proof.
  intros Hf. unfold filled. replace (sql_select _ fs) with (@nil Fill); [done|].
  induction fs as [|f fs IH]; [done|]. simpl. destruct (N.eqb_spec (f_intent_id f) id) as [E|].
  - exfalso. apply (Hf f); [by left|done].
  - apply IH. intros f' Hf'. apply Hf. by right.
Qed.
Lemma filled_all id fs : (∀ f, f ∈ fs → f_intent_id f = id) → filled id fs = sum_by f_filled_qty fs.
Proof.
  intros Hf. unfold filled. f_equal. induction fs as [|f fs IH]; [done|]. simpl.
  rewrite (Hf f (list_elem_of_here _ _)), N.eqb_refl. f_equal. apply IH. intros f' Hf'. apply Hf. by right.
Qed.
Lemma created_ids_app evs evs' : created_ids (evs ++ evs') = created_ids evs ++ created_ids evs'.
Proof. apply omap_app. Qed.
Lemma tickets_publish tasks n ev d :
  (n ≤ length (event_bus d))%nat →
  tickets tasks n (set_event_bus (event_bus d ++ [ev]) d) = tickets tasks n d ++ created_ids [ev].
Proof. intros Hn. unfold tickets. simpl. by rewrite drop_app_le, created_ids_app, app_assoc by done. Qed.

Section statements.
Context (un : list Uuid) (tasks : list Uuid) (n : nat).
#[local] Abbreviation P := (ticketed_with un tasks n).

Lemma ticketed_rows d d' : ticket_rows d' = ticket_rows d → P d → P d'.
Proof.
  intros Heq [[T1 T2 T3 T4 T5 T6 T7 T8 T9 T10] Hu]. injection Heq as Ea Eb Ei Ef Ee. unfold ticketed_with, tickets in *.
  split; [split|]; unfold tickets; unfold no_nil_account; rewrite ?Ea, ?Eb, ?Ei, ?Ef, ?Ee; done.
Qed.
Lemma keeps_tickets_maintains {A E} (m : M CoreDb A E) : keeps ticket_rows m → maintains P m.
Proof. apply triple_keeps. exact ticketed_rows. Qed.

Lemma ticketed_balances sel da dl t d bs :
  sql_try_update sel (add_to_row da dl t) (balances d) = Some bs → P d → P (set_balances bs d).
Proof.
  intros Hbs [[T1 T2 T3 T4 T5 T6 T7 T8 T9 T10] Hu]. split; [|done]. split; try done.
  - eapply sql_try_update_Some in Hbs; [|apply add_to_row_Some]. subst bs. simpl.
    destruct T2 as [W1 W2]. unfold sql_update.
    split; rewrite map_map; erewrite map_ext; [exact W1| |exact W2|]; intros r; by destruct (sel r).
  - by eapply no_nil_posted; [|apply add_to_row_account|].
Qed.
Lemma balances_maintains {A} sel da dl t (a : A) :
  maintains P (stmt (λ d, bs ← sql_try_update sel (add_to_row da dl t) (balances d); Some (a, set_balances bs d))).
Proof.
  apply triple_stmt. intros d x d' Hd (bs & Hbs & [= <- <-])%bind_Some. split; [|done].
  by eapply ticketed_balances.
Qed.

(** A change of an intent that opens none and leaves the amount alone, or of
    one that is known to be without fills. *)
Definition harmless (r r' : Intent) : Prop :=
  i_id r' = i_id r ∧ (i_order_type r ≠ Stop → i_order_type r' ≠ Stop) ∧
  (i_amount_in r ≤ i64_max → i_amount_in r' ≤ i64_max) ∧
  ((i_amount_in r' = i_amount_in r ∧
    (IntentService.is_amendable (i_status r') = true → IntentService.is_amendable (i_status r) = true)) ∨
   i_id r ∈ un).
Lemma harmless_refl r : harmless r r.
Proof. split_and!; auto. Qed.
Lemma ticketed_intents p f d :
  (∀ r, i_id (f r) = i_id r) → (∀ r, p r = true → harmless r (f r)) → P d →
  P (set_intents (sql_update p f (intents d)) d).
Proof.
  intros Hid Hf [[T1 T2 T3 T4 T5 T6 T7 T8 T9 T10] Hu]. split; [|done].
  pose proof (ids_update p f (intents d) Hid) as E.
  assert (∀ i, i ∈ sql_update p f (intents d) → ∃ r, r ∈ intents d ∧ harmless r i) as Hi.
  { intros i (r & Hr & ->)%elem_of_sql_update. exists r. split; [done|].
    destruct (p r) eqn:Hp; [by apply Hf|apply harmless_refl]. }
  split; simpl; rewrite ?E; try done.
  - intros i (r & Hr & _ & Ht & Ha & _)%Hi. destruct (T4 r Hr). auto.
  - intros i (r & Hr & -> & _ & _ & [[-> _]|Hun])%Hi; [by apply T9|].
    rewrite filled_none; [lia|]. intros f' Hf' Heq. apply (Hu f' Hf'). by rewrite Heq.
  - intros i (r & Hr & -> & _ & _ & [[_ Ham]|Hun])%Hi Hi'; [by apply T10; [|apply Ham]|].
    intros f' Hf' Heq. apply (Hu f' Hf'). by rewrite Heq.
Qed.
Lemma intents_maintains p f :
  (∀ r, i_id (f r) = i_id r) → (∀ r, p r = true → harmless r (f r)) →
  maintains P (exec (λ d, set_intents (sql_update p f (intents d)) d)).
Proof. intros Hid Hf. apply triple_exec. intros d. by apply ticketed_intents. Qed.
Lemma status_maintains p s :
  IntentService.is_amendable s = false →
  maintains P (exec (λ d, set_intents (sql_update p (Engine.with_status s) (intents d)) d)).
Proof.
  intros Hs. apply intents_maintains; [done|]. intros r _. split_and!; try done. left. split; [done|].
  simpl. by rewrite Hs.
Qed.
Lemma unfilled_status_maintains id s :
  id ∈ un → maintains P (exec (λ d, set_intents
    (sql_update (λ r, (i_id r =? id)%N) (Engine.with_status s) (intents d)) d)).
Proof.
  intros Hid. apply intents_maintains; [done|]. intros r Hr%N.eqb_eq. split_and!; try done. right. by rewrite Hr.
Qed.

Lemma publish_exec_maintains ev :
  created_ids [ev] = [] → maintains P (exec (λ d, set_event_bus (event_bus d ++ [ev]) d)).
Proof.
  intros Hev. apply triple_exec. intros d [[T1 T2 T3 T4 T5 T6 T7 T8 T9 T10] Hu]. split; [|done].
  pose proof (tickets_publish tasks n ev d T5) as Ht. rewrite Hev, app_nil_r in Ht.
  split; rewrite ?Ht; try done. simpl. rewrite length_app. lia.
Qed.
Lemma publish_maintains ev : created_ids [ev] = [] → maintains P (EventBus.publish ev).
Proof. intros Hev. by apply triple_map_err, publish_exec_maintains. Qed.
Lemma stream_keeps msg : keeps ticket_rows (StreamBus.publish msg).
Proof. unfold StreamBus.publish. keeps. Qed.
Lemma stream_publish_maintains msg : maintains P (StreamBus.publish msg).
Proof. apply keeps_tickets_maintains, stream_keeps. Qed.
End statements.

#[export] Hint Resolve stream_publish_maintains : maintain.
#[export] Hint Extern 1 (triple _ _ (stmt _)) => apply balances_maintains : maintain.
#[export] Hint Extern 1 (triple _ _ (exec _)) => apply status_maintains; reflexivity : maintain.
#[export] Hint Extern 1 (triple _ _ (EventBus.publish _)) => apply publish_maintains; reflexivity : maintain.

(** ** The operations that neither make nor spend tickets *)
Section operations.
Context `{SqlxDisplay, F64Display, UuidText, NumericDecode}.
Context (config : Settings) (has_cache : bool) (un : list Uuid) (tasks : list Uuid) (n : nat).
#[local] Abbreviation P := (ticketed_with un tasks n).

Lemma ticketed_less un' d : ticketed_with un' tasks n d → un ⊆ un' → P d.
Proof. intros [T Hu] Hs. split; [done|]. intros f Hf Hin. by apply (Hu f Hf), Hs. Qed.

(** What an amendable intent is known by. *)
Definition learnt (o : option Intent) : list Uuid :=
  match o with Some i => if IntentService.is_amendable (i_status i) then i_id i :: un else un | None => un end.
Definition small (o : option Intent) : Prop := ∀ i, o = Some i → i_amount_in i ≤ i64_max.
Lemma learn_intent id d :
  P d → let o := row_of id d in ticketed_with (learnt o) tasks n d ∧ small o ∧ ∀ i, o = Some i → i_id i = id.
Proof.
  intros [T Hu]. cbv zeta. unfold small, row_of. destruct (sql_one _ _) as [i|] eqn:Hi; [|by split_and!; [split|..]].
  apply sql_one_Some in Hi as [Hin Hid%N.eqb_eq]. split_and!.
  - split; [done|]. simpl. destruct (IntentService.is_amendable _) eqn:Ha; [|done].
    intros f Hf [Heq|?]%elem_of_cons; [by eapply (tk_amendable _ _ _ T)|by apply (Hu f)].
  - intros ? [= <-]. by apply (tk_orders _ _ _ T).
  - by intros ? [= <-].
Qed.

Lemma validate_intent_tickets p : maintains P (RiskEngine.validate_intent config has_cache p).
Proof. apply keeps_tickets_maintains, (keeps_via risk_frame _ ticket_rows); [done|apply validate_intent_keeps]. Qed.
Lemma validate_bid_tickets tin tout out fee k : maintains P (RiskEngine.validate_bid config has_cache tin tout out fee k).
Proof. apply keeps_tickets_maintains, (keeps_via risk_frame _ ticket_rows); [done|apply validate_bid_keeps]. Qed.
Lemma get_bids_tickets {E} id : maintains P (Storage.get_bids (E := E) id).
Proof. apply keeps_tickets_maintains. unfold Storage.get_bids. keeps. Qed.
Lemma get_fills_tickets {E} id : maintains P (Storage.get_fills (E := E) id).
Proof. apply keeps_tickets_maintains. unfold Storage.get_fills. keeps. Qed.
Lemma get_intent_tickets {E} id : maintains P (Storage.get_intent (E := E) id).
Proof. apply keeps_tickets_maintains. unfold Storage.get_intent. keeps. Qed.
#[local] Hint Resolve validate_bid_tickets get_bids_tickets get_fills_tickets get_intent_tickets : maintain.

Lemma close_intent_tickets status event id acc :
  IntentService.is_amendable status = false → (∀ i, created_ids [event i] = []) →
  maintains P (IntentService.close_intent status event id acc).
Proof.
  intros Hs He. unfold IntentService.close_intent, IntentService.parse_asset, IntentService.move_balance,
    IntentService.set_status, IntentService.publish. maintain.
  - by apply status_maintains.
  - by apply publish_exec_maintains.
Qed.
Lemma bid_tickets id sid out fee : maintains P (BidService.submit_bid config has_cache id sid out fee).
Proof.
  unfold BidService.submit_bid, SolverBid_new. maintain. apply keeps_tickets_maintains, keeps_stmt. intros d u d' Hd.
  destruct (_ || _); by simplify_eq.
Qed.
Lemma expire_tickets : maintains P IntentExpiry.expire_batch.
Proof.
  unfold IntentExpiry.expire_batch, IntentExpiry.expire_intent, IntentExpiry.expire_tx, IntentExpiry.unlock. maintain.
Qed.
(** No intent is a stop order, so the monitor finds none. *)
Lemma stop_tickets : maintains P StopOrderMonitor.check_stop_orders.
Proof.
  apply (triple_bind _ (λ l, l = [])); [|intros l Hl; rewrite Hl; apply maintains_ret].
  apply triple_query. intros d [T _]. unfold StopOrderMonitor.pending_stops.
  replace (sql_select _ _) with (@nil Intent); [done|]. symmetry.
  destruct (sql_select _ _) as [|i l] eqn:E; [done|]. exfalso.
  assert (i ∈ sql_select StopOrderMonitor.is_pending_stop (intents d)) as Hi by (rewrite E; left).
  apply elem_of_sql_select in Hi as [Hin Hp]. destruct (tk_orders _ _ _ T i Hin) as [Hns _]. apply Hns.
  unfold StopOrderMonitor.is_pending_stop in Hp. by destruct (i_order_type i).
Qed.
Lemma execute_tickets id : maintains P (ExecutionEngine.execute_fills id).
Proof.
  unfold ExecutionEngine.execute_fills, ExecutionEngine.resolve_account, Storage.update_intent,
    ExecutionEngine.execute_fill, Execution_new. maintain.
  all: by apply keeps_tickets_maintains, keeps_exec.
Qed.
Lemma process_event_tickets {E} lat ev :
  ev_seller_account_id ev = nil_uuid → maintains P (Worker.process_event (E := E) lat (Some ev)).
Proof.
  intros Hn. unfold Worker.process_event. rewrite Hn.
  destruct (Worker.parse_asset (ev_token_in ev)), (Worker.parse_asset (ev_token_out ev)); [|maintain..].
  eapply triple_bind; [apply triple_attempt, settle_nil_never; intros d [T _]; apply (tk_no_nil _ _ _ T)|]. intros r Hr. simpl in Hr.
  destruct r as [u|x]; [by destruct (Hr u)|]. unfold Worker.update_intent_status, Retry.record_fill_failure. maintain.
  all: try (apply status_maintains; by destruct (_ <=? _)).
  all: apply keeps_tickets_maintains; try by apply keeps_exec.
  all: try (apply keeps_exec; intros d; by destruct (existsb _ _)).
  all: by apply (keeps_via (set_solver_stats []) _ ticket_rows); [|apply failed_fill_frame].
Qed.
Lemma retry_tickets known hs ls :
  maintains (λ d, P d ∧ in_order known hs ls d) RetryWorker.run_retry_cycle.
Proof.
  unfold RetryWorker.run_retry_cycle, RetryWorker.process_retries. apply triple_ignore, maintains_bind; [maintain|]. intros t.
  apply (triple_bind _ (λ l, ∀ s, s ∈ l → is_Some (fs_fill_id s))).
  - apply triple_query. intros d [_ [_ [_ _ _ _ S] _ _ _]] s Hs. apply S.
    apply subseteq_take in Hs. rewrite sort_by_perm in Hs. by apply elem_of_sql_select in Hs as [? _].
  - intros l Hl. apply triple_mfor. intros s Hs. unfold RetryWorker.retry_entry. destruct (Hl s Hs) as [fid ->].
    apply maintains_and; [|apply retry_fill_maintains]. apply keeps_tickets_maintains.
    unfold RetryWorker.retry_fill, RetryWorker.handle_retry_failure, RetryWorker.update_failed, RetryWorker.delete_failed. keeps.
Qed.
End operations.

(** ** The operations that make, hand on and spend tickets *)
Section auctions.
Context `{SqlxDisplay, F64Display, UuidText, NumericDecode}.
Context (config : Settings) (has_cache : bool) (tasks : list Uuid) (n : nat).
#[local] Abbreviation P un := (ticketed_with un tasks n).

Lemma maintains_pure {T A E} (R : T → Prop) (φ : Prop) (m : M T A E) :
  (φ → maintains R m) → maintains (λ t, R t ∧ φ) m.
Proof. intros Hm e [He Hφ]. split; [|done]. split; [by apply Hm|done]. Qed.

Lemma amend_tickets un id acc na nm nl : maintains (P un) (IntentService.amend_intent id acc na nm nl).
Proof.
  unfold IntentService.amend_intent, IntentService.publish. apply maintains_bind.
  2:{ intros _. apply maintains_bind; [apply get_intent_tickets|]. intros o. maintain. }
  apply maintains_transaction.
  apply (maintains_learn _ (λ o d, ticketed_with (learnt un o) tasks n d ∧ small o ∧ ∀ i, o = Some i → i_id i = id)).
  - intros e He. unfold map_err, query, stmt. destruct (faulty e); [done|]. simpl. split; [done|].
    intros o [= <-]. exact (learn_intent un tasks n id _ He).
  - intros o d [Hd _]. eapply ticketed_less; [exact Hd|]. unfold learnt. repeat case_match; set_solver.
  - intros o. apply maintains_pure. intros [Hsmall Hid]. eapply triple_bind; [apply triple_of_option|]. intros i ->.
    specialize (Hsmall i eq_refl). unfold learnt.
    destruct (IntentService.is_amendable (i_status i)) eqn:Ham; [|apply triple_throw].
    unfold IntentService.parse_asset, IntentService.adjust_lock, IntentService.record_amendment,
      IntentService.available_for_update, IntentService.move_balance. maintain.
    all: try by apply keeps_tickets_maintains, keeps_exec.
    rewrite <- (Hid i eq_refl). apply intents_maintains; [done|]. intros r Hr%N.eqb_eq. split_and!; try done.
    + intros _. simpl. destruct na as [k|]; [apply i64_range|done].
    + right. rewrite Hr. by left.
Qed.

(** The ticket of a new intent. *)
Lemma ticketed_create d d' i :
  accounts d' = accounts d → wf_balances (balances d') → map b_key (balances d') = map b_key (balances d) →
  intents d' = intents d ++ [i] → i_id i ∉ ids (intents d) → i_order_type i ≠ Stop → i_amount_in i ≤ i64_max →
  fills d' = fills d →
  (event_bus d' = event_bus d ∨ ∃ i', i_id i' = i_id i ∧ event_bus d' = event_bus d ++ [IntentCreated i']) →
  ticketed tasks n d → ticketed tasks n d'.
Proof.
  intros Ea Wb Eb Ei Hfresh Hstop Hmax Ef Ee [T1 T2 T3 T4 T5 T6 T7 T8 T9 T10].
  assert (ids (intents d') = ids (intents d) ++ [i_id i]) as Eids by (unfold ids; by rewrite Ei, fmap_app).
  assert (tickets tasks n d' = tickets tasks n d ∨ tickets tasks n d' = tickets tasks n d ++ [i_id i]) as Et.
  { unfold tickets. destruct Ee as [->|(i' & <- & ->)]; [by left|right].
    by rewrite drop_app_le, created_ids_app, app_assoc. }
  assert (∀ u, u ∈ tickets tasks n d' → u ∈ tickets tasks n d ∨ u = i_id i) as Hin.
  { intros u. destruct Et as [->| ->]; [by left|]. intros [?|?%list_elem_of_singleton]%elem_of_app; auto. }
  assert (∀ f, f ∈ fills d → f_intent_id f ≠ i_id i) as Hnew.
  { intros f Hf Heq. apply Hfresh. rewrite <- Heq. by apply T8. }
  split; rewrite ?Eids, ?Ef; try done.
  - apply NoDup_app. split_and!; [done| |apply NoDup_singleton]. by intros u Hu ->%list_elem_of_singleton.
  - destruct T3 as [A B]. split; [by rewrite Ea|]. intros b Hb.
    apply (elem_of_map b_key) in Hb. rewrite Eb, list_elem_of_In, in_map_iff in Hb. destruct Hb as (b' & Hk & Hb').
    unfold b_key in Hk. injection Hk as <- _. apply B. by apply list_elem_of_In.
  - intros r. rewrite Ei. intros [Hr| ->%list_elem_of_singleton]%elem_of_app; [by apply T4|done].
  - destruct Ee as [->|(i' & _ & ->)]; [done|]. rewrite length_app. lia.
  - destruct Et as [->| ->]; [done|]. apply NoDup_app. split_and!; [done| |apply NoDup_singleton].
    intros u Hu ->%list_elem_of_singleton. by apply Hfresh, T7.
  - intros u [Hu| ->]%Hin; apply elem_of_app; [left; by apply T7|right; by left].
  - intros f Hf. destruct (T8 f Hf) as [Hf1 Hf2]. split; [apply elem_of_app; by left|].
    intros [?|Heq]%Hin; [done|]. by apply (Hnew f).
  - intros r. rewrite Ei. intros [Hr| ->%list_elem_of_singleton]%elem_of_app; [by apply T9|].
    rewrite filled_none; [lia|done].
  - intros r. rewrite Ei. intros [Hr| ->%list_elem_of_singleton]%elem_of_app; [by apply T10|done].
Qed.

Lemma create_tickets uid acc tin tout ain mout dl :
  maintains (P []) (IntentService.create_intent config has_cache uid acc tin tout ain mout dl).
Proof.
  intros e [T Hu]. split; [|done].
  destruct (IntentService.create_intent config has_cache uid acc tin tout ain mout dl e) as [r e'] eqn:Hrun. simpl.
  apply create_intent_created in Hrun; [|apply (tk_balances _ _ _ T)].
  inversion Hrun as [x Hf _|a i r' _ Hreq [_ Hp Hk Hfr Hi Hframe] Hend]; subst.
  { apply (ticketed_rows _ _ _ (env_db e)); [exact (f_equal ticket_rows Hf)|by split]. }
  simpl in *. split; [|intros f _; apply not_elem_of_nil].
  eapply (ticketed_create (env_db e) (env_db e') (stored i)); try done.
  - exact (f_equal accounts Hframe).
  - apply (posts_wf _ _ _ Hp), (tk_balances _ _ _ T).
  - intros (r' & Heq & Hr')%list_elem_of_fmap. by apply (Hfr r').
  - simpl. destruct Hreq as (_ & _ & _ & -> & _). apply i64_range.
  - exact (f_equal fills Hframe).
  - destruct r as [i'|x]; [destruct Hend as [-> Hb]; right; by exists i|left; apply Hend].
Qed.

(** The auction of a ticket opens. *)
Lemma open_unfilled id : maintains (P [id]) (Auction.open_auction id).
Proof.
  unfold Auction.open_auction, Storage.update_intent.
  apply (triple_bind _ (λ o, ∀ i, o = Some i → i_id i = id)).
  - intros e He. split; [by apply get_intent_tickets|]. intros o Ho.
    destruct (Storage.get_intent id e) as [o' e'] eqn:Hg. simpl in Ho. subst o'.
    apply get_intent_Ok in Hg as [_ [->| ->]]; [|done]. by destruct (learn_intent _ _ _ id _ He) as (_ & _ & Hi).
  - intros o Ho. maintain. simpl. rewrite (Ho i eq_refl). apply unfilled_status_maintains. by left.
Qed.
Lemma open_tickets id : id ∈ tasks → maintains (P []) (Auction.open_auction id).
Proof.
  intros Hid e [T _]. split; [|done]. apply (ticketed_less [] _ _ [id]); [|set_solver]. apply open_unfilled.
  split; [done|]. intros f Hf Heq%list_elem_of_singleton. destruct (tk_fills _ _ _ T f Hf) as [_ Hn].
  apply Hn, elem_of_app. left. by rewrite Heq.
Qed.

(** Tickets may be handed on .. *)
Lemma ticketed_handed tasks' n' d :
  tickets tasks' n' d ≡ₚ tickets tasks n d → (n' ≤ length (event_bus d))%nat → ticketed tasks n d → ticketed tasks' n' d.
Proof.
  intros Ht Hn [T1 T2 T3 T4 T5 T6 T7 T8 T9 T10]. split; try done.
  - by rewrite Ht.
  - intros u. rewrite Ht. apply T7.
  - intros f Hf. rewrite Ht. by apply T8.
Qed.
(** .. and lost. *)
Lemma ticketed_lost id d : ticketed (id :: tasks) n d → ticketed tasks n d.
Proof.
  intros [T1 T2 T3 T4 T5 T6 T7 T8 T9 T10]. unfold tickets in *. simpl in *. split; try done.
  - by apply NoDup_cons in T6 as [_ ?].
  - intros u Hu. apply T7. by right.
  - intros f Hf. destruct (T8 f Hf) as [? Hn]. split; [done|]. intros Hu. apply Hn. by right.
Qed.

(** What closing an auction adds to the bus creates nothing. *)
Lemma close_publishes q id :
  maintains (λ d, (n ≤ length (event_bus d))%nat ∧ created_ids (drop n (event_bus d)) = q) (Auction.close_auction id).
Proof.
  assert (∀ ev, created_ids [ev] = [] →
    maintains (λ d, (n ≤ length (event_bus d))%nat ∧ created_ids (drop n (event_bus d)) = q) (EventBus.publish ev)) as He.
  { intros ev Hev. apply triple_map_err, triple_exec. intros d [Hn Hq]. simpl.
    rewrite length_app, drop_app_le, created_ids_app, Hev, app_nil_r by done. split; [lia|done]. }
  assert (∀ A E (m : M CoreDb A E), keeps event_bus m →
    maintains (λ d, (n ≤ length (event_bus d))%nat ∧ created_ids (drop n (event_bus d)) = q) m) as Hk.
  { intros A E m. apply triple_keeps. by intros d d' ->. }
  unfold Auction.close_auction. apply maintains_bind; [apply Hk; unfold Storage.get_intent; keeps|]. intros [i|]; [|maintain].
  unfold Auction.sort_bids_by_price. apply maintains_bind; [apply Hk; unfold Storage.get_bids; keeps|]. intros bs.
  destruct (Auction.filter_bids_for_order_type i bs).
  { apply maintains_bind; [apply Hk; unfold Storage.update_intent; keeps|]. intros _. by apply He. }
  apply maintains_bind; [apply Hk, fill_loop_keeps|]. intros fs.
  apply maintains_bind; [apply Hk; unfold Storage.insert_fill; keeps|]. intros _.
  apply maintains_bind; [apply Hk; unfold Storage.update_intent; keeps|]. intros _.
  destruct fs as [|f fs]; [maintain|]. destruct (List.find _ _); [|maintain]. by apply He.
Qed.

(** A ticket is spent on fills. *)
Lemma ticketed_spent i fs s evs d :
  ticketed (i_id i :: tasks) n d → i ∈ intents d → (∀ f, f ∈ fs → f_intent_id f = i_id i) →
  IntentService.is_amendable s = false → sum_by f_filled_qty fs ≤ 0 `max` i_amount_in i →
  (n ≤ length evs)%nat → created_ids (drop n evs) = created_ids (drop n (event_bus d)) →
  ticketed tasks n (set_event_bus evs (set_fills (fills d ++ fs) (set_intents
    (sql_update (λ r, (i_id r =? i_id i)%N) (Engine.with_status s) (intents d)) d))).
Proof.
  intros T Hini Hids Hs Hsum Hn Hbus. pose proof (ticketed_lost _ _ T) as [T1 T2 T3 T4 _ T6 T7 T8 T9 T10].
  assert (∀ f, f ∈ fills d → f_intent_id f ≠ i_id i) as Hnone.
  { intros f Hfi Heq. destruct (tk_fills _ _ _ T f Hfi) as [_ Hno]. apply Hno. rewrite Heq. by left. }
  assert (i_id i ∉ tickets tasks n d) as Hspent by (pose proof (tk_once _ _ _ T) as Hd; by apply NoDup_cons in Hd as [? _]).
  match goal with |- ticketed _ _ ?d' => assert (tickets tasks n d' = tickets tasks n d) as Et
    by (unfold tickets; simpl; by rewrite Hbus) end.
  assert (∀ r, r ∈ sql_update (λ r, (i_id r =? i_id i)%N) (Engine.with_status s) (intents d) →
    (r ∈ intents d ∧ i_id r ≠ i_id i) ∨ r = Engine.with_status s i) as Hr.
  { intros r (r0 & Hr0 & ->)%elem_of_sql_update. destruct (N.eqb_spec (i_id r0) (i_id i)) as [E|]; [right|by left].
    f_equal. by apply (NoDup_map_inj i_id (intents d)). }
  split; rewrite ?Et; simpl; rewrite ?ids_update by done; try done.
  - intros r [[Hr1 _]| ->]%Hr; [by apply T4|by apply (T4 i)].
  - intros f [Hf|Hf]%elem_of_app; [by apply T8|]. rewrite (Hids f Hf). split; [by apply list_elem_of_fmap_2|done].
  - intros r [[Hr1 Hne]| ->]%Hr; rewrite filled_app.
    + rewrite (filled_none _ fs); [specialize (T9 r Hr1); lia|]. intros f Hf. rewrite (Hids f Hf). congruence.
    + simpl. rewrite filled_none, filled_all by done. lia.
  - intros r [[Hr1 Hne]| ->]%Hr Ha; [|simpl in Ha; by rewrite Hs in Ha].
    intros f [Hf|Hf]%elem_of_app; [by apply T10|]. rewrite (Hids f Hf). congruence.
Qed.

(** The auction closes and its ticket is spent. *)
Lemma close_tickets id e :
  env_faults e = [] → ticketed (id :: tasks) n (env_db e) →
  ticketed tasks n (env_db (snd (Auction.close_auction id e))).
Proof.
  intros Hf T. pose proof (close_publishes (created_ids (drop n (event_bus (env_db e)))) id e
    (conj (tk_reader _ _ _ T) eq_refl)) as [[Hn Hbus] _].
  assert (id ∈ ids (intents (env_db e))) as Hin by (apply (tk_there _ _ _ T); left).
  destruct (sql_one (λ i, (i_id i =? id)%N) (intents (env_db e))) as [i|] eqn:Hi.
  2:{ apply list_elem_of_fmap in Hin as (r & Heq & Hr). eapply sql_one_None in Hi; [|done]. simpl in Hi.
      by rewrite Heq, N.eqb_refl in Hi. }
  destruct (sql_one_Some _ _ _ Hi) as [Hini Hid%N.eqb_eq]. destruct (tk_orders _ _ _ T i Hini) as [_ Hmax].
  destruct (Auction.close_auction_run id i e Hf Hi Hmax) as (fs & Hd & Hsum & _ & Hids).
  revert Hd Hn Hbus. generalize (env_db (snd (Auction.close_auction id e))) as d'. intros d' -> Hn Hbus.
  rewrite <- Hid in T. apply ticketed_spent; try done.
  - unfold verdict. by repeat case_match.
  - rewrite Hsum. lia.
Qed.
End auctions.

(** ** The platform *)
Section platform.
Context `{SqlxDisplay, F64Display, UuidText, NumericDecode}.
Context (config : Settings) (has_cache : bool) (auction_duration_secs : Z).
#[local] Abbreviation step := (Pipeline.step config has_cache auction_duration_secs).

(** Who holds tickets: the auctions that are starting and those that wait for bids. *)
Definition holders (w : Pipeline.World) : list Uuid := Pipeline.w_started w ++ (fst <$> Pipeline.w_open w).
Definition tickets_in_order (w : Pipeline.World) : Prop :=
  ticketed (holders w) (Pipeline.w_auction_reader w) (Pipeline.db w).

(** A step that no outside failure disturbs. *)
Definition calm_step (w w' : Pipeline.World) : Prop := step w w' ∧ env_faults (Pipeline.w_env w) = [].

Lemma run_tickets {A E} (m : M CoreDb A E) w :
  maintains (ticketed_with [] (holders w) (Pipeline.w_auction_reader w)) m →
  tickets_in_order w → tickets_in_order (Pipeline.run m w).
Proof.
  intros Hm Hw. apply (Hm (Pipeline.w_env w)). split; [done|]. intros f _. apply not_elem_of_nil.
Qed.

Lemma perform_tickets tasks n c : maintains (ticketed_with [] tasks n) (Pipeline.perform config has_cache c).
Proof.
  destruct c; apply triple_ignore; [apply create_tickets|apply amend_tickets|by apply close_intent_tickets..|].
  apply bid_tickets.
Qed.

Lemma receive_tickets w w' : Pipeline.receive_auction w = Some w' → tickets_in_order w → tickets_in_order w'.
Proof.
  unfold Pipeline.receive_auction, tickets_in_order. intros Hr Hw.
  destruct (event_bus (Pipeline.db w) !! Pipeline.w_auction_reader w) as [ev|] eqn:Hev; [|done].
  pose proof (lookup_lt_Some _ _ _ Hev) as Hlt. pose proof (drop_S _ _ _ Hev) as Hdrop.
  assert (w' = Pipeline.mkWorld (Pipeline.w_env w) (S (Pipeline.w_auction_reader w)) (Pipeline.w_execution_reader w)
    (Pipeline.w_started w ++ created_ids [ev]) (Pipeline.w_open w) (Pipeline.w_matched w)) as ->.
  { destruct ev; simplify_eq; simpl; by rewrite ?app_nil_r. }
  eapply ticketed_handed; [|exact Hlt|exact Hw]. unfold tickets, holders. simpl.
  change (event_bus _) with (event_bus (Pipeline.db w)). rewrite Hdrop.
  change (created_ids (ev :: ?l)) with (created_ids ([ev] ++ l)). rewrite created_ids_app.
  rewrite <- !app_assoc. f_equiv. rewrite !app_assoc. f_equiv. apply Permutation_app_comm.
Qed.

Lemma close_step_tickets id t l1 l2 w :
  env_faults (Pipeline.w_env w) = [] → Pipeline.w_open w = l1 ++ (id, t) :: l2 → tickets_in_order w →
  tickets_in_order (Pipeline.closed (l1 ++ l2) id w).
Proof.
  unfold tickets_in_order, Pipeline.closed, Pipeline.run. intros Hf Ho Hw.
  assert (ticketed (id :: Pipeline.w_started w ++ (fst <$> l1 ++ l2)) (Pipeline.w_auction_reader w) (Pipeline.db w)) as T.
  { eapply ticketed_handed; [|apply (tk_reader _ _ _ Hw)|exact Hw]. unfold tickets, holders. rewrite Ho.
    rewrite !fmap_app, fmap_cons. apply Permutation_app; [|done]. rewrite !app_assoc. apply Permutation_middle. }
  assert ((Storage.get_bids (E := RedisError) id ;;; Auction.close_auction id) (Pipeline.w_env w) =
    Auction.close_auction id (Pipeline.w_env w)) as Hrun.
  { unfold Storage.get_bids, bind, attempt, query, stmt, faulty. destruct (Pipeline.w_env w). simpl in *. by subst. }
  unfold Pipeline.db, holders. cbn [Pipeline.w_env Pipeline.w_started Pipeline.w_open Pipeline.w_auction_reader Pipeline.with_env].
  rewrite Hrun. by apply close_tickets.
Qed.

Lemma step_tickets known hs ls w w' :
  calm_step w w' → tickets_in_order w → in_order known hs ls (Pipeline.db w) → tickets_in_order w'.
Proof.
  intros [Hs Hf] Hw Hg.
  destruct Hs as [c|w' Hr|w' Hr|l1 id l2 Hl|l1 id t l2 Ho _|l1 id l2 _| | |lat ev Hev| |faults d _].
  - by apply run_tickets; [apply perform_tickets|].
  - by eapply receive_tickets.
  - unfold Pipeline.receive_execution in Hr. destruct (_ !! _) as [[]|]; by simplify_eq.
  - assert (id ∈ holders w) as Hid by (unfold holders; rewrite Hl; set_solver).
    pose proof (open_tickets (holders w) (Pipeline.w_auction_reader w) id Hid (Pipeline.w_env w)
      (conj Hw (λ f _, not_elem_of_nil _))) as [[T _] _].
    unfold Pipeline.opened, tickets_in_order, holders. unfold holders in T. rewrite Hl in T.
    destruct (Auction.open_auction id (Pipeline.w_env w)) as [[u|x] e]; simpl in *.
    + eapply ticketed_handed; [|apply (tk_reader _ _ _ T)|exact T]. unfold tickets. rewrite fmap_app. simpl.
      apply Permutation_app; [|done]. by rewrite (app_assoc (l1 ++ l2)), <- Permutation_cons_append, <- Permutation_middle.
    + apply (ticketed_lost _ _ id). eapply ticketed_handed; [|apply (tk_reader _ _ _ T)|exact T]. unfold tickets.
      apply Permutation_app; [|done]. apply (Permutation_app (l := id :: l1 ++ l2)); [apply Permutation_middle|done].
  - by eapply close_step_tickets.
  - apply (run_tickets (ExecutionEngine.execute_fills id) w); [apply execute_tickets|done].
  - apply run_tickets; [apply triple_ignore, expire_tickets|done].
  - apply run_tickets; [apply triple_ignore, stop_tickets|done].
  - apply run_tickets; [apply process_event_tickets|done]. destruct Hg as [_ [_ _ _ R _] _ _ _]. by apply R.
  - assert (ticketed_with [] (holders w) (Pipeline.w_auction_reader w) (Pipeline.db w)) as He
      by (split; [done|intros f _; apply not_elem_of_nil]).
    by apply (retry_tickets [] (holders w) (Pipeline.w_auction_reader w) known hs ls _ (conj He Hg)).
  - done.
Qed.

(** A platform that opens: accounts and balances, but nothing has been traded. *)
Record fresh (w : Pipeline.World) : Prop := {
  fr_intents : intents (Pipeline.db w) = [];
  fr_bids : bids (Pipeline.db w) = [];
  fr_fills : fills (Pipeline.db w) = [];
  fr_executions : executions (Pipeline.db w) = [];
  fr_failed : failed_settlements (Pipeline.db w) = [];
  fr_bus : event_bus (Pipeline.db w) = [];
  fr_stream : stream_bus (Pipeline.db w) = [];
  fr_balances : wf_balances (balances (Pipeline.db w));
  fr_no_nil : no_nil_account (Pipeline.db w);
  fr_engines : Pipeline.w_auction_reader w = 0%nat ∧ Pipeline.w_started w = [] ∧ Pipeline.w_open w = [];
}.
Lemma fresh_in_order w :
  fresh w → tickets_in_order w ∧
  in_order [] (holdings (balances (Pipeline.db w))) (ledger_entries (Pipeline.db w)) (Pipeline.db w).
Proof.
  intros [Ei Eb Ef Ex Es Ee Et W [N1 N2] (Er & Ew & Eo)]. split.
  - unfold tickets_in_order, holders. rewrite Er, Ew, Eo. split; unfold tickets; rewrite ?Ei, ?Ef, ?Ee; simpl;
      try done; try (by constructor); by intros ? ?%not_elem_of_nil.
  - split; [split| |done|done|set_solver]; simpl.
    1-4: unfold ids; rewrite ?Ei, ?Eb, ?Ef, ?Ex; first [by intros ? ?%not_elem_of_nil|by apply NoDup_nil].
    split; simpl; rewrite ?Ef, ?Et, ?Es; try done; by intros ? ?%not_elem_of_nil.
Qed.

End platform.

Module FillsExample.
Import PipelineExample.
#[local] Existing Instances DecimalUuid.instance plain_errors plain_floats PipelineExample.bigints.
Lemma opening_fresh : fresh opening.
Proof. split; try done; [apply sample_inv|]. split; apply opening_unsettled. Qed.

End FillsExample.
